(** * X pipeline: analytics aggregation and data lifecycle

    A shallow embedding of the Python sources

    - [tools/data_manager.py]      (class [DataManager]),
    - [tools/analysis_processor.py] (class [AnalysisProcessor]),
    - [agents/tweet_analysis_agent.py] (class [TweetAnalysisAgent]),

    followed by the properties the specification states about them.

    Conventions of the embedding:
    - Python values that travel through JSON are the inductive [PyVal];
    - [datetime] objects are records of their fields; instants are compared
      through [to_us], the number of microseconds since 0001-01-01;
    - the file system, the clock and the failures of the operating system
      form a [World]; code that touches them lives in the monad [M], whose
      [Raise] outcome is a propagated Python exception;
    - path components that come from a user name are taken as one component
      (handles have no [/] and no glob metacharacter);
    - Python floats are exact rationals ([Q]). *)

From Stdlib Require Import ZArith QArith Ascii String List Lia Bool Sorted.
From stdpp Require Import gmap strings list fin_maps.

Local Set Warnings "-register-all,-clear-no-such-hyp".
Local Close Scope Q_scope.
Local Open Scope string_scope.
Local Open Scope list_scope.
Local Open Scope Z_scope.

(* ===================================================================== *)
(** * Python values *)
(* ===================================================================== *)

(** The values [json.dump] writes and [json.load] reads back. A dict is an
    association list in insertion order; its keys are strings, as in a JSON
    object. *)
Inductive PyVal : Type :=
| PNone
| PBool (b : bool)
| PInt (z : Z)
| PFloat (q : Q)
| PStr (s : string)
| PList (l : list PyVal)
| PDict (d : list (string * PyVal)).

(** [d[k]] and [d.get(k)] on the items of a dict (the last binding of a key
    is never shadowed: the constructors below never repeat a key). *)
Fixpoint dict_lookup (k : string) (d : list (string * PyVal)) : option PyVal :=
  match d with
  | [] => None
  | (k', v) :: d' => if String.eqb k k' then Some v else dict_lookup k d'
  end.

Definition dict_keys (d : list (string * PyVal)) : list string := map fst d.

(** [str(n)] for an integer. *)
Definition digit_char (z : Z) : ascii := ascii_of_nat (Z.to_nat (48 + z)).

Fixpoint str_nat_aux (fuel : nat) (z : Z) (acc : string) : string :=
  match fuel with
  | O => acc
  | S fuel' =>
      let acc' := String (digit_char (z mod 10)) acc in
      if z / 10 =? 0 then acc' else str_nat_aux fuel' (z / 10) acc'
  end.

Definition str_int (z : Z) : string :=
  if z <? 0 then "-" +:+ str_nat_aux (Z.to_nat (- z)) (- z) ""
  else str_nat_aux (S (Z.to_nat z)) z "".

(** [len(l)] as a Python int. *)
Definition len {A} (l : list A) : Z := Z.of_nat (length l).

(* ===================================================================== *)
(** * Strings, paths and glob patterns *)
(* ===================================================================== *)

Definition chars (s : string) : list ascii := list_ascii_of_string s.

Definition starts_with (prefix s : string) : bool :=
  bool_decide (chars prefix `prefix_of` chars s).

Definition ends_with (suffix s : string) : bool :=
  bool_decide (chars suffix `suffix_of` chars s).

(** [fnmatch(name, prefix + "*" + suffix)]: the star takes what lies between
    the two literal parts, which may not overlap. *)
Definition fnmatch_star (prefix suffix name : string) : bool :=
  starts_with prefix name && ends_with suffix name
  && (String.length prefix + String.length suffix <=? String.length name)%nat.

(** A [pathlib.Path] relative to the working directory, as its parts. *)
Definition path := list string.

(** [p / name] *)
Definition child (p : list string) (name : string) : list string := p ++ [name].

(** [p.name] *)
Definition path_name (p : list string) : string := List.last p "".

(** [p.parent] *)
Definition parent (p : list string) : list string := removelast p.

(** [str(p)] *)
Definition path_str (p : list string) : string := String.concat "/" p.

(** [q] lies in the tree rooted at [p] ([p] itself included). *)
Definition under (p q : list string) : bool := bool_decide (p `prefix_of` q).

(* ===================================================================== *)
(** * datetime *)
(* ===================================================================== *)

Record datetime : Type := mk_datetime {
  year : Z; month : Z; day : Z;
  hour : Z; minute : Z; second : Z; microsecond : Z
}.

(** [datetime._is_leap], [_days_before_year], [_days_in_month],
    [_days_before_month] and [_ymd2ord] of the standard library. *)
Definition _is_leap (y : Z) : bool :=
  (y mod 4 =? 0) && (negb (y mod 100 =? 0) || (y mod 400 =? 0)).

Definition _days_before_year (y : Z) : Z :=
  let y1 := y - 1 in y1 * 365 + y1 / 4 - y1 / 100 + y1 / 400.

Definition _DAYS_IN_MONTH (m : Z) : Z :=
  match m with
  | 1 => 31 | 2 => 28 | 3 => 31 | 4 => 30 | 5 => 31 | 6 => 30
  | 7 => 31 | 8 => 31 | 9 => 30 | 10 => 31 | 11 => 30 | 12 => 31
  | _ => 0
  end.

Definition _DAYS_BEFORE_MONTH (m : Z) : Z :=
  match m with
  | 1 => 0 | 2 => 31 | 3 => 59 | 4 => 90 | 5 => 120 | 6 => 151
  | 7 => 181 | 8 => 212 | 9 => 243 | 10 => 273 | 11 => 304 | 12 => 334
  | _ => 0
  end.

Definition _days_in_month (y m : Z) : Z :=
  if (m =? 2) && _is_leap y then 29 else _DAYS_IN_MONTH m.

Definition _days_before_month (y m : Z) : Z :=
  _DAYS_BEFORE_MONTH m + (if (2 <? m) && _is_leap y then 1 else 0).

Definition _ymd2ord (y m d : Z) : Z :=
  _days_before_year y + _days_before_month y m + d.

Definition MINYEAR : Z := 1.
Definition MAXYEAR : Z := 9999.

(** The checks of the [datetime(...)] constructor. *)
Definition valid_datetime (dt : datetime) : bool :=
  (MINYEAR <=? year dt) && (year dt <=? MAXYEAR)
  && (1 <=? month dt) && (month dt <=? 12)
  && (1 <=? day dt) && (day dt <=? _days_in_month (year dt) (month dt))
  && (0 <=? hour dt) && (hour dt <=? 23)
  && (0 <=? minute dt) && (minute dt <=? 59)
  && (0 <=? second dt) && (second dt <=? 59)
  && (0 <=? microsecond dt) && (microsecond dt <=? 999999).

Definition US_PER_DAY : Z := 86400 * 1000000.

(** Microseconds since 0001-01-01T00:00:00 (ordinal 1): the order of naive
    datetimes is the order of these numbers. *)
Definition to_us (dt : datetime) : Z :=
  (_ymd2ord (year dt) (month dt) (day dt) - 1) * US_PER_DAY
  + ((hour dt * 60 + minute dt) * 60 + second dt) * 1000000
  + microsecond dt.

(** [datetime.max] as an instant. *)
Definition MAX_US : Z :=
  to_us (mk_datetime MAXYEAR 12 31 23 59 59 999999).

(** ** strftime *)

Definition pad2 (z : Z) : string :=
  String (digit_char (z / 10)) (String (digit_char (z mod 10)) "").

(** [%Y] as four digits, which is what every platform prints for the years
    from 1000 on; for earlier years the C library decides whether the year
    is padded, and [isoformat] always pads. *)
Definition pad4 (z : Z) : string :=
  String (digit_char (z / 1000))
    (String (digit_char (z / 100 mod 10))
       (String (digit_char (z / 10 mod 10))
          (String (digit_char (z mod 10)) ""))).

Definition pad6 (z : Z) : string :=
  pad2 (z / 10000) +:+ pad2 (z / 100 mod 100) +:+ pad2 (z mod 100).

(** [dt.strftime('%Y-%m-%d')] *)
Definition strftime_date (dt : datetime) : string :=
  pad4 (year dt) +:+ "-" +:+ pad2 (month dt) +:+ "-" +:+ pad2 (day dt).

(** [dt.strftime('%Y%m%d_%H%M%S')] *)
Definition strftime_stamp (dt : datetime) : string :=
  pad4 (year dt) +:+ pad2 (month dt) +:+ pad2 (day dt) +:+ "_"
  +:+ pad2 (hour dt) +:+ pad2 (minute dt) +:+ pad2 (second dt).

(** [dt.isoformat()] *)
Definition isoformat (dt : datetime) : string :=
  strftime_date dt +:+ "T" +:+ pad2 (hour dt) +:+ ":" +:+ pad2 (minute dt)
  +:+ ":" +:+ pad2 (second dt)
  +:+ (if microsecond dt =? 0 then "" else "." +:+ pad6 (microsecond dt)).

(** [dt.date().isoformat()] *)
Definition date_isoformat (dt : datetime) : string := strftime_date dt.

(** ** strptime

    [datetime.strptime] turns the format into a regular expression and
    matches it against the whole string with Python's backtracking matcher,
    ignoring case. The fragment of [re] that the two formats of this
    program need is embedded as it is: alternatives are tried from left to
    right and [\s+] is greedy. *)

Inductive regex : Type :=
| REps
| RChar (p : ascii -> bool)
| RSeq (r1 r2 : regex)
| RAlt (r1 r2 : regex)
| RPlus (p : ascii -> bool)
| RGroup (name : string) (r : regex).

(** What a group matched: the part of [s] that is gone in [rest]. *)
Definition consumed (s rest : string) : string :=
  substring 0 (String.length s - String.length rest) s.

Fixpoint star_match {R} (p : ascii -> bool) (s : string)
    (k : string -> option R) : option R :=
  match s with
  | String c s' =>
      if p c then
        match star_match p s' k with
        | Some x => Some x
        | None => k s
        end
      else k s
  | EmptyString => k s
  end.

Fixpoint rmatch {R} (r : regex) (s : string) (cs : list (string * string))
    (k : string -> list (string * string) -> option R) : option R :=
  match r with
  | REps => k s cs
  | RChar p =>
      match s with
      | String c s' => if p c then k s' cs else None
      | EmptyString => None
      end
  | RSeq r1 r2 => rmatch r1 s cs (fun s' cs' => rmatch r2 s' cs' k)
  | RAlt r1 r2 =>
      match rmatch r1 s cs k with
      | Some x => Some x
      | None => rmatch r2 s cs k
      end
  | RPlus p =>
      match s with
      | String c s' => if p c then star_match p s' (fun r => k r cs) else None
      | EmptyString => None
      end
  | RGroup name r' =>
      rmatch r' s cs (fun s' cs' => k s' ((name, consumed s s') :: cs'))
  end.

Definition code (c : ascii) : nat := nat_of_ascii c.

Definition is_digit (c : ascii) : bool := (48 <=? code c)%nat && (code c <=? 57)%nat.

Definition in_range (lo hi : string) (c : ascii) : bool :=
  match lo, hi with
  | String l _, String h _ => (code l <=? code c)%nat && (code c <=? code h)%nat
  | _, _ => false
  end.

(** [\s] on ASCII text. *)
Definition is_space (c : ascii) : bool :=
  ((9 <=? code c)%nat && (code c <=? 13)%nat)
  || ((28 <=? code c)%nat && (code c <=? 32)%nat).

Definition lower (c : ascii) : ascii :=
  if (65 <=? code c)%nat && (code c <=? 90)%nat then ascii_of_nat (code c + 32) else c.

(** A literal, matched without regard to case. *)
Fixpoint RLit (s : string) : regex :=
  match s with
  | EmptyString => REps
  | String c s' => RSeq (RChar (fun x => Ascii.eqb (lower x) (lower c))) (RLit s')
  end.

Fixpoint RAlts (rs : list regex) : regex :=
  match rs with
  | [] => RChar (fun _ => false)
  | [r] => r
  | r :: rs' => RAlt r (RAlts rs')
  end.

Definition Rd : regex := RChar is_digit.
Definition Rr (lo hi : string) : regex := RChar (in_range lo hi).
Definition Rws : regex := RPlus is_space.

Fixpoint RSeqs (rs : list regex) : regex :=
  match rs with
  | [] => REps
  | [r] => r
  | r :: rs' => RSeq r (RSeqs rs')
  end.

(** The entries of [_strptime.TimeRE] (C locale). *)
Definition re_Y : regex := RGroup "Y" (RSeqs [Rd; Rd; Rd; Rd]).
Definition re_m : regex :=
  RGroup "m" (RAlts [RSeq (RLit "1") (Rr "0" "2"); RSeq (RLit "0") (Rr "1" "9"); Rr "1" "9"]).
Definition re_d : regex :=
  RGroup "d" (RAlts [RSeq (RLit "3") (Rr "0" "1"); RSeq (Rr "1" "2") Rd;
                     RSeq (RLit "0") (Rr "1" "9"); Rr "1" "9"; RSeq (RLit " ") (Rr "1" "9")]).
Definition re_H : regex :=
  RGroup "H" (RAlts [RSeq (RLit "2") (Rr "0" "3"); RSeq (Rr "0" "1") Rd; Rd]).
Definition re_M : regex := RGroup "M" (RAlts [RSeq (Rr "0" "5") Rd; Rd]).
Definition re_S : regex :=
  RGroup "S" (RAlts [RSeq (RLit "6") (Rr "0" "1"); RSeq (Rr "0" "5") Rd; Rd]).

Definition a_weekday : list string :=
  ["mon"; "tue"; "wed"; "thu"; "fri"; "sat"; "sun"].
Definition a_month : list string :=
  ["jan"; "feb"; "mar"; "apr"; "may"; "jun"; "jul"; "aug"; "sep"; "oct"; "nov"; "dec"].

Definition re_a : regex := RGroup "a" (RAlts (map RLit a_weekday)).
Definition re_b : regex := RGroup "b" (RAlts (map RLit a_month)).

(** [found = format_regex.match(data_string)], then the check that no
    unconverted data remains. *)
Definition match_format (r : regex) (s : string) : option (list (string * string)) :=
  match rmatch r s [] (fun rest cs => Some (rest, cs)) with
  | Some (EmptyString, cs) => Some cs
  | _ => None
  end.

Fixpoint group (name : string) (cs : list (string * string)) : string :=
  match cs with
  | [] => ""
  | (n, v) :: cs' => if String.eqb n name then v else group name cs'
  end.

(** [int(s)] on the text of a numeric group (blanks around it dropped). *)
Fixpoint int_of_digits (s : string) (acc : Z) : Z :=
  match s with
  | EmptyString => acc
  | String c s' =>
      if is_digit c then int_of_digits s' (acc * 10 + (Z.of_nat (code c) - 48))
      else int_of_digits s' acc
  end.

Definition int_group (name : string) (cs : list (string * string)) : Z :=
  int_of_digits (group name cs) 0.

Fixpoint index_of (x : string) (l : list string) (i : Z) : Z :=
  match l with
  | [] => 0
  | y :: l' => if String.eqb x y then i else index_of x l' (i + 1)
  end.

Definition lower_str (s : string) : string :=
  string_of_list_ascii (map lower (list_ascii_of_string s)).

(** The datetime built from the fields; [None] is the [ValueError] of the
    constructor. *)
Definition make_datetime (y m d hh mm ss : Z) : option datetime :=
  let dt := mk_datetime y m d hh mm ss 0 in
  if valid_datetime dt then Some dt else None.

(** [datetime.strptime(s, '%Y-%m-%d')]; [None] is [ValueError]. *)
Definition strptime_ymd (s : string) : option datetime :=
  match match_format (RSeqs [re_Y; RLit "-"; re_m; RLit "-"; re_d]) s with
  | Some cs => make_datetime (int_group "Y" cs) (int_group "m" cs) (int_group "d" cs) 0 0 0
  | None => None
  end.

(** [datetime.strptime(s, '%a %b %d %H:%M:%S +0000 %Y')]; [None] is
    [ValueError]. The weekday is matched and not checked against the date. *)
Definition strptime_created_at (s : string) : option datetime :=
  match match_format
          (RSeqs [re_a; Rws; re_b; Rws; re_d; Rws; re_H; RLit ":"; re_M;
                  RLit ":"; re_S; Rws; RLit "+0000"; Rws; re_Y]) s with
  | Some cs =>
      make_datetime (int_group "Y" cs)
        (index_of (lower_str (group "b" cs)) a_month 1)
        (int_group "d" cs) (int_group "H" cs) (int_group "M" cs) (int_group "S" cs)
  | None => None
  end.


(** [datetime._ord2ymd] and the datetime of an instant, for [isoformat] of a
    computed datetime. *)
Definition _ord2ymd (ordinal : Z) : Z * Z * Z :=
  let n := ordinal - 1 in
  let n400 := n / 146097 in let n := n mod 146097 in
  let y := n400 * 400 + 1 in
  let n100 := n / 36524 in let n := n mod 36524 in
  let n4 := n / 1461 in let n := n mod 1461 in
  let n1 := n / 365 in let n := n mod 365 in
  let y := y + n100 * 100 + n4 * 4 + n1 in
  if (n1 =? 4) || (n100 =? 4) then (y - 1, 12, 31)
  else
    let leapyear := (n1 =? 3) && (negb (n4 =? 24) || (n100 =? 3)) in
    let m := Z.shiftr (n + 50) 5 in
    let preceding := _DAYS_BEFORE_MONTH m + (if (2 <? m) && leapyear then 1 else 0) in
    if n <? preceding then
      let m' := m - 1 in
      let preceding' :=
        preceding - (_DAYS_IN_MONTH m' + (if (m' =? 2) && leapyear then 1 else 0)) in
      (y, m', n - preceding' + 1)
    else (y, m, n - preceding + 1).

Definition from_us (us : Z) : datetime :=
  let days := us / US_PER_DAY in
  let rem := us mod US_PER_DAY in
  let '(y, m, d) := _ord2ymd (days + 1) in
  let secs := rem / 1000000 in
  mk_datetime y m d (secs / 3600) (secs / 60 mod 60) (secs mod 60) (rem mod 1000000).

(* ===================================================================== *)
(** * The world: file system, clock, failures *)
(* ===================================================================== *)

(** What a file holds: a complete JSON document, the beginning of one (a
    write that stopped partway: the closing bracket of the top-level list or
    object is missing, so it does not parse), or something that is not JSON. *)
Inductive FileContent : Type :=
| Json (v : PyVal)
| Torn (v : PyVal)
| Blob (s : string).

(** A node of the tree with its modification time ([st_mtime], as an
    instant in microseconds). *)
Inductive Node : Type :=
| File (mtime : Z) (content : FileContent)
| Dir (mtime : Z).

(** The system calls that can fail for reasons outside the tree (permissions,
    a full disk, an I/O error). *)
Inductive IoOp : Type :=
| OpMkdir (p : list string)
| OpOpen (p : list string)
| OpWrite (p : list string)
| OpRead (p : list string)
| OpStat (p : list string)
| OpUnlink (p : list string)
| OpRmtree (p : list string)
| OpListdir (p : list string)
| OpCopy (p : list string).

Inductive Exn : Type :=
| FileNotFoundError (p : list string)
| FileExistsError (p : list string)
| NotADirectoryError (p : list string)
| IsADirectoryError (p : list string)
| OSError (op : IoOp)
| JSONDecodeError (p : list string)
| TypeError (msg : string)
| KeyError (k : string)
| IndexError
| AttributeError (msg : string)
| UnboundLocalError (name : string)
| OverflowError
| RuntimeError (msg : string).

Definition op_path (op : IoOp) : list string :=
  match op with
  | OpMkdir p | OpOpen p | OpWrite p | OpRead p | OpStat p
  | OpUnlink p | OpRmtree p | OpListdir p | OpCopy p => p
  end.

(** [str(e)] *)
Definition exn_str (e : Exn) : string :=
  match e with
  | FileNotFoundError p => "[Errno 2] No such file or directory: '" +:+ path_str p +:+ "'"
  | FileExistsError p => "[Errno 17] File exists: '" +:+ path_str p +:+ "'"
  | NotADirectoryError p => "[Errno 20] Not a directory: '" +:+ path_str p +:+ "'"
  | IsADirectoryError p => "[Errno 21] Is a directory: '" +:+ path_str p +:+ "'"
  | OSError op => "[Errno 5] Input/output error: '" +:+ path_str (op_path op) +:+ "'"
  | JSONDecodeError p => "Expecting value: line 1 column 1 (char 0)"
  | TypeError msg => msg
  | KeyError k => "'" +:+ k +:+ "'"
  | IndexError => "list index out of range"
  | AttributeError msg => msg
  | UnboundLocalError name =>
      "cannot access local variable '" +:+ name
      +:+ "' where it is not associated with a value"
  | OverflowError => "date value out of range"
  | RuntimeError msg => msg
  end.

(** The tree is a finite map from paths to nodes; the working directory [[]]
    always exists. [clock] is the sequence of values [datetime.now()] will
    return, [ticks] the number of readings taken so far. [io_fault] tells
    which system calls fail. *)
Record World : Type := mk_World {
  fs : gmap (list string) Node;
  clock : nat -> datetime;
  ticks : nat;
  io_fault : IoOp -> bool
}.

Definition set_fs (f : gmap (list string) Node -> gmap (list string) Node)
    (w : World) : World :=
  mk_World (f (fs w)) (clock w) (ticks w) (io_fault w).

Definition tick (w : World) : World :=
  mk_World (fs w) (clock w) (S (ticks w)) (io_fault w).

(** The instant a file written now is stamped with. *)
Definition stamp_us (w : World) : Z := to_us (clock w (ticks w)).

Inductive Outcome (A : Type) : Type :=
| Ok (a : A)
| Raise (e : Exn).
Arguments Ok {A} a.
Arguments Raise {A} e.

(** Computations that read and change the world and may raise. *)
Definition M (A : Type) : Type := World -> Outcome A * World.

Definition ret {A} (a : A) : M A := fun w => (Ok a, w).
Definition raise {A} (e : Exn) : M A := fun w => (Raise e, w).
Definition bind {A B} (m : M A) (k : A -> M B) : M B :=
  fun w => match m w with
           | (Ok a, w') => k a w'
           | (Raise e, w') => (Raise e, w')
           end.

(** [try: m  except Exception as e: h e] *)
Definition try_except {A} (m : M A) (h : Exn -> M A) : M A :=
  fun w => match m w with
           | (Ok a, w') => (Ok a, w')
           | (Raise e, w') => h e w'
           end.

Notation "x <- m ;; k" := (bind m (fun x => k))
  (at level 100, m at next level, right associativity, only parsing).
Notation "m ;;; k" := (bind m (fun _ => k))
  (at level 100, right associativity, only parsing).

(** A [for] loop that threads an accumulator. *)
Fixpoint for_each {A B} (l : list A) (acc : B) (body : B -> A -> M B) : M B :=
  match l with
  | [] => ret acc
  | x :: l' => acc' <- body acc x ;; for_each l' acc' body
  end.

(** [datetime.now()] *)
Definition now : M datetime := fun w => (Ok (clock w (ticks w)), tick w).

Definition get_fs : M (gmap (list string) Node) := fun w => (Ok (fs w), w).

Definition node_at (t : gmap (list string) Node) (p : list string) : option Node :=
  match p with
  | [] => Some (Dir 0)
  | _ => t !! p
  end.

Definition is_dir_in (t : gmap (list string) Node) (p : list string) : bool :=
  match node_at t p with Some (Dir _) => true | _ => false end.

Definition is_file_in (t : gmap (list string) Node) (p : list string) : bool :=
  match node_at t p with Some (File _ _) => true | _ => false end.

Definition exists_in (t : gmap (list string) Node) (p : list string) : bool :=
  match node_at t p with Some _ => true | None => false end.

(** [p.is_dir()], [p.is_file()], [p.exists()] *)
Definition is_dir (p : list string) : M bool := fun w => (Ok (is_dir_in (fs w) p), w).
Definition is_file (p : list string) : M bool := fun w => (Ok (is_file_in (fs w) p), w).
Definition path_exists (p : list string) : M bool := fun w => (Ok (exists_in (fs w) p), w).

(** The entries of directory [d], in the order the system lists them. *)
Definition listdir (t : gmap (list string) Node) (d : list string) : list (list string) :=
  filter (fun p => p <> [] /\ parent p = d) ((map_to_list t).*1).

(** [d.iterdir()] *)
Definition iterdir (d : list string) : M (list (list string)) :=
  fun w =>
    match node_at (fs w) d with
    | None => (Raise (FileNotFoundError d), w)
    | Some (File _ _) => (Raise (NotADirectoryError d), w)
    | Some (Dir _) =>
        if io_fault w (OpListdir d) then (Raise (OSError (OpListdir d)), w)
        else (Ok (listdir (fs w) d), w)
    end.

(** [d.glob(prefix + '*' + suffix)]: the entries of [d] whose name matches;
    a directory that cannot be listed yields nothing. *)
Definition glob_in (t : gmap (list string) Node) (d : list string)
    (prefix suffix : string) : list (list string) :=
  if is_dir_in t d then
    filter (fun p => fnmatch_star prefix suffix (path_name p) = true) (listdir t d)
  else [].

Definition glob (d : list string) (prefix suffix : string) : M (list (list string)) :=
  fun w => (Ok (glob_in (fs w) d prefix suffix), w).

(** [d.rglob('*' + suffix)]: the matching entries anywhere below [d]. *)
Definition rglob_in (t : gmap (list string) Node) (d : list string)
    (suffix : string) : list (list string) :=
  if is_dir_in t d then
    filter (fun p => under d p = true /\ p <> d
                     /\ fnmatch_star "" suffix (path_name p) = true)
           ((map_to_list t).*1)
  else [].

Definition rglob (d : list string) (suffix : string) : M (list (list string)) :=
  fun w => (Ok (rglob_in (fs w) d suffix), w).

(** [p.mkdir(parents=True, exist_ok=True)]: walk down from the working
    directory and create what is missing. [pre] is the part already known
    to be a directory. *)
Fixpoint mkdir_walk (pre rest : list string) : M unit :=
  match rest with
  | [] => ret tt
  | c :: rest' =>
      let p := child pre c in
      fun w =>
        match fs w !! p with
        | Some (Dir _) => mkdir_walk p rest' w
        | Some (File _ _) =>
            (Raise (match rest' with
                    | [] => FileExistsError p
                    | _ => NotADirectoryError p
                    end), w)
        | None =>
            if io_fault w (OpMkdir p) then (Raise (OSError (OpMkdir p)), w)
            else mkdir_walk p rest' (set_fs (insert p (Dir (stamp_us w))) w)
        end
  end.

Definition mkdir_parents (p : list string) : M unit := mkdir_walk [] p.

(** [p.mkdir(exist_ok=True)] *)
Definition mkdir_exist_ok (p : list string) : M unit :=
  fun w =>
    match node_at (fs w) p with
    | Some (Dir _) => (Ok tt, w)
    | Some (File _ _) => (Raise (FileExistsError p), w)
    | None =>
        match node_at (fs w) (parent p) with
        | None => (Raise (FileNotFoundError p), w)
        | Some (File _ _) => (Raise (NotADirectoryError p), w)
        | Some (Dir _) =>
            if io_fault w (OpMkdir p) then (Raise (OSError (OpMkdir p)), w)
            else (Ok tt, set_fs (insert p (Dir (stamp_us w))) w)
        end
    end.

(** [with open(p, 'w') as f: json.dump(v, f)]. Opening creates or empties
    the file at [p] itself; a write that fails partway leaves the beginning
    of the document there. *)
Definition write_json (p : list string) (v : PyVal) : M unit :=
  fun w =>
    match node_at (fs w) (parent p) with
    | None => (Raise (FileNotFoundError p), w)
    | Some (File _ _) => (Raise (NotADirectoryError p), w)
    | Some (Dir _) =>
        match node_at (fs w) p with
        | Some (Dir _) => (Raise (IsADirectoryError p), w)
        | _ =>
            if io_fault w (OpOpen p) then (Raise (OSError (OpOpen p)), w)
            else if io_fault w (OpWrite p) then
              (Raise (OSError (OpWrite p)),
               set_fs (insert p (File (stamp_us w) (Torn v))) w)
            else (Ok tt, set_fs (insert p (File (stamp_us w) (Json v))) w)
        end
    end.

(** [with open(p, 'r') as f: json.load(f)] *)
Definition read_json (p : list string) : M PyVal :=
  fun w =>
    match node_at (fs w) p with
    | None => (Raise (FileNotFoundError p), w)
    | Some (Dir _) => (Raise (IsADirectoryError p), w)
    | Some (File _ c) =>
        if io_fault w (OpRead p) then (Raise (OSError (OpRead p)), w)
        else match c with
             | Json v => (Ok v, w)
             | _ => (Raise (JSONDecodeError p), w)
             end
    end.

(** [p.stat().st_mtime] *)
Definition stat_mtime (p : list string) : M Z :=
  fun w =>
    match node_at (fs w) p with
    | None => (Raise (FileNotFoundError p), w)
    | Some (File t _) | Some (Dir t) =>
        if io_fault w (OpStat p) then (Raise (OSError (OpStat p)), w)
        else (Ok t, w)
    end.

(** [p.unlink()] *)
Definition unlink (p : list string) : M unit :=
  fun w =>
    match node_at (fs w) p with
    | None => (Raise (FileNotFoundError p), w)
    | Some (Dir _) => (Raise (IsADirectoryError p), w)
    | Some (File _ _) =>
        if io_fault w (OpUnlink p) then (Raise (OSError (OpUnlink p)), w)
        else (Ok tt, set_fs (delete p) w)
    end.

(** The tree without [p] and everything below it. *)
Definition remove_tree (p : list string) (t : gmap (list string) Node)
    : gmap (list string) Node :=
  filter (fun kv => under p kv.1 = false) t.

(** [shutil.rmtree(p)]; a removal that fails is taken to remove nothing. *)
Definition rmtree (p : list string) : M unit :=
  fun w =>
    match node_at (fs w) p with
    | None => (Raise (FileNotFoundError p), w)
    | Some (File _ _) => (Raise (NotADirectoryError p), w)
    | Some (Dir _) =>
        if io_fault w (OpRmtree p) then (Raise (OSError (OpRmtree p)), w)
        else (Ok tt, set_fs (remove_tree p) w)
    end.

(** The nodes at and below [src], re-rooted at [dst]. *)
Definition copied_tree (src dst : list string) (t : gmap (list string) Node)
    : gmap (list string) Node :=
  list_to_map
    (omap (fun kv : list string * Node =>
             if under src kv.1 then Some ((dst ++ drop (length src) kv.1)%list, kv.2)
             else None)
          (map_to_list t)).

(** [shutil.copytree(src, dst)]: the destination must not exist. *)
Definition copytree (src dst : list string) : M unit :=
  fun w =>
    match node_at (fs w) dst with
    | Some _ => (Raise (FileExistsError dst), w)
    | None =>
        if io_fault w (OpCopy src) then (Raise (OSError (OpCopy src)), w)
        else (Ok tt, set_fs (fun t => copied_tree src dst t ∪ t) w)
    end.

(** [shutil.copy2(src, dst)] for a regular file [src]: content and
    modification time are copied; a directory at [dst] receives the file. *)
Definition copy2 (src dst : list string) : M unit :=
  fun w =>
    match node_at (fs w) src with
    | Some (File t c) =>
        if io_fault w (OpCopy src) then (Raise (OSError (OpCopy src)), w)
        else
          let target :=
            if is_dir_in (fs w) dst then child dst (path_name src) else dst in
          (Ok tt, set_fs (insert target (File t c)) w)
    | Some (Dir _) => (Raise (IsADirectoryError src), w)
    | None => (Raise (FileNotFoundError src), w)
    end.

(** [max(l, key=key)]: the first element whose key is maximal. *)
Fixpoint py_max_from {A} (key : A -> Z) (best : A) (l : list A) : A :=
  match l with
  | [] => best
  | x :: l' => py_max_from key (if key best <? key x then x else best) l'
  end.

Definition py_max {A} (key : A -> Z) (l : list A) : option A :=
  match l with
  | [] => None
  | x :: l' => Some (py_max_from key x l')
  end.

(** [max(files, key=lambda x: x.stat().st_mtime)] for a non-empty list. *)
Definition latest_by_mtime (files : list (list string)) : M (list string) :=
  keyed <- for_each files []
             (fun acc f => t <- stat_mtime f ;; ret (acc ++ [(f, t)])%list) ;;
  match py_max snd keyed with
  | Some (f, _) => ret f
  | None => raise (RuntimeError "max() arg is an empty sequence")
  end.

(* ===================================================================== *)
(** * tools/data_manager.py: class DataManager *)
(* ===================================================================== *)

(** The dict every operation returns. *)
Abbreviation Dict := (list (string * PyVal)).

(** [x in l] for strings. *)
Definition str_in (x : string) (l : list string) : bool := existsb (String.eqb x) l.

Definition status_success : string * PyVal := ("status", PStr "success").
Definition status_error : string * PyVal := ("status", PStr "error").

Section DataManager.

(** [self.base_dir] *)
Variable base_dir : list string.

(** [DataManager.ensure_directories] *)
Definition ensure_directories : M unit :=
  for_each
    [child base_dir "raw"; child base_dir "analyzed"; child base_dir "processed";
     child base_dir "archived"; child base_dir "backups"; child base_dir "logs";
     child base_dir "insights"; child base_dir "reports"; child base_dir "temp"]
    tt (fun _ directory => mkdir_parents directory).

(** The directory and the file name [store_tweet_data] derives from its two
    clock readings. *)
Definition tweet_dir (d : datetime) (username data_type : string) : list string :=
  if String.eqb data_type "raw"
  then ["output"; strftime_date d; "tweets"; "raw"; username]
  else ["output"; strftime_date d; "tweets"; "analyzed"; username].

Definition artifact_name (t : datetime) (username kind : string) : string :=
  username +:+ "_" +:+ kind +:+ "_" +:+ strftime_stamp t +:+ ".json".

(** [DataManager.store_tweet_data] *)
Definition store_tweet_data (tweets : list PyVal) (username data_type : string)
    : M Dict :=
  try_except
    (match tweets with
     | [] =>
         ret [status_error;
              ("message", PStr ("No tweets to store for " +:+ username))]
     | _ =>
         d <- now ;;
         let dir := tweet_dir d username data_type in
         mkdir_parents dir ;;;
         t <- now ;;
         let filename := artifact_name t username data_type in
         let filepath := child dir filename in
         write_json filepath (PList tweets) ;;;
         ret [status_success;
              ("message", PStr ("Successfully stored " +:+ str_int (len tweets)
                                +:+ " tweets for " +:+ username));
              ("filepath", PStr (path_str filepath));
              ("filename", PStr filename);
              ("data_type", PStr data_type);
              ("tweet_count", PInt (len tweets))]
     end)
    (fun e =>
       ret [status_error;
            ("message", PStr ("Error storing tweet data for " +:+ username
                              +:+ ": " +:+ exn_str e))]).

(** [DataManager.store_analysis_results] *)
Definition store_analysis_results (analysis_data : PyVal) (username : string)
    : M Dict :=
  try_except
    (d <- now ;;
     let dir := ["output"; strftime_date d; "tweets"; "analyzed"; username] in
     mkdir_parents dir ;;;
     t <- now ;;
     let filename := artifact_name t username "analysis" in
     let filepath := child dir filename in
     write_json filepath analysis_data ;;;
     ret [status_success;
          ("message", PStr ("Successfully stored analysis results for " +:+ username));
          ("filepath", PStr (path_str filepath));
          ("filename", PStr filename)])
    (fun e =>
       ret [status_error;
            ("message", PStr ("Error storing analysis results for " +:+ username
                              +:+ ": " +:+ exn_str e))]).

(** [DataManager.store_insights_report] *)
Definition store_insights_report (insights_data : PyVal) (username : string)
    : M Dict :=
  try_except
    (t <- now ;;
     let filename := artifact_name t username "insights" in
     let filepath := child (child base_dir "insights") filename in
     write_json filepath insights_data ;;;
     ret [status_success;
          ("message", PStr ("Successfully stored insights report for " +:+ username));
          ("filepath", PStr (path_str filepath));
          ("filename", PStr filename)])
    (fun e =>
       ret [status_error;
            ("message", PStr ("Error storing insights report for " +:+ username
                              +:+ ": " +:+ exn_str e))]).

(** [DataManager._is_file_old] *)
Definition _is_file_old (file_path : list string) (cutoff : Z) : M bool :=
  try_except
    (file_time <- stat_mtime file_path ;; ret (file_time <? cutoff))
    (fun _ => ret false).

(** [datetime.now() - timedelta(days=days_to_keep)] as an instant;
    both steps raise [OverflowError] out of range. *)
Definition cutoff_of (n : datetime) (days_to_keep : Z) : M Z :=
  if (days_to_keep <? -999999999) || (999999999 <? days_to_keep)
  then raise OverflowError
  else
    let c := to_us n - days_to_keep * US_PER_DAY in
    if (c <? 0) || (MAX_US <? c) then raise OverflowError else ret c.

Definition reserved_dirs : list string := ["archived"; "backups"; "logs"].

(** One turn of the first loop of [cleanup_old_data]. *)
Definition sweep_date_dir (cutoff : Z) (deleted_files : list string)
    (date_dir : list string) : M (list string) :=
  isd <- is_dir date_dir ;;
  if isd && negb (str_in (path_name date_dir) reserved_dirs) then
    match strptime_ymd (path_name date_dir) with
    | Some dir_date =>
        if to_us dir_date <? cutoff then
          rmtree date_dir ;;;
          ret (deleted_files ++ [path_name date_dir])%list
        else ret deleted_files
    | None => ret deleted_files
    end
  else ret deleted_files.

(** One turn of the inner loop over the loose files of a directory. *)
Definition sweep_loose_file (cutoff : Z) (deleted_files : list string)
    (file : list string) : M (list string) :=
  old <- _is_file_old file cutoff ;;
  if old then
    unlink file ;;;
    ret (deleted_files ++ [path_str file])%list
  else ret deleted_files.

Definition loose_dirs : list string := ["raw"; "analyzed"; "processed"; "temp"].

Definition sweep_subdir (cutoff : Z) (deleted_files : list string)
    (subdir : string) : M (list string) :=
  let subdir_path := child base_dir subdir in
  ex <- path_exists subdir_path ;;
  if ex then
    files <- glob subdir_path "" ".json" ;;
    for_each files deleted_files (sweep_loose_file cutoff)
  else ret deleted_files.

(** The body of the [try] of [cleanup_old_data], up to the list of
    removed entries. *)
Definition cleanup_sweep (days_to_keep : Z) : M (Z * list string) :=
  n <- now ;;
  cutoff <- cutoff_of n days_to_keep ;;
  entries <- iterdir base_dir ;;
  deleted_files <- for_each entries [] (sweep_date_dir cutoff) ;;
  deleted_files <- for_each loose_dirs deleted_files (sweep_subdir cutoff) ;;
  ret (cutoff, deleted_files).

(** [DataManager.cleanup_old_data] *)
Definition cleanup_old_data (days_to_keep : Z) : M Dict :=
  try_except
    (r <- cleanup_sweep days_to_keep ;;
     ret [status_success;
          ("message", PStr ("Cleaned up data older than " +:+ str_int days_to_keep
                            +:+ " days"));
          ("deleted_files", PList (map PStr r.2));
          ("cutoff_date", PStr (isoformat (from_us r.1)))])
    (fun e => ret [status_error; ("message", PStr (exn_str e))]).

(** [DataManager.create_backup] *)
Definition create_backup (backup_name : option string) : M Dict :=
  try_except
    (name <- match backup_name with
             | None => n <- now ;; ret ("backup_" +:+ strftime_stamp n)
             | Some s => ret s
             end ;;
     let backup_dir := child (child base_dir "backups") name in
     mkdir_parents backup_dir ;;;
     items <- iterdir base_dir ;;
     for_each items tt
       (fun _ item =>
          isd <- is_dir item ;;
          if isd && negb (str_in (path_name item) ["backups"; "archived"; "logs"])
          then copytree item (child backup_dir (path_name item))
          else
            isf <- is_file item ;;
            if isf then copy2 item (child backup_dir (path_name item))
            else ret tt) ;;;
     ret [status_success;
          ("message", PStr ("Created backup: " +:+ name));
          ("backup_path", PStr (path_str backup_dir))])
    (fun e => ret [status_error; ("message", PStr (exn_str e))]).

(** [DataManager.validate_data_integrity] *)
Definition validate_data_integrity : M Dict :=
  try_except
    (files <- rglob base_dir ".json" ;;
     r <- for_each files (0, [], [])
            (fun '(total_files, valid_files, invalid_files) json_file =>
               try_except
                 (read_json json_file ;;;
                  ret (total_files + 1,
                       (valid_files ++ [PStr (path_str json_file)])%list,
                       invalid_files))
                 (fun e =>
                    ret (total_files + 1, valid_files,
                         (invalid_files ++
                            [PDict [("file", PStr (path_str json_file));
                                    ("error", PStr (exn_str e))]])%list))) ;;
     let '(total_files, valid_files, invalid_files) := r in
     ret [status_success;
          ("validation_results",
           PDict [("valid_files", PList valid_files);
                  ("invalid_files", PList invalid_files);
                  ("total_files", PInt total_files)])])
    (fun e => ret [status_error; ("message", PStr (exn_str e))]).

(** One of the three blocks of [retrieve_user_data]: the latest artifact
    of [kind] under [base_dir/kind], added to [retrieved_data]. *)
Definition retrieve_kind (kind username : string) (retrieved_data : Dict) : M Dict :=
  files <- glob (child base_dir kind) (username +:+ "_" +:+ kind +:+ "_") ".json" ;;
  match files with
  | [] => ret retrieved_data
  | _ =>
      latest <- latest_by_mtime files ;;
      v <- read_json latest ;;
      ret (retrieved_data ++ [(kind, v)])%list
  end.

(** [DataManager.retrieve_user_data] *)
Definition retrieve_user_data (username data_type : string) : M Dict :=
  try_except
    (retrieved_data <-
       (if str_in data_type ["raw"; "all"]
        then retrieve_kind "raw" username [] else ret []) ;;
     retrieved_data <-
       (if str_in data_type ["analyzed"; "all"]
        then retrieve_kind "analyzed" username retrieved_data
        else ret retrieved_data) ;;
     retrieved_data <-
       (if str_in data_type ["insights"; "all"]
        then retrieve_kind "insights" username retrieved_data
        else ret retrieved_data) ;;
     ret [status_success;
          ("username", PStr username);
          ("data_type", PStr data_type);
          ("data", PDict retrieved_data)])
    (fun e => ret [status_error; ("message", PStr (exn_str e))]).

End DataManager.

(* ===================================================================== *)
(** * Dynamically typed reads *)
(* ===================================================================== *)

Definition obind {A B} (m : Outcome A) (k : A -> Outcome B) : Outcome B :=
  match m with
  | Ok a => k a
  | Raise e => Raise e
  end.

Notation "x <~ m ;; k" := (obind m (fun x => k))
  (at level 100, m at next level, right associativity, only parsing).

(** A computation that does not touch the world. *)
Definition lift {A} (o : Outcome A) : M A := fun w => (o, w).

(** [d.get(k, default)] *)
Definition py_get (d : PyVal) (k : string) (default : PyVal) : Outcome PyVal :=
  match d with
  | PDict items =>
      Ok (match dict_lookup k items with Some v => v | None => default end)
  | _ => Raise (AttributeError "object has no attribute 'get'")
  end.

(** [d[k]] *)
Definition py_getitem (d : PyVal) (k : string) : Outcome PyVal :=
  match d with
  | PDict items =>
      match dict_lookup k items with
      | Some v => Ok v
      | None => Raise (KeyError k)
      end
  | _ => Raise (TypeError "object is not subscriptable")
  end.

Definition py_num (v : PyVal) : option Q :=
  match v with
  | PInt z => Some (inject_Z z)
  | PFloat q => Some q
  | PBool b => Some (inject_Z (if b then 1 else 0))
  | _ => None
  end.

Definition Qlt_bool (x y : Q) : bool := negb (Qle_bool y x).

(** [v < n] and [v > n] for an integer literal [n]. *)
Definition py_lt_int (v : PyVal) (n : Z) : Outcome bool :=
  match py_num v with
  | Some q => Ok (Qlt_bool q (inject_Z n))
  | None => Raise (TypeError "'<' not supported between these instances")
  end.

Definition py_gt_int (v : PyVal) (n : Z) : Outcome bool :=
  match py_num v with
  | Some q => Ok (Qlt_bool (inject_Z n) q)
  | None => Raise (TypeError "'>' not supported between these instances")
  end.

(** [v != "success"] *)
Definition not_success (v : PyVal) : bool :=
  match v with
  | PStr s => negb (String.eqb s "success")
  | _ => true
  end.

(** [bool(v)] *)
Definition truthy (v : PyVal) : bool :=
  match v with
  | PNone => false
  | PBool b => b
  | PInt z => negb (z =? 0)
  | PFloat q => negb (Qeq_bool q 0)
  | PStr s => negb (String.eqb s "")
  | PList l => match l with [] => false | _ => true end
  | PDict d => match d with [] => false | _ => true end
  end.

(** [for x in v]: the items of a list, the keys of a dict, the characters of
    a string. *)
Definition py_iter (v : PyVal) : Outcome (list PyVal) :=
  match v with
  | PList l => Ok l
  | PDict d => Ok (map (fun kv => PStr kv.1) d)
  | PStr s => Ok (map (fun c => PStr (String c "")) (list_ascii_of_string s))
  | _ => Raise (TypeError "object is not iterable")
  end.

(* ===================================================================== *)
(** * tools/analysis_processor.py: class AnalysisProcessor *)
(* ===================================================================== *)

(** The dict [analyze_single_tweet] returns for one tweet, together with
    what the aggregation reads from it, each [.get] default applied:
    [sentiment.overall_sentiment] ('neutral'), [engagement.total_engagement]
    (0), [text_analysis.*_count] (0), [media.has_media] (False) and
    [created_at] (''). The degraded dict [{'error', 'raw_tweet'}] reads as
    all defaults. *)
Record AnalyzedTweet : Type := mk_AnalyzedTweet {
  tweet_json : PyVal;
  overall_sentiment : string;
  total_engagement : Z;
  word_count : Z;
  hashtag_count : Z;
  mention_count : Z;
  has_media : bool;
  created_at : string
}.

(** [d[k] += 1] on a [Counter] or a [defaultdict(int)]: a dict keeps its keys
    in the order of their first insertion. *)
Fixpoint incr {K} `{EqDecision K} (k : K) (d : list (K * Z)) : list (K * Z) :=
  match d with
  | [] => [(k, 1)]
  | (k', n) :: d' =>
      if decide (k = k') then (k', n + 1) :: d' else (k', n) :: incr k d'
  end.

(** [d[k].append(x)] on a [defaultdict(list)]. *)
Fixpoint append_to {K} `{EqDecision K} (k : K) (x : Z) (d : list (K * list Z))
    : list (K * list Z) :=
  match d with
  | [] => [(k, [x])]
  | (k', l) :: d' =>
      if decide (k = k') then (k', (l ++ [x])%list) :: d'
      else (k', l) :: append_to k x d'
  end.

(** [d.get(k, default)] on such a dict. *)
Fixpoint get_default {K V} `{EqDecision K} (k : K) (d : list (K * V)) (default : V) : V :=
  match d with
  | [] => default
  | (k', v) :: d' => if decide (k = k') then v else get_default k d' default
  end.

Definition sum_Z (l : list Z) : Z := fold_left Z.add l 0.

(** [a / b] on integers: a float. *)
Definition true_div (a b : Z) : Q := (inject_Z a / inject_Z b)%Q.

(** [np.mean(l)] for a non-empty list. *)
Definition np_mean (l : list Z) : Q := true_div (sum_Z l) (len l).

(** [sorted(l, key=key, reverse=True)]: decreasing keys, equal keys in their
    original order. *)
Fixpoint insert_desc {A} (key : A -> Z) (x : A) (l : list A) : list A :=
  match l with
  | [] => [x]
  | y :: l' => if key y <? key x then x :: y :: l' else y :: insert_desc key x l'
  end.

Definition sorted_desc {A} (key : A -> Z) (l : list A) : list A :=
  fold_left (fun acc x => insert_desc key x acc) l [].

(** The [sentiment_distribution] counter of [_generate_comprehensive_analysis]. *)
Definition sentiment_distribution (analyzed_tweets : list AnalyzedTweet)
    : list (string * Z) :=
  fold_left (fun d tweet => incr (overall_sentiment tweet) d) analyzed_tweets [].

Definition total_engagement_sum (analyzed_tweets : list AnalyzedTweet) : Z :=
  sum_Z (map total_engagement analyzed_tweets).

Definition avg_engagement (analyzed_tweets : list AnalyzedTweet) : Q :=
  true_div (total_engagement_sum analyzed_tweets) (len analyzed_tweets).

Definition most_engaging (analyzed_tweets : list AnalyzedTweet) : list AnalyzedTweet :=
  take 5 (sorted_desc total_engagement analyzed_tweets).

Definition tweets_with_media (analyzed_tweets : list AnalyzedTweet) : Z :=
  len (List.filter has_media analyzed_tweets).

Definition media_percentage (analyzed_tweets : list AnalyzedTweet) : Q :=
  (true_div (tweets_with_media analyzed_tweets) (len analyzed_tweets) * inject_Z 100)%Q.

(** The two histograms of [_analyze_posting_frequency]: a tweet whose
    [created_at] is empty or does not parse is skipped. *)
Definition posting_counts (tweets : list AnalyzedTweet)
    : list (string * Z) * list (Z * Z) :=
  fold_left
    (fun acc tweet =>
       if String.eqb (created_at tweet) "" then acc
       else match strptime_created_at (created_at tweet) with
            | Some dt => (incr (date_isoformat dt) acc.1, incr (hour dt) acc.2)
            | None => acc
            end)
    tweets ([], []).

Definition date_counts (tweets : list AnalyzedTweet) : list (string * Z) :=
  (posting_counts tweets).1.

Definition hour_counts (tweets : list AnalyzedTweet) : list (Z * Z) :=
  (posting_counts tweets).2.

(** [max(hour_counts.items(), key=lambda x: x[1])[0] if hour_counts else None] *)
Definition most_active_hour (tweets : list AnalyzedTweet) : option Z :=
  option_map fst (py_max snd (hour_counts tweets)).

Definition json_counts (d : list (string * Z)) : PyVal :=
  PDict (map (fun kv => (kv.1, PInt kv.2)) d).

(** [AnalysisProcessor._analyze_posting_frequency]; the hours, which are int
    keys in memory, are written as [json.dump] writes them. *)
Definition _analyze_posting_frequency (tweets : list AnalyzedTweet) : PyVal :=
  PDict [("daily_posts", json_counts (date_counts tweets));
         ("hourly_distribution",
          PDict (map (fun kv => (str_int kv.1, PInt kv.2)) (hour_counts tweets)));
         ("most_active_hour",
          match most_active_hour tweets with Some h => PInt h | None => PNone end)].

(** [d[k] += 1] on a plain dict: [KeyError] ([None]) when [k] is missing. *)
Fixpoint bump (k : string) (d : list (string * Z)) : option (list (string * Z)) :=
  match d with
  | [] => None
  | (k', n) :: d' =>
      if String.eqb k k' then Some ((k', n + 1) :: d')
      else option_map (cons (k', n)) (bump k d')
  end.

(** [sentiment_by_date[date_key][sentiment] += 1] *)
Fixpoint bump_date (date_key sentiment : string)
    (d : list (string * list (string * Z))) : option (list (string * list (string * Z))) :=
  match d with
  | [] =>
      option_map (fun c => [(date_key, c)])
        (bump sentiment [("bullish", 0); ("bearish", 0); ("neutral", 0)])
  | (k, c) :: d' =>
      if String.eqb date_key k then option_map (fun c' => (k, c') :: d') (bump sentiment c)
      else option_map (cons (k, c)) (bump_date date_key sentiment d')
  end.

(** [AnalysisProcessor._analyze_sentiment_trends]: a label outside the three
    counted ones raises [KeyError], and the function then returns [{}]. *)
Definition _analyze_sentiment_trends (tweets : list AnalyzedTweet) : PyVal :=
  match
    fold_left
      (fun acc tweet =>
         match acc with
         | None => None
         | Some d =>
             if String.eqb (created_at tweet) "" then Some d
             else match strptime_created_at (created_at tweet) with
                  | Some dt => bump_date (date_isoformat dt) (overall_sentiment tweet) d
                  | None => Some d
                  end
         end)
      tweets (Some [])
  with
  | Some d => PDict (map (fun kv => (kv.1, json_counts kv.2)) d)
  | None => PDict []
  end.

Definition mean_or_zero (l : list Z) : PyVal :=
  match l with
  | [] => PInt 0
  | _ => PFloat (np_mean l)
  end.

(** [AnalysisProcessor._analyze_engagement_patterns] *)
Definition _analyze_engagement_patterns (tweets : list AnalyzedTweet) : PyVal :=
  let engagement_by_sentiment :=
    fold_left (fun d tweet => append_to (overall_sentiment tweet) (total_engagement tweet) d)
      tweets [] in
  let with_media := map total_engagement (List.filter has_media tweets) in
  let without_media :=
    map total_engagement (List.filter (fun t => negb (has_media t)) tweets) in
  PDict [("by_sentiment",
          PDict (map (fun kv => (kv.1, mean_or_zero kv.2)) engagement_by_sentiment));
         ("by_media",
          PDict [("with_media", mean_or_zero with_media);
                 ("without_media", mean_or_zero without_media)])].

(** The [summary] entry of the analysis. *)
Definition summary_json (analyzed_tweets : list AnalyzedTweet) : PyVal :=
  PDict [("total_tweets", PInt (len analyzed_tweets));
         ("sentiment_distribution", json_counts (sentiment_distribution analyzed_tweets));
         ("total_engagement", PInt (total_engagement_sum analyzed_tweets));
         ("average_engagement", PFloat (avg_engagement analyzed_tweets));
         ("total_words", PInt (sum_Z (map word_count analyzed_tweets)));
         ("total_hashtags", PInt (sum_Z (map hashtag_count analyzed_tweets)));
         ("total_mentions", PInt (sum_Z (map mention_count analyzed_tweets)));
         ("tweets_with_media", PInt (tweets_with_media analyzed_tweets));
         ("media_percentage", PFloat (media_percentage analyzed_tweets))].

Definition insights_json (analyzed_tweets : list AnalyzedTweet) : PyVal :=
  PDict [("most_engaging_tweets", PList (map tweet_json (most_engaging analyzed_tweets)));
         ("posting_frequency", _analyze_posting_frequency analyzed_tweets);
         ("sentiment_trends", _analyze_sentiment_trends analyzed_tweets);
         ("engagement_patterns", _analyze_engagement_patterns analyzed_tweets)].

(** [AnalysisProcessor._generate_comprehensive_analysis] *)
Definition _generate_comprehensive_analysis (analyzed_tweets : list AnalyzedTweet)
    (username : string) : M PyVal :=
  match analyzed_tweets with
  | [] => ret (PDict [])
  | _ =>
      n <- now ;;
      ret (PDict [("username", PStr username);
                  ("tweets", PList (map tweet_json analyzed_tweets));
                  ("summary", summary_json analyzed_tweets);
                  ("insights", insights_json analyzed_tweets);
                  ("timestamp", PStr (isoformat n))])
  end.

Definition rec_engagement : string :=
  "Consider posting more engaging content to increase interaction rates".
Definition rec_media : string :=
  "Increase media usage in posts to boost engagement".
Definition rec_sentiment : string :=
  "Consider adding more emotional content to increase engagement".
Definition rec_posting : string :=
  "Analyze optimal posting times based on engagement patterns".

(** [recommendations.append(r)] under a condition. *)
Definition append_if (c : bool) (r : string) (l : list string) : list string :=
  if c then (l ++ [r])%list else l.

(** [AnalysisProcessor._generate_recommendations] *)
Definition _generate_recommendations (analysis_data : PyVal) : Outcome (list string) :=
  let recommendations := [] in
  summary <~ py_get analysis_data "summary" (PDict []) ;;
  insights <~ py_get analysis_data "insights" (PDict []) ;;
  avg_engagement <~ py_get summary "average_engagement" (PInt 0) ;;
  c1 <~ py_lt_int avg_engagement 10 ;;
  let recommendations := append_if c1 rec_engagement recommendations in
  media_percentage <~ py_get summary "media_percentage" (PInt 0) ;;
  c2 <~ py_lt_int media_percentage 30 ;;
  let recommendations := append_if c2 rec_media recommendations in
  sentiment_dist <~ py_get summary "sentiment_distribution" (PDict []) ;;
  neutral <~ py_get sentiment_dist "neutral" (PInt 0) ;;
  c3 <~ py_gt_int neutral 70 ;;
  let recommendations := append_if c3 rec_sentiment recommendations in
  posting_freq <~ py_get insights "posting_frequency" (PDict []) ;;
  let recommendations := append_if (truthy posting_freq) rec_posting recommendations in
  Ok recommendations.

Section AnalysisProcessor.

(** [AnalysisProcessor.analyze_single_tweet], which wraps the sentiment
    and summarisation models and the regular expressions over the text:
    it returns a dict for every input, with no ["status"] entry. *)
Variable analyze_single_tweet : PyVal -> AnalyzedTweet.

(** [self.base_dir = Path('data')] *)
Definition ap_base_dir : list string := ["data"].

(** [AnalysisProcessor.ensure_directories] *)
Definition ap_ensure_directories : M unit :=
  for_each
    [child ap_base_dir "analyzed"; child ap_base_dir "processed";
     child ap_base_dir "insights"; child ap_base_dir "reports"]
    tt (fun _ directory => mkdir_parents directory).

(** [AnalysisProcessor.analyze_user_tweets] *)
Definition analyze_user_tweets (username : string) : M Dict :=
  try_except
    (let raw_dir := child ap_base_dir "raw" in
     user_files <- glob raw_dir (username +:+ "_raw_") ".json" ;;
     match user_files with
     | [] =>
         ret [status_error;
              ("message", PStr ("No data files found for " +:+ username))]
     | _ =>
         latest_file <- latest_by_mtime user_files ;;
         tweets <- read_json latest_file ;;
         items <- lift (py_iter tweets) ;;
         let analyzed_tweets := map analyze_single_tweet items in
         analysis_results <- _generate_comprehensive_analysis analyzed_tweets username ;;
         t <- now ;;
         let output_file :=
           child (child ap_base_dir "analyzed") (artifact_name t username "analyzed") in
         write_json output_file analysis_results ;;;
         ret [status_success;
              ("message", PStr ("Successfully analyzed "
                                +:+ str_int (len analyzed_tweets)
                                +:+ " tweets for " +:+ username));
              ("filepath", PStr (path_str output_file));
              ("analysis", analysis_results)]
     end)
    (fun e =>
       ret [status_error;
            ("message", PStr ("Error analyzing tweets for " +:+ username
                              +:+ ": " +:+ exn_str e))]).

(** [_generate_key_metrics], [_generate_sentiment_insights],
    [_generate_engagement_insights] and [_generate_content_insights]: the
    generators of four sections of the report. Each reads the analysis dict
    and returns a dict or raises; what they compute is not needed below. *)
Variable _generate_key_metrics : PyVal -> Outcome PyVal.
Variable _generate_sentiment_insights : PyVal -> Outcome PyVal.
Variable _generate_engagement_insights : PyVal -> Outcome PyVal.
Variable _generate_content_insights : PyVal -> Outcome PyVal.

(** [AnalysisProcessor.generate_insights_report] *)
Definition generate_insights_report (username : string) : M Dict :=
  try_except
    (analysis_result <- analyze_user_tweets username ;;
     st <- lift (py_getitem (PDict analysis_result) "status") ;;
     if not_success st then ret analysis_result
     else
       analysis_data <- lift (py_getitem (PDict analysis_result) "analysis") ;;
       n <- now ;;
       key_metrics <- lift (_generate_key_metrics analysis_data) ;;
       sentiment_insights <- lift (_generate_sentiment_insights analysis_data) ;;
       engagement_insights <- lift (_generate_engagement_insights analysis_data) ;;
       content_insights <- lift (_generate_content_insights analysis_data) ;;
       recommendations <- lift (_generate_recommendations analysis_data) ;;
       let insights :=
         PDict [("username", PStr username);
                ("generated_at", PStr (isoformat n));
                ("key_metrics", key_metrics);
                ("sentiment_insights", sentiment_insights);
                ("engagement_insights", engagement_insights);
                ("content_insights", content_insights);
                ("recommendations", PList (map PStr recommendations))] in
       t <- now ;;
       let output_file :=
         child (child ap_base_dir "insights") (artifact_name t username "insights") in
       write_json output_file insights ;;;
       ret [status_success;
            ("message", PStr ("Generated insights report for " +:+ username));
            ("filepath", PStr (path_str output_file));
            ("insights", insights)])
    (fun e => ret [status_error; ("message", PStr (exn_str e))]).

End AnalysisProcessor.

(* ===================================================================== *)
(** * DataManager: organising, archiving, exporting, statistics *)
(* ===================================================================== *)

(** [needle in hay] for strings. *)
Fixpoint contains (needle hay : string) : bool :=
  starts_with needle hay
  || match hay with
     | String _ hay' => contains needle hay'
     | EmptyString => false
     end.

(** [s.replace('-', '')] *)
Fixpoint remove_dashes (s : string) : string :=
  match s with
  | EmptyString => EmptyString
  | String c s' =>
      if Ascii.eqb c "-"%char then remove_dashes s' else String c (remove_dashes s')
  end.

(** [s.split('_')[0]] *)
Fixpoint before_underscore (s : string) : string :=
  match s with
  | EmptyString => EmptyString
  | String c s' => if Ascii.eqb c "_"%char then EmptyString else String c (before_underscore s')
  end.

(** [shutil.move(src, dst)]: into [dst] when it is a directory, onto [dst]
    otherwise; a directory is moved with all it contains. *)
Definition move (src dst : list string) : M unit :=
  fun w =>
    match node_at (fs w) src with
    | None => (Raise (FileNotFoundError src), w)
    | Some n =>
        let into := is_dir_in (fs w) dst in
        let real_dst := if into then child dst (path_name src) else dst in
        if into && exists_in (fs w) real_dst then
          (Raise (RuntimeError ("Destination path '" +:+ path_str real_dst
                                +:+ "' already exists")), w)
        else if negb (is_dir_in (fs w) (parent real_dst)) then
          (Raise (FileNotFoundError real_dst), w)
        else if io_fault w (OpCopy src) then (Raise (OSError (OpCopy src)), w)
        else
          (Ok tt,
           set_fs (fun t => copied_tree src real_dst t ∪ remove_tree src t) w)
    end.

(** [with open(p, 'w') as f: f.write(s)] *)
Definition write_text (p : list string) (s : string) : M unit :=
  fun w =>
    match node_at (fs w) (parent p) with
    | None => (Raise (FileNotFoundError p), w)
    | Some (File _ _) => (Raise (NotADirectoryError p), w)
    | Some (Dir _) =>
        match node_at (fs w) p with
        | Some (Dir _) => (Raise (IsADirectoryError p), w)
        | _ =>
            if io_fault w (OpOpen p) then (Raise (OSError (OpOpen p)), w)
            else if io_fault w (OpWrite p) then
              (Raise (OSError (OpWrite p)),
               set_fs (insert p (File (stamp_us w) (Blob ""))) w)
            else (Ok tt, set_fs (insert p (File (stamp_us w) (Blob s))) w)
        end
    end.

(** [shutil.make_archive(base_name, 'zip', root_dir, '.')]: the archive
    appears at [p]; what it holds is not modelled. *)
Definition make_archive (p : list string) : M unit := write_text p "zip".

(** [d.rglob('*')]: everything below [d]. *)
Definition rglob_all (d : list string) : M (list (list string)) :=
  fun w =>
    (Ok (if is_dir_in (fs w) d
         then filter (fun p => under d p = true /\ p <> d) ((map_to_list (fs w)).*1)
         else []), w).

(** [d[k] += n] on a dict that is given the entry 0 when [k] is new. *)
Fixpoint add_to (k : string) (n : Z) (d : list (string * Z)) : list (string * Z) :=
  match d with
  | [] => [(k, n)]
  | (k', m) :: d' =>
      if String.eqb k k' then (k', m + n) :: d' else (k', m) :: add_to k n d'
  end.

Section DataManagerReports.

Variable base_dir : list string.

(** [item.stat().st_size]: the size in bytes of what a file holds. *)
Variable st_size : FileContent -> Z.

Definition stat_size (p : list string) : M Z :=
  fun w =>
    match node_at (fs w) p with
    | None => (Raise (FileNotFoundError p), w)
    | Some (File _ c) =>
        if io_fault w (OpStat p) then (Raise (OSError (OpStat p)), w)
        else (Ok (st_size c), w)
    | Some (Dir _) =>
        if io_fault w (OpStat p) then (Raise (OSError (OpStat p)), w)
        else (Ok 4096, w)
    end.

(** [DataManager._should_move_file] *)
Definition _should_move_file (file_path : list string) (target_date : string) : bool :=
  contains (remove_dashes target_date) (path_name file_path).

Definition organize_subdirs : list string := ["raw"; "analyzed"; "processed"; "insights"].

(** [DataManager.organize_data_by_date] *)
Definition organize_data_by_date (date : option string) : M Dict :=
  try_except
    (date <- match date with
             | None => n <- now ;; ret (strftime_date n)
             | Some d => ret d
             end ;;
     let date_dir := child base_dir date in
     mkdir_exist_ok date_dir ;;;
     for_each organize_subdirs tt
       (fun _ subdir => mkdir_exist_ok (child date_dir subdir)) ;;;
     moved_files <-
       for_each organize_subdirs (map (fun s => (s, [])) organize_subdirs)
         (fun moved_files subdir =>
            let source_dir := child base_dir subdir in
            ex <- path_exists source_dir ;;
            if ex then
              files <- glob source_dir "" ".json" ;;
              for_each files moved_files
                (fun moved_files file =>
                   if _should_move_file file date then
                     move file (child (child date_dir subdir) (path_name file)) ;;;
                     ret (map (fun kv : string * list PyVal =>
                                 if String.eqb kv.1 subdir
                                 then (kv.1, kv.2 ++ [PStr (path_name file)])
                                 else kv) moved_files)
                   else ret moved_files)
            else ret moved_files) ;;
     ret [status_success;
          ("message", PStr ("Organized data for " +:+ date));
          ("date", PStr date);
          ("moved_files", PDict (map (fun kv => (kv.1, PList kv.2)) moved_files))])
    (fun e => ret [status_error; ("message", PStr (exn_str e))]).

(** [DataManager.archive_data] *)
Definition archive_data (archive_name : option string) : M Dict :=
  try_except
    (name <- match archive_name with
             | None => n <- now ;; ret ("archive_" +:+ strftime_stamp n)
             | Some s => ret s
             end ;;
     let archive_path := child (child base_dir "archived") (name +:+ ".zip") in
     mkdir_parents (parent archive_path) ;;;
     make_archive archive_path ;;;
     ret [status_success;
          ("message", PStr ("Created archive: " +:+ name));
          ("archive_path", PStr (path_str archive_path))])
    (fun e => ret [status_error; ("message", PStr (exn_str e))]).

(** [DataManager.get_data_summary] *)
Definition get_data_summary : M Dict :=
  try_except
    (items <- rglob_all base_dir ;;
     r <- for_each items (0, [], [])
            (fun '(total_size, file_counts, directory_sizes) item =>
               isf <- is_file item ;;
               if isf then
                 size <- stat_size item ;;
                 let parent_dir := path_name (parent item) in
                 ret (total_size + size,
                      add_to parent_dir 1 file_counts,
                      add_to parent_dir size directory_sizes)
               else ret (total_size, file_counts, directory_sizes)) ;;
     let '(total_size, file_counts, directory_sizes) := r in
     ret [status_success;
          ("summary",
           PDict [("total_size", PInt total_size);
                  ("file_counts", json_counts file_counts);
                  ("directory_sizes", json_counts directory_sizes);
                  ("total_size_mb", PFloat (true_div total_size (1024 * 1024)))])])
    (fun e => ret [status_error; ("message", PStr (exn_str e))]).

(** [DataManager.export_data] *)
Definition export_data (username export_format : string) : M Dict :=
  try_except
    (user_data <- retrieve_user_data base_dir username "all" ;;
     st <- lift (py_getitem (PDict user_data) "status") ;;
     if not_success st then ret user_data
     else
       t <- now ;;
       r <- (if String.eqb export_format "json" then
               let filename := username +:+ "_export_" +:+ strftime_stamp t +:+ ".json" in
               let filepath := child (child base_dir "reports") filename in
               data <- lift (py_getitem (PDict user_data) "data") ;;
               write_json filepath data ;;;
               ret (filepath, filename)
             else if String.eqb export_format "csv" then
               let filename := username +:+ "_export_" +:+ strftime_stamp t +:+ ".csv" in
               let filepath := child (child base_dir "reports") filename in
               write_text filepath "Export format not yet implemented
" ;;;
               ret (filepath, filename)
             else raise (UnboundLocalError "filepath")) ;;
       ret [status_success;
            ("message", PStr ("Exported data for " +:+ username +:+ " in "
                              +:+ export_format +:+ " format"));
            ("filepath", PStr (path_str r.1));
            ("filename", PStr r.2)])
    (fun e => ret [status_error; ("message", PStr (exn_str e))]).

(** The [by_directory] and [by_user] tables of the statistics: files and
    bytes per key. *)
Fixpoint add_file (k : string) (size : Z) (d : list (string * (Z * Z)))
    : list (string * (Z * Z)) :=
  match d with
  | [] => [(k, (1, size))]
  | (k', (files, bytes)) :: d' =>
      if String.eqb k k' then (k', (files + 1, bytes + size)) :: d'
      else (k', (files, bytes)) :: add_file k size d'
  end.

Definition json_files (d : list (string * (Z * Z))) : PyVal :=
  PDict (map (fun kv => (kv.1, PDict [("files", PInt kv.2.1); ("size", PInt kv.2.2)])) d).

(** [datetime.now() - timedelta(days=7)] as an instant. *)
Definition week_before (n : datetime) : M Z :=
  let c := to_us n - 7 * US_PER_DAY in
  if c <? 0 then raise OverflowError else ret c.

(** [DataManager.get_storage_statistics] *)
Definition get_storage_statistics : M Dict :=
  try_except
    (items <- rglob_all base_dir ;;
     r <- for_each items (0, 0, [], [], [])
            (fun '(total_files, total_size_bytes, by_directory, by_user, recent) item =>
               isf <- is_file item ;;
               if isf then
                 size <- stat_size item ;;
                 let by_directory := add_file (path_name (parent item)) size by_directory in
                 let by_user :=
                   if contains "_" (path_name item)
                   then add_file (before_underscore (path_name item)) size by_user
                   else by_user in
                 mtime <- stat_mtime item ;;
                 n <- now ;;
                 limit <- week_before n ;;
                 let recent :=
                   if limit <? mtime
                   then recent ++ [PDict [("file", PStr (path_str item));
                                          ("modified", PStr (isoformat (from_us mtime)));
                                          ("size", PInt size)]]
                   else recent in
                 ret (total_files + 1, total_size_bytes + size, by_directory, by_user, recent)
               else ret (total_files, total_size_bytes, by_directory, by_user, recent)) ;;
     let '(total_files, total_size_bytes, by_directory, by_user, recent) := r in
     ret [status_success;
          ("statistics",
           PDict [("total_files", PInt total_files);
                  ("total_size_bytes", PInt total_size_bytes);
                  ("total_size_mb", PFloat (true_div total_size_bytes (1024 * 1024)));
                  ("by_directory", json_files by_directory);
                  ("by_user", json_files by_user);
                  ("recent_activity", PList recent)])])
    (fun e => ret [status_error; ("message", PStr (exn_str e))]).

End DataManagerReports.

(* ===================================================================== *)
(** * agents/tweet_analysis_agent.py: class TweetAnalysisAgent *)
(* ===================================================================== *)

(** [asyncio.gather] with [return_exceptions=True] for coroutines that
    never suspend: they run one after the other, and an exception a task
    raises becomes its result. *)
Fixpoint gather {A} (tasks : list (M A)) : M (list (Outcome A)) :=
  match tasks with
  | [] => ret []
  | task :: tasks' =>
      fun w =>
        let '(r, w1) := task w in
        match gather tasks' w1 with
        | (Ok rs, w2) => (Ok (r :: rs), w2)
        | (Raise e, w2) => (Raise e, w2)
        end
  end.

Section TweetAnalysisAgent.

(** [self.storer.store_user_tweets] and [self.analyzer.analyze_user]: the
    two stages, of modules [tools.storer] and [tools.analyzer]. They may
    return any value or raise. *)
Variable store_user_tweets : string -> M PyVal.
Variable analyze_user : string -> M PyVal.

(** [str(v)] as an f-string renders a value. *)
Variable py_str : PyVal -> string.

(** [TweetAnalysisAgent._fetch_and_store_tweets] *)
Definition _fetch_and_store_tweets (username : string) : M PyVal :=
  try_except (store_user_tweets username)
    (fun e => ret (PDict [status_error; ("message", PStr (exn_str e))])).

(** [TweetAnalysisAgent._analyze_user_tweets] *)
Definition _analyze_user_tweets (username : string) : M PyVal :=
  try_except (analyze_user username)
    (fun e => ret (PDict [status_error; ("message", PStr (exn_str e))])).

(** [TweetAnalysisAgent.process_user] *)
Definition process_user (username : string) : M PyVal :=
  try_except
    (storage_result <- _fetch_and_store_tweets username ;;
     st <- lift (py_getitem storage_result "status") ;;
     if not_success st then
       msg <- lift (py_getitem storage_result "message") ;;
       ret (PDict [status_error;
                   ("message", PStr ("Failed to fetch tweets for " +:+ username
                                     +:+ ": " +:+ py_str msg));
                   ("step", PStr "fetch_and_store")])
     else
       analysis_result <- _analyze_user_tweets username ;;
       st <- lift (py_getitem analysis_result "status") ;;
       if not_success st then
         msg <- lift (py_getitem analysis_result "message") ;;
         ret (PDict [status_error;
                     ("message", PStr ("Failed to analyze tweets for " +:+ username
                                       +:+ ": " +:+ py_str msg));
                     ("step", PStr "analysis")])
       else
         n <- now ;;
         ret (PDict [status_success;
                     ("message", PStr ("Successfully processed " +:+ username));
                     ("storage", storage_result);
                     ("analysis", analysis_result);
                     ("timestamp", PStr (isoformat n))]))
    (fun e =>
       ret (PDict [status_error;
                   ("message", PStr ("Unexpected error processing " +:+ username
                                     +:+ ": " +:+ exn_str e))])).

(** The loop [for i, username in enumerate(usernames)] that fills
    [combined_results] from [results[i]]. *)
Fixpoint combine_results (i : nat) (usernames : list string)
    (results : list (Outcome PyVal)) (combined_results : gmap string PyVal)
    : Outcome (gmap string PyVal) :=
  match usernames with
  | [] => Ok combined_results
  | username :: usernames' =>
      match results !! i with
      | None => Raise IndexError
      | Some (Raise e) =>
          combine_results (S i) usernames' results
            (<[username := PDict [status_error;
                                  ("message", PStr ("Exception occurred: "
                                                    +:+ exn_str e))]]>
               combined_results)
      | Some (Ok r) =>
          combine_results (S i) usernames' results (<[username := r]> combined_results)
      end
  end.

(** [TweetAnalysisAgent.process_multiple_users] *)
Definition process_multiple_users (usernames : list string) : M (gmap string PyVal) :=
  try_except
    (results <- gather (map process_user usernames) ;;
     lift (combine_results 0 usernames results ∅))
    (fun _ => ret ∅).

End TweetAnalysisAgent.

(* ===================================================================== *)
(** * Vocabulary of the properties *)
(* ===================================================================== *)

(** The ["status"] entry of a result. *)
Definition status_of (v : PyVal) : option PyVal :=
  match v with
  | PDict d => dict_lookup "status" d
  | _ => None
  end.

Definition is_result (v : PyVal) : Prop :=
  status_of v = Some (PStr "success") \/ status_of v = Some (PStr "error").

(** A result of [process_user] that says success carries the results of
    both stages, and both say success. *)
Definition stages_succeeded (v : PyVal) : Prop :=
  exists storage analysis,
    py_getitem v "storage" = Ok storage /\ status_of storage = Some (PStr "success")
    /\ py_getitem v "analysis" = Ok analysis
    /\ status_of analysis = Some (PStr "success").

Definition user_result (v : PyVal) : Prop :=
  status_of v = Some (PStr "error")
  \/ (status_of v = Some (PStr "success") /\ stages_succeeded v).

(** What the combining loop stores under a user name. *)
Definition recorded (r : Outcome PyVal) : PyVal :=
  match r with
  | Ok v => v
  | Raise e =>
      PDict [status_error; ("message", PStr ("Exception occurred: " +:+ exn_str e))]
  end.

(** The fields [strftime('%Y%m%d_%H%M%S')] prints: everything down to the
    second. *)
Definition same_second (t1 t2 : datetime) : Prop :=
  year t1 = year t2 /\ month t1 = month t2 /\ day t1 = day t2
  /\ hour t1 = hour t2 /\ minute t1 = minute t2 /\ second t1 = second t2.

(** The path a call of [store_tweet_data] in world [w] writes to: the
    directory comes from the first clock reading, the name from the second. *)
Definition store_target (w : World) (username data_type : string) : list string :=
  child (tweet_dir (clock w (ticks w)) username data_type)
        (artifact_name (clock w (S (ticks w))) username data_type).

Definition store_error (username : string) (e : Exn) : Dict :=
  [status_error;
   ("message", PStr ("Error storing tweet data for " +:+ username +:+ ": " +:+ exn_str e))].

Definition store_success (tweets : list PyVal) (username data_type : string)
    (filepath : list string) : Dict :=
  [status_success;
   ("message", PStr ("Successfully stored " +:+ str_int (len tweets)
                     +:+ " tweets for " +:+ username));
   ("filepath", PStr (path_str filepath));
   ("filename", PStr (path_name filepath));
   ("data_type", PStr data_type);
   ("tweet_count", PInt (len tweets))].

(** ** Sample inputs *)

(** A clock that stays within one second: reading [n] is
    2024-01-05 07:08:09 and [n] microseconds. *)
Definition sample_clock (n : nat) : datetime :=
  mk_datetime 2024 1 5 7 8 9 (Z.of_nat n).

Definition no_fault (op : IoOp) : bool := false.

Definition empty_world : World := mk_World ∅ sample_clock 0 no_fault.

Definition sample_tweet : PyVal :=
  PDict [("id_str", PStr "1"); ("full_text", PStr "hello")].

Definition other_tweet : PyVal :=
  PDict [("id_str", PStr "2"); ("full_text", PStr "again")].

Definition sample_target : list string :=
  ["output"; "2024-01-05"; "tweets"; "raw"; "alice"; "alice_raw_20240105_070809.json"].

(** The disk fills up while the sample artifact is written. *)
Definition torn_fault (op : IoOp) : bool :=
  match op with
  | OpWrite p => bool_decide (p = sample_target)
  | _ => false
  end.

Definition torn_world : World := mk_World ∅ sample_clock 0 torn_fault.

(** [p.stat().st_mtime] read off the tree. *)
Definition mtime_in (t : gmap (list string) Node) (p : list string) : Z :=
  match node_at t p with
  | Some (File m _) | Some (Dir m) => m
  | None => 0
  end.

(** The path a call of [store_analysis_results] in world [w] writes to. *)
Definition analysis_target (w : World) (username : string) : list string :=
  child ["output"; strftime_date (clock w (ticks w)); "tweets"; "analyzed"; username]
        (artifact_name (clock w (S (ticks w))) username "analysis").

(** The path a call of [store_insights_report] in world [w] writes to. *)
Definition insights_target (base_dir : list string) (w : World) (username : string)
    : list string :=
  child (child base_dir "insights") (artifact_name (clock w (ticks w)) username "insights").

(** What [retrieve_user_data] answers when it found [data]. *)
Definition retrieved (username data_type : string) (data : Dict) : Dict :=
  [status_success;
   ("username", PStr username);
   ("data_type", PStr data_type);
   ("data", PDict data)].

(** A corpus in which only the directories of [base_dir = data] exist. *)
Definition data_dirs_world : World :=
  mk_World (<[ ["data"; "insights"] := Dir 0 ]> (<[ ["data"] := Dir 0 ]> ∅))
           sample_clock 0 no_fault.

Definition sample_report : PyVal :=
  PDict [("username", PStr "alice"); ("recommendations", PList [])].

(** ** Retention *)

(** An entry of [base_dir] that the first sweep of [cleanup_old_data]
    removes: a directory, not a reserved one, whose name parses as a date
    before the cutoff. *)
Definition dir_expired (t : gmap (list string) Node) (cutoff : Z) (p : list string) : bool :=
  is_dir_in t p && negb (str_in (path_name p) reserved_dirs)
  && match strptime_ymd (path_name p) with
     | Some dir_date => to_us dir_date <? cutoff
     | None => false
     end.

Definition expired_dir (base_dir : list string) (t : gmap (list string) Node)
    (cutoff : Z) (p : list string) : Prop :=
  p ∈ listdir t base_dir /\ dir_expired t cutoff p = true.

(** A loose file that the second sweep removes: a [*.json] entry of one of
    the four flat directories, last modified before the cutoff. *)
Definition old_in (base_dir : list string) (cutoff : Z)
    (t : gmap (list string) Node) (subdir : string) (q : list string) : Prop :=
  q ∈ glob_in t (child base_dir subdir) "" ".json" /\ mtime_in t q < cutoff.

Definition expired_file (base_dir : list string) (t : gmap (list string) Node)
    (cutoff : Z) (p : list string) : Prop :=
  exists subdir, subdir ∈ loose_dirs /\ old_in base_dir cutoff t subdir p.

(** What is gone after the sweep: the expired date directories with all
    they contain, and the expired loose files. *)
Definition swept (base_dir : list string) (t : gmap (list string) Node)
    (cutoff : Z) (q : list string) : Prop :=
  (exists p, expired_dir base_dir t cutoff p /\ p `prefix_of` q)
  \/ expired_file base_dir t cutoff q.

(** No removal fails, and modification times can be read. *)
Definition deletions_succeed (w : World) : Prop :=
  forall p, io_fault w (OpRmtree p) = false
            /\ io_fault w (OpUnlink p) = false
            /\ io_fault w (OpStat p) = false.

(** The instant [cleanup_old_data] compares against. *)
Definition cutoff_us (w : World) (days_to_keep : Z) : Z :=
  to_us (clock w (ticks w)) - days_to_keep * US_PER_DAY.

(** A result dict says success or error. *)
Definition has_status (r : Dict) : Prop :=
  dict_lookup "status" r = Some (PStr "success")
  \/ dict_lookup "status" r = Some (PStr "error").

(** What [cleanup_old_data] answers after a complete sweep. *)
Definition cleanup_success (days_to_keep cutoff : Z) (deleted_files : list string) : Dict :=
  [status_success;
   ("message", PStr ("Cleaned up data older than " +:+ str_int days_to_keep +:+ " days"));
   ("deleted_files", PList (map PStr deleted_files));
   ("cutoff_date", PStr (isoformat (from_us cutoff)))].

(** A corpus with one date partition of 2020 and one loose file last
    modified at instant 0, read on 2024-01-05. *)
Definition stale_fs : gmap (list string) Node :=
  <[ ["data"; "raw"; "old.json"] := File 0 (Json (PList [])) ]>
    (<[ ["data"; "raw"] := Dir 0 ]>
       (<[ ["data"; "2020-01-01"] := Dir 0 ]>
          (<[ ["data"] := Dir 0 ]> ∅))).

(** The date partition cannot be removed. *)
Definition rmtree_fault (op : IoOp) : bool :=
  match op with
  | OpRmtree p => bool_decide (p = ["data"; "2020-01-01"])
  | _ => false
  end.

Definition stuck_world : World := mk_World stale_fs sample_clock 0 rmtree_fault.

Definition stale_world : World := mk_World stale_fs sample_clock 0 no_fault.

(** ** Aggregates *)

(** The number of items labelled [label]. *)
Definition label_count (label : string) (tweets : list AnalyzedTweet) : Z :=
  len (List.filter (fun t => String.eqb (overall_sentiment t) label) tweets).

(** The recommendations for an analysis whose four conditions are known,
    in the order of the rules. *)
Definition recommendations_for (low_engagement low_media many_neutral posting : bool)
    : list string :=
  (if low_engagement then [rec_engagement] else [])
  ++ (if low_media then [rec_media] else [])
  ++ (if many_neutral then [rec_sentiment] else [])
  ++ (if posting then [rec_posting] else []).

(** An item as [analyze_single_tweet] labels it, with no engagement, no
    media and no date. *)
Definition plain_tweet (label : string) : AnalyzedTweet :=
  mk_AnalyzedTweet (PDict []) label 0 0 0 0 false "".

(** An item posted at [created_at]. *)
Definition dated_tweet (created_at : string) : AnalyzedTweet :=
  mk_AnalyzedTweet (PDict []) "neutral" 0 0 0 0 false created_at.

(** The hours of the items whose [created_at] parses, in the order of the
    items. *)
Definition parsed_hours (tweets : list AnalyzedTweet) : list Z :=
  omap (fun t => if String.eqb (created_at t) "" then None
                 else option_map hour (strptime_created_at (created_at t)))
       tweets.

(** The number of items posted in hour [h]. *)
Definition hour_count (h : Z) (hours : list Z) : Z :=
  len (List.filter (Z.eqb h) hours).

(** The histogram [hour_counts] after the hours [hours] were counted one by
    one. *)
Definition hist (hours : list Z) : list (Z * Z) :=
  fold_left (fun d h => incr h d) hours [].

(** An operation returns, in world [w], a dict that says success or
    error. *)
Definition returns_status (m : M Dict) (w : World) : Prop :=
  exists r w', m w = (Ok r, w') /\ has_status r.

(** A corpus in which a regular file stands where the directory
    [data/raw] should be. *)
Definition blocked_world : World :=
  mk_World (<[ ["data"; "raw"] := File 0 (Blob "") ]> (<[ ["data"] := Dir 0 ]> ∅))
           sample_clock 0 no_fault.

(* ===================================================================== *)
(** * Vocabulary of the further properties *)
(* ===================================================================== *)

(** A computation never leaves the relation [R] between the world it starts
    in and the world it ends in. *)
Definition keeps {A} (R : World -> World -> Prop) (m : M A) : Prop :=
  forall w, R w (m w).2.

(** The tree is the same; the clock may have been read. *)
Definition same_tree (w w' : World) : Prop :=
  fs w' = fs w /\ clock w' = clock w /\ io_fault w' = io_fault w.

(** A file [json.load] reads: it holds a complete document and the read
    does not fail. *)
Definition readable (w : World) (p : list string) : bool :=
  match node_at (fs w) p with
  | Some (File _ (Json _)) => negb (io_fault w (OpRead p))
  | _ => false
  end.

(** [str(e)] of the exception reading [p] raises. *)
Definition read_error (w : World) (p : list string) : string :=
  match (read_json p w).1 with
  | Raise e => exn_str e
  | Ok _ => ""
  end.

Definition invalid_entry (w : World) (p : list string) : PyVal :=
  PDict [("file", PStr (path_str p)); ("error", PStr (read_error w p))].

(** What [validate_data_integrity] answers about the candidates [files]. *)
Definition validation_report (w : World) (files : list (list string)) : Dict :=
  [status_success;
   ("validation_results",
    PDict [("valid_files",
            PList (map (fun p => PStr (path_str p)) (List.filter (readable w) files)));
           ("invalid_files",
            PList (map (invalid_entry w)
                       (List.filter (fun p => negb (readable w p)) files)));
           ("total_files", PInt (len files))])].

(** The file [export_data] writes for format "json" in world [w]. *)
Definition export_target (base_dir : list string) (w : World) (username : string)
    : list string :=
  child (child base_dir "reports")
        (username +:+ "_export_" +:+ strftime_stamp (clock w (ticks w)) +:+ ".json").

(** A corpus with the directory the exports go to. *)
Definition reports_world : World :=
  mk_World (<[ ["data"; "reports"] := Dir 0 ]> (<[ ["data"] := Dir 0 ]> ∅))
           sample_clock 0 no_fault.

(** The directory [create_backup] fills in world [w]. *)
Definition backup_dir_of (base_dir : list string) (w : World) (backup_name : option string)
    : list string :=
  child (child base_dir "backups")
        (match backup_name with
         | Some s => s
         | None => "backup_" +:+ strftime_stamp (clock w (ticks w))
         end).

(** From [w] to [w'] nothing was removed, nothing outside the tree rooted at
    [B] was modified, and what is new outside it is a directory on the way
    down to [B]. *)
Definition grown_below (B : list string) (w w' : World) : Prop :=
  (forall q, ~ B `prefix_of` q ->
             fs w' !! q = fs w !! q
             \/ (fs w !! q = None /\ q `prefix_of` B /\ exists t, fs w' !! q = Some (Dir t)))
  /\ (forall q, is_Some (fs w !! q) -> is_Some (fs w' !! q))
  /\ io_fault w' = io_fault w.

(** One turn of the loop of [create_backup] that fills [B]. *)
Definition backup_item (B : list string) (item : list string) : M unit :=
  isd <- is_dir item ;;
  if isd && negb (str_in (path_name item) ["backups"; "archived"; "logs"])
  then copytree item (child B (path_name item))
  else
    isf <- is_file item ;;
    if isf then copy2 item (child B (path_name item)) else ret tt.

(** [L] lists entries of [base_dir], each once. *)
Definition entries_of (base_dir : list string) (L : list (list string)) : Prop :=
  NoDup L /\ forall x, x ∈ L -> parent x = base_dir /\ x <> [].

(** A data directory with one directory, one file in it, and one file of
    its own. *)
Definition backup_world : World :=
  mk_World
    (<[ ["data"; "notes.json"] := File 7 (Json (PList [])) ]>
       (<[ ["data"; "raw"; "a.json"] := File 5 (Json (PList [sample_tweet])) ]>
          (<[ ["data"; "raw"] := Dir 3 ]>
             (<[ ["data"] := Dir 0 ]> ∅))))
    sample_clock 0 no_fault.

Definition backup_report : Dict :=
  [status_success;
   ("message", PStr "Created backup: nightly");
   ("backup_path", PStr "data/backups/nightly")].

(** What [d.rglob('*')] lists. *)
Definition all_below (t : gmap (list string) Node) (d : list string) : list (list string) :=
  if is_dir_in t d
  then filter (fun p => under d p = true /\ p <> d) ((map_to_list t).*1)
  else [].

(** The regular files among them. *)
Definition files_below (t : gmap (list string) Node) (d : list string) : list (list string) :=
  List.filter (is_file_in t) (all_below t d).

(** The three labels [_classify_sentiment] gives, in the order in which the
    counters of a day are created. *)
Definition sentiment_labels : list string := ["bullish"; "bearish"; "neutral"].

(** The float literal [0.1]: the double nearest to one tenth. *)
Definition float_0_1 : Q := 3602879701896397 # 36028797018963968.

(** [AnalysisProcessor._classify_sentiment] for a finite polarity. *)
Definition _classify_sentiment (polarity : Q) : string :=
  if Qlt_bool float_0_1 polarity then "bullish"
  else if Qlt_bool polarity (- float_0_1)%Q then "bearish"
  else "neutral".

(** The table [sentiment_by_date] of [_analyze_sentiment_trends] after the
    loop; [None] when the loop raised. *)
Definition sentiment_by_date (tweets : list AnalyzedTweet)
    : option (list (string * list (string * Z))) :=
  fold_left
    (fun acc tweet =>
       match acc with
       | None => None
       | Some d =>
           if String.eqb (created_at tweet) "" then Some d
           else match strptime_created_at (created_at tweet) with
                | Some dt => bump_date (date_isoformat dt) (overall_sentiment tweet) d
                | None => Some d
                end
       end)
    tweets (Some []).

(** The counters of one day agree with the number of posts of that day. *)
Definition day_agrees (kv : string * list (string * Z)) (kc : string * Z) : Prop :=
  kv.1 = kc.1 /\ map fst kv.2 = sentiment_labels /\ sum_Z (map snd kv.2) = kc.2.

(** Decreasing engagement. *)
Definition by_engagement (a b : AnalyzedTweet) : Prop :=
  total_engagement b <= total_engagement a.

(* ===================================================================== *)
(** * tools/data_fetcher.py: class DataFetcher *)
(* ===================================================================== *)

(** [v == s] for a string literal [s]. *)
Definition py_eq_str (v : PyVal) (s : string) : bool :=
  match v with
  | PStr s' => String.eqb s' s
  | _ => false
  end.

(** [k in v] for a string literal [k]: a key of a dict, an item of a list,
    a part of a string. *)
Definition py_in (k : string) (v : PyVal) : Outcome bool :=
  match v with
  | PDict d => Ok (str_in k (dict_keys d))
  | PList l => Ok (existsb (fun x => py_eq_str x k) l)
  | PStr s => Ok (contains k s)
  | _ => Raise (TypeError "argument is not iterable")
  end.

(** A loop over [l] that threads [acc] and stops at the first exception. *)
Fixpoint ofold {A B} (f : B -> A -> Outcome B) (l : list A) (acc : B) : Outcome B :=
  match l with
  | [] => Ok acc
  | x :: l' => acc' <~ f acc x ;; ofold f l' acc'
  end.

(** The dict [media_info] of [extract_media_from_tweets]. *)
Record MediaInfo : Type := mk_MediaInfo {
  images : list PyVal;
  videos : list PyVal;
  gifs : list PyVal;
  total_media : Z
}.

Definition no_media : MediaInfo := mk_MediaInfo [] [] [] 0.

Definition media_json (m : MediaInfo) : PyVal :=
  PDict [("images", PList (images m)); ("videos", PList (videos m));
         ("gifs", PList (gifs m)); ("total_media", PInt (total_media m))].

(** The dict [media_item] built for one media item of one tweet. *)
Definition media_entry (tweet item : PyVal) : Outcome PyVal :=
  tweet_id <~ py_get tweet "id_str" (PStr "") ;;
  text <~ py_get tweet "text" (PStr "") ;;
  tweet_text <~ py_get tweet "full_text" text ;;
  media_url <~ py_get item "url" (PStr "") ;;
  media_type <~ py_get item "type" (PStr "") ;;
  created_at <~ py_get tweet "created_at" (PStr "") ;;
  Ok (PDict [("tweet_id", tweet_id); ("tweet_text", tweet_text);
             ("media_url", media_url); ("media_type", media_type);
             ("created_at", created_at)]).

(** The body of the inner loop. *)
Definition add_media_item (tweet : PyVal) (m : MediaInfo) (item : PyVal)
    : Outcome MediaInfo :=
  media_item <~ media_entry tweet item ;;
  ty <~ py_getitem item "type" ;;
  let m' :=
    if py_eq_str ty "photo"
    then mk_MediaInfo (images m ++ [media_item]) (videos m) (gifs m) (total_media m)
    else if py_eq_str ty "video"
    then mk_MediaInfo (images m) (videos m ++ [media_item]) (gifs m) (total_media m)
    else if py_eq_str ty "animated_gif"
    then mk_MediaInfo (images m) (videos m) (gifs m ++ [media_item]) (total_media m)
    else m in
  Ok (mk_MediaInfo (images m') (videos m') (gifs m') (total_media m' + 1)).

(** The body of the outer loop. *)
Definition add_tweet_media (m : MediaInfo) (tweet : PyVal) : Outcome MediaInfo :=
  has_media <~ py_in "media" tweet ;;
  if has_media then
    media <~ py_getitem tweet "media" ;;
    items <~ py_iter media ;;
    ofold (add_media_item tweet) items m
  else Ok m.

(** The [try] block of [extract_media_from_tweets]. *)
Definition collect_media (tweets : list PyVal) : Outcome MediaInfo :=
  ofold add_tweet_media tweets no_media.

(** [DataFetcher.extract_media_from_tweets] *)
Definition extract_media_from_tweets (tweets : list PyVal) : PyVal :=
  match collect_media tweets with
  | Ok m => media_json m
  | Raise _ => media_json no_media
  end.

Section DataFetcher.

(** [self.max_tweets_per_user], read from the configuration. *)
Variable max_tweets_per_user : PyVal.

(** A run of the scraper actor on [run_input] and the items of its
    dataset (the Apify client): it returns them or raises. *)
Variable run_actor : PyVal -> M (list PyVal).

(** [self.base_dir = Path('data/raw')] *)
Definition fetcher_base_dir : list string := ["data"; "raw"].

(** [DataFetcher.fetch_user_tweets]; [PNone] for [max_tweets] is the
    default. *)
Definition fetch_user_tweets (username : string) (max_tweets : PyVal) : M Dict :=
  try_except
    (let max_tweets :=
       match max_tweets with PNone => max_tweets_per_user | _ => max_tweets end in
     let run_input :=
       PDict [("handles", PList [PStr username]);
              ("maxTweets", max_tweets);
              ("addUserInfo", PBool true);
              ("includeReplies", PBool true);
              ("includeRetweets", PBool true)] in
     tweets <- run_actor run_input ;;
     t <- now ;;
     let filename := artifact_name t username "raw" in
     let filepath := child fetcher_base_dir filename in
     write_json filepath (PList tweets) ;;;
     ret [status_success;
          ("username", PStr username);
          ("tweet_count", PInt (len tweets));
          ("filepath", PStr (path_str filepath));
          ("tweets", PList tweets)])
    (fun e =>
       ret [status_error;
            ("username", PStr username);
            ("message", PStr (exn_str e))]).

(** [DataFetcher.fetch_all_users] *)
Definition fetch_all_users (usernames : list string) : M (gmap string PyVal) :=
  try_except
    (for_each usernames ∅
       (fun results username =>
          r <- fetch_user_tweets username PNone ;;
          ret (<[username := PDict r]> results)))
    (fun _ => ret ∅).

End DataFetcher.

(** The labels under which a media item is filed. *)
Definition filed_as (kind : string) (entry : PyVal) : Prop :=
  py_getitem entry "media_type" = Ok (PStr kind).

(** What the lists of a [media_info] promise. *)
Definition media_well_filed (m : MediaInfo) : Prop :=
  len (images m) + len (videos m) + len (gifs m) <= total_media m
  /\ Forall (filed_as "photo") (images m)
  /\ Forall (filed_as "video") (videos m)
  /\ Forall (filed_as "animated_gif") (gifs m).

(** The file a fetch of [username] in world [w] saves to, given the world
    the actor run ends in. *)
Definition fetch_target (w : World) (username : string) : list string :=
  child fetcher_base_dir (artifact_name (clock w (ticks w)) username "raw").

(** A corpus in which [data/raw] is there and empty. *)
Definition raw_world : World :=
  mk_World (<[ ["data"; "raw"] := Dir 0 ]> (<[ ["data"] := Dir 0 ]> ∅))
           sample_clock 0 no_fault.

(** An actor that finds one tweet for everybody. *)
Definition sample_actor (run_input : PyVal) : M (list PyVal) := ret [sample_tweet].

(** [target] is strictly the newest of the raw files of [username]. *)
Definition newest_raw (w : World) (username : string) (target : list string) : Prop :=
  forall p, p ∈ glob_in (fs w) ["data"; "raw"] (username +:+ "_raw_") ".json" ->
            p = target \/ mtime_in (fs w) p < mtime_in (fs w) target.

(** [c in s] for a character. *)
Definition str_has (c : ascii) (s : string) : bool := existsb (Ascii.eqb c) (chars s).

(** [s.split(c)[0]]: what stands before the first [c]. *)
Fixpoint before_first (c : ascii) (s : string) : string :=
  match s with
  | EmptyString => EmptyString
  | String a s' => if Ascii.eqb a c then EmptyString else String a (before_first c s')
  end.

(** [s.split(c)[-1]]: what stands after the last [c]. *)
Fixpoint after_last (c : ascii) (s : string) : string :=
  match s with
  | EmptyString => EmptyString
  | String a s' =>
      if str_has c s' then after_last c s'
      else if Ascii.eqb a c then s' else s
  end.

(** The extension [download_and_store_media] gives a media type. *)
Definition media_ext (mtype : PyVal) : string :=
  if py_eq_str mtype "photo" then ".jpg"
  else if py_eq_str mtype "video" then ".mp4"
  else ".gif".

(** The file name it derives from the URL of a media item. *)
Definition media_file_name (url : string) (mtype : PyVal) : string :=
  let ext := media_ext mtype in
  let fname := before_first "?" (after_last "/" url) in
  if existsb (fun suffix => ends_with suffix fname)
       [ext; ".jpeg"; ".png"; ".webp"; ".webm"]
  then fname
  else fname +:+ ext.

(** What [requests.get(url, stream=True)] answers: the status, the bytes
    that arrive, and the exception that ends the stream early, if any. *)
Record Response : Type := mk_Response {
  status_code : Z;
  body : string;
  broken : option Exn
}.

(** [with open(p, 'wb') as f: for chunk in resp.iter_content(1024):
    f.write(chunk)] *)
Definition save_response (p : list string) (resp : Response) : M unit :=
  write_text p (body resp) ;;;
  match broken resp with
  | Some e => raise e
  | None => ret tt
  end.

Section Download.

(** [requests.get]: it answers or raises (no connection, a timeout). *)
Variable requests_get : string -> M Response.

(** [DataFetcher.download_and_store_media] *)
Definition download_and_store_media (media_items : list PyVal)
    (username date_str : string) : M (list string) :=
  let base_dir := ["output"; date_str; "media"; username] in
  mkdir_parents base_dir ;;;
  for_each media_items []
    (fun saved_files item =>
       url <- lift (py_get item "media_url" PNone) ;;
       mtype <- lift (py_get item "media_type" (PStr "media")) ;;
       if negb (truthy url) then ret saved_files
       else
         match url with
         | PStr url =>
             let file_path := child base_dir (media_file_name url mtype) in
             try_except
               (resp <- requests_get url ;;
                if status_code resp =? 200 then
                  save_response file_path resp ;;;
                  ret (saved_files ++ [path_str file_path])
                else ret saved_files)
               (fun _ => ret saved_files)
         | _ => raise (AttributeError "object has no attribute 'split'")
         end).

End Download.

(** The extensions a saved media file can end in. *)
Definition media_suffixes : list string :=
  [".jpg"; ".mp4"; ".gif"; ".jpeg"; ".png"; ".webp"; ".webm"].

(** A name that is one path component. *)
Definition one_component (name : string) : Prop :=
  name <> "" /\ str_has "/" name = false.

(** A media item the loop can handle: a dict whose [media_url] is missing,
    falsy or a string. *)
Definition plain_media_item (item : PyVal) : Prop :=
  exists d, item = PDict d
            /\ match dict_lookup "media_url" d with
               | Some (PStr _) | None => True
               | Some v => truthy v = false
               end.

(** A server that is down. *)
Definition no_network (url : string) : M Response :=
  raise (RuntimeError "connection refused").

(* ===================================================================== *)
(** * AnalysisProcessor: what is read from one tweet *)
(* ===================================================================== *)

(** An [int] (a [bool] counts as 0 or 1). *)
Definition as_int (v : PyVal) : option Z :=
  match v with
  | PInt z => Some z
  | PBool b => Some (if b then 1 else 0)
  | _ => None
  end.

(** [a + b] on numbers. *)
Definition py_add (a b : PyVal) : Outcome PyVal :=
  match as_int a, as_int b with
  | Some x, Some y => Ok (PInt (x + y))
  | _, _ =>
      match py_num a, py_num b with
      | Some p, Some q => Ok (PFloat (p + q)%Q)
      | _, _ => Raise (TypeError "unsupported operand type(s) for +")
      end
  end.

(** [sum(l)] *)
Definition py_sum (l : list PyVal) : Outcome PyVal := ofold py_add l (PInt 0).

(** [a / b] on numbers. *)
Definition py_truediv (a b : PyVal) : Outcome PyVal :=
  match py_num a, py_num b with
  | Some p, Some q =>
      if Qeq_bool q 0 then Raise (RuntimeError "division by zero")
      else Ok (PFloat (p / q)%Q)
  | _, _ => Raise (TypeError "unsupported operand type(s) for /")
  end.

(** [a * n] for a float [a] and an integer literal [n]. *)
Definition py_mul_int (a : PyVal) (n : Z) : Outcome PyVal :=
  match a with
  | PFloat q => Ok (PFloat (q * inject_Z n)%Q)
  | _ =>
      match as_int a with
      | Some x => Ok (PInt (x * n))
      | None => Raise (TypeError "unsupported operand type(s) for *")
      end
  end.

Definition engagement_json (retweets likes replies quotes total_engagement engagement_rate
                              : PyVal) : PyVal :=
  PDict [("retweets", retweets); ("likes", likes); ("replies", replies);
         ("quotes", quotes); ("total_engagement", total_engagement);
         ("engagement_rate", engagement_rate)].

(** The [try] block of [_extract_engagement_metrics]. *)
Definition engagement_of (tweet : PyVal) : Outcome PyVal :=
  retweets <~ py_get tweet "retweet_count" (PInt 0) ;;
  likes <~ py_get tweet "favorite_count" (PInt 0) ;;
  replies <~ py_get tweet "reply_count" (PInt 0) ;;
  quotes <~ py_get tweet "quote_count" (PInt 0) ;;
  total_engagement <~ py_sum [retweets; likes; replies; quotes] ;;
  user <~ py_get tweet "user" (PDict []) ;;
  follower_count <~ py_get user "followers_count" (PInt 0) ;;
  positive <~ py_gt_int follower_count 0 ;;
  engagement_rate <~
    (if positive then
       ratio <~ py_truediv total_engagement follower_count ;;
       py_mul_int ratio 100
     else Ok (PInt 0)) ;;
  Ok (engagement_json retweets likes replies quotes total_engagement engagement_rate).

(** [AnalysisProcessor._extract_engagement_metrics] *)
Definition _extract_engagement_metrics (tweet : PyVal) : PyVal :=
  match engagement_of tweet with
  | Ok v => v
  | Raise _ => engagement_json (PInt 0) (PInt 0) (PInt 0) (PInt 0) (PInt 0) (PInt 0)
  end.

Definition media_info_json (images videos gifs : list PyVal) (has_media : bool) : PyVal :=
  PDict [("images", PList images); ("videos", PList videos); ("gifs", PList gifs);
         ("has_media", PBool has_media)].

(** The dict [media_item] of [_extract_media_info]. *)
Definition info_entry (item : PyVal) : Outcome PyVal :=
  url <~ py_get item "url" (PStr "") ;;
  ty <~ py_get item "type" (PStr "") ;;
  media_url <~ py_get item "media_url_https" (PStr "") ;;
  Ok (PDict [("url", url); ("type", ty); ("media_url", media_url)]).

(** The body of its loop. *)
Definition add_info_item (acc : list PyVal * list PyVal * list PyVal) (item : PyVal)
    : Outcome (list PyVal * list PyVal * list PyVal) :=
  let '(images, videos, gifs) := acc in
  media_item <~ info_entry item ;;
  ty <~ py_getitem item "type" ;;
  Ok (if py_eq_str ty "photo" then (images ++ [media_item], videos, gifs)
      else if py_eq_str ty "video" then (images, videos ++ [media_item], gifs)
      else if py_eq_str ty "animated_gif" then (images, videos, gifs ++ [media_item])
      else (images, videos, gifs)).

(** The [try] block of [_extract_media_info]. *)
Definition media_info_of (tweet : PyVal) : Outcome PyVal :=
  has_media <~ py_in "media" tweet ;;
  if has_media then
    media <~ py_getitem tweet "media" ;;
    items <~ py_iter media ;;
    r <~ ofold add_info_item items ([], [], []) ;;
    Ok (media_info_json r.1.1 r.1.2 r.2 true)
  else Ok (media_info_json [] [] [] false).

(** [AnalysisProcessor._extract_media_info] *)
Definition _extract_media_info (tweet : PyVal) : PyVal :=
  match media_info_of tweet with
  | Ok v => v
  | Raise _ => media_info_json [] [] [] false
  end.

(** A count as [tweet.get(key, 0)] reads it, when it is an integer. *)
Definition int_count (d : Dict) (key : string) (n : Z) : Prop :=
  match dict_lookup key d with
  | Some v => v = PInt n
  | None => n = 0
  end.

(** The tweet names no positive number of followers. *)
Definition no_followers (d : Dict) : Prop :=
  match dict_lookup "user" d with
  | None => True
  | Some (PDict u) =>
      match dict_lookup "followers_count" u with
      | None => True
      | Some (PInt f) => f <= 0
      | Some _ => False
      end
  | Some _ => False
  end.

(** A media item as the scraper delivers it: a dict with a [type]. *)
Definition typed_item (item : PyVal) : Prop :=
  exists d ty, item = PDict d /\ dict_lookup "type" d = Some ty.

Definition item_has_type (kind : string) (item : PyVal) : bool :=
  match py_getitem item "type" with
  | Ok ty => py_eq_str ty kind
  | Raise _ => false
  end.

(** The entry made for an item. *)
Definition entry_of (item : PyVal) : PyVal :=
  match info_entry item with
  | Ok v => v
  | Raise _ => PNone
  end.

Definition entries_of_type (kind : string) (items : list PyVal) : list PyVal :=
  map entry_of (List.filter (item_has_type kind) items).

(** The directories [DataManager.ensure_directories] sets up. *)
Definition data_dirs : list string :=
  ["raw"; "analyzed"; "processed"; "archived"; "backups"; "logs"; "insights";
   "reports"; "temp"].

(** Every directory on the way from [pre] down to [pre ++ rest] is there. *)
Fixpoint dirs_down (t : gmap (list string) Node) (pre rest : list string) : Prop :=
  match rest with
  | [] => True
  | c :: rest' =>
      (exists m, t !! child pre c = Some (Dir m)) /\ dirs_down t (child pre c) rest'
  end.

(** A storing stage that always reports a failure, and a rendering of
    values. *)
Definition failing_stage (username : string) : M PyVal :=
  ret (PDict [status_error; ("message", PStr "rate limited")]).

Definition succeeding_stage (username : string) : M PyVal :=
  fun w => (Ok (PDict [status_success]), set_fs (insert ["touched"] (Dir 0)) w).

Definition plain_str (v : PyVal) : string :=
  match v with
  | PStr s => s
  | _ => ""
  end.

(** A date given as the name of one directory. *)
Definition plain_name (s : string) : Prop :=
  one_component s /\ s <> "." /\ s <> "..".

(** The date [organize_data_by_date] works for: the one given, or the day
    of the clock. *)
Definition date_of (date : option string) (w : World) : string :=
  match date with
  | Some d => d
  | None => strftime_date (clock w (ticks w))
  end.

(** From [t] to [t'], at depth [depth] and above, nothing changed but that
    entries at depth [depth] which [date] selects went away. *)
Definition selected_left (depth : nat) (date : string)
    (t t' : gmap (list string) Node) : Prop :=
  forall p, (length p <= depth)%nat ->
    t' !! p = t !! p
    \/ (length p = depth /\ t' !! p = None /\ _should_move_file p date = true).

(** A data directory with two raw files, one of them of 1 January 2024. *)
Definition organize_world : World :=
  mk_World
    (<[ ["data"; "raw"; "alice_raw_20240101_120000.json"]
          := File 5 (Json (PList [sample_tweet])) ]>
       (<[ ["data"; "raw"; "alice_raw_20240102_120000.json"]
             := File 6 (Json (PList [other_tweet])) ]>
          (<[ ["data"; "raw"] := Dir 3 ]>
             (<[ ["data"] := Dir 0 ]> ∅))))
    sample_clock 0 no_fault.

(** Where [organize_data_by_date] puts the entry [p] of a source
    directory. *)
Definition organized_place (base_dir : list string) (date subdir : string)
    (p : list string) : list string :=
  child (child (child base_dir date) subdir) (path_name p).

(** The entry [p] is still in its source directory and its place is free;
    the entry has arrived at its place. *)
Definition waiting (place p : list string) (n : Node)
    (t : gmap (list string) Node) : Prop :=
  t !! p = Some n /\ t !! place = None.

Definition arrived (place p : list string) (n : Node)
    (t : gmap (list string) Node) : Prop :=
  t !! place = Some n /\ t !! p = None.

(** [sorted(l)] for a list of strings: strings compare character by
    character, by character code. *)
Fixpoint insert_str (x : string) (l : list string) : list string :=
  match l with
  | [] => [x]
  | y :: l' => if String.leb x y then x :: l else y :: insert_str x l'
  end.

Definition sorted_str (l : list string) : list string := fold_right insert_str [] l.

(** [os.listdir(d)]: the names of the entries of [d]. *)
Definition os_listdir (d : list string) : M (list string) :=
  entries <- iterdir d ;; ret (map path_name entries).

Section AgentInsights.

(** [TweetAnalysisAgent._calculate_insights] catches what goes wrong in it
    and always returns a dict. *)
Variable _calculate_insights : PyVal -> PyVal.

(** [self.base_dir] of the agent. *)
Definition agent_base_dir : list string := ["data"].

(** [TweetAnalysisAgent.get_user_insights] *)
Definition get_user_insights (username : string) : M Dict :=
  try_except
    (let analyzed_dir := child agent_base_dir "analyzed" in
     names <- os_listdir analyzed_dir ;;
     let user_files := filter (fun f => starts_with username f = true) names in
     match user_files with
     | [] =>
         ret [status_error;
              ("message", PStr ("No analysis data found for " +:+ username))]
     | _ =>
         let latest_file := List.last (sorted_str user_files) "" in
         let filepath := child analyzed_dir latest_file in
         analysis_data <- read_json filepath ;;
         let insights := _calculate_insights analysis_data in
         ret [status_success;
              ("username", PStr username);
              ("insights", insights);
              ("analysis_file", PStr latest_file)]
     end)
    (fun e => ret [status_error; ("message", PStr (exn_str e))]).

End AgentInsights.

(** A calculation of insights that counts the tweets of an analysis. *)
Definition count_insights (analysis_data : PyVal) : PyVal :=
  match analysis_data with
  | PList l => PDict [("total_tweets", PInt (len l))]
  | _ => PDict []
  end.

(** Three analyses: two of alice, one of bob. *)
Definition analyzed_world : World :=
  mk_World
    (<[ ["data"; "analyzed"; "alice_analysis_20240102_090000.json"]
          := File 5 (Json (PList [sample_tweet; other_tweet])) ]>
       (<[ ["data"; "analyzed"; "alice_analysis_20240101_090000.json"]
             := File 9 (Json (PList [sample_tweet])) ]>
          (<[ ["data"; "analyzed"; "bob_analysis_20240103_090000.json"]
                := File 7 (Json (PList [])) ]>
             (<[ ["data"; "analyzed"] := Dir 3 ]>
                (<[ ["data"] := Dir 0 ]> ∅)))))
    sample_clock 0 no_fault.

Definition analyzed_report : Dict :=
  [status_success;
   ("username", PStr "alice");
   ("insights", PDict [("total_tweets", PInt 2)]);
   ("analysis_file", PStr "alice_analysis_20240102_090000.json")].

(** A raw file of alice and the directory of the analyses. *)
Definition raw_and_analyzed_world : World :=
  mk_World
    (<[ ["data"; "raw"; "alice_raw_20240101_120000.json"]
          := File 5 (Json (PList [sample_tweet])) ]>
       (<[ ["data"; "analyzed"] := Dir 4 ]>
          (<[ ["data"; "raw"] := Dir 3 ]>
             (<[ ["data"] := Dir 0 ]> ∅))))
    sample_clock 0 no_fault.

(** The analysis of alice in that world, every tweet taken as neutral. *)
Definition sample_analysis_run : Outcome Dict * World :=
  analyze_user_tweets (fun _ => plain_tweet "neutral") "alice" raw_and_analyzed_world.

(** The result a run returned. *)
Definition returned (o : Outcome Dict) : Dict :=
  match o with
  | Ok r => r
  | Raise _ => []
  end.

(** A generator of a section of the report that reports nothing. *)
Definition no_section (analysis_data : PyVal) : Outcome PyVal := Ok (PDict []).

(** The files and the bytes a table of [get_storage_statistics] counts. *)
Definition files_counted (d : list (string * (Z * Z))) : Z :=
  sum_Z (map (fun kv => kv.2.1) d).

Definition bytes_counted (d : list (string * (Z * Z))) : Z :=
  sum_Z (map (fun kv => kv.2.2) d).

(** The regular files below [d] whose name has an underscore. *)
Definition user_files_below (t : gmap (list string) Node) (d : list string)
    : list (list string) :=
  List.filter (fun p => contains "_" (path_name p)) (files_below t d).

(* ===== PROPERTIES ===== *)


Example strptime_ymd_ex1 : strptime_ymd "2024-02-29" = Some (mk_datetime 2024 2 29 0 0 0 0).
Proof. vm_compute. reflexivity. Qed.
Example strptime_ymd_ex2 : strptime_ymd "2023-02-29" = None.
Proof. vm_compute. reflexivity. Qed.
Example strptime_ymd_ex3 : strptime_ymd "2024-1-5" = Some (mk_datetime 2024 1 5 0 0 0 0).
Proof. vm_compute. reflexivity. Qed.
Example strptime_ymd_ex4 : strptime_ymd "raw" = None.
Proof. vm_compute. reflexivity. Qed.
Example strptime_ymd_ex5 : strptime_ymd "2024-01-011" = None.
Proof. vm_compute. reflexivity. Qed.
Example strptime_ymd_ex6 : strptime_ymd "2024-01-35" = None.
Proof. vm_compute. reflexivity. Qed.
Example strptime_ex1 : strptime_created_at "Mon Jan 01 05:30:00 +0000 2024" = Some (mk_datetime 2024 1 1 5 30 0 0).
Proof. vm_compute. reflexivity. Qed.
Example strptime_ex2 : strptime_created_at "mon  DEC  7 23:5:59 +0000 2024" = Some (mk_datetime 2024 12 7 23 5 59 0).
Proof. vm_compute. reflexivity. Qed.
Example strptime_ex3 : strptime_created_at "2024-01-01T05:30:00Z" = None.
Proof. vm_compute. reflexivity. Qed.
Example strptime_ex4 : strptime_created_at "Mon Jan 01 05:30:60 +0000 2024" = None.
Proof. vm_compute. reflexivity. Qed.
Example stamp_ex : strftime_stamp (mk_datetime 2024 1 5 7 8 9 123) = "20240105_070809".
Proof. vm_compute. reflexivity. Qed.
Example iso_ex : isoformat (mk_datetime 2024 1 5 7 8 9 123) = "2024-01-05T07:08:09.000123".
Proof. vm_compute. reflexivity. Qed.
Example str_int_ex : (str_int 0, str_int 42, str_int (-7), str_int 100) = ("0", "42", "-7", "100").
Proof. vm_compute. reflexivity. Qed.
Example ord_ex : _ymd2ord 2024 3 1 = 738946.
Proof. vm_compute. reflexivity. Qed.

(* ===================================================================== *)
(** * The monad *)
(* ===================================================================== *)

Lemma bind_ok {A B} (m : M A) (k : A -> M B) w a w1 :
  m w = (Ok a, w1) -> bind m k w = k a w1.
Proof. intros H. unfold bind. by rewrite H. Qed.

Lemma bind_raise {A B} (m : M A) (k : A -> M B) w e w1 :
  m w = (Raise e, w1) -> bind m k w = (Raise e, w1).
Proof. intros H. unfold bind. by rewrite H. Qed.

Lemma run_eq {A} (x : Outcome A * World) (a : A) : x.1 = Ok a -> x = (Ok a, x.2).
Proof. destruct x as [o w]. simpl. by intros ->. Qed.

(** A handler that returns makes the whole [try] return. *)
Lemma try_except_returns {A} (m : M A) (h : Exn -> M A) (P : A -> Prop) w :
  (forall a w1, m w = (Ok a, w1) -> P a) ->
  (forall e w1, exists a w2, h e w1 = (Ok a, w2) /\ P a) ->
  exists a w2, try_except m h w = (Ok a, w2) /\ P a.
Proof.
  intros Hm Hh. unfold try_except.
  destruct (m w) as [[a|e] w1] eqn:E.
  - exists a, w1. split; [done|]. by eapply Hm.
  - apply Hh.
Qed.

(* ===================================================================== *)
(** * TweetAnalysisAgent: the batch result *)
(* ===================================================================== *)

Section AgentFacts.

Variables (store_user_tweets analyze_user : string -> M PyVal).
Variable py_str : PyVal -> string.

Local Abbreviation run_user := (process_user store_user_tweets analyze_user py_str).
Local Abbreviation run_users :=
  (process_multiple_users store_user_tweets analyze_user py_str).

Lemma not_success_false v : not_success v = false -> v = PStr "success".
Proof.
  destruct v; simpl; try discriminate.
  intros H. apply negb_false_iff, String.eqb_eq in H. by subst.
Qed.

Lemma getitem_status v st : py_getitem v "status" = Ok st -> status_of v = Some st.
Proof.
  destruct v; simpl; try discriminate.
  destruct (dict_lookup "status" d); [|discriminate]. by intros [= ->].
Qed.

(** [process_user] returns for every user and every behaviour of the two
    stages: whatever they raise is turned into an error result. *)
Lemma process_user_total username w :
  exists v w', run_user username w = (Ok v, w') /\ user_result v.
Proof.
  unfold process_user.
  apply try_except_returns.
  2:{ intros e w1. eexists _, _. split; [reflexivity|]. by left. }
  intros v w1. unfold bind, lift, _fetch_and_store_tweets, _analyze_user_tweets,
    try_except, ret, now.
  destruct (store_user_tweets username w) as [[sr|e] wa]; simpl.
  2:{ intros [= <- <-]. by left. }
  destruct (py_getitem sr "status") as [st|] eqn:Est; [|discriminate].
  destruct (not_success st) eqn:Ens.
  { destruct (py_getitem sr "message"); [|discriminate]. intros [= <- <-]. by left. }
  destruct (analyze_user username wa) as [[ar|e] wb]; simpl.
  2:{ intros [= <- <-]. by left. }
  destruct (py_getitem ar "status") as [st'|] eqn:Est'; [|discriminate].
  destruct (not_success st') eqn:Ens'.
  { destruct (py_getitem ar "message"); [|discriminate]. intros [= <- <-]. by left. }
  intros [= <- <-]. right. split; [done|].
  apply not_success_false in Ens, Ens'. subst.
  exists sr, ar. repeat split; auto using getitem_status.
Qed.

Lemma user_result_is_result v : user_result v -> is_result v.
Proof. intros [H|[H _]]; [by right|by left]. Qed.

(** [gather] never raises and returns one outcome per task. *)
Lemma gather_total {A} (tasks : list (M A)) w :
  exists rs w', gather tasks w = (Ok rs, w') /\ length rs = length tasks.
Proof.
  revert w. induction tasks as [|t ts IH]; intros w; simpl.
  - by exists [], w.
  - destruct (t w) as [r w1]. destruct (IH w1) as (rs & w2 & -> & Hlen).
    exists (r :: rs), w2. simpl. by rewrite Hlen.
Qed.

(** The outcomes of the tasks of [process_user] are all results. *)
Lemma gather_process_user usernames w rs w' :
  gather (map run_user usernames) w = (Ok rs, w') ->
  Forall (fun r => exists v, r = Ok v /\ user_result v) rs.
Proof.
  revert w rs w'. induction usernames as [|u us IH]; intros w rs w'; simpl.
  - intros [= <- <-]. constructor.
  - destruct (process_user_total u w) as (v & w1 & -> & Hv).
    destruct (gather _ w1) as [[rs1|e] w2] eqn:E; [|discriminate].
    intros [= <- <-]. constructor; [by exists v|]. by eapply IH.
Qed.

Lemma combine_results_spec usernames : forall i results combined,
  (i + length usernames <= length results)%nat ->
  exists m,
    combine_results i usernames results combined = Ok m
    /\ dom m = list_to_set usernames ∪ dom combined
    /\ (forall u, u ∉ usernames -> m !! u = combined !! u)
    /\ (forall u, u ∈ usernames ->
          exists j r, usernames !! j = Some u /\ results !! (i + j)%nat = Some r
                      /\ m !! u = Some (recorded r)).
Proof.
  induction usernames as [|u us IH]; intros i results combined Hlen; simpl in *.
  - exists combined. split; [done|]. split; [set_solver|]. split; [done|].
    intros u Hu. by apply elem_of_nil in Hu.
  - destruct (results !! i) as [r|] eqn:Er.
    2:{ apply lookup_ge_None in Er. lia. }
    destruct (IH (S i) results (<[u := recorded r]> combined)) as (m & Hm & Hdom & Hout & Hin);
      [lia|].
    exists m. split.
    { destruct r; exact Hm. }
    split; [rewrite Hdom, dom_insert_L; set_solver|].
    split.
    { intros u' Hu'. rewrite Hout by set_solver.
      apply lookup_insert_ne. set_solver. }
    intros u' Hu'. destruct (decide (u' ∈ us)) as [Hus|Hus].
    + destruct (Hin u' Hus) as (j & r' & Hj & Hr' & Hmu).
      exists (S j), r'. simpl. split; [done|]. split; [|done].
      by replace (i + S j)%nat with (S i + j)%nat by lia.
    + assert (u' = u) as -> by set_solver.
      exists 0%nat, r. split; [done|]. rewrite Nat.add_0_r. split; [done|].
      rewrite Hout by done. apply lookup_insert_eq.
Qed.

(** ** C1 *)


End AgentFacts.

(* ===================================================================== *)
(** * Strings and time stamps *)
(* ===================================================================== *)

Lemma chars_app (a b : string) : chars (a +:+ b) = (chars a ++ chars b)%list.
Proof. unfold chars. induction a as [|c a IH]; simpl; [done|]. by rewrite IH. Qed.

Lemma chars_length (s : string) : length (chars s) = String.length s.
Proof. unfold chars. induction s as [|c s IH]; simpl; [done|]. by rewrite IH. Qed.

Lemma string_length_app (a b : string) :
  String.length (a +:+ b) = (String.length a + String.length b)%nat.
Proof. induction a as [|c a IH]; simpl; [done|]. by rewrite IH. Qed.

Lemma string_app_assoc (a b c : string) : (a +:+ b) +:+ c = a +:+ b +:+ c.
Proof.
  induction a as [|x a IH]; [done|].
  change (String x ((a +:+ b) +:+ c) = String x (a +:+ b +:+ c)). by rewrite IH.
Qed.

(** A name built as [prefix + middle + suffix] matches [prefix*suffix]. *)
Lemma fnmatch_star_built (prefix middle suffix : string) :
  fnmatch_star prefix suffix (prefix +:+ middle +:+ suffix) = true.
Proof.
  unfold fnmatch_star, starts_with, ends_with.
  rewrite !andb_true_iff, !bool_decide_eq_true, Nat.leb_le.
  rewrite !chars_app, !string_length_app. split; [split|lia].
  - by apply prefix_app_r.
  - rewrite app_assoc. by apply suffix_app_r.
Qed.

Lemma digit_char_inj (a b : Z) :
  0 <= a < 10 -> 0 <= b < 10 -> digit_char a = digit_char b -> a = b.
Proof.
  intros Ha Hb H. unfold digit_char in H.
  apply (f_equal nat_of_ascii) in H.
  rewrite !nat_ascii_embedding in H by lia. lia.
Qed.

Lemma pad2_inj (a b : Z) :
  0 <= a < 100 -> 0 <= b < 100 -> pad2 a = pad2 b -> a = b.
Proof.
  intros Ha Hb H. unfold pad2 in H. injection H as H1 H2.
  apply digit_char_inj in H1, H2; try (split; [apply Z.div_pos|apply Z.div_lt_upper_bound]; lia);
    try (apply Z.mod_pos_bound; lia).
  rewrite (Z.div_mod a 10), (Z.div_mod b 10) by lia. congruence.
Qed.

Lemma pad4_inj (a b : Z) :
  0 <= a < 10000 -> 0 <= b < 10000 -> pad4 a = pad4 b -> a = b.
Proof.
  intros Ha Hb H. unfold pad4 in H. injection H as H1 H2 H3 H4.
  apply digit_char_inj in H1, H2, H3, H4;
    try (apply Z.mod_pos_bound; lia);
    try (split; [apply Z.div_pos|apply Z.div_lt_upper_bound]; lia).
  assert (a = a / 1000 * 1000 + a / 100 mod 10 * 100 + a / 10 mod 10 * 10 + a mod 10) as ->.
  { Z.div_mod_to_equations. lia. }
  rewrite H1, H2, H3, H4. Z.div_mod_to_equations. lia.
Qed.

Lemma days_in_month_le (y m : Z) : _days_in_month y m <= 31.
Proof.
  unfold _days_in_month. destruct (_ && _); [lia|].
  destruct m as [|p|p]; [simpl; lia| |simpl; lia].
  do 4 (try destruct p as [p|p|]); simpl; lia.
Qed.

Lemma valid_datetime_bounds (t : datetime) :
  valid_datetime t = true ->
  0 <= year t < 10000 /\ 0 <= month t < 100 /\ 0 <= day t < 100
  /\ 0 <= hour t < 100 /\ 0 <= minute t < 100 /\ 0 <= second t < 100.
Proof.
  unfold valid_datetime, MINYEAR, MAXYEAR. rewrite !andb_true_iff, !Z.leb_le.
  intros H. destruct H as [[[[[[[[[[[[[? ?] ?] ?] ?] Hd] ?] ?] ?] ?] ?] ?] ?] ?].
  pose proof (days_in_month_le (year t) (month t)). lia.
Qed.

Lemma strftime_stamp_same t1 t2 :
  same_second t1 t2 -> strftime_stamp t1 = strftime_stamp t2.
Proof. unfold strftime_stamp. by intros (-> & -> & -> & -> & -> & ->). Qed.

Lemma strftime_stamp_inj t1 t2 suffix :
  valid_datetime t1 = true -> valid_datetime t2 = true ->
  strftime_stamp t1 +:+ suffix = strftime_stamp t2 +:+ suffix -> same_second t1 t2.
Proof.
  intros V1 V2 H. apply valid_datetime_bounds in V1, V2.
  unfold strftime_stamp in H. cbn in H.
  injection H as Hy1 Hy2 Hy3 Hy4 Hm1 Hm2 Hd1 Hd2 HH1 HH2 HM1 HM2 HS1 HS2.
  unfold same_second. repeat split.
  - apply pad4_inj; [lia|lia|]. unfold pad4. congruence.
  - apply pad2_inj; [lia|lia|]. unfold pad2. congruence.
  - apply pad2_inj; [lia|lia|]. unfold pad2. congruence.
  - apply pad2_inj; [lia|lia|]. unfold pad2. congruence.
  - apply pad2_inj; [lia|lia|]. unfold pad2. congruence.
  - apply pad2_inj; [lia|lia|]. unfold pad2. congruence.
Qed.

Lemma artifact_name_inj t1 t2 username kind :
  valid_datetime t1 = true -> valid_datetime t2 = true ->
  artifact_name t1 username kind = artifact_name t2 username kind ->
  same_second t1 t2.
Proof.
  intros V1 V2 H. unfold artifact_name in H.
  apply (inj (String.append username)), (inj (String.append "_")) in H.
  apply (inj (String.append kind)), (inj (String.append "_")) in H.
  by eapply strftime_stamp_inj.
Qed.

(* ===================================================================== *)
(** * File-system primitives *)
(* ===================================================================== *)

(** Creating directories reads neither the clock nor changes what fails. *)
Lemma mkdir_walk_env rest : forall pre w r w1,
  mkdir_walk pre rest w = (r, w1) ->
  clock w1 = clock w /\ ticks w1 = ticks w /\ io_fault w1 = io_fault w.
Proof.
  induction rest as [|c rest IH]; intros pre w r w1; simpl.
  - by intros [= <- <-].
  - destruct (fs w !! child pre c) as [[t ct|t]|].
    + by intros [= <- <-].
    + apply IH.
    + destruct (io_fault w (OpMkdir (child pre c))); [by intros [= <- <-]|].
      intros H. by apply IH in H.
Qed.

(** It touches only the directory asked for and its ancestors. *)
Lemma mkdir_walk_lookup_other rest : forall pre w r w1 q,
  mkdir_walk pre rest w = (r, w1) ->
  ~ q `prefix_of` (pre ++ rest) ->
  fs w1 !! q = fs w !! q.
Proof.
  induction rest as [|c rest IH]; intros pre w r w1 q; simpl.
  - by intros [= <- <-].
  - intros H Hq.
    assert (~ q `prefix_of` (child pre c ++ rest)) as Hq'.
    { unfold child. by rewrite <- app_assoc. }
    destruct (fs w !! child pre c) as [[t ct|t]|].
    + by injection H as <- <-.
    + by eapply IH.
    + destruct (io_fault w (OpMkdir (child pre c))); [by injection H as <- <-|].
      rewrite (IH _ _ _ _ _ H Hq'). simpl. apply lookup_insert_ne.
      intros <-. apply Hq. unfold child. exists rest. by rewrite <- app_assoc.
Qed.

(** When it returns, the directory is there. *)
Lemma mkdir_walk_ok_dir rest : forall pre w w1,
  rest <> [] ->
  mkdir_walk pre rest w = (Ok tt, w1) ->
  is_dir_in (fs w1) (pre ++ rest) = true.
Proof.
  induction rest as [|c rest IH]; intros pre w w1 Hne; [done|]. simpl.
  assert (forall wm tm, fs wm !! child pre c = Some (Dir tm) ->
            mkdir_walk (child pre c) rest wm = (Ok tt, w1) ->
            is_dir_in (fs w1) (pre ++ c :: rest) = true) as Hstep.
  { intros wm tm Hm Hrun. destruct rest as [|c' rest'].
    - simpl in Hrun. injection Hrun as <-. unfold is_dir_in, node_at.
      change (pre ++ [c])%list with (child pre c).
      destruct (child pre c) eqn:E; [by destruct pre|]. by rewrite Hm.
    - replace (pre ++ c :: c' :: rest')%list with (child pre c ++ c' :: rest')%list
        by (unfold child; by rewrite <- app_assoc).
      by eapply IH. }
  destruct (fs w !! child pre c) as [[t ct|t]|] eqn:E; [done|by eapply Hstep|].
  destruct (io_fault w (OpMkdir (child pre c))); [done|].
  eapply Hstep. simpl. apply lookup_insert_eq.
Qed.

(** The three ways [write_json] can end. *)
Lemma write_json_cases p v w :
  (exists e, write_json p v w = (Raise e, w))
  \/ (io_fault w (OpWrite p) = true
      /\ write_json p v w
         = (Raise (OSError (OpWrite p)),
            set_fs (insert p (File (stamp_us w) (Torn v))) w))
  \/ write_json p v w = (Ok tt, set_fs (insert p (File (stamp_us w) (Json v))) w).
Proof.
  unfold write_json.
  destruct (node_at (fs w) (parent p)) as [[?|?]|]; [by left; eexists| |by left; eexists].
  destruct (node_at (fs w) p) as [[?|?]|];
    [|by left; eexists|];
    (destruct (io_fault w (OpOpen p)); [by left; eexists|];
     destruct (io_fault w (OpWrite p)); [right; left|right; right]; done).
Qed.

(** A file that holds a complete document reads back as that document. *)
Lemma read_json_complete p t v w :
  p <> [] -> fs w !! p = Some (File t (Json v)) -> io_fault w (OpRead p) = false ->
  read_json p w = (Ok v, w).
Proof.
  intros Hp Hf Hio. unfold read_json, node_at. destruct p; [done|].
  by rewrite Hf, Hio.
Qed.

(* ===================================================================== *)
(** * DataManager: storing *)
(* ===================================================================== *)

Lemma path_name_child p name : path_name (child p name) = name.
Proof. unfold path_name, child. apply last_last. Qed.

Lemma parent_child p name : parent (child p name) = p.
Proof. unfold parent, child. apply removelast_last. Qed.

Lemma child_not_nil p name : child p name <> [].
Proof. unfold child. by destruct p. Qed.

Lemma tweet_dir_not_nil d username data_type : tweet_dir d username data_type <> [].
Proof. unfold tweet_dir. by destruct (String.eqb _ _). Qed.

(** [store_tweet_data] on a non-empty list, step by step. *)
Lemma store_tweet_data_run tweets username data_type w r1 w1 :
  tweets <> [] ->
  mkdir_parents (tweet_dir (clock w (ticks w)) username data_type) (tick w) = (r1, w1) ->
  store_tweet_data tweets username data_type w =
    match r1 with
    | Raise e => (Ok (store_error username e), w1)
    | Ok _ =>
        match write_json (store_target w username data_type) (PList tweets) (tick w1) with
        | (Ok _, w2) =>
            (Ok (store_success tweets username data_type
                   (store_target w username data_type)), w2)
        | (Raise e, w2) => (Ok (store_error username e), w2)
        end
    end.
Proof.
  intros Hne Hmk. destruct tweets as [|tw tweets]; [done|].
  unfold store_tweet_data, try_except, bind, now.
  rewrite Hmk. destruct r1 as [[]|e]; [|done].
  apply mkdir_walk_env in Hmk as (Hc & Ht & _). simpl in Hc, Ht.
  unfold store_target. rewrite Hc, Ht.
  destruct (write_json _ _ (tick w1)) as [[[]|e] w2]; [|done].
  unfold ret, store_success. by rewrite path_name_child.
Qed.


(** ** C10 *)

(** C10. For the empty tweet list [store_tweet_data] returns the error
    result "No tweets to store for <username>" and leaves the world as it
    was: no file is written and no directory is created. *)
Theorem store_tweet_data_empty :
  forall (username data_type : string) (w : World),
    store_tweet_data [] username data_type w
    = (Ok [("status", PStr "error");
           ("message", PStr ("No tweets to store for " +:+ username))], w).
Proof. reflexivity. Qed.

(** ** C3 *)

(** C3 as stated fails: with a disk that fills up during the write, the
    store returns an error result and the target path, absent before the
    call, holds the beginning of the document afterwards. *)
Lemma store_tweet_data_leaves_partial_file :
  fs torn_world !! sample_target = None
  /\ (store_tweet_data [sample_tweet] "alice" "raw" torn_world).1
     = Ok (store_error "alice" (OSError (OpWrite sample_target)))
  /\ fs (store_tweet_data [sample_tweet] "alice" "raw" torn_world).2 !! sample_target
     = Some (File (to_us (sample_clock 2)) (Torn (PList [sample_tweet]))).
Proof. vm_compute. done. Qed.

(** C3, amended. When the directories could be made and the file opened
    and the write then fails partway, [store_tweet_data] returns an
    error result (the exception does not reach the caller) and the target
    path holds the beginning of the document: the file is written in
    place, there is no temporary file and no rename. *)
Theorem store_tweet_data_write_fails :
  forall (tweets : list PyVal) (username data_type : string) (w : World),
    let target := store_target w username data_type in
    let made := mkdir_parents (tweet_dir (clock w (ticks w)) username data_type) (tick w) in
    tweets <> [] ->
    made.1 = Ok tt ->
    is_dir_in (fs made.2) target = false ->
    io_fault w (OpOpen target) = false ->
    io_fault w (OpWrite target) = true ->
    exists (w' : World) (t : Z),
      store_tweet_data tweets username data_type w
      = (Ok (store_error username (OSError (OpWrite target))), w')
      /\ dict_lookup "status" (store_error username (OSError (OpWrite target)))
         = Some (PStr "error")
      /\ fs w' !! target = Some (File t (Torn (PList tweets))).
Proof.
  intros tweets username data_type w target made Hne Hmk Hnd Hopen Hwrite.
  destruct made as [r1 w1] eqn:Emade. simpl in Hmk, Hnd. subst r1.
  rewrite (store_tweet_data_run _ _ _ _ _ _ Hne Emade).
  pose proof (mkdir_walk_ok_dir _ _ _ _ (tweet_dir_not_nil _ _ _) Emade) as Hdir.
  apply mkdir_walk_env in Emade as (_ & _ & Hio). simpl in Hio, Hdir.
  subst target. unfold store_target in *.
  unfold write_json. rewrite parent_child. simpl fs.
  unfold is_dir_in in Hdir, Hnd.
  destruct (node_at (fs w1) (tweet_dir _ _ _)) as [[?|?]|]; try done.
  simpl io_fault. rewrite Hio, Hopen, Hwrite.
  destruct (node_at (fs w1) (child _ _)) as [[?|?]|]; try done;
    (eexists _, _; split; [reflexivity|]; split; [done|]; simpl; apply lookup_insert_eq).
Qed.

Lemma store_tweet_data_write_fails_witness :
  exists (w' : World) (t : Z),
    store_tweet_data [sample_tweet] "alice" "raw" torn_world
    = (Ok (store_error "alice" (OSError (OpWrite (store_target torn_world "alice" "raw")))), w')
    /\ dict_lookup "status"
         (store_error "alice" (OSError (OpWrite (store_target torn_world "alice" "raw"))))
       = Some (PStr "error")
    /\ fs w' !! store_target torn_world "alice" "raw"
       = Some (File t (Torn (PList [sample_tweet]))).
Proof.
  apply (store_tweet_data_write_fails [sample_tweet] "alice" "raw" torn_world);
    [done | vm_compute; reflexivity | vm_compute; reflexivity
     | vm_compute; reflexivity | vm_compute; reflexivity].
Defined.

(** ** C8 *)


Lemma tweet_dir_inj d1 d2 username data_type :
  tweet_dir d1 username data_type = tweet_dir d2 username data_type ->
  strftime_date d1 = strftime_date d2.
Proof.
  unfold tweet_dir. intros H.
  destruct (String.eqb _ _); exact (f_equal (fun l => nth 1 l "") H).
Qed.



(* ===================================================================== *)
(** * Listing, globbing and the latest file *)
(* ===================================================================== *)

Lemma listdir_elem t d p :
  p ∈ listdir t d <-> is_Some (t !! p) /\ p <> [] /\ parent p = d.
Proof.
  unfold listdir. rewrite list_elem_of_filter, list_elem_of_fmap. split.
  - intros [[Hp Hd] ([q n] & -> & Hq)]. apply elem_of_map_to_list in Hq.
    simpl in *. eauto.
  - intros ([n Hn] & Hp & Hd). split; [done|].
    exists (p, n). split; [done|]. by apply elem_of_map_to_list.
Qed.

Lemma glob_in_elem t d prefix suffix p :
  p ∈ glob_in t d prefix suffix
  <-> is_dir_in t d = true /\ is_Some (t !! p) /\ p <> [] /\ parent p = d
      /\ fnmatch_star prefix suffix (path_name p) = true.
Proof.
  unfold glob_in. destruct (is_dir_in t d).
  - rewrite list_elem_of_filter, listdir_elem. naive_solver.
  - split; [by intros ?%elem_of_nil|]. by intros [? _].
Qed.

(** [max] returns the element whose key is strictly the largest, wherever
    it stands. *)
Lemma py_max_from_best {A} (key : A -> Z) (l : list A) : forall best,
  (forall y, y ∈ l -> y = best \/ key y < key best) ->
  py_max_from key best l = best.
Proof.
  induction l as [|x l IH]; intros best H; simpl; [done|].
  destruct (H x) as [->|Hlt]; [by left| |].
  - rewrite Z.ltb_irrefl. apply IH. intros y Hy. apply H. by right.
  - destruct (Z.ltb_spec (key best) (key x)); [lia|].
    apply IH. intros y Hy. apply H. by right.
Qed.

Lemma py_max_from_strict {A} (key : A -> Z) (l : list A) : forall best x,
  x ∈ l ->
  key best < key x ->
  (forall y, y ∈ l -> y = x \/ key y < key x) ->
  py_max_from key best l = x.
Proof.
  induction l as [|z l IH]; intros best x Hx Hb H; simpl.
  - by apply elem_of_nil in Hx.
  - destruct (H z) as [->|Hlt]; [by left| |].
    + destruct (Z.ltb_spec (key best) (key x)); [|lia].
      apply py_max_from_best. intros y Hy. apply H. by right.
    + apply elem_of_cons in Hx as [->|Hx]; [lia|].
      apply IH; [done| |intros y Hy; apply H; by right].
      destruct (key best <? key z); lia.
Qed.

Lemma py_max_strict {A} (key : A -> Z) (l : list A) x :
  x ∈ l ->
  (forall y, y ∈ l -> y = x \/ key y < key x) ->
  py_max key l = Some x.
Proof.
  destruct l as [|z l]; [by intros ?%elem_of_nil|]. intros Hx H. simpl. f_equal.
  destruct (H z) as [->|Hlt]; [by left| |].
  - apply py_max_from_best. intros y Hy. apply H. by right.
  - apply elem_of_cons in Hx as [->|Hx]; [lia|].
    apply py_max_from_strict; [done|done|]. intros y Hy. apply H. by right.
Qed.

(** The loop that takes the modification time of every candidate. *)
Lemma stat_all files : forall (acc : list (list string * Z)) w,
  (forall f, f ∈ files -> stat_mtime f w = (Ok (mtime_in (fs w) f), w)) ->
  for_each files acc (fun acc f => t <- stat_mtime f ;; ret (acc ++ [(f, t)])) w
  = (Ok (acc ++ map (fun f => (f, mtime_in (fs w) f)) files), w).
Proof.
  induction files as [|f files IH]; intros acc w H; simpl.
  - unfold ret. by rewrite app_nil_r.
  - unfold bind at 1. unfold bind at 1. rewrite (H f) by (by left). unfold ret at 1.
    rewrite IH by (intros g Hg; apply H; by right).
    by rewrite <- app_assoc.
Qed.

Lemma stat_mtime_present p w :
  is_Some (node_at (fs w) p) -> io_fault w (OpStat p) = false ->
  stat_mtime p w = (Ok (mtime_in (fs w) p), w).
Proof.
  intros [n Hn] Hio. unfold stat_mtime, mtime_in. rewrite Hn, Hio. by destruct n.
Qed.

(** [latest_by_mtime] picks the candidate that is strictly the newest. *)
Lemma latest_by_mtime_strict files x w :
  x ∈ files ->
  (forall f, f ∈ files -> is_Some (node_at (fs w) f) /\ io_fault w (OpStat f) = false) ->
  (forall f, f ∈ files -> f = x \/ mtime_in (fs w) f < mtime_in (fs w) x) ->
  latest_by_mtime files w = (Ok x, w).
Proof.
  intros Hx Hstat Hnew. unfold latest_by_mtime, bind.
  rewrite stat_all by (intros f Hf; apply stat_mtime_present; by apply Hstat).
  simpl. rewrite (py_max_strict snd _ (x, mtime_in (fs w) x)); [done| |].
  - apply list_elem_of_In, in_map_iff. exists x. split; [done|]. by apply list_elem_of_In.
  - intros [f m] Hf. apply list_elem_of_In, in_map_iff in Hf as (g & [= <- <-] & Hg).
    apply list_elem_of_In in Hg. destruct (Hnew g Hg) as [->|Hlt]; [by left|by right].
Qed.

Lemma write_json_env p v w r w1 :
  write_json p v w = (r, w1) ->
  clock w1 = clock w /\ ticks w1 = ticks w /\ io_fault w1 = io_fault w.
Proof.
  destruct (write_json_cases p v w) as [[e H]|[[_ H]|H]]; rewrite H; by intros [= <- <-].
Qed.

(** A write that returns has put the complete document at [p], below a
    directory that was there. *)
Lemma write_json_ok_inv p v w w1 :
  write_json p v w = (Ok tt, w1) ->
  is_dir_in (fs w) (parent p) = true
  /\ w1 = set_fs (insert p (File (stamp_us w) (Json v))) w.
Proof.
  unfold write_json, is_dir_in.
  destruct (node_at (fs w) (parent p)) as [[?|?]|]; try done.
  destruct (node_at (fs w) p) as [[?|?]|]; try done;
    destruct (io_fault w (OpOpen p)); try done;
    destruct (io_fault w (OpWrite p)); try done; by intros [= <-].
Qed.

Lemma read_back_written p v w :
  p <> [] -> io_fault w (OpRead p) = false ->
  read_json p (set_fs (insert p (File (stamp_us w) (Json v))) w)
  = (Ok v, set_fs (insert p (File (stamp_us w) (Json v))) w).
Proof.
  intros Hp Hio. eapply read_json_complete; [done| |done].
  simpl. apply lookup_insert_eq.
Qed.

(** ** C2 *)


(** The artifact [store_tweet_data] reports reads back as the stored list. *)
Lemma store_tweet_data_read_back tweets username data_type w r w' :
  store_tweet_data tweets username data_type w = (Ok r, w') ->
  dict_lookup "status" r = Some (PStr "success") ->
  io_fault w (OpRead (store_target w username data_type)) = false ->
  dict_lookup "filepath" r = Some (PStr (path_str (store_target w username data_type)))
  /\ read_json (store_target w username data_type) w' = (Ok (PList tweets), w').
Proof.
  intros Hrun Hst Hio. destruct tweets as [|tw tweets]; [by injection Hrun as <- <-|].
  destruct (mkdir_parents (tweet_dir (clock w (ticks w)) username data_type) (tick w))
    as [r1 w1] eqn:Emk.
  rewrite (store_tweet_data_run (tw :: tweets) _ _ _ _ _ ltac:(done) Emk) in Hrun.
  destruct r1 as [[]|e]; [|by injection Hrun as <- <-].
  apply mkdir_walk_env in Emk as (_ & _ & Hio1). simpl in Hio1.
  destruct (write_json _ _ (tick w1)) as [[[]|e] w2] eqn:Ew; [|by injection Hrun as <- <-].
  injection Hrun as <- <-. split; [done|].
  apply write_json_ok_inv in Ew as [_ ->].
  apply read_back_written; [apply child_not_nil|]. simpl. by rewrite Hio1.
Qed.

(** The same for [store_analysis_results]. *)
Lemma store_analysis_results_read_back analysis_data username w r w' :
  store_analysis_results analysis_data username w = (Ok r, w') ->
  dict_lookup "status" r = Some (PStr "success") ->
  io_fault w (OpRead (analysis_target w username)) = false ->
  dict_lookup "filepath" r = Some (PStr (path_str (analysis_target w username)))
  /\ read_json (analysis_target w username) w' = (Ok analysis_data, w').
Proof.
  intros Hrun Hst Hio. unfold store_analysis_results, try_except, bind, now in Hrun.
  destruct (mkdir_parents _ (tick w)) as [[[]|e] w1] eqn:Emk;
    [|by injection Hrun as <- <-].
  apply mkdir_walk_env in Emk as (Hc & Ht & Hio1). simpl in Hc, Ht, Hio1.
  rewrite Hc, Ht in Hrun. fold (analysis_target w username) in Hrun.
  destruct (write_json _ _ (tick w1)) as [[[]|e] w2] eqn:Ew; [|by injection Hrun as <- <-].
  injection Hrun as <- <-. split; [done|].
  apply write_json_ok_inv in Ew as [_ ->].
  apply read_back_written; [apply child_not_nil|]. simpl. by rewrite Hio1.
Qed.

Lemma child_neq p name : child p name <> p.
Proof.
  unfold child. intros H. apply (f_equal length) in H.
  rewrite length_app in H. simpl in H. lia.
Qed.

Lemma node_at_insert_ne t p q n : p <> q -> node_at (<[p := n]> t) q = node_at t q.
Proof. intros H. unfold node_at. destruct q; [done|]. by apply lookup_insert_ne. Qed.

(** One block of [retrieve_user_data], when the latest candidate is known. *)
Lemma retrieve_kind_latest base_dir kind username data w x v :
  x ∈ glob_in (fs w) (child base_dir kind) (username +:+ "_" +:+ kind +:+ "_") ".json" ->
  latest_by_mtime
    (glob_in (fs w) (child base_dir kind) (username +:+ "_" +:+ kind +:+ "_") ".json") w
  = (Ok x, w) ->
  read_json x w = (Ok v, w) ->
  retrieve_kind base_dir kind username data w = (Ok (data ++ [(kind, v)]), w).
Proof.
  intros Hin Hlatest Hread. unfold retrieve_kind, bind, glob.
  destruct (glob_in _ _ _ _) as [|f0 files0]; [by apply elem_of_nil in Hin|].
  by rewrite Hlatest, Hread.
Qed.

(** A report stored by [store_insights_report] is what [retrieve_user_data]
    returns for kind "insights", when it is strictly the newest candidate
    and the candidates can be inspected and read. *)
Lemma store_insights_report_round_trip base_dir insights_data username w r w' :
  store_insights_report base_dir insights_data username w = (Ok r, w') ->
  dict_lookup "status" r = Some (PStr "success") ->
  (forall p, io_fault w (OpStat p) = false) ->
  io_fault w (OpRead (insights_target base_dir w username)) = false ->
  (forall p, p ∈ glob_in (fs w) (child base_dir "insights")
                   (username +:+ "_" +:+ "insights" +:+ "_") ".json" ->
             mtime_in (fs w) p < stamp_us (tick w)) ->
  retrieve_user_data base_dir username "insights" w'
  = (Ok (retrieved username "insights" [("insights", insights_data)]), w').
Proof.
  intros Hrun Hst Hstat Hread Hold.
  unfold store_insights_report, try_except, bind, now in Hrun.
  fold (insights_target base_dir w username) in Hrun.
  set (target := insights_target base_dir w username) in *.
  destruct (write_json target insights_data (tick w)) as [[[]|e] w2] eqn:Ew;
    [|by injection Hrun as <- <-].
  injection Hrun as <- <-.
  apply write_json_ok_inv in Ew as [Hdir ->].
  set (w2 := set_fs _ (tick w)).
  assert (parent target = child base_dir "insights") as Hpar by apply parent_child.
  rewrite Hpar in Hdir. simpl in Hdir.
  assert (target <> []) as Hne by apply child_not_nil.
  assert (fs w2 !! target = Some (File (stamp_us (tick w)) (Json insights_data))) as Hnew
    by apply lookup_insert_eq.
  assert (mtime_in (fs w2) target = stamp_us (tick w)) as Hmt.
  { unfold mtime_in, node_at. destruct target; [done|]. by rewrite Hnew. }
  assert (is_dir_in (fs w2) (child base_dir "insights") = true) as Hdir2.
  { unfold is_dir_in. simpl. rewrite node_at_insert_ne; [done|].
    rewrite <- Hpar. unfold target, insights_target. rewrite parent_child. apply child_neq. }
  set (files := glob_in (fs w2) (child base_dir "insights")
                  (username +:+ "_" +:+ "insights" +:+ "_") ".json").
  assert (target ∈ files) as Hin.
  { apply glob_in_elem. repeat split; [done|by eexists|done|done|].
    unfold target, insights_target. rewrite path_name_child. unfold artifact_name.
    replace (username +:+ "_" +:+ "insights" +:+ "_"
             +:+ strftime_stamp (clock w (ticks w)) +:+ ".json")
      with ((username +:+ "_" +:+ "insights" +:+ "_")
            +:+ strftime_stamp (clock w (ticks w)) +:+ ".json")
      by (by rewrite !string_app_assoc).
    apply fnmatch_star_built. }
  assert (latest_by_mtime files w2 = (Ok target, w2)) as Hlatest.
  { apply latest_by_mtime_strict; [done| |].
    - intros f Hf. apply glob_in_elem in Hf as (_ & Hf & Hfne & _). split; [|apply Hstat].
      unfold node_at. by destruct f.
    - intros f Hf. destruct (decide (f = target)) as [->|Hft]; [by left|right].
      rewrite Hmt. apply glob_in_elem in Hf as (_ & Hf & Hfne & Hfp & Hfm).
      assert (fs w2 !! f = fs w !! f) as Hsame by (by apply lookup_insert_ne).
      assert (mtime_in (fs w2) f = mtime_in (fs w) f) as ->.
      { unfold mtime_in, node_at. destruct f; [done|]. by rewrite Hsame. }
      apply Hold. apply glob_in_elem. rewrite <- Hsame. done. }
  pose proof (retrieve_kind_latest base_dir "insights" username [] w2 target insights_data
                Hin Hlatest (read_json_complete _ _ _ _ Hne Hnew Hread)) as Hkind.
  unfold retrieve_user_data.
  change (str_in "insights" ["raw"; "all"]) with false.
  change (str_in "insights" ["analyzed"; "all"]) with false.
  change (str_in "insights" ["insights"; "all"]) with true.
  cbv iota. unfold try_except, bind. unfold ret at 1 2. by rewrite Hkind.
Qed.



(* ===================================================================== *)
(** * DataManager: retention *)
(* ===================================================================== *)

Lemma remove_tree_lookup p t q :
  remove_tree p t !! q = if under p q then None else t !! q.
Proof.
  unfold remove_tree. rewrite map_lookup_filter. simpl.
  destruct (t !! q) as [n|]; simpl; [|by destruct (under p q)].
  destruct (under p q); [by rewrite option_guard_False|by rewrite option_guard_True].
Qed.

Lemma node_at_lookup t q : q <> [] -> node_at t q = t !! q.
Proof. by destruct q. Qed.

(** Two entries of one directory: neither lies below the other. *)
Lemma sibling_not_under e e' :
  parent e = parent e' -> e <> [] -> e' <> [] -> e <> e' -> under e e' = false.
Proof.
  intros Hp He He' Hne. unfold under. apply bool_decide_eq_false. intros [k Hk].
  destruct (exists_last He) as (b & x & ->). destruct (exists_last He') as (b' & x' & ->).
  unfold parent in Hp. rewrite !removelast_last in Hp. subst b'.
  rewrite <- app_assoc in Hk. apply app_inv_head in Hk. simpl in Hk.
  injection Hk as -> Hk. by destruct k.
Qed.

Lemma is_dir_in_agree t t' p :
  node_at t' p = node_at t p -> is_dir_in t' p = is_dir_in t p.
Proof. unfold is_dir_in. by intros ->. Qed.

Lemma dir_expired_agree t t' cutoff p :
  node_at t' p = node_at t p -> dir_expired t' cutoff p = dir_expired t cutoff p.
Proof. unfold dir_expired. intros H. by rewrite (is_dir_in_agree _ _ _ H). Qed.

(** One turn of the first loop. *)
Lemma sweep_date_dir_run cutoff acc e w :
  io_fault w (OpRmtree e) = false ->
  sweep_date_dir cutoff acc e w
  = if dir_expired (fs w) cutoff e
    then (Ok (acc ++ [path_name e]), set_fs (remove_tree e) w)
    else (Ok acc, w).
Proof.
  intros Hio. unfold sweep_date_dir, dir_expired, bind, is_dir, is_dir_in, ret.
  destruct (node_at (fs w) e) as [[?|?]|] eqn:En; cbn [andb]; try done.
  destruct (str_in (path_name e) reserved_dirs); cbn [andb negb]; [done|].
  destruct (strptime_ymd (path_name e)) as [d|]; [|done].
  destruct (to_us d <? cutoff); [|done].
  unfold rmtree. by rewrite En, Hio.
Qed.

(** The first loop: it removes the expired entries of the listing, each
    with all it contains, and nothing else. *)
Lemma sweep_date_dirs_run base_dir cutoff entries : forall acc w,
  Forall (fun e => e <> [] /\ parent e = base_dir) entries ->
  NoDup entries ->
  (forall p, io_fault w (OpRmtree p) = false) ->
  exists w',
    for_each entries acc (sweep_date_dir cutoff) w
    = (Ok (acc ++ map path_name
                    (List.filter (dir_expired (fs w) cutoff) entries)), w')
    /\ clock w' = clock w /\ ticks w' = ticks w /\ io_fault w' = io_fault w
    /\ (forall q, (exists e, e ∈ entries /\ dir_expired (fs w) cutoff e = true
                             /\ e `prefix_of` q) -> fs w' !! q = None)
    /\ (forall q, (forall e, e ∈ entries -> dir_expired (fs w) cutoff e = true
                             -> ~ e `prefix_of` q) -> fs w' !! q = fs w !! q).
Proof.
  induction entries as [|e entries IH]; intros acc w Hsib Hnd Hio.
  - exists w. simpl. unfold ret. rewrite app_nil_r. repeat split; try done.
    intros q (e & He & _). by apply elem_of_nil in He.
  - apply Forall_cons in Hsib as [[Hne Hpar] Hsib].
    apply NoDup_cons in Hnd as [Hnin Hnd].
    simpl. unfold bind at 1. rewrite sweep_date_dir_run by done.
    destruct (dir_expired (fs w) cutoff e) eqn:Ee.
    + set (w1 := set_fs (remove_tree e) w).
      destruct (IH (acc ++ [path_name e]) w1 Hsib Hnd Hio)
        as (w' & Hrun & Hc & Ht & Hf & Hgone & Hkept).
      assert (forall e', e' ∈ entries ->
                dir_expired (fs w1) cutoff e' = dir_expired (fs w) cutoff e') as Hagree.
      { intros e' He'. apply dir_expired_agree.
        rewrite Forall_forall in Hsib. destruct (Hsib e' He') as [Hne' Hpar'].
        rewrite !node_at_lookup by done. simpl. rewrite remove_tree_lookup.
        rewrite sibling_not_under; [done|congruence|done|done|]. by intros ->. }
      assert (List.filter (dir_expired (fs w1) cutoff) entries
              = List.filter (dir_expired (fs w) cutoff) entries) as Hfilter.
      { apply filter_ext_in. intros e' He'. apply Hagree. by apply list_elem_of_In. }
      exists w'. rewrite Hrun, Hfilter. simpl. rewrite <- app_assoc. simpl.
      repeat split; try done.
      * intros q (e' & He' & Hx & Hpre).
        destruct (decide (Exists (fun e2 => dir_expired (fs w) cutoff e2 = true
                                            /\ e2 `prefix_of` q) entries)) as [Hyes|Hno].
        { apply Exists_exists in Hyes as (e2 & ? & ? & ?).
          apply Hgone. exists e2. by rewrite Hagree. }
        rewrite Exists_exists in Hno.
        rewrite Hkept.
        2:{ intros e2 He2 Hx2 Hp2. apply Hno. exists e2. by rewrite <- Hagree. }
        simpl. rewrite remove_tree_lookup.
        apply elem_of_cons in He' as [->|He']; [|exfalso; apply Hno; eauto].
        unfold under. by rewrite bool_decide_eq_true_2.
      * intros q Hq. rewrite Hkept.
        2:{ intros e2 He2 Hx2. apply Hq; [by right|]. by rewrite <- Hagree. }
        simpl. rewrite remove_tree_lookup. unfold under.
        rewrite bool_decide_eq_false_2; [done|]. apply Hq; [by left|done].
    + destruct (IH acc w Hsib Hnd Hio) as (w' & Hrun & Hc & Ht & Hf & Hgone & Hkept).
      exists w'. rewrite Hrun. repeat split; try done.
      * intros q (e' & He' & Hx & Hpre). apply Hgone.
        apply elem_of_cons in He' as [->|He']; [congruence|eauto].
      * intros q Hq. apply Hkept. intros e2 He2. apply Hq. by right.
Qed.

Lemma mtime_in_agree t t' p : node_at t' p = node_at t p -> mtime_in t' p = mtime_in t p.
Proof. unfold mtime_in. by intros ->. Qed.

Lemma is_file_in_agree t t' p :
  node_at t' p = node_at t p -> is_file_in t' p = is_file_in t p.
Proof. unfold is_file_in. by intros ->. Qed.

Lemma node_at_agree t t' p : t' !! p = t !! p -> node_at t' p = node_at t p.
Proof. intros H. unfold node_at. by destruct p. Qed.

(** [_is_file_old] on an entry that is there and can be inspected. *)
Lemma _is_file_old_run f cutoff w :
  is_Some (node_at (fs w) f) -> io_fault w (OpStat f) = false ->
  _is_file_old f cutoff w = (Ok (mtime_in (fs w) f <? cutoff), w).
Proof.
  intros Hf Hio. unfold _is_file_old, try_except, bind.
  by rewrite stat_mtime_present.
Qed.

(** One turn of the loop over the loose files. *)
Lemma sweep_loose_file_run cutoff acc f w :
  is_Some (node_at (fs w) f) ->
  io_fault w (OpStat f) = false -> io_fault w (OpUnlink f) = false ->
  (mtime_in (fs w) f < cutoff -> is_file_in (fs w) f = true) ->
  sweep_loose_file cutoff acc f w
  = if mtime_in (fs w) f <? cutoff
    then (Ok (acc ++ [path_str f]), set_fs (delete f) w)
    else (Ok acc, w).
Proof.
  intros Hf Hst Hun Hfile. unfold sweep_loose_file, bind.
  rewrite _is_file_old_run by done.
  destruct (Z.ltb_spec (mtime_in (fs w) f) cutoff) as [Hold|_]; [|done].
  specialize (Hfile Hold). unfold is_file_in in Hfile. unfold unlink.
  destruct (node_at (fs w) f) as [[?|?]|]; try done. by rewrite Hun.
Qed.

(** The loop over the loose files of one directory. *)
Lemma sweep_loose_files_run cutoff files : forall acc w,
  NoDup files ->
  Forall (fun f => f <> [] /\ is_Some (fs w !! f)
                   /\ (mtime_in (fs w) f < cutoff -> is_file_in (fs w) f = true)) files ->
  deletions_succeed w ->
  exists w',
    for_each files acc (sweep_loose_file cutoff) w
    = (Ok (acc ++ map path_str
                    (List.filter (fun f => mtime_in (fs w) f <? cutoff) files)), w')
    /\ clock w' = clock w /\ ticks w' = ticks w /\ io_fault w' = io_fault w
    /\ (forall q, q ∈ files -> mtime_in (fs w) q < cutoff -> fs w' !! q = None)
    /\ (forall q, ~ (q ∈ files /\ mtime_in (fs w) q < cutoff) -> fs w' !! q = fs w !! q).
Proof.
  induction files as [|f files IH]; intros acc w Hnd Hall Hio.
  - exists w. simpl. unfold ret. rewrite app_nil_r. repeat split; try done.
    intros q Hq. by apply elem_of_nil in Hq.
  - apply NoDup_cons in Hnd as [Hnin Hnd].
    apply Forall_cons in Hall as [(Hne & Hsome & Hfile) Hall].
    simpl. unfold bind at 1.
    rewrite sweep_loose_file_run;
      [|by rewrite node_at_lookup|apply Hio|apply Hio|done].
    destruct (Z.ltb_spec (mtime_in (fs w) f) cutoff) as [Hold|Hnew].
    + set (w1 := set_fs (delete f) w).
      assert (forall g, g ∈ files -> node_at (fs w1) g = node_at (fs w) g) as Hagree.
      { intros g Hg. apply node_at_agree. simpl. apply lookup_delete_ne. by intros ->. }
      assert (Forall (fun f => f <> [] /\ is_Some (fs w1 !! f)
                /\ (mtime_in (fs w1) f < cutoff -> is_file_in (fs w1) f = true)) files)
        as Hall1.
      { rewrite Forall_forall in Hall |- *. intros g Hg.
        destruct (Hall g Hg) as (Hgne & Hgs & Hgf). split; [done|].
        rewrite <- (node_at_lookup (fs w1) g), (Hagree g Hg), (node_at_lookup (fs w) g)
          by done.
        split; [done|].
        by rewrite (mtime_in_agree _ _ _ (Hagree g Hg)), (is_file_in_agree _ _ _ (Hagree g Hg)). }
      destruct (IH (acc ++ [path_str f]) w1 Hnd Hall1 Hio)
        as (w' & Hrun & Hc & Ht & Hf & Hgone & Hkept).
      assert (List.filter (fun f => mtime_in (fs w1) f <? cutoff) files
              = List.filter (fun f => mtime_in (fs w) f <? cutoff) files) as Hfilter.
      { apply filter_ext_in. intros g Hg. apply list_elem_of_In in Hg.
        by rewrite (mtime_in_agree _ _ _ (Hagree g Hg)). }
      exists w'. rewrite Hrun, Hfilter. simpl. rewrite <- app_assoc. simpl.
      repeat split; try done.
      * intros q Hq Hqold. apply elem_of_cons in Hq as [->|Hq].
        { rewrite Hkept; [simpl; apply lookup_delete_eq|]. by intros [? _]. }
        apply Hgone; [done|]. by rewrite (mtime_in_agree _ _ _ (Hagree q Hq)).
      * intros q Hq. rewrite Hkept.
        { simpl. apply lookup_delete_ne. intros <-. apply Hq. split; [by left|done]. }
        intros [Hqin Hqold]. apply Hq. split; [by right|].
        by rewrite <- (mtime_in_agree _ _ _ (Hagree q Hqin)).
    + destruct (IH acc w Hnd Hall Hio) as (w' & Hrun & Hc & Ht & Hf & Hgone & Hkept).
      exists w'. rewrite Hrun. repeat split; try done.
      * intros q Hq Hqold. apply elem_of_cons in Hq as [->|Hq]; [lia|by apply Hgone].
      * intros q Hq. apply Hkept. intros [Hqin Hqold]. apply Hq. split; [by right|done].
Qed.

Lemma glob_in_NoDup t d prefix suffix : NoDup (glob_in t d prefix suffix).
Proof.
  unfold glob_in, listdir. destruct (is_dir_in t d); [|constructor].
  apply NoDup_filter, NoDup_filter, NoDup_fst_map_to_list.
Qed.

(** Globbing sees only the directory and its entries. *)
Lemma glob_in_agree t t' d prefix suffix p :
  d <> [] -> t' !! d = t !! d ->
  (forall q, parent q = d -> t' !! q = t !! q) ->
  p ∈ glob_in t' d prefix suffix <-> p ∈ glob_in t d prefix suffix.
Proof.
  intros Hd Hdir Hent. rewrite !glob_in_elem.
  rewrite (is_dir_in_agree t t' d) by (by apply node_at_agree).
  split; intros (? & ? & ? & Hp & ?); repeat split; try done.
  - by rewrite <- Hent.
  - by rewrite Hent.
Qed.

Lemma child_inj p a b : child p a = child p b -> a = b.
Proof. unfold child. intros H. by apply app_inv_head in H as [= ->]. Qed.

Section LooseSweep.

Variable base_dir : list string.
Variable cutoff : Z.

(** The sweep of one flat directory. *)
Lemma sweep_subdir_run acc subdir w :
  deletions_succeed w ->
  (forall q, old_in base_dir cutoff (fs w) subdir q -> is_file_in (fs w) q = true) ->
  exists dl w',
    sweep_subdir base_dir cutoff acc subdir w = (Ok (acc ++ dl), w')
    /\ clock w' = clock w /\ ticks w' = ticks w /\ io_fault w' = io_fault w
    /\ (forall s, s ∈ dl <-> exists q, old_in base_dir cutoff (fs w) subdir q /\ s = path_str q)
    /\ (forall q, old_in base_dir cutoff (fs w) subdir q -> fs w' !! q = None)
    /\ (forall q, ~ old_in base_dir cutoff (fs w) subdir q -> fs w' !! q = fs w !! q).
Proof.
  intros Hio Hfile.
  set (files := glob_in (fs w) (child base_dir subdir) "" ".json").
  assert (sweep_subdir base_dir cutoff acc subdir w
          = for_each files acc (sweep_loose_file cutoff) w) as ->.
  { unfold sweep_subdir, bind, path_exists, glob. fold files.
    destruct (exists_in (fs w) (child base_dir subdir)) eqn:Eex; [done|].
    assert (files = []) as ->; [|done].
    unfold files, glob_in, is_dir_in. unfold exists_in in Eex.
    by destruct (node_at (fs w) (child base_dir subdir)). }
  destruct (sweep_loose_files_run cutoff files acc w) as (w' & Hrun & Hc & Ht & Hf & Hgone & Hkept).
  - apply glob_in_NoDup.
  - apply Forall_forall. intros f Hf. pose proof Hf as Hf'.
    apply glob_in_elem in Hf as (_ & Hs & Hne & _). repeat split; try done.
    intros Hold. by apply Hfile.
  - done.
  - eexists _, w'. split; [exact Hrun|]. repeat split; try done.
    + intros Hs. apply list_elem_of_In, in_map_iff in Hs as (q & <- & Hq).
      apply filter_In in Hq as [Hq Hold]. apply list_elem_of_In in Hq.
      exists q. split; [|done]. split; [done|]. by apply Z.ltb_lt.
    + intros (q & [Hq Hold] & ->). apply list_elem_of_In, in_map_iff. exists q.
      split; [done|]. apply filter_In. split; [by apply list_elem_of_In|by apply Z.ltb_lt].
    + intros q [Hq Hold]. by apply Hgone.
Qed.

(** What the sweep of [subdir] leaves alone: the other directories and
    their entries. *)
Lemma old_in_other t t' subdir subdir' :
  subdir' <> subdir ->
  (forall q, ~ old_in base_dir cutoff t subdir q -> t' !! q = t !! q) ->
  forall q, (old_in base_dir cutoff t' subdir' q <-> old_in base_dir cutoff t subdir' q)
            /\ (old_in base_dir cutoff t subdir' q -> is_file_in t' q = is_file_in t q).
Proof.
  intros Hne Hkept.
  assert (forall q, q = child base_dir subdir' \/ parent q = child base_dir subdir' ->
            t' !! q = t !! q) as Hsame.
  { intros q Hq. apply Hkept. intros [Hin _].
    apply glob_in_elem in Hin as (_ & _ & _ & Hpar & _).
    destruct Hq as [->|Hq].
    - rewrite parent_child in Hpar. by apply (child_neq base_dir subdir).
    - rewrite Hq in Hpar. by apply child_inj in Hpar. }
  assert (forall q, q ∈ glob_in t (child base_dir subdir') "" ".json" ->
            node_at t' q = node_at t q) as Hnode.
  { intros q Hq. apply node_at_agree, Hsame. right.
    by apply glob_in_elem in Hq as (_ & _ & _ & Hpar & _). }
  assert (forall q, q ∈ glob_in t' (child base_dir subdir') "" ".json"
                    <-> q ∈ glob_in t (child base_dir subdir') "" ".json") as Hglob.
  { intros q. apply glob_in_agree; [apply child_not_nil|apply Hsame; by left|].
    intros q' Hq'. apply Hsame. by right. }
  intros q. unfold old_in. split.
  - split; intros [Hq Hold]; (split; [by apply Hglob|]).
    + by rewrite <- (mtime_in_agree _ _ _ (Hnode q (proj1 (Hglob q) Hq))).
    + by rewrite (mtime_in_agree _ _ _ (Hnode q Hq)).
  - intros [Hq _]. by apply is_file_in_agree, Hnode.
Qed.

(** The second loop, over the flat directories. *)
Lemma sweep_subdirs_run subdirs : forall acc w,
  NoDup subdirs ->
  deletions_succeed w ->
  (forall subdir q, subdir ∈ subdirs -> old_in base_dir cutoff (fs w) subdir q ->
                    is_file_in (fs w) q = true) ->
  exists dl w',
    for_each subdirs acc (sweep_subdir base_dir cutoff) w = (Ok (acc ++ dl), w')
    /\ clock w' = clock w /\ ticks w' = ticks w /\ io_fault w' = io_fault w
    /\ (forall s, s ∈ dl <-> exists subdir q, subdir ∈ subdirs
                                /\ old_in base_dir cutoff (fs w) subdir q /\ s = path_str q)
    /\ (forall q, (exists subdir, subdir ∈ subdirs /\ old_in base_dir cutoff (fs w) subdir q) ->
                  fs w' !! q = None)
    /\ (forall q, ~ (exists subdir, subdir ∈ subdirs /\ old_in base_dir cutoff (fs w) subdir q) ->
                  fs w' !! q = fs w !! q).
Proof.
  induction subdirs as [|subdir subdirs IH]; intros acc w Hnd Hio Hfile.
  - exists [], w. simpl. unfold ret. rewrite app_nil_r. repeat split; try done.
    + by intros ?%elem_of_nil.
    + intros (s' & q & Hs & _). by apply elem_of_nil in Hs.
    + intros q (s' & Hs & _). by apply elem_of_nil in Hs.
  - apply NoDup_cons in Hnd as [Hnin Hnd].
    destruct (sweep_subdir_run acc subdir w Hio) as
      (dl1 & w1 & Hrun1 & Hc1 & Ht1 & Hf1 & Hdl1 & Hgone1 & Hkept1).
    { intros q Hq. eapply Hfile; [by left|done]. }
    assert (forall subdir', subdir' ∈ subdirs ->
              forall q, (old_in base_dir cutoff (fs w1) subdir' q <-> old_in base_dir cutoff (fs w) subdir' q)
                        /\ (old_in base_dir cutoff (fs w) subdir' q ->
                            is_file_in (fs w1) q = is_file_in (fs w) q)) as Hother.
    { intros subdir' Hs'. apply (old_in_other _ _ subdir); [by intros ->|done]. }
    destruct (IH (acc ++ dl1) w1 Hnd) as
      (dl2 & w2 & Hrun2 & Hc2 & Ht2 & Hf2 & Hdl2 & Hgone2 & Hkept2).
    { intros p. rewrite Hf1. apply Hio. }
    { intros subdir' q Hs' Hq. destruct (Hother subdir' Hs' q) as [Hiff Hfl].
      rewrite Hfl by (by apply Hiff). eapply Hfile; [by right|by apply Hiff]. }
    exists (dl1 ++ dl2), w2. simpl. unfold bind at 1. rewrite Hrun1, Hrun2.
    rewrite <- app_assoc. repeat split; try congruence.
    + intros Hs. apply elem_of_app in Hs as [Hs|Hs].
      * apply Hdl1 in Hs as (q & Hq & ->). exists subdir, q. split; [by left|done].
      * apply Hdl2 in Hs as (s' & q & Hs' & Hq & ->). exists s', q.
        split; [by right|]. split; [|done]. by apply (Hother s' Hs' q).
    + intros (s' & q & Hs' & Hq & ->). apply elem_of_app.
      apply elem_of_cons in Hs' as [->|Hs'].
      * left. apply Hdl1. by exists q.
      * right. apply Hdl2. exists s', q. split; [done|]. split; [|done].
        by apply (Hother s' Hs' q).
    + intros q (s' & Hs' & Hq).
      destruct (decide (exists_in (fs w2) q = true)) as [Hex|Hex].
      2:{ unfold exists_in in Hex. destruct Hq as [Hq _].
          apply glob_in_elem in Hq as (_ & _ & Hqne & _).
          rewrite node_at_lookup in Hex by done. by destruct (fs w2 !! q). }
      apply elem_of_cons in Hs' as [->|Hs'].
      * destruct (fs w2 !! q) as [n|] eqn:E2; [|done].
        assert (~ exists s2, s2 ∈ subdirs /\ old_in base_dir cutoff (fs w1) s2 q) as Hno.
        { intros (s2 & Hs2 & [Hq2 _]). apply glob_in_elem in Hq2 as (_ & Hsome & _).
          rewrite (Hgone1 q Hq) in Hsome. by destruct Hsome. }
        rewrite (Hkept2 q Hno), (Hgone1 q Hq) in E2. done.
      * apply Hgone2. exists s'. split; [done|]. by apply (Hother s' Hs' q).
    + intros q Hq. rewrite Hkept2, Hkept1; [done| |].
      * intros Hold. apply Hq. exists subdir. split; [by left|done].
      * intros (s' & Hs' & Hold). apply Hq. exists s'. split; [by right|].
        by apply (Hother s' Hs' q).
Qed.

End LooseSweep.

(** What every turn of a loop preserves, the loop preserves, however it
    ends. *)
Lemma for_each_invariant {A B} (I : World -> Prop) (l : list A) (body : B -> A -> M B) :
  (forall acc x w r w', x ∈ l -> I w -> body acc x w = (r, w') -> I w') ->
  forall acc w r w', I w -> for_each l acc body w = (r, w') -> I w'.
Proof.
  induction l as [|x l IH]; intros Hbody acc w r w' HI; simpl.
  - by intros [= <- <-].
  - unfold bind at 1. destruct (body acc x w) as [[acc'|e] w1] eqn:E.
    + apply IH; [|by eapply Hbody; [left|..]].
      intros a y w0 r0 w0' Hy. apply Hbody. by right.
    + intros [= <- <-]. by eapply Hbody; [left|..].
Qed.

Lemma rmtree_cases e w :
  (exists x, rmtree e w = (Raise x, w))
  \/ (is_dir_in (fs w) e = true /\ rmtree e w = (Ok tt, set_fs (remove_tree e) w)).
Proof.
  unfold rmtree, is_dir_in. destruct (node_at (fs w) e) as [[?|?]|]; try (by left; eexists).
  destruct (io_fault w (OpRmtree e)); [by left; eexists|by right].
Qed.

Lemma unlink_cases f w :
  (exists x, unlink f w = (Raise x, w))
  \/ unlink f w = (Ok tt, set_fs (delete f) w).
Proof.
  unfold unlink. destruct (node_at (fs w) f) as [[?|?]|]; try (by left; eexists).
  destruct (io_fault w (OpUnlink f)); [by left; eexists|by right].
Qed.

(** A turn of the first loop changes the world only by removing a
    directory whose name parses as a date. *)
Lemma sweep_date_dir_cases cutoff acc e w r w' :
  sweep_date_dir cutoff acc e w = (r, w') ->
  w' = w
  \/ (is_Some (strptime_ymd (path_name e)) /\ w' = set_fs (remove_tree e) w).
Proof.
  unfold sweep_date_dir, bind, is_dir, ret. 
  destruct (is_dir_in (fs w) e && negb (str_in (path_name e) reserved_dirs));
    [|intros [= ? <-]; by left].
  destruct (strptime_ymd (path_name e)) as [d|]; [|intros [= ? <-]; by left].
  destruct (to_us d <? cutoff); [|intros [= ? <-]; by left].
  destruct (rmtree_cases e w) as [[x ->]|[_ ->]]; intros [= ? <-]; [by left|right].
  split; [by eexists|done].
Qed.

Lemma _is_file_old_pure f cutoff w : exists b, _is_file_old f cutoff w = (Ok b, w).
Proof.
  unfold _is_file_old, try_except, bind, stat_mtime, ret.
  destruct (node_at (fs w) f) as [[t c|t]|]; try (by eexists);
    destruct (io_fault w (OpStat f)); by eexists.
Qed.

Lemma sweep_loose_file_cases cutoff acc f w r w' :
  sweep_loose_file cutoff acc f w = (r, w') ->
  w' = w \/ w' = set_fs (delete f) w.
Proof.
  unfold sweep_loose_file, bind.
  destruct (_is_file_old_pure f cutoff w) as [b ->].
  destruct b; [|intros [= ? <-]; by left].
  destruct (unlink_cases f w) as [[x ->]| ->]; intros [= ? <-]; [by left|by right].
Qed.

Lemma cutoff_of_pure n days_to_keep w r w' :
  cutoff_of n days_to_keep w = (r, w') -> w' = w.
Proof.
  unfold cutoff_of, raise, ret. destruct (_ || _); [by intros [= ? <-]|].
  destruct (_ || _); by intros [= ? <-].
Qed.

Lemma iterdir_pure d w r w' :
  iterdir d w = (r, w') ->
  w' = w /\ forall l, r = Ok l -> l = listdir (fs w) d.
Proof.
  unfold iterdir. destruct (node_at (fs w) d) as [[?|?]|]; try (by intros [= <- <-]).
  destruct (io_fault w (OpListdir d)); intros [= <- <-]; [done|].
  split; [done|]. by intros l [= <-].
Qed.

(** An entry of [base_dir] whose name does not parse as a date survives
    the whole sweep, however the sweep ends. *)
Lemma cleanup_sweep_keeps_unparsed base_dir days_to_keep w r w' p :
  cleanup_sweep base_dir days_to_keep w = (r, w') ->
  p <> [] -> parent p = base_dir -> strptime_ymd (path_name p) = None ->
  fs w' !! p = fs w !! p.
Proof.
  intros Hrun Hne Hpar Hparse. unfold cleanup_sweep, bind, now in Hrun.
  set (I := fun w0 : World => fs w0 !! p = fs w !! p).
  change (I w').
  assert (I (tick w)) as H0 by done.
  destruct (cutoff_of _ _ (tick w)) as [r1 w1] eqn:Ec.
  apply cutoff_of_pure in Ec as ->.
  destruct r1 as [cutoff|x]; [|by injection Hrun as _ <-].
  destruct (iterdir base_dir (tick w)) as [r2 w2] eqn:Ei.
  apply iterdir_pure in Ei as [-> Hl].
  destruct r2 as [entries|x]; [|by injection Hrun as _ <-].
  rewrite (Hl entries eq_refl) in Hrun. clear Hl.
  assert (forall r3 w3, for_each (listdir (fs (tick w)) base_dir) []
                          (sweep_date_dir cutoff) (tick w) = (r3, w3) -> I w3) as Hloop1.
  { intros r3 w3 E1. eapply (for_each_invariant I); [|exact H0|exact E1].
    intros acc e w0 r0 w0' He HI Hstep. apply listdir_elem in He as (_ & Hene & Hepar).
    apply sweep_date_dir_cases in Hstep as [->|[[d Hd] ->]]; [done|].
    unfold I in *. simpl. rewrite remove_tree_lookup, sibling_not_under; try done.
    - congruence.
    - intros ->. congruence. }
  destruct (for_each (listdir _ _) [] _ (tick w)) as [r3 w3] eqn:E1.
  specialize (Hloop1 _ _ eq_refl).
  destruct r3 as [dl1|x]; [|by injection Hrun as _ <-].
  destruct (for_each loose_dirs dl1 _ w3) as [r4 w4] eqn:E2.
  assert (I w4) as H4.
  { eapply (for_each_invariant I); [|exact Hloop1|exact E2].
    intros acc subdir w0 r0 w0' _ HI Hstep.
    unfold sweep_subdir, bind, path_exists, glob in Hstep.
    destruct (exists_in (fs w0) (child base_dir subdir)); [|by injection Hstep as _ <-].
    eapply (for_each_invariant I); [|exact HI|exact Hstep].
    intros acc' f w5 r5 w5' Hf HI5 Hstep5.
    apply glob_in_elem in Hf as (_ & _ & _ & Hfpar & _).
    apply sweep_loose_file_cases in Hstep5 as [->| ->]; [done|].
    unfold I in *. simpl. rewrite lookup_delete_ne; [done|].
    intros ->. rewrite Hfpar in Hpar. by apply (child_neq base_dir subdir). }
  destruct r4; by injection Hrun as _ <-.
Qed.

Lemma listdir_NoDup t d : NoDup (listdir t d).
Proof. unfold listdir. apply NoDup_filter, NoDup_fst_map_to_list. Qed.

Lemma loose_dirs_NoDup : NoDup loose_dirs.
Proof. unfold loose_dirs. repeat (apply NoDup_cons; split; [set_solver|]). constructor. Qed.

Lemma loose_dirs_unparsed subdir : subdir ∈ loose_dirs -> strptime_ymd subdir = None.
Proof.
  unfold loose_dirs. rewrite !elem_of_cons, elem_of_nil.
  intros [->|[->|[->|[->|[]]]]]; by vm_compute.
Qed.

(** An expired date directory is neither one of the flat directories nor
    above one of their entries. *)
Lemma expired_dir_not_above_loose t cutoff base_dir e subdir q :
  e <> [] -> parent e = base_dir -> dir_expired t cutoff e = true ->
  subdir ∈ loose_dirs ->
  q = child base_dir subdir \/ parent q = child base_dir subdir ->
  ~ e `prefix_of` q.
Proof.
  intros Hne Hpar Hexp Hsub Hq [k Hk].
  destruct (exists_last Hne) as (b & x & ->). unfold parent in Hpar.
  rewrite removelast_last in Hpar. subst b.
  assert (x = subdir) as ->.
  { destruct Hq as [->|Hq].
    - unfold child in Hk. rewrite <- app_assoc in Hk. apply app_inv_head in Hk.
      simpl in Hk. by injection Hk as ->.
    - destruct (decide (q = [])) as [->|Hqne]; [by destruct base_dir|].
      destruct (exists_last Hqne) as (b' & y & ->). unfold parent in Hq.
      rewrite removelast_last in Hq. subst b'. unfold child in Hk.
      rewrite <- !app_assoc in Hk. apply app_inv_head in Hk. simpl in Hk.
      by injection Hk as ->. }
  unfold dir_expired in Hexp. change (base_dir ++ [subdir]) with (child base_dir subdir) in Hexp.
  rewrite path_name_child, (loose_dirs_unparsed subdir Hsub) in Hexp.
  by rewrite andb_false_r in Hexp.
Qed.

Lemma old_in_agree base_dir cutoff t t' subdir :
  t' !! child base_dir subdir = t !! child base_dir subdir ->
  (forall q, parent q = child base_dir subdir -> t' !! q = t !! q) ->
  forall q, (old_in base_dir cutoff t' subdir q <-> old_in base_dir cutoff t subdir q)
            /\ (old_in base_dir cutoff t subdir q -> is_file_in t' q = is_file_in t q).
Proof.
  intros Hdir Hent.
  assert (forall q, q ∈ glob_in t (child base_dir subdir) "" ".json" ->
            node_at t' q = node_at t q) as Hnode.
  { intros q Hq. apply node_at_agree, Hent.
    by apply glob_in_elem in Hq as (_ & _ & _ & Hpar & _). }
  assert (forall q, q ∈ glob_in t' (child base_dir subdir) "" ".json"
                    <-> q ∈ glob_in t (child base_dir subdir) "" ".json") as Hglob.
  { intros q. apply glob_in_agree; [apply child_not_nil|done|done]. }
  intros q. unfold old_in. split.
  - split; intros [Hq Hold]; (split; [by apply Hglob|]).
    + by rewrite <- (mtime_in_agree _ _ _ (Hnode q (proj1 (Hglob q) Hq))).
    + by rewrite (mtime_in_agree _ _ _ (Hnode q Hq)).
  - intros [Hq _]. by apply is_file_in_agree, Hnode.
Qed.

(** The sweep when nothing fails: what it returns and what it leaves. *)
Lemma cleanup_sweep_exact base_dir days_to_keep w :
  -999999999 <= days_to_keep <= 999999999 ->
  0 <= cutoff_us w days_to_keep <= MAX_US ->
  is_dir_in (fs w) base_dir = true ->
  io_fault w (OpListdir base_dir) = false ->
  deletions_succeed w ->
  (forall q, expired_file base_dir (fs w) (cutoff_us w days_to_keep) q ->
             is_file_in (fs w) q = true) ->
  exists deleted_files w',
    cleanup_sweep base_dir days_to_keep w
    = (Ok (cutoff_us w days_to_keep, deleted_files), w')
    /\ (forall s, s ∈ deleted_files <->
          (exists p, expired_dir base_dir (fs w) (cutoff_us w days_to_keep) p
                     /\ s = path_name p)
          \/ (exists p, expired_file base_dir (fs w) (cutoff_us w days_to_keep) p
                        /\ s = path_str p))
    /\ (forall q, swept base_dir (fs w) (cutoff_us w days_to_keep) q -> fs w' !! q = None)
    /\ (forall q, ~ swept base_dir (fs w) (cutoff_us w days_to_keep) q ->
                  fs w' !! q = fs w !! q).
Proof.
  intros Hdays Hcut Hbase Hlist Hdel Hfile.
  set (cutoff := cutoff_us w days_to_keep) in *.
  set (entries := listdir (fs w) base_dir).
  destruct (sweep_date_dirs_run base_dir cutoff entries [] (tick w))
    as (w1 & Hrun1 & Hc1 & Ht1 & Hf1 & Hgone1 & Hkept1).
  { apply Forall_forall. intros e He. by apply listdir_elem in He as (_ & ? & ?). }
  { apply listdir_NoDup. }
  { intros p. apply Hdel. }
  simpl fs in Hrun1, Hgone1, Hkept1. simpl in Hf1.
  set (dl1 := map path_name (List.filter (dir_expired (fs w) cutoff) entries)) in *.
  assert (forall subdir, subdir ∈ loose_dirs ->
            forall q, (old_in base_dir cutoff (fs w1) subdir q
                       <-> old_in base_dir cutoff (fs w) subdir q)
                      /\ (old_in base_dir cutoff (fs w) subdir q ->
                          is_file_in (fs w1) q = is_file_in (fs w) q)) as Hloose.
  { intros subdir Hsub. apply old_in_agree.
    - apply Hkept1. intros e He Hexp. apply listdir_elem in He as (_ & ? & ?).
      eapply expired_dir_not_above_loose; eauto.
    - intros q Hq. apply Hkept1. intros e He Hexp. apply listdir_elem in He as (_ & ? & ?).
      eapply expired_dir_not_above_loose; eauto. }
  destruct (sweep_subdirs_run base_dir cutoff loose_dirs dl1 w1)
    as (dl2 & w2 & Hrun2 & Hc2 & Ht2 & Hf2 & Hdl2 & Hgone2 & Hkept2).
  { apply loose_dirs_NoDup. }
  { intros p. rewrite Hf1. apply Hdel. }
  { intros subdir q Hsub Hq. destruct (Hloose subdir Hsub q) as [Hiff Hfl].
    rewrite Hfl by (by apply Hiff). apply Hfile. exists subdir. split; [done|]. by apply Hiff. }
  exists (dl1 ++ dl2), w2. split; [|split; [|split]].
  - unfold cleanup_sweep, bind, now.
    assert (cutoff_of (clock w (ticks w)) days_to_keep (tick w) = (Ok cutoff, tick w)) as ->.
    { unfold cutoff_of. fold (cutoff_us w days_to_keep). fold cutoff.
      destruct (Z.ltb_spec days_to_keep (-999999999)); [lia|].
      destruct (Z.ltb_spec 999999999 days_to_keep); [lia|]. simpl.
      destruct (Z.ltb_spec cutoff 0); [lia|].
      destruct (Z.ltb_spec MAX_US cutoff); [lia|]. done. }
    assert (iterdir base_dir (tick w) = (Ok entries, tick w)) as ->.
    { unfold iterdir. simpl. unfold is_dir_in in Hbase.
      destruct (node_at (fs w) base_dir) as [[?|?]|]; try done. by rewrite Hlist. }
    rewrite Hrun1. cbv beta iota. change ([] ++ dl1) with dl1. by rewrite Hrun2.
  - intros s. rewrite elem_of_app. split.
    + intros [Hs|Hs].
      * left. apply list_elem_of_In, in_map_iff in Hs as (p & <- & Hp).
        apply filter_In in Hp as [Hp Hexp]. exists p. split; [|done].
        split; [by apply list_elem_of_In|done].
      * right. apply Hdl2 in Hs as (subdir & q & Hsub & Hq & ->). exists q.
        split; [|done]. exists subdir. split; [done|]. by apply (Hloose subdir Hsub q).
    + intros [(p & [Hp Hexp] & ->)|(p & (subdir & Hsub & Hq) & ->)].
      * left. apply list_elem_of_In, in_map_iff. exists p. split; [done|].
        apply filter_In. split; [by apply list_elem_of_In|done].
      * right. apply Hdl2. exists subdir, p. split; [done|]. split; [|done].
        by apply (Hloose subdir Hsub p).
  - intros q [(p & [Hp Hexp] & Hpre)|(subdir & Hsub & Hq)].
    + assert (fs w1 !! q = None) as Hq1 by (apply Hgone1; eauto).
      rewrite Hkept2; [done|]. intros (subdir & Hsub & [Hq _]).
      apply glob_in_elem in Hq as (_ & Hsome & _). rewrite Hq1 in Hsome. by destruct Hsome.
    + apply Hgone2. exists subdir. split; [done|]. by apply (Hloose subdir Hsub q).
  - intros q Hq. rewrite Hkept2, Hkept1; [done| |].
    + intros e He Hexp Hpre. apply Hq. left. exists e. split; [|done]. by split.
    + intros (subdir & Hsub & Hold). apply Hq. right. exists subdir.
      split; [done|]. by apply (Hloose subdir Hsub q).
Qed.

(** A removal that fails ends the first loop. *)
Lemma sweep_date_dir_fails cutoff acc e w :
  dir_expired (fs w) cutoff e = true -> io_fault w (OpRmtree e) = true ->
  sweep_date_dir cutoff acc e w = (Raise (OSError (OpRmtree e)), w).
Proof.
  unfold dir_expired, sweep_date_dir, bind, is_dir, ret. intros Hexp Hio.
  apply andb_true_iff in Hexp as [Hexp Hdate]. rewrite Hexp.
  destruct (strptime_ymd (path_name e)) as [d|]; [|done]. rewrite Hdate.
  apply andb_true_iff in Hexp as [Hdir _]. unfold rmtree. unfold is_dir_in in Hdir.
  destruct (node_at (fs w) e) as [[?|?]|]; try done. by rewrite Hio.
Qed.

Lemma sweep_date_dirs_abort cutoff entries : forall acc w,
  Forall (fun e => e <> [] /\ parent e = parent (hd [] entries)) entries ->
  NoDup entries ->
  (exists e, e ∈ entries /\ dir_expired (fs w) cutoff e = true
             /\ io_fault w (OpRmtree e) = true) ->
  exists x w', for_each entries acc (sweep_date_dir cutoff) w = (Raise x, w').
Proof.
  induction entries as [|e0 entries IH]; intros acc w Hsib Hnd (e & He & Hexp & Hio).
  - by apply elem_of_nil in He.
  - simpl. unfold bind at 1.
    apply NoDup_cons in Hnd as [Hnin Hnd]. apply Forall_cons in Hsib as [[Hne0 _] Hsib].
    simpl in Hsib.
    destruct (decide (e = e0)) as [->|Hne].
    { rewrite sweep_date_dir_fails by done. by eexists _, _. }
    apply elem_of_cons in He as [->|He]; [done|].
    destruct (sweep_date_dir cutoff acc e0 w) as [[acc'|x] w1] eqn:E0; [|by eexists _, _].
    rewrite Forall_forall in Hsib. destruct (Hsib e He) as [Hene Hepar].
    apply IH; [| done |].
    + apply Forall_forall. intros e' He'. destruct (Hsib e' He') as [? Hp'].
      split; [done|]. destruct entries as [|e1 entries']; [by apply elem_of_nil in He'|].
      simpl. destruct (Hsib e1) as [_ ->]; [by left|done].
    + exists e. split; [done|].
      apply sweep_date_dir_cases in E0 as [->|[_ ->]]; [done|]. simpl. split; [|done].
      rewrite <- Hexp. apply dir_expired_agree. rewrite !node_at_lookup by done.
      rewrite remove_tree_lookup, sibling_not_under; try done; congruence.
Qed.

Lemma cutoff_of_in_range w days_to_keep :
  -999999999 <= days_to_keep <= 999999999 ->
  0 <= cutoff_us w days_to_keep <= MAX_US ->
  cutoff_of (clock w (ticks w)) days_to_keep (tick w)
  = (Ok (cutoff_us w days_to_keep), tick w).
Proof.
  intros Hdays Hcut. unfold cutoff_of. fold (cutoff_us w days_to_keep).
  destruct (Z.ltb_spec days_to_keep (-999999999)); [lia|].
  destruct (Z.ltb_spec 999999999 days_to_keep); [lia|]. simpl.
  destruct (Z.ltb_spec (cutoff_us w days_to_keep) 0); [lia|].
  destruct (Z.ltb_spec MAX_US (cutoff_us w days_to_keep)); [lia|]. done.
Qed.

Lemma iterdir_listable base_dir w :
  is_dir_in (fs w) base_dir = true -> io_fault w (OpListdir base_dir) = false ->
  iterdir base_dir w = (Ok (listdir (fs w) base_dir), w).
Proof.
  intros Hbase Hlist. unfold iterdir. unfold is_dir_in in Hbase.
  destruct (node_at (fs w) base_dir) as [[?|?]|]; try done. by rewrite Hlist.
Qed.

(** The whole call is a [try] whose handler returns the error dict. *)
Lemma cleanup_old_data_unfold base_dir days_to_keep w :
  cleanup_old_data base_dir days_to_keep w
  = match cleanup_sweep base_dir days_to_keep w with
    | (Ok r, w') => (Ok (cleanup_success days_to_keep r.1 r.2), w')
    | (Raise e, w') => (Ok [status_error; ("message", PStr (exn_str e))], w')
    end.
Proof.
  unfold cleanup_old_data, try_except, bind.
  by destruct (cleanup_sweep base_dir days_to_keep w) as [[r|e] w'].
Qed.

(** ** C4 *)

(** C4 as stated fails: when the removal of a date partition fails, the
    sweep stops. The call returns an error result without any list, and the
    loose file that is older than the cutoff is still there. *)
Lemma cleanup_old_data_stops_at_failure :
  (cleanup_old_data ["data"] 30 stuck_world).1
  = Ok [("status", PStr "error");
        ("message", PStr "[Errno 5] Input/output error: 'data/2020-01-01'")]
  /\ expired_file ["data"] (fs stuck_world) (cutoff_us stuck_world 30)
       ["data"; "raw"; "old.json"]
  /\ fs (cleanup_old_data ["data"] 30 stuck_world).2 !! ["data"; "raw"; "old.json"]
     = Some (File 0 (Json (PList []))).
Proof.
  split; [by vm_compute|]. split; [|by vm_compute].
  exists "raw". split; [set_solver|]. split; [|by vm_compute].
  apply glob_in_elem. repeat split; try done; by vm_compute.
Qed.

(** C4, amended. For every corpus and every horizon, [cleanup_old_data]
    returns a status dict (it never raises) and leaves every entry of
    [base_dir] whose name does not parse as a date. When the cutoff is a
    valid instant, [base_dir] can be listed, no removal or inspection fails
    and the expired [*.json] entries are regular files, it reports success
    with the list of removed entries, and it removes exactly the
    directories in [base_dir], the reserved ones apart, whose name parses
    as a date before now minus [days_to_keep] days, with all they contain,
    and the [*.json] files of [raw], [analyzed], [processed] and [temp] last
    modified before the cutoff. A removal of an expired date directory that
    fails ends the sweep: the call reports an error and no list. *)
Theorem cleanup_old_data_sweep :
  forall (base_dir : list string) (days_to_keep : Z) (w : World),
    (exists r w',
        cleanup_old_data base_dir days_to_keep w = (Ok r, w')
        /\ has_status r
        /\ forall p, p <> [] -> parent p = base_dir ->
                     strptime_ymd (path_name p) = None ->
                     fs w' !! p = fs w !! p)
    /\ (-999999999 <= days_to_keep <= 999999999 ->
        0 <= cutoff_us w days_to_keep <= MAX_US ->
        is_dir_in (fs w) base_dir = true ->
        io_fault w (OpListdir base_dir) = false ->
        deletions_succeed w ->
        (forall q, expired_file base_dir (fs w) (cutoff_us w days_to_keep) q ->
                   is_file_in (fs w) q = true) ->
        exists deleted_files w',
          cleanup_old_data base_dir days_to_keep w
          = (Ok (cleanup_success days_to_keep (cutoff_us w days_to_keep) deleted_files), w')
          /\ (forall s, s ∈ deleted_files <->
                (exists p, expired_dir base_dir (fs w) (cutoff_us w days_to_keep) p
                           /\ s = path_name p)
                \/ (exists p, expired_file base_dir (fs w) (cutoff_us w days_to_keep) p
                              /\ s = path_str p))
          /\ (forall q, swept base_dir (fs w) (cutoff_us w days_to_keep) q ->
                        fs w' !! q = None)
          /\ (forall q, ~ swept base_dir (fs w) (cutoff_us w days_to_keep) q ->
                        fs w' !! q = fs w !! q))
    /\ (-999999999 <= days_to_keep <= 999999999 ->
        0 <= cutoff_us w days_to_keep <= MAX_US ->
        is_dir_in (fs w) base_dir = true ->
        io_fault w (OpListdir base_dir) = false ->
        (exists e, expired_dir base_dir (fs w) (cutoff_us w days_to_keep) e
                   /\ io_fault w (OpRmtree e) = true) ->
        exists r w',
          cleanup_old_data base_dir days_to_keep w = (Ok r, w')
          /\ dict_lookup "status" r = Some (PStr "error")
          /\ dict_lookup "deleted_files" r = None).
Proof.
  intros base_dir days_to_keep w. rewrite cleanup_old_data_unfold. split; [|split].
  - destruct (cleanup_sweep base_dir days_to_keep w) as [[r|e] w'] eqn:E;
      (eexists _, w'; split; [reflexivity|]; split;
       [|intros p ? ? ?; by eapply cleanup_sweep_keeps_unparsed]).
    + by left.
    + by right.
  - intros Hdays Hcut Hbase Hlist Hdel Hfile.
    destruct (cleanup_sweep_exact base_dir days_to_keep w Hdays Hcut Hbase Hlist Hdel Hfile)
      as (dl & w' & -> & Hdl & Hgone & Hkept).
    by exists dl, w'.
  - intros Hdays Hcut Hbase Hlist (e & [He Hexp] & Hio).
    unfold cleanup_sweep, bind, now.
    rewrite cutoff_of_in_range, iterdir_listable by done.
    change (fs (tick w)) with (fs w). cbv beta iota.
    destruct (sweep_date_dirs_abort (cutoff_us w days_to_keep) (listdir (fs w) base_dir)
                [] (tick w)) as (x & w' & ->).
    + apply Forall_forall. intros e' He'. apply listdir_elem in He' as (_ & ? & Hp).
      split; [done|]. destruct (listdir (fs w) base_dir) as [|e1 l] eqn:El;
        [by apply elem_of_nil in He|].
      simpl. assert (e1 ∈ listdir (fs w) base_dir) as H1 by (rewrite El; by left).
      apply listdir_elem in H1 as (_ & _ & ->). done.
    + apply listdir_NoDup.
    + by exists e.
    + by eexists _, w'.
Qed.

Lemma cleanup_old_data_sweep_witness :
  exists deleted_files w',
    cleanup_old_data ["data"] 30 stale_world
    = (Ok (cleanup_success 30 (cutoff_us stale_world 30) deleted_files), w')
    /\ (forall s, s ∈ deleted_files <->
          (exists p, expired_dir ["data"] (fs stale_world) (cutoff_us stale_world 30) p
                     /\ s = path_name p)
          \/ (exists p, expired_file ["data"] (fs stale_world) (cutoff_us stale_world 30) p
                        /\ s = path_str p))
    /\ (forall q, swept ["data"] (fs stale_world) (cutoff_us stale_world 30) q ->
                  fs w' !! q = None)
    /\ (forall q, ~ swept ["data"] (fs stale_world) (cutoff_us stale_world 30) q ->
                  fs w' !! q = fs stale_world !! q).
Proof.
  apply (proj1 (proj2 (cleanup_old_data_sweep ["data"] 30 stale_world))).
  - lia.
  - vm_compute. split; discriminate.
  - vm_compute. reflexivity.
  - reflexivity.
  - intros p. repeat split.
  - intros q (subdir & Hsub & [Hq Hold]).
    unfold loose_dirs in Hsub. rewrite !elem_of_cons, elem_of_nil in Hsub.
    destruct Hsub as [->|[->|[->|[->|[]]]]].
    + assert (glob_in (fs stale_world) (child ["data"] "raw") "" ".json"
              = [["data"; "raw"; "old.json"]]) as Hg by (vm_compute; reflexivity).
      rewrite Hg in Hq. apply list_elem_of_singleton in Hq as ->. vm_compute. reflexivity.
    + assert (glob_in (fs stale_world) (child ["data"] "analyzed") "" ".json" = [])
        as Hg by (vm_compute; reflexivity).
      rewrite Hg in Hq. by apply elem_of_nil in Hq.
    + assert (glob_in (fs stale_world) (child ["data"] "processed") "" ".json" = [])
        as Hg by (vm_compute; reflexivity).
      rewrite Hg in Hq. by apply elem_of_nil in Hq.
    + assert (glob_in (fs stale_world) (child ["data"] "temp") "" ".json" = [])
        as Hg by (vm_compute; reflexivity).
      rewrite Hg in Hq. by apply elem_of_nil in Hq.
Defined.

(* ===================================================================== *)
(** * AnalysisProcessor: aggregates and recommendations *)
(* ===================================================================== *)

Lemma len_cons {A} (x : A) (l : list A) : len (x :: l) = len l + 1.
Proof. unfold len. simpl length. lia. Qed.

(** Reading a counter after one more count. *)
Lemma get_default_incr {K} `{EqDecision K} (k k' : K) (d : list (K * Z)) :
  get_default k (incr k' d) 0 = get_default k d 0 + (if decide (k = k') then 1 else 0).
Proof.
  induction d as [|[k0 n] d IH]; simpl.
  - destruct (decide (k = k')); simpl; lia.
  - destruct (decide (k' = k0)) as [->|Hne]; simpl.
    + destruct (decide (k = k0)); lia.
    + destruct (decide (k = k0)) as [->|Hne0]; [|done].
      destruct (decide (k0 = k')); [congruence|lia].
Qed.

Lemma sentiment_distribution_count label tweets : forall d,
  get_default label (fold_left (fun d tweet => incr (overall_sentiment tweet) d) tweets d) 0
  = get_default label d 0 + label_count label tweets.
Proof.
  unfold label_count. induction tweets as [|t tweets IH]; intros d; simpl.
  - unfold len. simpl. lia.
  - rewrite IH, get_default_incr.
    destruct (decide (label = overall_sentiment t)) as [->|Hne].
    + rewrite String.eqb_refl, len_cons. lia.
    + destruct (String.eqb_spec (overall_sentiment t) label); [congruence|lia].
Qed.

Lemma dict_lookup_json_counts k d :
  dict_lookup k (map (fun kv : string * Z => (kv.1, PInt kv.2)) d)
  = option_map PInt (if decide (k ∈ d.*1) then Some (get_default k d 0) else None).
Proof.
  induction d as [|[k0 n] d IH]; simpl; [done|].
  destruct (String.eqb_spec k k0) as [->|Hne].
  - rewrite decide_True by (by left). by rewrite decide_True.
  - rewrite IH. rewrite (decide_False (P := k = k0)) by done.
    destruct (decide (k ∈ d.*1)) as [Hin|Hnin].
    + by rewrite decide_True by (by right).
    + rewrite decide_False; [done|]. by intros [?|?]%elem_of_cons.
Qed.

Lemma get_default_absent {K} `{EqDecision K} (k : K) (d : list (K * Z)) :
  k ∉ d.*1 -> get_default k d 0 = 0.
Proof.
  induction d as [|[k0 n] d IH]; simpl; [done|]. intros Hk.
  destruct (decide (k = k0)) as [->|_]; [exfalso; apply Hk; by left|].
  apply IH. intros ?. apply Hk. by right.
Qed.

(** [sentiment_dist.get('neutral', 0)] on the written distribution. *)
Lemma py_get_json_counts k d :
  py_get (json_counts d) k (PInt 0) = Ok (PInt (get_default k d 0)).
Proof.
  unfold py_get, json_counts. rewrite dict_lookup_json_counts.
  destruct (decide (k ∈ d.*1)); [done|]. simpl. by rewrite get_default_absent.
Qed.

Lemma Qlt_bool_inject_Z (a b : Z) : Qlt_bool (inject_Z a) (inject_Z b) = (a <? b).
Proof.
  unfold Qlt_bool, Qle_bool. simpl. rewrite !Z.mul_1_r.
  destruct (Z.leb_spec b a), (Z.ltb_spec a b); simpl; try done; lia.
Qed.

(** The recommendations for the analysis of a non-empty list. *)
Lemma recommendations_of_analysis tweets username n :
  _generate_recommendations
    (PDict [("username", PStr username);
            ("tweets", PList (map tweet_json tweets));
            ("summary", summary_json tweets);
            ("insights", insights_json tweets);
            ("timestamp", PStr (isoformat n))])
  = Ok (recommendations_for
          (Qlt_bool (avg_engagement tweets) (inject_Z 10))
          (Qlt_bool (media_percentage tweets) (inject_Z 30))
          (70 <? label_count "neutral" tweets)
          true).
Proof.
  unfold _generate_recommendations.
  change (py_get (PDict _) "summary" (PDict [])) with (Ok (summary_json tweets)).
  change (py_get (PDict _) "insights" (PDict [])) with (Ok (insights_json tweets)).
  cbv beta iota delta [obind].
  change (py_get (summary_json tweets) "average_engagement" (PInt 0))
    with (Ok (PFloat (avg_engagement tweets))).
  change (py_get (summary_json tweets) "media_percentage" (PInt 0))
    with (Ok (PFloat (media_percentage tweets))).
  change (py_get (summary_json tweets) "sentiment_distribution" (PDict []))
    with (Ok (json_counts (sentiment_distribution tweets))).
  change (py_get (insights_json tweets) "posting_frequency" (PDict []))
    with (Ok (_analyze_posting_frequency tweets)).
  cbv beta iota delta [obind py_lt_int py_num].
  rewrite py_get_json_counts. cbv beta iota delta [obind py_gt_int py_num].
  unfold sentiment_distribution. rewrite sentiment_distribution_count. simpl get_default.
  rewrite Qlt_bool_inject_Z, Z.add_0_l.
  change (truthy (_analyze_posting_frequency tweets)) with true.
  unfold recommendations_for, append_if.
  by destruct (Qlt_bool _ _), (Qlt_bool _ _), (70 <? _).
Qed.

Lemma rec_sentiment_in a b c d :
  In rec_sentiment (recommendations_for a b c d) <-> c = true.
Proof.
  unfold recommendations_for.
  destruct a, b, c, d; simpl; split; intros H; try done;
    try (by right; right; left); try (by right; left); try (by left);
    repeat (destruct H as [H|H]; try discriminate H); done.
Qed.

Lemma analysis_of_nonempty tweets username w :
  tweets <> [] ->
  _generate_comprehensive_analysis tweets username w
  = (Ok (PDict [("username", PStr username);
                ("tweets", PList (map tweet_json tweets));
                ("summary", summary_json tweets);
                ("insights", insights_json tweets);
                ("timestamp", PStr (isoformat (clock w (ticks w))))]), tick w).
Proof. by destruct tweets. Qed.

(** ** C5 *)




(** ** C7 *)




(* ===================================================================== *)
(** * AnalysisProcessor: the most active hour *)
(* ===================================================================== *)

(** [max] splits its argument around its result: what stands before has a
    strictly smaller key, what stands after has no larger key. *)
Lemma py_max_from_split {A} (key : A -> Z) (l : list A) : forall best,
  (py_max_from key best l = best /\ forall y, y ∈ l -> key y <= key best)
  \/ (exists l1 l2, l = l1 ++ py_max_from key best l :: l2
                    /\ key best < key (py_max_from key best l)
                    /\ (forall y, y ∈ l1 -> key y < key (py_max_from key best l))
                    /\ (forall y, y ∈ l2 -> key y <= key (py_max_from key best l))).
Proof.
  induction l as [|z l IH]; intros best; simpl.
  - left. split; [done|]. by intros y ?%elem_of_nil.
  - destruct (Z.ltb_spec (key best) (key z)) as [Hlt|Hge].
    + right. destruct (IH z) as [[Hx Hall]|(l1 & l2 & Hl & Hk & H1 & H2)].
      * exists [], l. rewrite Hx. repeat split; try done. by intros y ?%elem_of_nil.
      * exists (z :: l1), l2. split; [by rewrite Hl at 1|]. split; [lia|].
        split; [|done]. intros y [->|Hy]%elem_of_cons; [done|by apply H1].
    + destruct (IH best) as [[Hx Hall]|(l1 & l2 & Hl & Hk & H1 & H2)].
      * left. split; [done|]. intros y [->|Hy]%elem_of_cons; [lia|by apply Hall].
      * right. exists (z :: l1), l2. split; [by rewrite Hl at 1|]. split; [done|].
        split; [|done]. intros y [->|Hy]%elem_of_cons; [lia|by apply H1].
Qed.

Lemma py_max_split {A} (key : A -> Z) (l : list A) x :
  py_max key l = Some x ->
  exists l1 l2, l = l1 ++ x :: l2
                /\ (forall y, y ∈ l1 -> key y < key x)
                /\ (forall y, y ∈ l2 -> key y <= key x).
Proof.
  destruct l as [|z l]; [done|]. simpl. intros [= <-].
  destruct (py_max_from_split key l z) as [[Hx Hall]|(l1 & l2 & Hl & Hk & H1 & H2)].
  - exists [], l. rewrite Hx. repeat split; try done. by intros y ?%elem_of_nil.
  - exists (z :: l1), l2. split; [by rewrite Hl at 1|]. split; [|done].
    intros y [->|Hy]%elem_of_cons; [done|by apply H1].
Qed.

(** Counting a key that is there keeps the keys; a new key goes last. *)
Lemma incr_keys_in {K} `{EqDecision K} (k : K) (d : list (K * Z)) :
  k ∈ d.*1 -> (incr k d).*1 = d.*1.
Proof.
  induction d as [|[k0 n] d IH]; simpl; [by intros ?%elem_of_nil|].
  intros Hk. destruct (decide (k = k0)) as [->|Hne]; [done|]. simpl. f_equal.
  apply IH. by apply elem_of_cons in Hk as [?|?].
Qed.

Lemma incr_keys_notin {K} `{EqDecision K} (k : K) (d : list (K * Z)) :
  k ∉ d.*1 -> incr k d = d ++ [(k, 1)].
Proof.
  induction d as [|[k0 n] d IH]; simpl; [done|]. intros Hk.
  destruct (decide (k = k0)) as [->|Hne]; [exfalso; apply Hk; by left|].
  f_equal. apply IH. intros ?. apply Hk. by right.
Qed.

Lemma get_default_elem {K} `{EqDecision K} (k : K) (n : Z) (d : list (K * Z)) :
  NoDup d.*1 -> (k, n) ∈ d -> get_default k d 0 = n.
Proof.
  induction d as [|[k0 n0] d IH]; simpl; [by intros _ ?%elem_of_nil|].
  intros [Hnin Hnd]%NoDup_cons [[= -> ->]|Hin]%elem_of_cons.
  - by rewrite decide_True.
  - destruct (decide (k = k0)) as [->|_]; [|by apply IH].
    exfalso. apply Hnin. apply list_elem_of_fmap. by exists (k0, n).
Qed.

Lemma hist_snoc hours h : hist (hours ++ [h]) = incr h (hist hours).
Proof. unfold hist. by rewrite fold_left_app. Qed.

Lemma hour_count_snoc k hours h :
  hour_count k (hours ++ [h]) = hour_count k hours + (if decide (k = h) then 1 else 0).
Proof.
  unfold hour_count, len. rewrite List.filter_app, length_app. simpl.
  destruct (Z.eqb_spec k h), (decide (k = h)); simpl; try done; lia.
Qed.

Lemma hour_count_nonneg k hours : 0 <= hour_count k hours.
Proof. unfold hour_count, len. lia. Qed.

Lemma get_default_hist k hours : get_default k (hist hours) 0 = hour_count k hours.
Proof.
  induction hours as [|h hours IH] using rev_ind; [done|].
  by rewrite hist_snoc, get_default_incr, hour_count_snoc, IH.
Qed.

Lemma hist_keys hours k : k ∈ (hist hours).*1 <-> k ∈ hours.
Proof.
  induction hours as [|h hours IH] using rev_ind.
  - simpl. by split; intros ?%elem_of_nil.
  - rewrite hist_snoc, elem_of_app, list_elem_of_singleton, <- IH.
    destruct (decide (h ∈ (hist hours).*1)) as [Hin|Hnin].
    + rewrite incr_keys_in by done. split; [by left|]. by intros [?| ->].
    + rewrite incr_keys_notin by done. rewrite fmap_app, elem_of_app. simpl.
      by rewrite list_elem_of_singleton.
Qed.

Lemma hist_NoDup hours : NoDup (hist hours).*1.
Proof.
  induction hours as [|h hours IH] using rev_ind; [constructor|].
  rewrite hist_snoc. destruct (decide (h ∈ (hist hours).*1)) as [Hin|Hnin].
  - by rewrite incr_keys_in.
  - rewrite incr_keys_notin by done. rewrite fmap_app. simpl.
    apply NoDup_app. split; [done|]. split; [|apply NoDup_singleton].
    intros k Hk ->%list_elem_of_singleton. done.
Qed.

(** The keys of the histogram stand in the order in which the hours were
    first seen. *)
Lemma hist_order hours : forall k1 k k2,
  (hist hours).*1 = k1 ++ k :: k2 ->
  exists pre post, hours = pre ++ k :: post /\ (k ∉ pre)
                   /\ (forall h', h' ∈ pre -> h' ∈ k1).
Proof.
  induction hours as [|h hours IH] using rev_ind; intros k1 k k2 Hk.
  - by destruct k1.
  - rewrite hist_snoc in Hk. destruct (decide (h ∈ (hist hours).*1)) as [Hin|Hnin].
    + rewrite incr_keys_in in Hk by done.
      destruct (IH _ _ _ Hk) as (pre & post & -> & Hnp & Hsub).
      exists pre, (post ++ [h]). by rewrite <- app_assoc.
    + rewrite incr_keys_notin, fmap_app in Hk by done. simpl in Hk.
      destruct k2 as [|x k2 _] using rev_ind.
      * change (k1 ++ [k]) with (k1 ++ [k]) in Hk.
        apply app_inj_tail in Hk as [Hk1 ->].
        exists hours, []. split; [done|]. split; [by rewrite <- hist_keys|].
        intros h' Hh'. rewrite <- Hk1. by apply hist_keys.
      * rewrite app_comm_cons, app_assoc in Hk. apply app_inj_tail in Hk as [Hk <-].
        destruct (IH _ _ _ Hk) as (pre & post & -> & Hnp & Hsub).
        exists pre, (post ++ [h]). by rewrite <- app_assoc.
Qed.

Lemma hour_counts_hist tweets : hour_counts tweets = hist (parsed_hours tweets).
Proof.
  unfold hour_counts, posting_counts, hist.
  assert (forall acc : list (string * Z) * list (Z * Z),
            (fold_left
               (fun acc tweet =>
                  if String.eqb (created_at tweet) "" then acc
                  else match strptime_created_at (created_at tweet) with
                       | Some dt => (incr (date_isoformat dt) acc.1, incr (hour dt) acc.2)
                       | None => acc
                       end) tweets acc).2
            = fold_left (fun d h => incr h d) (parsed_hours tweets) acc.2) as H;
    [|apply H].
  induction tweets as [|t tweets IH]; intros acc; [done|]. simpl. rewrite IH.
  destruct (String.eqb (created_at t) ""); [done|].
  by destruct (strptime_created_at (created_at t)).
Qed.

(** ** C6 *)

(** C6 as stated fails: hours 5 and 3 tie with one item each, and the most
    active hour is 5, the hour seen first, not 3, the smaller one. *)
Lemma most_active_hour_tie_takes_first :
  hour_counts [dated_tweet "Mon Jan 01 05:00:00 +0000 2024";
               dated_tweet "Mon Jan 01 03:00:00 +0000 2024"]
  = [(5, 1); (3, 1)]
  /\ most_active_hour [dated_tweet "Mon Jan 01 05:00:00 +0000 2024";
                       dated_tweet "Mon Jan 01 03:00:00 +0000 2024"]
     = Some 5.
Proof. by vm_compute. Qed.

(** C6, amended. For every item sequence with at least one parseable
    [created_at], [most_active_hour] is an hour of maximal count, and among
    the hours of maximal count it is the one that occurs first in the
    sequence: every hour seen before its first occurrence has a strictly
    smaller count. *)
Theorem most_active_hour_first_maximal :
  forall tweets : list AnalyzedTweet,
    parsed_hours tweets <> [] ->
    exists (h : Z) (pre post : list Z),
      most_active_hour tweets = Some h
      /\ parsed_hours tweets = pre ++ h :: post
      /\ (h ∉ pre)
      /\ (forall h', hour_count h' (parsed_hours tweets)
                     <= hour_count h (parsed_hours tweets))
      /\ (forall h', h' ∈ pre -> hour_count h' (parsed_hours tweets)
                                 < hour_count h (parsed_hours tweets)).
Proof.
  intros tweets Hne. unfold most_active_hour. rewrite hour_counts_hist.
  set (hours := parsed_hours tweets) in *.
  destruct (py_max snd (hist hours)) as [[h c]|] eqn:Emax.
  2:{ destruct (hist hours) as [|x d] eqn:Ed; [|done].
      destruct hours as [|h0 hours0]; [done|].
      assert (h0 ∈ (hist (h0 :: hours0)).*1) as Hin by (apply hist_keys; by left).
      rewrite Ed in Hin. by apply elem_of_nil in Hin. }
  apply py_max_split in Emax as (d1 & d2 & Hd & H1 & H2). simpl in H1, H2.
  assert ((hist hours).*1 = d1.*1 ++ h :: d2.*1) as Hkeys
    by (by rewrite Hd, fmap_app).
  destruct (hist_order hours _ _ _ Hkeys) as (pre & post & Hhours & Hnp & Hsub).
  assert (forall k n, (k, n) ∈ hist hours -> hour_count k hours = n) as Hcount.
  { intros k n Hin. rewrite <- get_default_hist. apply get_default_elem; [|done].
    apply hist_NoDup. }
  assert (hour_count h hours = c) as Hc.
  { apply Hcount. rewrite Hd. apply elem_of_app. right. by left. }
  exists h, pre, post. simpl. repeat split; try done.
  - intros h'. rewrite Hc. destruct (decide (h' ∈ (hist hours).*1)) as [Hin|Hnin].
    + apply list_elem_of_fmap in Hin as ([k n] & -> & Hin). simpl.
      rewrite (Hcount _ _ Hin). rewrite Hd in Hin.
      apply elem_of_app in Hin as [Hin|[[= -> ->]|Hin]%elem_of_cons].
      * specialize (H1 _ Hin). simpl in H1. lia.
      * lia.
      * by specialize (H2 _ Hin).
    + rewrite <- get_default_hist, get_default_absent by done.
      rewrite <- Hc. apply hour_count_nonneg.
  - intros h' Hh'. rewrite Hc. apply Hsub in Hh'.
    apply list_elem_of_fmap in Hh' as ([k n] & -> & Hin). simpl.
    rewrite (Hcount k n); [by specialize (H1 _ Hin)|].
    rewrite Hd. apply elem_of_app. by left.
Qed.

Lemma most_active_hour_first_maximal_witness :
  exists (h : Z) (pre post : list Z),
    most_active_hour [dated_tweet "Mon Jan 01 05:00:00 +0000 2024";
                      dated_tweet "Mon Jan 01 03:00:00 +0000 2024"] = Some h
    /\ parsed_hours [dated_tweet "Mon Jan 01 05:00:00 +0000 2024";
                     dated_tweet "Mon Jan 01 03:00:00 +0000 2024"] = pre ++ h :: post
    /\ (h ∉ pre)
    /\ (forall h', hour_count h' (parsed_hours
                     [dated_tweet "Mon Jan 01 05:00:00 +0000 2024";
                      dated_tweet "Mon Jan 01 03:00:00 +0000 2024"])
                   <= hour_count h (parsed_hours
                        [dated_tweet "Mon Jan 01 05:00:00 +0000 2024";
                         dated_tweet "Mon Jan 01 03:00:00 +0000 2024"]))
    /\ (forall h', h' ∈ pre ->
          hour_count h' (parsed_hours
            [dated_tweet "Mon Jan 01 05:00:00 +0000 2024";
             dated_tweet "Mon Jan 01 03:00:00 +0000 2024"])
          < hour_count h (parsed_hours
              [dated_tweet "Mon Jan 01 05:00:00 +0000 2024";
               dated_tweet "Mon Jan 01 03:00:00 +0000 2024"])).
Proof.
  apply (most_active_hour_first_maximal
           [dated_tweet "Mon Jan 01 05:00:00 +0000 2024";
            dated_tweet "Mon Jan 01 03:00:00 +0000 2024"]).
  vm_compute. discriminate.
Defined.

(* ===================================================================== *)
(** * Every operation that reports a result returns *)
(* ===================================================================== *)

Lemma bind_ok_inv {A B} (m : M A) (k : A -> M B) w b w' :
  bind m k w = (Ok b, w') -> exists a w1, m w = (Ok a, w1) /\ k a w1 = (Ok b, w').
Proof.
  unfold bind. destruct (m w) as [[a|e] w1]; [|done]. intros H. by exists a, w1.
Qed.

(** A [try] whose body returns a result when it returns, and whose handler
    returns an error result, returns a result. *)
Lemma try_except_status (m : M Dict) (h : Exn -> Dict) w :
  (forall r w1, m w = (Ok r, w1) -> has_status r) ->
  (forall e, has_status (h e)) ->
  returns_status (try_except m (fun e => ret (h e))) w.
Proof.
  intros Hm Hh. unfold returns_status, try_except.
  destruct (m w) as [[r|e] w1] eqn:E.
  - exists r, w1. split; [done|]. by eapply Hm.
  - exists (h e), w1. split; [done|]. apply Hh.
Qed.

Lemma has_status_success rest : has_status (status_success :: rest).
Proof. by left. Qed.

Lemma has_status_error rest : has_status (status_error :: rest).
Proof. by right. Qed.

(** Take a run that returned apart, down to the [ret] that made the
    result. *)
Ltac run_inv H :=
  repeat
    (cbv beta in H;
     match type of H with
     | bind _ _ _ = (Ok _, _) =>
         let a := fresh "a" in
         let w1 := fresh "w" in
         let H1 := fresh "Hstep" in
         apply bind_ok_inv in H as (a & w1 & H1 & H)
     | ret _ _ = (Ok _, _) => injection H as <- <-
     | raise _ _ = (Ok _, _) => discriminate H
     | (if ?b then _ else _) _ = (Ok _, _) => destruct b
     | (let '(_, _) := ?x in _) _ = (Ok _, _) => destruct x
     | (match ?x with _ => _ end) _ = (Ok _, _) => destruct x
     end).

Ltac status_done :=
  first [apply has_status_success | apply has_status_error | assumption].

Ltac total_by_try :=
  apply try_except_status;
  [let r := fresh "r" in
   let w1 := fresh "w" in
   let H := fresh "Hrun" in
   intros r w1 H; run_inv H; status_done
  |intros e; apply has_status_error].

Section Totality.

Variable base_dir : list string.
Variable st_size : FileContent -> Z.
Variable analyze_single_tweet : PyVal -> AnalyzedTweet.
Variables key_metrics sentiment_insights engagement_insights content_insights
  : PyVal -> Outcome PyVal.

Lemma store_tweet_data_total tweets username data_type w :
  returns_status (store_tweet_data tweets username data_type) w.
Proof. unfold store_tweet_data. total_by_try. Qed.

Lemma store_analysis_results_total analysis_data username w :
  returns_status (store_analysis_results analysis_data username) w.
Proof. unfold store_analysis_results. total_by_try. Qed.

Lemma store_insights_report_total insights_data username w :
  returns_status (store_insights_report base_dir insights_data username) w.
Proof. unfold store_insights_report. total_by_try. Qed.

Lemma organize_data_by_date_total date w :
  returns_status (organize_data_by_date base_dir date) w.
Proof. unfold organize_data_by_date. total_by_try. Qed.

Lemma cleanup_old_data_total days_to_keep w :
  returns_status (cleanup_old_data base_dir days_to_keep) w.
Proof. unfold cleanup_old_data. total_by_try. Qed.

Lemma create_backup_total backup_name w :
  returns_status (create_backup base_dir backup_name) w.
Proof. unfold create_backup. total_by_try. Qed.

Lemma archive_data_total archive_name w :
  returns_status (archive_data base_dir archive_name) w.
Proof. unfold archive_data. total_by_try. Qed.

Lemma get_data_summary_total w :
  returns_status (get_data_summary base_dir st_size) w.
Proof. unfold get_data_summary. total_by_try. Qed.

Lemma validate_data_integrity_total w :
  returns_status (validate_data_integrity base_dir) w.
Proof. unfold validate_data_integrity. total_by_try. Qed.

Lemma retrieve_user_data_total username data_type w :
  returns_status (retrieve_user_data base_dir username data_type) w.
Proof. unfold retrieve_user_data. total_by_try. Qed.

Lemma get_storage_statistics_total w :
  returns_status (get_storage_statistics base_dir st_size) w.
Proof. unfold get_storage_statistics. total_by_try. Qed.

Lemma analyze_user_tweets_total username w :
  returns_status (analyze_user_tweets analyze_single_tweet username) w.
Proof. unfold analyze_user_tweets. total_by_try. Qed.

(** What an operation hands on from another one is a result as well. *)
Lemma returned_has_status (m : M Dict) w r w' :
  returns_status m w -> m w = (Ok r, w') -> has_status r.
Proof. intros (r0 & w0 & E & Hs) H. rewrite H in E. by injection E as <- <-. Qed.

Lemma export_data_total username export_format w :
  returns_status (export_data base_dir username export_format) w.
Proof.
  unfold export_data. apply try_except_status; [|intros e; apply has_status_error].
  intros r w1 Hrun. apply bind_ok_inv in Hrun as (user_data & w2 & Hret & Hrun).
  pose proof (returned_has_status _ _ _ _ (retrieve_user_data_total username "all" w) Hret).
  run_inv Hrun; status_done.
Qed.

Lemma generate_insights_report_total username w :
  returns_status
    (generate_insights_report analyze_single_tweet key_metrics sentiment_insights
       engagement_insights content_insights username) w.
Proof.
  unfold generate_insights_report.
  apply try_except_status; [|intros e; apply has_status_error].
  intros r w1 Hrun. apply bind_ok_inv in Hrun as (analysis_result & w2 & Hret & Hrun).
  pose proof (returned_has_status _ _ _ _ (analyze_user_tweets_total username w) Hret).
  run_inv Hrun; status_done.
Qed.

End Totality.

(** ** C9 *)

(** C9 as stated fails: [ensure_directories], a public operation of both
    components, returns no dict and lets the exception of a failing
    [mkdir] through, here the one raised because a regular file stands
    where [data/raw] should be. *)
Lemma ensure_directories_raises :
  (ensure_directories ["data"] blocked_world).1 = Raise (FileExistsError ["data"; "raw"]).
Proof. by vm_compute. Qed.

(** C9, amended. Every public operation that reports a result, namely
    [store_tweet_data], [store_analysis_results], [store_insights_report],
    [organize_data_by_date], [cleanup_old_data], [create_backup],
    [archive_data], [get_data_summary], [validate_data_integrity],
    [retrieve_user_data], [export_data] and [get_storage_statistics] of the
    data manager, [analyze_user_tweets] and [generate_insights_report] of
    the analysis processor, is total: in every world and for every input it
    returns a dict whose status is "success" or "error" and raises
    nothing. *)
Theorem result_operations_total :
  forall (base_dir : list string) (st_size : FileContent -> Z)
         (analyze_single_tweet : PyVal -> AnalyzedTweet)
         (key_metrics sentiment_insights engagement_insights content_insights
            : PyVal -> Outcome PyVal)
         (w : World),
    (forall tweets username data_type,
        returns_status (store_tweet_data tweets username data_type) w)
    /\ (forall analysis_data username,
          returns_status (store_analysis_results analysis_data username) w)
    /\ (forall insights_data username,
          returns_status (store_insights_report base_dir insights_data username) w)
    /\ (forall date, returns_status (organize_data_by_date base_dir date) w)
    /\ (forall days_to_keep, returns_status (cleanup_old_data base_dir days_to_keep) w)
    /\ (forall backup_name, returns_status (create_backup base_dir backup_name) w)
    /\ (forall archive_name, returns_status (archive_data base_dir archive_name) w)
    /\ returns_status (get_data_summary base_dir st_size) w
    /\ returns_status (validate_data_integrity base_dir) w
    /\ (forall username data_type,
          returns_status (retrieve_user_data base_dir username data_type) w)
    /\ (forall username export_format,
          returns_status (export_data base_dir username export_format) w)
    /\ returns_status (get_storage_statistics base_dir st_size) w
    /\ (forall username,
          returns_status (analyze_user_tweets analyze_single_tweet username) w)
    /\ (forall username,
          returns_status
            (generate_insights_report analyze_single_tweet key_metrics sentiment_insights
               engagement_insights content_insights username) w).
Proof.
  intros. repeat split; intros.
  - apply store_tweet_data_total.
  - apply store_analysis_results_total.
  - apply store_insights_report_total.
  - apply organize_data_by_date_total.
  - apply cleanup_old_data_total.
  - apply create_backup_total.
  - apply archive_data_total.
  - apply get_data_summary_total.
  - apply validate_data_integrity_total.
  - apply retrieve_user_data_total.
  - apply export_data_total.
  - apply get_storage_statistics_total.
  - apply analyze_user_tweets_total.
  - apply generate_insights_report_total.
Qed.

(* ===================================================================== *)
(** * Further properties of the code *)
(* ===================================================================== *)

Section Keeps.

Context (R : World -> World -> Prop) `{!Reflexive R, !Transitive R}.

Lemma keeps_ret {A} (a : A) : keeps R (ret a).
Proof. intros w. simpl. reflexivity. Qed.

Lemma keeps_raise {A} (e : Exn) : keeps R (@raise A e).
Proof. intros w. simpl. reflexivity. Qed.

Lemma keeps_lift {A} (o : Outcome A) : keeps R (lift o).
Proof. intros w. simpl. reflexivity. Qed.

Lemma keeps_bind {A B} (m : M A) (k : A -> M B) :
  keeps R m -> (forall a, keeps R (k a)) -> keeps R (bind m k).
Proof.
  intros Hm Hk w. unfold bind. specialize (Hm w).
  destruct (m w) as [[a|e] w1]; simpl in *; [|done].
  etrans; [exact Hm|apply Hk].
Qed.

Lemma keeps_try_except {A} (m : M A) (h : Exn -> M A) :
  keeps R m -> (forall e, keeps R (h e)) -> keeps R (try_except m h).
Proof.
  intros Hm Hh w. unfold try_except. specialize (Hm w).
  destruct (m w) as [[a|e] w1]; simpl in *; [done|].
  etrans; [exact Hm|apply Hh].
Qed.

Lemma keeps_for_each {A B} (l : list A) (body : B -> A -> M B) :
  (forall acc x, keeps R (body acc x)) -> forall acc, keeps R (for_each l acc body).
Proof.
  intros Hbody. induction l as [|x l IH]; intros acc; simpl.
  - apply keeps_ret.
  - apply keeps_bind; [apply Hbody|apply IH].
Qed.

(** A computation that hands back the world it was given. *)
Lemma keeps_pure {A} (m : M A) : (forall w, (m w).2 = w) -> keeps R m.
Proof. intros H w. rewrite H. reflexivity. Qed.

End Keeps.

Lemma stat_mtime_pure p w : (stat_mtime p w).2 = w.
Proof.
  unfold stat_mtime. destruct (node_at (fs w) p) as [[?|?]|]; [| |done];
    by destruct (io_fault w (OpStat p)).
Qed.

Lemma read_json_pure p w : (read_json p w).2 = w.
Proof.
  unfold read_json. destruct (node_at (fs w) p) as [[? c|?]|]; [|done|done].
  destruct (io_fault w (OpRead p)); [done|]. by destruct c.
Qed.

Global Instance same_tree_refl : Reflexive same_tree.
Proof. by intros w. Qed.

Global Instance same_tree_trans : Transitive same_tree.
Proof. intros w1 w2 w3 (?&?&?) (?&?&?). repeat split; congruence. Qed.

Lemma latest_by_mtime_keeps R `{!Reflexive R, !Transitive R} files :
  keeps R (latest_by_mtime files).
Proof.
  unfold latest_by_mtime. apply keeps_bind; [done|..].
  - apply keeps_for_each; [done..|]. intros acc f.
    apply keeps_bind; [done| |intros; by apply keeps_ret].
    apply keeps_pure; [done|]. apply stat_mtime_pure.
  - intros keyed. destruct (py_max snd keyed) as [[f ?]|]; [by apply keeps_ret|by apply keeps_raise].
Qed.

Lemma retrieve_kind_keeps R `{!Reflexive R, !Transitive R} base_dir kind username data :
  keeps R (retrieve_kind base_dir kind username data).
Proof.
  unfold retrieve_kind. apply keeps_bind; [done|by apply keeps_pure|].
  intros [|f files]; [by apply keeps_ret|].
  apply keeps_bind; [done|by apply latest_by_mtime_keeps|]. intros latest.
  apply keeps_bind; [done| |intros; by apply keeps_ret].
  apply keeps_pure; [done|]. apply read_json_pure.
Qed.

Lemma retrieve_user_data_keeps R `{!Reflexive R, !Transitive R} base_dir username data_type :
  keeps R (retrieve_user_data base_dir username data_type).
Proof.
  unfold retrieve_user_data.
  apply keeps_try_except; [done| |intros; by apply keeps_ret].
  apply keeps_bind; [done| |intros d1].
  { destruct (str_in _ _); [by apply retrieve_kind_keeps|by apply keeps_ret]. }
  apply keeps_bind; [done| |intros d2].
  { destruct (str_in _ _); [by apply retrieve_kind_keeps|by apply keeps_ret]. }
  apply keeps_bind; [done| |intros d3; by apply keeps_ret].
  destruct (str_in _ _); [by apply retrieve_kind_keeps|by apply keeps_ret].
Qed.

Lemma validate_data_integrity_keeps R `{!Reflexive R, !Transitive R} base_dir :
  keeps R (validate_data_integrity base_dir).
Proof.
  unfold validate_data_integrity.
  apply keeps_try_except; [done| |intros; by apply keeps_ret].
  apply keeps_bind; [done|by apply keeps_pure|]. intros files.
  apply keeps_bind; [done| |].
  - apply keeps_for_each; [done..|]. intros [[n valid] invalid] f.
    apply keeps_try_except; [done| |intros; by apply keeps_ret].
    apply keeps_bind; [done| |intros; by apply keeps_ret].
    apply keeps_pure; [done|]. apply read_json_pure.
  - intros [[n valid] invalid]. by apply keeps_ret.
Qed.

Section QueryFacts.

Variable base_dir : list string.
Variable st_size : FileContent -> Z.

Lemma stat_size_pure p w : (stat_size st_size p w).2 = w.
Proof.
  unfold stat_size. destruct (node_at (fs w) p) as [[?|?]|]; [| |done];
    by destruct (io_fault w (OpStat p)).
Qed.

Lemma get_data_summary_keeps R `{!Reflexive R, !Transitive R} :
  keeps R (get_data_summary base_dir st_size).
Proof.
  unfold get_data_summary.
  apply keeps_try_except; [done| |intros; by apply keeps_ret].
  apply keeps_bind; [done|by apply keeps_pure|]. intros items.
  apply keeps_bind; [done| |].
  - apply keeps_for_each; [done..|]. intros [[n counts] sizes] item.
    apply keeps_bind; [done|by apply keeps_pure|]. intros [|]; [|by apply keeps_ret].
    apply keeps_bind; [done| |intros; by apply keeps_ret].
    apply keeps_pure; [done|]. apply stat_size_pure.
  - intros [[n counts] sizes]. by apply keeps_ret.
Qed.

Lemma now_same_tree : keeps same_tree now.
Proof. by intros w. Qed.

Lemma week_before_pure n w : (week_before n w).2 = w.
Proof. unfold week_before. by destruct (_ <? _). Qed.

Lemma get_storage_statistics_same_tree :
  keeps same_tree (get_storage_statistics base_dir st_size).
Proof.
  unfold get_storage_statistics.
  apply keeps_try_except; [apply _| |intros; by apply keeps_ret].
  apply keeps_bind; [apply _|by apply keeps_pure|]. intros items.
  apply keeps_bind; [apply _| |].
  - apply keeps_for_each; [apply _..|]. intros [[[[n b] d] u] r] item.
    apply keeps_bind; [apply _|by apply keeps_pure|]. intros [|]; [|by apply keeps_ret].
    apply keeps_bind; [apply _| |intros size].
    { apply keeps_pure; [apply _|]. apply stat_size_pure. }
    apply keeps_bind; [apply _| |intros mtime].
    { apply keeps_pure; [apply _|]. apply stat_mtime_pure. }
    apply keeps_bind; [apply _|apply now_same_tree|]. intros n0.
    apply keeps_bind; [apply _| |intros; by apply keeps_ret].
    apply keeps_pure; [apply _|]. apply week_before_pure.
  - intros [[[[n b] d] u] r]. by apply keeps_ret.
Qed.

End QueryFacts.


Lemma read_json_readable p w :
  if readable w p then exists v, read_json p w = (Ok v, w)
  else exists e, read_json p w = (Raise e, w).
Proof.
  unfold readable, read_json. destruct (node_at (fs w) p) as [[t c|t]|]; [|by eexists..].
  destruct c; destruct (io_fault w (OpRead p)); simpl; by eexists.
Qed.

Lemma validate_loop w files : forall (n : Z) (valid invalid : list PyVal),
  for_each files (n, valid, invalid)
    (fun '(total_files, valid_files, invalid_files) json_file =>
       try_except
         (read_json json_file ;;;
          ret (total_files + 1,
               (valid_files ++ [PStr (path_str json_file)])%list,
               invalid_files))
         (fun e =>
            ret (total_files + 1, valid_files,
                 (invalid_files ++
                    [PDict [("file", PStr (path_str json_file));
                            ("error", PStr (exn_str e))]])%list))) w
  = (Ok (n + len files,
         valid ++ map (fun p => PStr (path_str p)) (List.filter (readable w) files),
         invalid ++ map (invalid_entry w)
                        (List.filter (fun p => negb (readable w p)) files)), w).
Proof.
  induction files as [|f files IH]; intros n valid invalid.
  - simpl. unfold ret, len. simpl. by rewrite Z.add_0_r, !app_nil_r.
  - cbn [for_each]. unfold bind at 1, try_except, bind at 1.
    pose proof (read_json_readable f w) as Hf.
    cbn [List.filter].
    destruct (readable w f) eqn:Er; cbn [negb map].
    + destruct Hf as [v ->]. unfold ret at 1. rewrite IH.
      rewrite <- app_assoc, len_cons. simpl.
      by replace (n + (len files + 1)) with (n + 1 + len files) by lia.
    + destruct Hf as [e Hf].
      assert (invalid_entry w f
              = PDict [("file", PStr (path_str f)); ("error", PStr (exn_str e))]) as ->
        by (unfold invalid_entry, read_error; by rewrite Hf).
      rewrite Hf. unfold ret at 1. rewrite IH.
      rewrite <- app_assoc, len_cons. simpl.
      by replace (n + (len files + 1)) with (n + 1 + len files) by lia.
Qed.

Lemma filter_split_length {A} (f : A -> bool) (l : list A) :
  (length (List.filter f l) + length (List.filter (fun x => negb (f x)) l) = length l)%nat.
Proof. induction l as [|x l IH]; simpl; [done|]. destruct (f x); simpl; lia. Qed.

(** X2. [validate_data_integrity] always answers with status "success".
    Of the entries below [base_dir] whose name ends in [.json] it lists as
    valid exactly those that are files holding a complete JSON document
    which can be read, in the order of the listing, and every other one as
    invalid with the message of its error; [total_files] counts both, and
    the world is left as it was. *)
Theorem validate_data_integrity_report :
  forall (base_dir : list string) (w : World),
    let files := rglob_in (fs w) base_dir ".json" in
    validate_data_integrity base_dir w = (Ok (validation_report w files), w)
    /\ len files
       = len (List.filter (readable w) files)
         + len (List.filter (fun p => negb (readable w p)) files).
Proof.
  intros base_dir w files. split.
  - unfold validate_data_integrity, try_except, bind at 1, rglob. fold files.
    unfold bind at 1. rewrite validate_loop. simpl. reflexivity.
  - unfold len. rewrite <- (filter_split_length (readable w) files). lia.
Qed.

(** [retrieve_user_data] answers with what it found or with an error, and
    hands back the world. *)
Lemma retrieve_user_data_cases base_dir username data_type w :
  (exists data,
      retrieve_user_data base_dir username data_type w
      = (Ok (retrieved username data_type data), w))
  \/ (exists e,
        retrieve_user_data base_dir username data_type w
        = (Ok [status_error; ("message", PStr (exn_str e))], w)).
Proof.
  pose proof (retrieve_user_data_keeps eq base_dir username data_type w) as Hw.
  revert Hw. unfold retrieve_user_data, try_except.
  match goal with |- context [bind ?m ?k w] => destruct (bind m k w) as [[r|e] w1] eqn:E end.
  - simpl. intros <-. left.
    apply bind_ok_inv in E as (d1 & w2 & _ & E).
    apply bind_ok_inv in E as (d2 & w3 & _ & E).
    apply bind_ok_inv in E as (d3 & w4 & _ & E).
    injection E as <- _. by exists d3.
  - simpl. intros <-. right. by exists e.
Qed.



(** X4. An export in format "json" that reports success has written, into
    the directory [base_dir/reports], which was there before, one file
    named after the user and the second the clock showed; the file holds
    exactly the data [retrieve_user_data] returns for that user and kind
    "all"; nothing else in the tree has changed. The operation creates no
    directory. *)
Theorem export_data_json_written :
  forall (base_dir : list string) (username : string) (w : World) (r : Dict) (w' : World),
    export_data base_dir username "json" w = (Ok r, w') ->
    dict_lookup "status" r = Some (PStr "success") ->
    exists data,
      retrieve_user_data base_dir username "all" w
      = (Ok (retrieved username "all" data), w)
      /\ is_dir_in (fs w) (child base_dir "reports") = true
      /\ fs w' = <[export_target base_dir w username :=
                     File (stamp_us (tick w)) (Json (PDict data))]> (fs w)
      /\ dict_lookup "filepath" r
         = Some (PStr (path_str (export_target base_dir w username))).
Proof.
  intros base_dir username w r w' Hrun Hst.
  unfold export_data, try_except, bind at 1 in Hrun.
  destruct (retrieve_user_data_cases base_dir username "all" w) as [[data Hr]|[e Hr]];
    rewrite Hr in Hrun; cbn in Hrun.
  - exists data. split; [done|].
    unfold bind, lift in Hrun.
    fold (export_target base_dir w username) in Hrun.
    destruct (write_json (export_target base_dir w username) (PDict data) (tick w))
      as [[[]|e] w2] eqn:Ew.
    + cbn in Hrun. injection Hrun as <- <-.
      apply write_json_ok_inv in Ew as [Hdir ->].
      unfold export_target in Hdir. rewrite parent_child in Hdir. by repeat split.
    + cbn in Hrun. injection Hrun as <- <-. discriminate Hst.
  - injection Hrun as <- <-. discriminate Hst.
Qed.

Lemma export_data_json_written_witness :
  exists data,
    retrieve_user_data ["data"] "alice" "all" reports_world
    = (Ok (retrieved "alice" "all" data), reports_world)
    /\ is_dir_in (fs reports_world) ["data"; "reports"] = true
    /\ fs (export_data ["data"] "alice" "json" reports_world).2
       = <[export_target ["data"] reports_world "alice" :=
             File (stamp_us (tick reports_world)) (Json (PDict data))]> (fs reports_world)
    /\ dict_lookup "filepath"
         [status_success;
          ("message", PStr "Exported data for alice in json format");
          ("filepath", PStr "data/reports/alice_export_20240105_070809.json");
          ("filename", PStr "alice_export_20240105_070809.json")]
       = Some (PStr (path_str (export_target ["data"] reports_world "alice"))).
Proof.
  apply (export_data_json_written ["data"] "alice" reports_world
           [status_success;
            ("message", PStr "Exported data for alice in json format");
            ("filepath", PStr "data/reports/alice_export_20240105_070809.json");
            ("filename", PStr "alice_export_20240105_070809.json")]).
  - apply run_eq. vm_compute. reflexivity.
  - reflexivity.
Defined.

Global Instance grown_below_refl B : Reflexive (grown_below B).
Proof. intros w. repeat split; [by left|done]. Qed.

Global Instance grown_below_trans B : Transitive (grown_below B).
Proof.
  intros w1 w2 w3 (H1 & K1 & F1) (H2 & K2 & F2). repeat split.
  - intros q Hq. destruct (H1 q Hq) as [E1|(N1 & P1 & t1 & D1)].
    + destruct (H2 q Hq) as [E2|(N2 & P2 & t2 & D2)].
      * left. congruence.
      * right. repeat split; [congruence|done|by exists t2].
    + destruct (H2 q Hq) as [E2|(N2 & P2 & t2 & D2)].
      * right. repeat split; [done|done|]. exists t1. congruence.
      * congruence.
  - intros q Hq. by apply K2, K1.
  - congruence.
Qed.

Lemma under_true p q : under p q = true <-> p `prefix_of` q.
Proof. unfold under. apply bool_decide_eq_true. Qed.

Lemma copied_tree_elem src dst t q n :
  (q, n) ∈ omap (fun kv : list string * Node =>
                   if under src kv.1 then Some ((dst ++ drop (length src) kv.1)%list, kv.2)
                   else None) (map_to_list t)
  <-> exists rest, q = (dst ++ rest)%list /\ t !! (src ++ rest)%list = Some n.
Proof.
  rewrite list_elem_of_omap. split.
  - intros ([k v] & Hkv & Hf). apply elem_of_map_to_list in Hkv. simpl in Hf.
    destruct (under src k) eqn:Eu; [|done]. injection Hf as <- <-.
    apply under_true in Eu as [rest ->]. exists rest.
    by rewrite drop_app_length.
  - intros (rest & -> & Hn). exists ((src ++ rest)%list, n). split.
    + by apply elem_of_map_to_list.
    + simpl. assert (under src (src ++ rest) = true) as ->
        by (apply under_true; by exists rest).
      by rewrite drop_app_length.
Qed.

(** What [copytree] adds lies at and below the destination, and mirrors the
    source. *)
Lemma copied_tree_lookup src dst t rest :
  copied_tree src dst t !! (dst ++ rest)%list = t !! (src ++ rest)%list.
Proof.
  unfold copied_tree. destruct (t !! (src ++ rest)%list) as [n|] eqn:E.
  - apply elem_of_list_to_map_1'.
    + intros y Hy. apply copied_tree_elem in Hy as (rest' & Heq & Hy).
      apply app_inv_head in Heq as <-. congruence.
    + apply copied_tree_elem. by exists rest.
  - apply not_elem_of_list_to_map_1. intros Hin.
    apply list_elem_of_fmap in Hin as ([q n] & Hq & Hin). simpl in Hq. subst q.
    apply copied_tree_elem in Hin as (rest' & Heq & Hn).
    apply app_inv_head in Heq as <-. congruence.
Qed.

Lemma copied_tree_outside src dst t q :
  ~ dst `prefix_of` q -> copied_tree src dst t !! q = None.
Proof.
  intros Hq. unfold copied_tree. apply not_elem_of_list_to_map_1. intros Hin.
  apply list_elem_of_fmap in Hin as ([q' n] & Hq' & Hin). simpl in Hq'. subst q'.
  apply copied_tree_elem in Hin as (rest & -> & _). apply Hq. by exists rest.
Qed.

Lemma copytree_grown B src dst :
  B `prefix_of` dst -> keeps (grown_below B) (copytree src dst).
Proof.
  intros HB w. unfold copytree.
  destruct (node_at (fs w) dst); [reflexivity|].
  destruct (io_fault w (OpCopy src)); [reflexivity|]. simpl.
  repeat split; simpl.
  - intros q Hq. left. apply lookup_union_r, copied_tree_outside.
    intros Hd. apply Hq. by etrans.
  - intros q [n Hn]. destruct (copied_tree src dst (fs w) !! q) as [n'|] eqn:E.
    + exists n'. by apply lookup_union_Some_l.
    + exists n. by rewrite lookup_union_r.
Qed.

Lemma copy2_grown B src dst :
  B `prefix_of` dst -> keeps (grown_below B) (copy2 src dst).
Proof.
  intros HB w. unfold copy2.
  destruct (node_at (fs w) src) as [[t c|t]|]; [|reflexivity..].
  destruct (io_fault w (OpCopy src)); [reflexivity|]. simpl.
  set (target := if is_dir_in (fs w) dst then child dst (path_name src) else dst).
  assert (B `prefix_of` target) as HT.
  { unfold target. destruct (is_dir_in (fs w) dst); [|done].
    etrans; [exact HB|]. by exists [path_name src]. }
  repeat split; simpl.
  - intros q Hq. left. apply lookup_insert_ne. by intros <-.
  - intros q Hn. destruct (decide (target = q)) as [<-|Hne].
    + rewrite lookup_insert_eq. by eexists.
    + by rewrite lookup_insert_ne.
Qed.

Lemma mkdir_walk_grown rest : forall pre w,
  grown_below (pre ++ rest) w (mkdir_walk pre rest w).2.
Proof.
  induction rest as [|c rest IH]; intros pre w; simpl; [reflexivity|].
  assert (pre ++ c :: rest = child pre c ++ rest)%list as Hp
    by (unfold child; by rewrite <- app_assoc).
  destruct (fs w !! child pre c) as [[t ct|t]|] eqn:E; simpl; [reflexivity| |].
  - rewrite Hp. apply IH.
  - destruct (io_fault w (OpMkdir (child pre c))); simpl; [reflexivity|].
    rewrite Hp. etrans; [|apply IH].
    repeat split; simpl.
    + intros q Hq. destruct (decide (child pre c = q)) as [<-|Hne].
      * right. repeat split; [done|by exists rest|]. rewrite lookup_insert_eq. by eexists.
      * left. by apply lookup_insert_ne.
    + intros q Hn. destruct (decide (child pre c = q)) as [<-|Hne].
      * rewrite lookup_insert_eq. by eexists.
      * by rewrite lookup_insert_ne.
Qed.

Lemma mkdir_parents_grown B : keeps (grown_below B) (mkdir_parents B).
Proof. intros w. apply (mkdir_walk_grown B [] w). Qed.

Lemma iterdir_keeps R `{!Reflexive R} d : keeps R (iterdir d).
Proof.
  intros w. unfold iterdir. destruct (node_at (fs w) d) as [[?|?]|]; try reflexivity.
  destruct (io_fault w (OpListdir d)); reflexivity.
Qed.

Lemma now_grown B : keeps (grown_below B) now.
Proof. intros w. repeat split; [by left|done]. Qed.

(** One turn of the loop of [create_backup]. *)
Lemma backup_item_grown B item :
  keeps (grown_below B)
    (isd <- is_dir item ;;
     if isd && negb (str_in (path_name item) ["backups"; "archived"; "logs"])
     then copytree item (child B (path_name item))
     else
       isf <- is_file item ;;
       if isf then copy2 item (child B (path_name item)) else ret tt).
Proof.
  assert (B `prefix_of` child B (path_name item)) as HB by (by exists [path_name item]).
  apply keeps_bind; [apply _|apply keeps_pure; [apply _|done]|]. intros isd.
  destruct (isd && _); [by apply copytree_grown|].
  apply keeps_bind; [apply _|apply keeps_pure; [apply _|done]|]. intros [|].
  - by apply copy2_grown.
  - apply keeps_ret; apply _.
Qed.

Lemma create_backup_run base_dir backup_name w :
  create_backup base_dir backup_name w
  = try_except
      (mkdir_parents (backup_dir_of base_dir w backup_name) ;;;
       items <- iterdir base_dir ;;
       for_each items tt
         (fun _ item =>
            isd <- is_dir item ;;
            if isd && negb (str_in (path_name item) ["backups"; "archived"; "logs"])
            then copytree item (child (backup_dir_of base_dir w backup_name) (path_name item))
            else
              isf <- is_file item ;;
              if isf
              then copy2 item (child (backup_dir_of base_dir w backup_name) (path_name item))
              else ret tt) ;;;
       ret [status_success;
            ("message",
             PStr ("Created backup: "
                   +:+ path_name (backup_dir_of base_dir w backup_name)));
            ("backup_path", PStr (path_str (backup_dir_of base_dir w backup_name)))])
      (fun e => ret [status_error; ("message", PStr (exn_str e))])
      (match backup_name with Some _ => w | None => tick w end).
Proof.
  unfold create_backup, backup_dir_of, try_except. rewrite path_name_child.
  destruct backup_name as [s|]; unfold bind at 1, ret at 1, now; reflexivity.
Qed.



Lemma child_prefix p name : p `prefix_of` child p name.
Proof. by exists [name]. Qed.

(** A turn writes only at and below [B/<name of the item>]. *)
Lemma backup_item_touches B item w q :
  ~ child B (path_name item) `prefix_of` q ->
  fs (backup_item B item w).2 !! q = fs w !! q.
Proof.
  intros Hq. unfold backup_item, bind, is_dir, is_file.
  destruct (is_dir_in (fs w) item && _).
  - unfold copytree. destruct (node_at (fs w) _); [done|].
    destruct (io_fault w _); [done|]. simpl.
    by apply lookup_union_r, copied_tree_outside.
  - destruct (is_file_in (fs w) item); [|done].
    unfold copy2. destruct (node_at (fs w) item) as [[t c|t]|]; [|done..].
    destruct (io_fault w _); [done|]. simpl.
    apply lookup_insert_ne. intros <-. apply Hq.
    destruct (is_dir_in (fs w) _); [apply child_prefix|done].
Qed.

Lemma backup_item_env B item w :
  clock (backup_item B item w).2 = clock w
  /\ ticks (backup_item B item w).2 = ticks w
  /\ io_fault (backup_item B item w).2 = io_fault w.
Proof.
  unfold backup_item, bind, is_dir, is_file.
  destruct (is_dir_in (fs w) item && _).
  - unfold copytree. destruct (node_at (fs w) _); [done|].
    by destruct (io_fault w _).
  - destruct (is_file_in (fs w) item); [|done].
    unfold copy2. destruct (node_at (fs w) item) as [[t c|t]|]; [|done..].
    by destruct (io_fault w _).
Qed.

(** A turn that returns has copied its item. *)
Lemma backup_item_file B item w w' :
  backup_item B item w = (Ok tt, w') ->
  item <> [] ->
  is_file_in (fs w) item = true ->
  is_dir_in (fs w) (child B (path_name item)) = false ->
  fs w' !! child B (path_name item) = fs w !! item.
Proof.
  intros Hrun Hne Hf Hd.
  assert (is_dir_in (fs w) item = false) as Hnd.
  { revert Hf. unfold is_file_in, is_dir_in.
    by destruct (node_at (fs w) item) as [[?|?]|]. }
  unfold backup_item, bind, is_dir, is_file in Hrun.
  rewrite Hnd in Hrun. cbn beta iota delta [andb] in Hrun. rewrite Hf in Hrun.
  unfold copy2 in Hrun. rewrite Hd in Hrun.
  revert Hf. unfold is_file_in.
  destruct (node_at (fs w) item) as [[t c|t]|] eqn:En; [|done..]. intros _.
  destruct (io_fault w _); [done|]. injection Hrun as <-. simpl.
  rewrite lookup_insert_eq. unfold node_at in En. by destruct item.
Qed.

Lemma backup_item_dir B item w w' rest n :
  backup_item B item w = (Ok tt, w') ->
  is_dir_in (fs w) item = true ->
  str_in (path_name item) ["backups"; "archived"; "logs"] = false ->
  fs w !! (item ++ rest)%list = Some n ->
  fs w' !! (child B (path_name item) ++ rest)%list = Some n.
Proof.
  intros Hrun Hd Hr Hn. unfold backup_item, bind, is_dir in Hrun.
  rewrite Hd, Hr in Hrun. simpl in Hrun. unfold copytree in Hrun.
  destruct (node_at (fs w) _); [done|]. destruct (io_fault w _); [done|].
  injection Hrun as <-. simpl. apply lookup_union_Some_l.
  by rewrite copied_tree_lookup.
Qed.

(** An entry of [base_dir] is not inside the backup directory, and the
    places of two entries in the backup are apart. *)
Lemma entry_outside_backup base_dir name item rest x :
  parent item = base_dir -> item <> [] ->
  (rest = [] \/ path_name item <> "backups") ->
  ~ child (child (child base_dir "backups") name) x `prefix_of` (item ++ rest)%list.
Proof.
  intros Hp Hne Hcase [k Hk].
  assert (item = child base_dir (path_name item)) as Hi.
  { unfold child, path_name. rewrite <- Hp. unfold parent.
    by apply app_removelast_last. }
  rewrite Hi in Hk. unfold child in Hk. rewrite <- !app_assoc in Hk.
  apply app_inv_head in Hk. simpl in Hk.
  destruct Hcase as [->|Hb]; [done|]. injection Hk as Hk _. done.
Qed.

Lemma backup_places_apart B x y q :
  x <> y -> child B x `prefix_of` q -> ~ child B y `prefix_of` q.
Proof.
  intros Hxy [k1 ->] [k2 Hk]. unfold child in Hk. rewrite <- !app_assoc in Hk.
  apply app_inv_head in Hk. simpl in Hk. by injection Hk as Hk _.
Qed.

Lemma entry_name_inj base_dir x y :
  parent x = base_dir -> parent y = base_dir -> x <> [] -> y <> [] ->
  path_name x = path_name y -> x = y.
Proof.
  intros Hx Hy Hxn Hyn Hn. unfold parent, path_name in *.
  rewrite (app_removelast_last "" Hxn), (app_removelast_last "" Hyn). congruence.
Qed.

Lemma node_at_eq t t' p : t' !! p = t !! p -> node_at t' p = node_at t p.
Proof. intros H. unfold node_at. by destruct p. Qed.

Section BackupLoop.

Variable base_dir : list string.
Variable name : string.

Local Abbreviation B := (child (child base_dir "backups") name).

(** The loop leaves alone what lies below the place of an entry that is
    not in the list. *)
Lemma backup_loop_apart L : forall w r w' q n,
  for_each L tt (fun _ item => backup_item B item) w = (r, w') ->
  (forall x, x ∈ L -> ~ child B (path_name x) `prefix_of` q) ->
  fs w !! q = n -> fs w' !! q = n.
Proof.
  induction L as [|x L IH]; intros w r w' q n Hrun Hq Hn.
  - by injection Hrun as _ <-.
  - cbn [for_each] in Hrun. unfold bind at 1 in Hrun.
    pose proof (backup_item_touches B x w q (Hq x ltac:(by left))) as Hx.
    destruct (backup_item B x w) as [[[]|e] wm]; simpl in Hx.
    + eapply IH; [exact Hrun| |congruence]. intros y Hy. apply Hq. by right.
    + injection Hrun as _ <-. congruence.
Qed.

Lemma backup_loop_copies L : forall w w' item,
  entries_of base_dir L ->
  for_each L tt (fun _ item => backup_item B item) w = (Ok tt, w') ->
  item ∈ L ->
  (is_file_in (fs w) item = true ->
   is_dir_in (fs w) (child B (path_name item)) = false ->
   fs w' !! child B (path_name item) = fs w !! item)
  /\ (is_dir_in (fs w) item = true ->
      str_in (path_name item) ["backups"; "archived"; "logs"] = false ->
      forall rest n, fs w !! (item ++ rest)%list = Some n ->
                     fs w' !! (child B (path_name item) ++ rest)%list = Some n).
Proof.
  induction L as [|x L IH]; intros w w' item [Hnd Hent] Hrun Hin;
    [by apply elem_of_nil in Hin|].
  apply NoDup_cons in Hnd as [Hx HndL].
  assert (entries_of base_dir L) as HL.
  { split; [done|]. intros y Hy. apply Hent. by right. }
  cbn [for_each] in Hrun. unfold bind at 1 in Hrun.
  destruct (backup_item B x w) as [[[]|e] wm] eqn:Ex; [|done].
  destruct (Hent x ltac:(by left)) as [Hxp Hxn].
  assert (forall y, y ∈ L -> path_name y <> path_name x) as Hnames.
  { intros y Hy Heq. destruct (Hent y ltac:(by right)) as [Hyp Hyn].
    apply Hx. by rewrite <- (entry_name_inj base_dir y x). }
  apply elem_of_cons in Hin as [->|Hin].
  - (* the item of this turn: copied now, left alone afterwards *)
    split.
    + intros Hf Hd.
      eapply backup_loop_apart; [exact Hrun| |by apply backup_item_file].
      intros y Hy. apply (backup_places_apart B (path_name x)); [|done].
      intros Heq. by apply (Hnames y).
    + intros Hd Hr rest n Hn.
      eapply backup_loop_apart; [exact Hrun| |by eapply backup_item_dir].
      intros y Hy. apply (backup_places_apart B (path_name x)).
      * intros Heq. by apply (Hnames y).
      * by exists rest.
  - (* a later item: this turn does not touch it *)
    destruct (Hent item ltac:(by right)) as [Hip Hine].
    assert (forall rest, rest = [] \/ path_name item <> "backups" ->
              fs wm !! (item ++ rest)%list = fs w !! (item ++ rest)%list) as Hsame.
    { intros rest Hc. pose proof (backup_item_touches B x w (item ++ rest)) as Ht.
      rewrite Ex in Ht. apply Ht. by apply entry_outside_backup. }
    assert (fs wm !! child B (path_name item) = fs w !! child B (path_name item)) as Hdst.
    { pose proof (backup_item_touches B x w (child B (path_name item))) as Ht.
      rewrite Ex in Ht. apply Ht.
      apply (backup_places_apart B (path_name item)); [|done].
      by apply Hnames. }
    destruct (IH wm w' item HL Hrun Hin) as [IHf IHd]. split.
    + intros Hf Hd. pose proof (Hsame [] ltac:(by left)) as Hs. rewrite app_nil_r in Hs.
      rewrite <- Hs. apply IHf.
      * unfold is_file_in. by rewrite (node_at_eq _ _ _ Hs).
      * unfold is_dir_in. by rewrite (node_at_eq _ _ _ Hdst).
    + intros Hd Hr rest n Hn.
      assert (path_name item <> "backups") as Hb.
      { intros Heq. rewrite Heq in Hr. done. }
      apply IHd; [|done|].
      * pose proof (Hsame [] ltac:(by left)) as Hs. rewrite app_nil_r in Hs.
        unfold is_dir_in. by rewrite (node_at_eq _ _ _ Hs).
      * rewrite Hsame; [done|by right].
Qed.

(** The loop stops with an error at an entry whose place in the backup is
    taken. *)
Lemma backup_loop_blocked L : forall w item,
  (forall x, x ∈ L -> parent x = base_dir /\ x <> []) ->
  item ∈ L ->
  is_dir_in (fs w) item = true ->
  str_in (path_name item) ["backups"; "archived"; "logs"] = false ->
  is_Some (fs w !! child B (path_name item)) ->
  exists e w', for_each L tt (fun _ item => backup_item B item) w = (Raise e, w').
Proof.
  induction L as [|x L IH]; intros w item Hent Hin Hd Hr Hdst;
    [by apply elem_of_nil in Hin|].
  cbn [for_each]. unfold bind at 1.
  destruct (decide (x = item)) as [->|Hxi].
  - unfold backup_item at 1, bind at 1, is_dir. rewrite Hd, Hr. simpl.
    unfold copytree. destruct Hdst as [n Hn].
    assert (node_at (fs w) (child B (path_name item)) = Some n) as ->.
    { unfold node_at. destruct (child B (path_name item)) eqn:E; [|done].
      by apply child_not_nil in E. }
    by eexists _, _.
  - apply elem_of_cons in Hin as [->|Hin]; [done|].
    destruct (backup_item B x w) as [[[]|e] wm] eqn:Ex; [|by eexists _, _].
    destruct (Hent item ltac:(by right)) as [Hip Hine].
    apply (IH wm item); [intros y Hy; apply Hent; by right|done| |done|].
    + pose proof (backup_item_touches B x w item) as Ht. rewrite Ex in Ht.
      unfold is_dir_in. rewrite (node_at_eq (fs w) (fs wm)); [exact Hd|].
      apply Ht. rewrite <- (app_nil_r item). apply entry_outside_backup; [done|done|by left].
    + pose proof (backup_item_grown B x w) as (_ & Hk & _).
      fold (backup_item B x) in Hk. rewrite Ex in Hk. by apply Hk.
Qed.

End BackupLoop.

Lemma create_backup_loop base_dir backup_name w :
  create_backup base_dir backup_name w
  = try_except
      (mkdir_parents (backup_dir_of base_dir w backup_name) ;;;
       items <- iterdir base_dir ;;
       for_each items tt
         (fun _ item => backup_item (backup_dir_of base_dir w backup_name) item) ;;;
       ret [status_success;
            ("message",
             PStr ("Created backup: "
                   +:+ path_name (backup_dir_of base_dir w backup_name)));
            ("backup_path", PStr (path_str (backup_dir_of base_dir w backup_name)))])
      (fun e => ret [status_error; ("message", PStr (exn_str e))])
      (match backup_name with Some _ => w | None => tick w end).
Proof. apply create_backup_run. Qed.

(** A run of [create_backup] that reports success, taken apart. *)
Lemma create_backup_success_inv base_dir backup_name w r w' :
  create_backup base_dir backup_name w = (Ok r, w') ->
  dict_lookup "status" r = Some (PStr "success") ->
  exists wa,
    mkdir_parents (backup_dir_of base_dir w backup_name)
      (match backup_name with Some _ => w | None => tick w end) = (Ok tt, wa)
    /\ for_each (listdir (fs wa) base_dir) tt
         (fun _ item => backup_item (backup_dir_of base_dir w backup_name) item) wa
       = (Ok tt, w').
Proof.
  intros Hrun Hst. rewrite create_backup_loop in Hrun.
  set (w0 := match backup_name with Some _ => w | None => tick w end) in *.
  unfold try_except, bind at 1 in Hrun.
  destruct (mkdir_parents _ w0) as [[[]|e] wa] eqn:Emk;
    [|injection Hrun as <- <-; discriminate Hst].
  exists wa. split; [done|].
  unfold bind at 1 in Hrun.
  destruct (iterdir base_dir wa) as [ri wi] eqn:Ei.
  apply iterdir_pure in Ei as [-> Hl].
  destruct ri as [items|e]; [|injection Hrun as <- <-; discriminate Hst].
  rewrite (Hl items eq_refl) in Hrun. unfold bind at 1 in Hrun.
  destruct (for_each _ tt _ wa) as [[[]|e] wl];
    [|injection Hrun as <- <-; discriminate Hst].
  by injection Hrun as _ <-.
Qed.

Lemma listdir_entries t base_dir : entries_of base_dir (listdir t base_dir).
Proof.
  split; [apply listdir_NoDup|]. intros x Hx.
  apply listdir_elem in Hx as (_ & ? & ?). done.
Qed.

Lemma entry_not_under_backup base_dir name item rest :
  parent item = base_dir -> item <> [] ->
  (rest = [] \/ path_name item <> "backups") ->
  ~ child (child base_dir "backups") name `prefix_of` (item ++ rest)%list.
Proof.
  intros Hp Hne Hcase [k Hk].
  assert (item = child base_dir (path_name item)) as Hi.
  { unfold child, path_name. rewrite <- Hp. unfold parent.
    by apply app_removelast_last. }
  rewrite Hi in Hk. unfold child in Hk. rewrite <- !app_assoc in Hk.
  apply app_inv_head in Hk. simpl in Hk.
  destruct Hcase as [->|Hb]; [done|]. injection Hk as Hk _. done.
Qed.

(** Creating the backup directory leaves the entries of [base_dir] and the
    places in the backup as they were. *)
Lemma mkdir_backup_other base_dir name w0 r wa q :
  mkdir_parents (child (child base_dir "backups") name) w0 = (r, wa) ->
  ~ q `prefix_of` child (child base_dir "backups") name ->
  fs wa !! q = fs w0 !! q.
Proof. intros Hmk Hq. by eapply (mkdir_walk_lookup_other _ []). Qed.

Lemma entry_not_above_backup base_dir name item rest :
  parent item = base_dir -> item <> [] ->
  path_name item <> "backups" ->
  ~ (item ++ rest)%list `prefix_of` child (child base_dir "backups") name.
Proof.
  intros Hp Hne Hb [k Hk].
  assert (item = child base_dir (path_name item)) as Hi.
  { unfold child, path_name. rewrite <- Hp. unfold parent.
    by apply app_removelast_last. }
  rewrite Hi in Hk. unfold child in Hk. rewrite <- !app_assoc in Hk.
  apply app_inv_head in Hk. simpl in Hk. by injection Hk as Hn Hk.
Qed.

Lemma place_not_above_backup B x : ~ child B x `prefix_of` B.
Proof.
  intros [k Hk]. apply (f_equal length) in Hk. unfold child in Hk.
  rewrite !length_app in Hk. simpl in Hk. lia.
Qed.

Lemma create_backup_copies_aux
    (base_dir : list string) (backup_name : option string) (w : World)
    (r : Dict) (w' : World) (item : list string) :
  create_backup base_dir backup_name w = (Ok r, w') ->
  dict_lookup "status" r = Some (PStr "success") ->
  item ∈ listdir (fs w) base_dir ->
  (is_file_in (fs w) item = true ->
   is_dir_in (fs w) (child (backup_dir_of base_dir w backup_name) (path_name item)) = false ->
   fs w' !! child (backup_dir_of base_dir w backup_name) (path_name item) = fs w !! item)
  /\ (is_dir_in (fs w) item = true ->
      str_in (path_name item) ["backups"; "archived"; "logs"] = false ->
      forall rest n,
        fs w !! (item ++ rest)%list = Some n ->
        fs w' !! (child (backup_dir_of base_dir w backup_name) (path_name item) ++ rest)%list
        = Some n).
Proof.
  intros Hrun Hst Hitem.
  apply create_backup_success_inv in Hrun as (wa & Hmk & Hloop); [|done].
  set (w0 := match backup_name with Some _ => w | None => tick w end) in *.
  assert (fs w0 = fs w) as Hfs0 by (unfold w0; by destruct backup_name).
  unfold backup_dir_of in *.
  set (name := match backup_name with
               | Some s => s
               | None => "backup_" +:+ strftime_stamp (clock w (ticks w))
               end) in *.
  set (dst := child (child (child base_dir "backups") name) (path_name item)) in *.
  apply listdir_elem in Hitem as ([n0 Hn0] & Hine & Hip).
  assert (forall rest, path_name item <> "backups" ->
            fs wa !! (item ++ rest)%list = fs w !! (item ++ rest)%list) as Hsame.
  { intros rest Hc. rewrite <- Hfs0. eapply mkdir_backup_other; [exact Hmk|].
    by apply entry_not_above_backup. }
  assert (fs wa !! item = fs w !! item) as Hsame0.
  { rewrite <- Hfs0. destruct (decide (path_name item = "backups")) as [Hb|Hb].
    - (* the entry [backups] itself: there before, so left as it was *)
      pose proof (mkdir_parents_grown (child (child base_dir "backups") name) w0)
        as (Hg & _ & _).
      rewrite Hmk in Hg. simpl in Hg.
      destruct (Hg item) as [E|(N & _)]; [|done|congruence].
      rewrite <- (app_nil_r item). apply entry_not_under_backup; [done|done|by left].
    - rewrite <- (app_nil_r item). eapply mkdir_backup_other; [exact Hmk|].
      by apply entry_not_above_backup. }
  assert (item ∈ listdir (fs wa) base_dir) as Hin.
  { apply listdir_elem. rewrite Hsame0. by split; [eexists|]. }
  assert (fs wa !! dst = fs w !! dst) as Hdst.
  { rewrite <- Hfs0. eapply mkdir_backup_other; [exact Hmk|].
    apply place_not_above_backup. }
  destruct (backup_loop_copies base_dir name _ wa w' item
              (listdir_entries _ _) Hloop Hin) as [Hf Hd].
  split.
  - intros Hif Hid. rewrite <- Hsame0. apply Hf.
    + unfold is_file_in. by rewrite (node_at_eq _ _ _ Hsame0).
    + unfold is_dir_in. erewrite (node_at_eq (fs w) (fs wa)); [exact Hid|exact Hdst].
  - intros Hid Hr rest n Hn.
    assert (path_name item <> "backups") as Hb.
    { intros Heq. rewrite Heq in Hr. done. }
    apply Hd; [|done|].
    + unfold is_dir_in. by rewrite (node_at_eq _ _ _ Hsame0).
    + by rewrite Hsame.
Qed.

(** X6. A backup that reports success holds a copy of the data directory:
    every regular file that was directly in [base_dir] is in the backup
    directory under its name, with its content and modification time
    (provided no directory of that name stood there), and every entry at
    or below a directory of [base_dir] other than [backups], [archived]
    and [logs] is in the backup at the same relative place. *)
Theorem create_backup_copies :
  forall (base_dir : list string) (backup_name : option string) (w : World)
         (r : Dict) (w' : World) (item : list string),
    create_backup base_dir backup_name w = (Ok r, w') ->
    dict_lookup "status" r = Some (PStr "success") ->
    item ∈ listdir (fs w) base_dir ->
    let dst := child (backup_dir_of base_dir w backup_name) (path_name item) in
    (is_file_in (fs w) item = true ->
     is_dir_in (fs w) dst = false ->
     fs w' !! dst = fs w !! item)
    /\ (is_dir_in (fs w) item = true ->
        str_in (path_name item) ["backups"; "archived"; "logs"] = false ->
        forall rest n, fs w !! (item ++ rest)%list = Some n ->
                       fs w' !! (dst ++ rest)%list = Some n).
Proof.
  intros base_dir backup_name w r w' item Hrun Hst Hitem dst.
  by apply (create_backup_copies_aux base_dir backup_name w r).
Qed.

(** X7. A backup name can be used once. After a backup named [name] has
    succeeded, and as long as [base_dir] has a directory other than
    [backups], [archived] and [logs], a second [create_backup] with the
    same name answers with status "error": the copy of that directory is
    already there. *)
Theorem create_backup_name_used_once :
  forall (base_dir : list string) (name : string) (w : World) (r : Dict) (w' : World)
         (item : list string),
    create_backup base_dir (Some name) w = (Ok r, w') ->
    dict_lookup "status" r = Some (PStr "success") ->
    item ∈ listdir (fs w) base_dir ->
    is_dir_in (fs w) item = true ->
    str_in (path_name item) ["backups"; "archived"; "logs"] = false ->
    exists r2 w2,
      create_backup base_dir (Some name) w' = (Ok r2, w2)
      /\ dict_lookup "status" r2 = Some (PStr "error").
Proof.
  intros base_dir name w r w' item Hrun Hst Hitem Hd Hr.
  set (B := child (child base_dir "backups") name).
  assert (path_name item <> "backups") as Hb.
  { intros Heq. rewrite Heq in Hr. done. }
  pose proof Hitem as Hitem0.
  apply listdir_elem in Hitem0 as ([n0 Hn0] & Hine & Hip).
  (* after the first run the entry is still a directory, and its copy is there *)
  assert (fs w' !! item = fs w !! item) as Hsame.
  { pose proof (create_backup_run base_dir (Some name) w) as E.
    assert (grown_below B w w') as (Hg & _ & _).
    { replace w' with (create_backup base_dir (Some name) w).2 by (by rewrite Hrun).
      rewrite E. fold B.
      apply (keeps_try_except (grown_below B)); [|intros; apply keeps_ret; apply _].
      apply keeps_bind; [apply _|apply mkdir_parents_grown|]. intros ?.
      apply keeps_bind; [apply _|apply iterdir_keeps; apply _|]. intros items.
      apply keeps_bind; [apply _| |intros ?; apply keeps_ret; apply _].
      apply keeps_for_each; [apply _..|]. intros ? x. apply backup_item_grown. }
    destruct (Hg item) as [E'|(N & _)]; [|done|congruence].
    rewrite <- (app_nil_r item). apply entry_not_under_backup; [done|done|by left]. }
  assert (is_Some (fs w' !! child B (path_name item))) as Hcopy.
  { destruct (create_backup_copies_aux base_dir (Some name) w r w' item Hrun Hst Hitem)
      as [_ Hdir].
    revert Hd. unfold is_dir_in, node_at. destruct item as [|c item]; [done|].
    intros Hd. rewrite Hn0 in Hd. destruct n0 as [|t]; [done|].
    specialize (Hdir ltac:(unfold is_dir_in, node_at; by rewrite Hn0) Hr [] (Dir t)).
    rewrite !app_nil_r in Hdir. exists (Dir t). by apply Hdir. }
  (* the second run *)
  rewrite create_backup_loop. fold B. unfold backup_dir_of. fold B.
  unfold try_except, bind at 1.
  destruct (mkdir_parents B w') as [[[]|e] wa] eqn:Emk; [|by eexists _, _].
  pose proof (mkdir_parents_grown B w') as (Hg & Hk & _). rewrite Emk in Hg, Hk.
  simpl in Hg, Hk.
  assert (fs wa !! item = fs w !! item) as Hsame2.
  { rewrite <- Hsame. destruct (Hg item) as [E'|(N & _)]; [|done|congruence].
    rewrite <- (app_nil_r item). apply entry_not_under_backup; [done|done|by left]. }
  unfold bind at 1. destruct (iterdir base_dir wa) as [ri wi] eqn:Ei.
  apply iterdir_pure in Ei as [-> Hl].
  destruct ri as [items|e]; [|by eexists _, _].
  rewrite (Hl items eq_refl). unfold bind at 1. subst B.
  destruct (backup_loop_blocked base_dir name (listdir (fs wa) base_dir) wa item)
    as (e & wl & ->).
  - intros x Hx. apply listdir_elem in Hx as (_ & ? & ?). done.
  - apply listdir_elem. rewrite Hsame2. by split; [eexists|].
  - unfold is_dir_in. by rewrite (node_at_eq _ _ _ Hsame2).
  - done.
  - by apply Hk.
  - by eexists _, _.
Qed.

Lemma backup_world_run :
  create_backup ["data"] (Some "nightly") backup_world
  = (Ok backup_report, (create_backup ["data"] (Some "nightly") backup_world).2).
Proof. apply run_eq. vm_compute. reflexivity. Qed.

Lemma backup_world_entry name n :
  fs backup_world !! ["data"; name] = Some n ->
  ["data"; name] ∈ listdir (fs backup_world) ["data"].
Proof. intros H. apply listdir_elem. by split; [eexists|]. Qed.

Lemma create_backup_copies_witness :
  fs (create_backup ["data"] (Some "nightly") backup_world).2
    !! ["data"; "backups"; "nightly"; "notes.json"]
  = Some (File 7 (Json (PList [])))
  /\ fs (create_backup ["data"] (Some "nightly") backup_world).2
       !! ["data"; "backups"; "nightly"; "raw"; "a.json"]
     = Some (File 5 (Json (PList [sample_tweet]))).
Proof.
  split.
  - apply (proj1 (create_backup_copies ["data"] (Some "nightly") backup_world
                    backup_report _ ["data"; "notes.json"]
                    backup_world_run eq_refl
                    (backup_world_entry "notes.json" _ eq_refl))
                 eq_refl eq_refl).
  - apply (proj2 (create_backup_copies ["data"] (Some "nightly") backup_world
                    backup_report _ ["data"; "raw"]
                    backup_world_run eq_refl
                    (backup_world_entry "raw" _ eq_refl))
                 eq_refl eq_refl ["a.json"] _ eq_refl).
Defined.

Lemma create_backup_name_used_once_witness :
  exists r2 w2,
    create_backup ["data"] (Some "nightly")
      (create_backup ["data"] (Some "nightly") backup_world).2 = (Ok r2, w2)
    /\ dict_lookup "status" r2 = Some (PStr "error").
Proof.
  apply (create_backup_name_used_once ["data"] "nightly" backup_world backup_report _
           ["data"; "raw"] backup_world_run eq_refl
           (backup_world_entry "raw" _ eq_refl) eq_refl eq_refl).
Defined.

Lemma sum_Z_from (l : list Z) (a : Z) : fold_left Z.add l a = a + sum_Z l.
Proof.
  unfold sum_Z. revert a. induction l as [|x l IH]; intros a; simpl; [lia|].
  rewrite (IH (a + x)), (IH (0 + x)). lia.
Qed.

Lemma sum_Z_cons (x : Z) (l : list Z) : sum_Z (x :: l) = x + sum_Z l.
Proof. unfold sum_Z at 1. simpl. apply sum_Z_from. Qed.

Lemma add_to_sum k n d : sum_Z (map snd (add_to k n d)) = sum_Z (map snd d) + n.
Proof.
  induction d as [|[k' m] d IH]; simpl.
  - rewrite sum_Z_cons. unfold sum_Z. simpl. lia.
  - destruct (String.eqb k k'); simpl; rewrite !sum_Z_cons; [lia|]. rewrite IH. lia.
Qed.

Lemma add_to_keys k n m d : map fst (add_to k n d) = map fst (add_to k m d).
Proof.
  induction d as [|[k' x] d IH]; simpl; [done|].
  destruct (String.eqb k k'); simpl; [done|]. by rewrite IH.
Qed.

Lemma add_to_keys_same k n m d1 d2 :
  map fst d1 = map fst d2 -> map fst (add_to k n d1) = map fst (add_to k m d2).
Proof.
  revert d2. induction d1 as [|[k1 x1] d1 IH]; intros [|[k2 x2] d2] H; try done.
  simpl in *. injection H as <- H. destruct (String.eqb k k1); simpl; [by rewrite H|].
  f_equal. by apply IH.
Qed.

Section SummaryFacts.

Variable base_dir : list string.
Variable st_size : FileContent -> Z.

Lemma summary_loop items : forall w total counts sizes r w',
  for_each items (total, counts, sizes)
    (fun '(total_size, file_counts, directory_sizes) item =>
       isf <- is_file item ;;
       if isf then
         size <- stat_size st_size item ;;
         let parent_dir := path_name (parent item) in
         ret (total_size + size,
              add_to parent_dir 1 file_counts,
              add_to parent_dir size directory_sizes)
       else ret (total_size, file_counts, directory_sizes)) w
  = (Ok r, w') ->
  sum_Z (map snd sizes) = total ->
  map fst counts = map fst sizes ->
  sum_Z (map snd r.1.2) = sum_Z (map snd counts) + len (List.filter (is_file_in (fs w)) items)
  /\ sum_Z (map snd r.2) = r.1.1
  /\ map fst r.1.2 = map fst r.2.
Proof.
  induction items as [|item items IH]; intros w total counts sizes r w' Hrun Hs Hk.
  - injection Hrun as <- <-. simpl. unfold len. simpl. split; [lia|done].
  - cbn [for_each] in Hrun. unfold bind at 1, bind at 1, is_file in Hrun.
    cbn [List.filter]. destruct (is_file_in (fs w) item).
    + unfold bind at 1 in Hrun.
      pose proof (stat_size_pure st_size item w) as Hp.
      destruct (stat_size st_size item w) as [[size|e] w1]; [|done].
      simpl in Hp. subst w1. unfold ret at 1 in Hrun.
      apply IH in Hrun as (H1 & H2 & H3).
      * rewrite add_to_sum in H1. rewrite len_cons. split; [lia|done].
      * rewrite add_to_sum. lia.
      * by apply add_to_keys_same.
    + unfold ret at 1 in Hrun. by apply IH in Hrun.
Qed.

(** X8. The summary [get_data_summary] reports is consistent: the sizes
    per directory add up to [total_size], the counts per directory add up
    to the number of regular files below [base_dir], and both tables have
    the same keys in the same order. *)
Theorem get_data_summary_consistent :
  forall (w : World) (r : Dict) (w' : World),
    get_data_summary base_dir st_size w = (Ok r, w') ->
    dict_lookup "status" r = Some (PStr "success") ->
    exists (total_size : Z) (file_counts directory_sizes : list (string * Z)),
      dict_lookup "summary" r
      = Some (PDict [("total_size", PInt total_size);
                     ("file_counts", json_counts file_counts);
                     ("directory_sizes", json_counts directory_sizes);
                     ("total_size_mb", PFloat (true_div total_size (1024 * 1024)))])
      /\ sum_Z (map snd directory_sizes) = total_size
      /\ sum_Z (map snd file_counts) = len (files_below (fs w) base_dir)
      /\ map fst file_counts = map fst directory_sizes.
Proof.
  intros w r w' Hrun Hst.
  unfold get_data_summary, try_except, bind at 1, rglob_all in Hrun.
  fold (all_below (fs w) base_dir) in Hrun. unfold bind at 1 in Hrun.
  match type of Hrun with
  | context [for_each ?l ?a ?b w] => destruct (for_each l a b w) as [[x|e] w1] eqn:Eloop
  end; [|injection Hrun as <- <-; discriminate Hst].
  apply summary_loop in Eloop as (H1 & H2 & H3); [|done..].
  destruct x as [[total counts] sizes]. simpl in *.
  injection Hrun as <- <-. exists total, counts, sizes.
  split; [done|]. unfold files_below. repeat split; [done| |done].
  rewrite H1. unfold sum_Z. simpl. lia.
Qed.

End SummaryFacts.

Lemma get_data_summary_consistent_witness :
  exists (total_size : Z) (file_counts directory_sizes : list (string * Z)),
    dict_lookup "summary"
      [status_success;
       ("summary",
        PDict [("total_size", PInt 2);
               ("file_counts", json_counts [("data", 1); ("raw", 1)]);
               ("directory_sizes", json_counts [("data", 1); ("raw", 1)]);
               ("total_size_mb", PFloat (true_div 2 (1024 * 1024)))])]
    = Some (PDict [("total_size", PInt total_size);
                   ("file_counts", json_counts file_counts);
                   ("directory_sizes", json_counts directory_sizes);
                   ("total_size_mb", PFloat (true_div total_size (1024 * 1024)))])
    /\ sum_Z (map snd directory_sizes) = total_size
    /\ sum_Z (map snd file_counts) = len (files_below (fs backup_world) ["data"])
    /\ map fst file_counts = map fst directory_sizes.
Proof.
  apply (get_data_summary_consistent ["data"] (fun _ => 1) backup_world _
           (get_data_summary ["data"] (fun _ => 1) backup_world).2).
  - apply run_eq. vm_compute. reflexivity.
  - reflexivity.
Defined.

(* ===================================================================== *)
(** * AnalysisProcessor: the aggregates of the summary *)
(* ===================================================================== *)

Lemma incr_sum {K} `{EqDecision K} (k : K) (d : list (K * Z)) :
  sum_Z (map snd (incr k d)) = sum_Z (map snd d) + 1.
Proof.
  induction d as [|[k' n] d IH]; simpl.
  - rewrite sum_Z_cons. unfold sum_Z. simpl. lia.
  - destruct (decide (k = k')); simpl; rewrite !sum_Z_cons; [lia|]. rewrite IH. lia.
Qed.

Lemma incr_positive {K} `{EqDecision K} (k : K) (d : list (K * Z)) :
  Forall (fun kv => 0 < kv.2) d -> Forall (fun kv => 0 < kv.2) (incr k d).
Proof.
  induction d as [|[k' n] d IH]; simpl; intros H.
  - by repeat constructor.
  - apply Forall_cons in H as [Hn Hd]. simpl in Hn.
    destruct (decide (k = k')); constructor; simpl; try done; [lia|by apply IH].
Qed.

Lemma incr_NoDup {K} `{EqDecision K} (k : K) (d : list (K * Z)) :
  NoDup d.*1 -> NoDup (incr k d).*1.
Proof.
  intros Hd. destruct (decide (k ∈ d.*1)) as [Hin|Hnin].
  - by rewrite incr_keys_in.
  - rewrite incr_keys_notin by done. rewrite fmap_app. simpl.
    apply NoDup_app. split; [done|]. split; [|apply NoDup_singleton].
    intros x Hx ->%list_elem_of_singleton. done.
Qed.

Lemma counting_invariant {A K} `{EqDecision K} (f : A -> K) (l : list A) :
  forall d,
    let d' := fold_left (fun d x => incr (f x) d) l d in
    sum_Z (map snd d') = sum_Z (map snd d) + len l
    /\ (NoDup d.*1 -> NoDup d'.*1)
    /\ (Forall (fun kv => 0 < kv.2) d -> Forall (fun kv => 0 < kv.2) d').
Proof.
  induction l as [|x l IH]; intros d; simpl.
  - unfold len. simpl. split; [lia|done].
  - destruct (IH (incr (f x) d)) as (H1 & H2 & H3). simpl in *.
    rewrite H1, incr_sum, len_cons. split; [lia|]. split; intros H.
    + by apply H2, incr_NoDup.
    + by apply H3, incr_positive.
Qed.

(** X9. The sentiment distribution of the summary is a partition of the
    items: every label occurs once as a key, its count is the number of
    items carrying that label and is at least one, and the counts add up
    to [total_tweets]. *)
Theorem sentiment_distribution_partition :
  forall tweets : list AnalyzedTweet,
    sum_Z (map snd (sentiment_distribution tweets)) = len tweets
    /\ NoDup (sentiment_distribution tweets).*1
    /\ (forall label n,
          (label, n) ∈ sentiment_distribution tweets ->
          n = label_count label tweets /\ 0 < n).
Proof.
  intros tweets. unfold sentiment_distribution.
  destruct (counting_invariant overall_sentiment tweets []) as (H1 & H2 & H3).
  simpl in *. split; [by rewrite H1|]. split; [apply H2; constructor|].
  intros label n Hin. split.
  - rewrite <- (get_default_elem label n _ (H2 ltac:(constructor)) Hin).
    by rewrite sentiment_distribution_count.
  - specialize (H3 ltac:(constructor)). rewrite Forall_forall in H3.
    by apply (H3 (label, n)).
Qed.

(** ** The posting histograms *)

Lemma strptime_created_at_valid s dt :
  strptime_created_at s = Some dt -> valid_datetime dt = true.
Proof.
  unfold strptime_created_at, make_datetime.
  destruct (match_format _ s) as [cs|]; [|done].
  destruct (valid_datetime _) eqn:E; [|done]. by intros [= <-].
Qed.

Lemma parsed_hours_in_day tweets h : h ∈ parsed_hours tweets -> 0 <= h <= 23.
Proof.
  unfold parsed_hours. intros Hh. apply list_elem_of_omap in Hh as (t & _ & Ht).
  destruct (String.eqb (created_at t) ""); [done|].
  destruct (strptime_created_at (created_at t)) as [dt|] eqn:E; [|done].
  injection Ht as <-. apply strptime_created_at_valid in E.
  unfold valid_datetime in E. rewrite !andb_true_iff, !Z.leb_le in E. lia.
Qed.

Lemma parsed_hours_length tweets : len (parsed_hours tweets) <= len tweets.
Proof.
  assert (length (parsed_hours tweets) <= length tweets)%nat as H; [|unfold len; lia].
  unfold parsed_hours. induction tweets as [|t tweets IH]; csimpl; [lia|].
  destruct (String.eqb (created_at t) ""); [lia|].
  destruct (strptime_created_at (created_at t)); simpl; lia.
Qed.

(** Both histograms count the same items. *)
Lemma posting_counts_sums tweets : forall acc : list (string * Z) * list (Z * Z),
  let r := fold_left
             (fun acc tweet =>
                if String.eqb (created_at tweet) "" then acc
                else match strptime_created_at (created_at tweet) with
                     | Some dt => (incr (date_isoformat dt) acc.1, incr (hour dt) acc.2)
                     | None => acc
                     end) tweets acc in
  sum_Z (map snd r.1) = sum_Z (map snd acc.1) + len (parsed_hours tweets)
  /\ sum_Z (map snd r.2) = sum_Z (map snd acc.2) + len (parsed_hours tweets).
Proof.
  unfold parsed_hours. induction tweets as [|t tweets IH]; intros acc; csimpl.
  - unfold len. simpl. lia.
  - destruct (String.eqb (created_at t) ""); [apply IH|].
    destruct (strptime_created_at (created_at t)) as [dt|]; [|apply IH].
    csimpl. destruct (IH (incr (date_isoformat dt) acc.1, incr (hour dt) acc.2)) as [H1 H2].
    cbn [fst snd] in *. rewrite H1, H2, !incr_sum, len_cons. lia.
Qed.

(** X10. The two histograms of the posting frequency count the same items,
    those whose [created_at] parses: the daily counts and the hourly counts
    both add up to their number, which is at most the number of items;
    every hour of the hourly histogram lies between 0 and 23 and has a
    positive count; and [most_active_hour] is missing exactly when no
    [created_at] parses. *)
Theorem posting_frequency_consistent :
  forall tweets : list AnalyzedTweet,
    sum_Z (map snd (date_counts tweets)) = len (parsed_hours tweets)
    /\ sum_Z (map snd (hour_counts tweets)) = len (parsed_hours tweets)
    /\ len (parsed_hours tweets) <= len tweets
    /\ (forall h n, (h, n) ∈ hour_counts tweets -> 0 <= h <= 23 /\ 0 < n)
    /\ (most_active_hour tweets = None <-> parsed_hours tweets = []).
Proof.
  intros tweets.
  destruct (posting_counts_sums tweets ([], [])) as [H1 H2]. simpl in H1, H2.
  fold (posting_counts tweets) in H1, H2.
  split; [exact H1|]. split; [exact H2|]. split; [apply parsed_hours_length|].
  rewrite hour_counts_hist in *. split.
  - intros h n Hin. split.
    + apply (parsed_hours_in_day tweets), hist_keys, list_elem_of_fmap. by exists (h, n).
    + destruct (counting_invariant (fun h : Z => h) (parsed_hours tweets) [])
        as (_ & _ & H3).
      specialize (H3 ltac:(constructor)). rewrite Forall_forall in H3.
      by apply (H3 (h, n)).
  - unfold most_active_hour. rewrite hour_counts_hist.
    destruct (parsed_hours tweets) as [|h hours] eqn:E; [done|].
    split; [|done]. intros Hnone.
    assert (h ∈ (hist (h :: hours)).*1) as Hk by (apply hist_keys; by left).
    destruct (hist (h :: hours)) as [|kv d]; [by apply elem_of_nil in Hk|done].
Qed.

(** ** The most engaging items *)

Lemma insert_desc_perm {A} (key : A -> Z) (x : A) (l : list A) :
  insert_desc key x l ≡ₚ x :: l.
Proof.
  induction l as [|y l IH]; simpl; [done|].
  destruct (key y <? key x); [done|]. rewrite IH. apply Permutation_swap.
Qed.

Lemma insert_desc_sorted {A} (key : A -> Z) (x : A) (l : list A) :
  StronglySorted (fun a b => key b <= key a) l ->
  StronglySorted (fun a b => key b <= key a) (insert_desc key x l).
Proof.
  induction 1 as [|y l Hs IH Hy]; simpl; [by repeat constructor|].
  destruct (Z.ltb_spec (key y) (key x)) as [Hlt|Hge].
  - constructor; [by constructor|]. constructor; [lia|].
    rewrite Forall_forall in *. intros z Hz. specialize (Hy z Hz). lia.
  - constructor; [done|]. rewrite (insert_desc_perm key x l). by constructor.
Qed.

Lemma sorted_split {A} (R : A -> A -> Prop) (l1 l2 : list A) :
  StronglySorted R (l1 ++ l2) ->
  StronglySorted R l1 /\ forall x y, x ∈ l1 -> y ∈ l2 -> R x y.
Proof.
  induction l1 as [|a l1 IH]; simpl; intros H.
  - split; [constructor|]. by intros x y ?%elem_of_nil.
  - inversion H as [|? ? Hs Hall]; subst. destruct (IH Hs) as [H1 H2].
    rewrite Forall_forall in Hall. split.
    + constructor; [done|]. rewrite Forall_forall. intros x Hx.
      apply Hall. apply elem_of_app. by left.
    + intros x y [->|Hx]%elem_of_cons Hy; [|by apply H2].
      apply Hall. apply elem_of_app. by right.
Qed.

Lemma sorted_desc_from {A} (key : A -> Z) (l : list A) : forall acc,
  StronglySorted (fun a b => key b <= key a) acc ->
  fold_left (fun acc x => insert_desc key x acc) l acc ≡ₚ acc ++ l
  /\ StronglySorted (fun a b => key b <= key a)
       (fold_left (fun acc x => insert_desc key x acc) l acc).
Proof.
  induction l as [|x l IH]; intros acc Hacc; simpl.
  - by rewrite app_nil_r.
  - destruct (IH (insert_desc key x acc)) as [Hp Hs]; [by apply insert_desc_sorted|].
    split; [|done]. rewrite Hp, insert_desc_perm. simpl. apply Permutation_middle.
Qed.

(** X11. [most_engaging_tweets] are the top five by engagement: the list
    has five items, or all of them when there are fewer; it is in
    decreasing order of engagement; and together with the items left out
    it is a rearrangement of the input in which no item left out has more
    engagement than an item listed. *)
Theorem most_engaging_top_five :
  forall tweets : list AnalyzedTweet,
    length (most_engaging tweets) = Nat.min 5 (length tweets)
    /\ StronglySorted by_engagement (most_engaging tweets)
    /\ exists rest,
         most_engaging tweets ++ rest ≡ₚ tweets
         /\ forall x y, x ∈ most_engaging tweets -> y ∈ rest ->
                        total_engagement y <= total_engagement x.
Proof.
  intros tweets. unfold most_engaging, sorted_desc.
  destruct (sorted_desc_from total_engagement tweets []) as [Hp Hs]; [constructor|].
  simpl in Hp. set (s := fold_left _ tweets []) in *.
  split; [by rewrite length_take, Hp|].
  rewrite <- (take_drop 5 s) in Hs. apply sorted_split in Hs as (Hs1 & Hall).
  split; [exact Hs1|].
  exists (drop 5 s). split; [by rewrite take_drop|].
  intros x y Hx Hy. by apply Hall.
Qed.

(** ** Sentiment per day *)

Lemma bump_known label c :
  label ∈ map fst c ->
  exists c', bump label c = Some c'
             /\ map fst c' = map fst c
             /\ sum_Z (map snd c') = sum_Z (map snd c) + 1.
Proof.
  induction c as [|[k n] c IH]; simpl; [by intros ?%elem_of_nil|]. intros Hin.
  destruct (String.eqb_spec label k) as [->|Hne].
  - eexists. split; [done|]. simpl. rewrite !sum_Z_cons. split; [done|lia].
  - apply elem_of_cons in Hin as [?|Hin]; [done|].
    destruct (IH Hin) as (c' & -> & Hk & Hs). eexists. split; [done|]. simpl.
    rewrite !sum_Z_cons, Hk, Hs. split; [done|lia].
Qed.

Lemma bump_unknown label c : label ∉ map fst c -> bump label c = None.
Proof.
  induction c as [|[k n] c IH]; simpl; [done|]. intros Hnin.
  destruct (String.eqb_spec label k) as [->|Hne]; [exfalso; apply Hnin; by left|].
  rewrite IH; [done|]. intros ?. apply Hnin. by right.
Qed.

Lemma bump_date_known date_key label d dc :
  label ∈ sentiment_labels ->
  Forall2 day_agrees d dc ->
  exists d', bump_date date_key label d = Some d'
             /\ Forall2 day_agrees d' (incr date_key dc).
Proof.
  intros Hl. induction 1 as [|[k c] [k' n] d dc (Hk & Hkeys & Hsum) Hrest IH];
    cbn [bump_date incr].
  - destruct (bump_known label [("bullish", 0); ("bearish", 0); ("neutral", 0)])
      as (c' & Hc & Hk & Hs); [done|].
    rewrite Hc. eexists. split; [done|]. constructor; [|constructor]. done.
  - cbn [fst snd] in *. subst k'. destruct (String.eqb_spec date_key k) as [->|Hne].
    + destruct (bump_known label c) as (c' & -> & Hk' & Hs'); [by rewrite Hkeys|].
      eexists. split; [done|]. rewrite decide_True by done.
      constructor; [|done]. split; [done|]. cbn [fst snd]. split; [congruence|lia].
    + destruct IH as (d' & -> & IH). eexists. split; [done|].
      rewrite decide_False by done. by constructor.
Qed.

Lemma bump_date_unknown date_key label d :
  label ∉ sentiment_labels ->
  Forall (fun kv => map fst kv.2 = sentiment_labels) d ->
  bump_date date_key label d = None.
Proof.
  intros Hl. induction 1 as [|[k c] d Hkeys Hrest IH]; cbn [bump_date].
  - by rewrite bump_unknown.
  - cbn [snd] in Hkeys. destruct (String.eqb date_key k).
    + rewrite bump_unknown; [done|]. by rewrite Hkeys.
    + by rewrite IH.
Qed.

Lemma trends_stay_lost tweets :
  fold_left
    (fun acc tweet =>
       match acc with
       | None => None
       | Some d =>
           if String.eqb (created_at tweet) "" then Some d
           else match strptime_created_at (created_at tweet) with
                | Some dt => bump_date (date_isoformat dt) (overall_sentiment tweet) d
                | None => Some d
                end
       end) tweets (@None (list (string * list (string * Z)))) = None.
Proof. by induction tweets. Qed.

Lemma bump_date_labels date_key label d d' :
  Forall (fun kv => map fst kv.2 = sentiment_labels) d ->
  bump_date date_key label d = Some d' ->
  Forall (fun kv => map fst kv.2 = sentiment_labels) d'.
Proof.
  intros Hd. revert d'. induction Hd as [|[k c] d Hkeys Hrest IH]; intros d';
    cbn [bump_date].
  - destruct (decide (label ∈ sentiment_labels)) as [Hin|Hnin].
    + destruct (bump_known label [("bullish", 0); ("bearish", 0); ("neutral", 0)])
        as (c' & -> & Hk & _); [done|].
      intros [= <-]. by repeat constructor.
    + by rewrite bump_unknown.
  - cbn [snd] in Hkeys. destruct (String.eqb date_key k).
    + destruct (decide (label ∈ map fst c)) as [Hin|Hnin].
      * destruct (bump_known label c) as (c' & -> & Hk & _); [done|].
        intros [= <-]. constructor; [cbn [snd]; congruence|done].
      * by rewrite bump_unknown.
    + destruct (bump_date date_key label d) as [d0|]; [|done].
      intros [= <-]. constructor; [done|]. by apply IH.
Qed.

Lemma trends_lost_at tweets t : forall d,
  Forall (fun kv => map fst kv.2 = sentiment_labels) d ->
  t ∈ tweets ->
  overall_sentiment t ∉ sentiment_labels ->
  is_Some (strptime_created_at (created_at t)) ->
  created_at t <> "" ->
  fold_left
    (fun acc tweet =>
       match acc with
       | None => None
       | Some d =>
           if String.eqb (created_at tweet) "" then Some d
           else match strptime_created_at (created_at tweet) with
                | Some dt => bump_date (date_isoformat dt) (overall_sentiment tweet) d
                | None => Some d
                end
       end) tweets (Some d) = None.
Proof.
  induction tweets as [|x tweets IH]; intros d Hd Hin Hl [dt Hdt] Hne;
    [by apply elem_of_nil in Hin|].
  simpl. apply elem_of_cons in Hin as [<-|Hin].
  - apply String.eqb_neq in Hne. rewrite Hne, Hdt.
    rewrite bump_date_unknown by done. apply trends_stay_lost.
  - destruct (String.eqb (created_at x) ""); [by apply IH; [| |..]; eauto|].
    destruct (strptime_created_at (created_at x)) as [dx|]; [|by apply IH; eauto].
    destruct (bump_date _ _ d) as [d0|] eqn:E; [|apply trends_stay_lost].
    apply IH; eauto. by eapply bump_date_labels.
Qed.

Lemma trends_follow_posts tweets :
  forall d (acc : list (string * Z) * list (Z * Z)),
    (forall t, t ∈ tweets -> overall_sentiment t ∈ sentiment_labels) ->
    Forall2 day_agrees d acc.1 ->
    exists d',
      fold_left
        (fun acc tweet =>
           match acc with
           | None => None
           | Some d =>
               if String.eqb (created_at tweet) "" then Some d
               else match strptime_created_at (created_at tweet) with
                    | Some dt => bump_date (date_isoformat dt) (overall_sentiment tweet) d
                    | None => Some d
                    end
           end) tweets (Some d) = Some d'
      /\ Forall2 day_agrees d'
           (fold_left
              (fun acc tweet =>
                 if String.eqb (created_at tweet) "" then acc
                 else match strptime_created_at (created_at tweet) with
                      | Some dt => (incr (date_isoformat dt) acc.1, incr (hour dt) acc.2)
                      | None => acc
                      end) tweets acc).1.
Proof.
  induction tweets as [|x tweets IH]; intros d acc Hl Hd; simpl; [by exists d|].
  assert (forall t, t ∈ tweets -> overall_sentiment t ∈ sentiment_labels) as Hl'
    by (intros t Ht; apply Hl; by right).
  destruct (String.eqb (created_at x) ""); [by apply IH|].
  destruct (strptime_created_at (created_at x)) as [dx|]; [|by apply IH].
  destruct (bump_date_known (date_isoformat dx) (overall_sentiment x) d acc.1)
    as (d1 & -> & Hd1); [apply Hl; by left|done|].
  by apply IH.
Qed.

Lemma classify_sentiment_label polarity : _classify_sentiment polarity ∈ sentiment_labels.
Proof.
  unfold _classify_sentiment, sentiment_labels.
  destruct (Qlt_bool _ _); [set_solver|]. destruct (Qlt_bool _ _); set_solver.
Qed.

(** X12. [_classify_sentiment] gives one of the labels bullish, bearish
    and neutral. As long as every item carries one of them,
    [_analyze_sentiment_trends] has, for every day of [daily_posts] and in
    the same order, the three counters, and they add up to the number of
    posts of that day. One item with another label and a [created_at] that
    parses makes the whole table come out empty. *)
Theorem sentiment_trends_follow_daily_posts :
  (forall polarity : Q, _classify_sentiment polarity ∈ sentiment_labels)
  /\ (forall tweets : list AnalyzedTweet,
        (forall t, t ∈ tweets -> overall_sentiment t ∈ sentiment_labels) ->
        exists d,
          _analyze_sentiment_trends tweets
          = PDict (map (fun kv => (kv.1, json_counts kv.2)) d)
          /\ Forall2 day_agrees d (date_counts tweets))
  /\ (forall (tweets : list AnalyzedTweet) (t : AnalyzedTweet),
        t ∈ tweets ->
        overall_sentiment t ∉ sentiment_labels ->
        created_at t <> "" ->
        is_Some (strptime_created_at (created_at t)) ->
        _analyze_sentiment_trends tweets = PDict []).
Proof.
  split; [apply classify_sentiment_label|]. split.
  - intros tweets Hl.
    destruct (trends_follow_posts tweets [] ([], []) Hl) as (d & Hd & Hagree);
      [constructor|].
    exists d. split; [|exact Hagree].
    unfold _analyze_sentiment_trends. by rewrite Hd.
  - intros tweets t Hin Hl Hne Hparse. unfold _analyze_sentiment_trends.
    by rewrite (trends_lost_at tweets t []).
Qed.

Lemma sentiment_trends_follow_daily_posts_witness :
  (exists d,
      _analyze_sentiment_trends [plain_tweet "neutral"; dated_tweet "Mon Jan 01 05:00:00 +0000 2024"]
      = PDict (map (fun kv => (kv.1, json_counts kv.2)) d)
      /\ Forall2 day_agrees d
           (date_counts [plain_tweet "neutral"; dated_tweet "Mon Jan 01 05:00:00 +0000 2024"]))
  /\ _analyze_sentiment_trends
       [mk_AnalyzedTweet (PDict []) "positive" 0 0 0 0 false "Mon Jan 01 05:00:00 +0000 2024"]
     = PDict [].
Proof.
  split.
  - apply (proj1 (proj2 sentiment_trends_follow_daily_posts)).
    intros t Ht. apply elem_of_cons in Ht as [->|Ht]; [set_solver|].
    apply list_elem_of_singleton in Ht as ->. set_solver.
  - apply (proj2 (proj2 sentiment_trends_follow_daily_posts) _
             (mk_AnalyzedTweet (PDict []) "positive" 0 0 0 0 false
                "Mon Jan 01 05:00:00 +0000 2024")).
    + by left.
    + simpl. unfold sentiment_labels. set_solver.
    + done.
    + vm_compute. by eexists.
Defined.

(* ===================================================================== *)
(** * DataFetcher *)
(* ===================================================================== *)

Lemma ofold_invariant {A B} (I : B -> Prop) (f : B -> A -> Outcome B) (l : list A) :
  (forall acc x acc', I acc -> f acc x = Ok acc' -> I acc') ->
  forall acc r, I acc -> ofold f l acc = Ok r -> I r.
Proof.
  intros Hf. induction l as [|x l IH]; intros acc r HI; simpl.
  - by intros [= <-].
  - destruct (f acc x) as [acc'|e] eqn:E; simpl; [|done].
    apply IH. by eapply Hf.
Qed.

Lemma ofold_raises {A B} (f : B -> A -> Outcome B) (l : list A) (x : A) :
  x ∈ l -> (forall acc, exists e, f acc x = Raise e) ->
  forall acc, exists e, ofold f l acc = Raise e.
Proof.
  intros Hx Hf. induction l as [|y l IH]; intros acc; [by apply elem_of_nil in Hx|].
  simpl. apply elem_of_cons in Hx as [<-|Hx].
  - destruct (Hf acc) as [e ->]. by exists e.
  - destruct (f acc y) as [acc'|e]; simpl; [by apply IH|by exists e].
Qed.

Lemma media_entry_type tweet item entry :
  media_entry tweet item = Ok entry ->
  exists d, item = PDict d
            /\ py_getitem entry "media_type"
               = Ok (match dict_lookup "type" d with Some v => v | None => PStr "" end).
Proof.
  unfold media_entry. destruct tweet as [| | | | | |dt]; try done.
  destruct item as [| | | | | |d]; try done.
  simpl. intros [= <-]. by exists d.
Qed.

Lemma py_eq_str_true v s : py_eq_str v s = true -> v = PStr s.
Proof. destruct v; try done. simpl. by intros ->%String.eqb_eq. Qed.

Lemma add_media_item_filed tweet m item m' :
  media_well_filed m -> add_media_item tweet m item = Ok m' -> media_well_filed m'.
Proof.
  intros (Hn & Hi & Hv & Hg). unfold add_media_item.
  destruct (media_entry tweet item) as [entry|] eqn:Ee; [|done]. simpl.
  apply media_entry_type in Ee as (d & -> & Hty). simpl.
  destruct (dict_lookup "type" d) as [ty|] eqn:Et; [|done]. simpl.
  intros [= <-].
  destruct (py_eq_str ty "photo") eqn:E1; [|destruct (py_eq_str ty "video") eqn:E2;
    [|destruct (py_eq_str ty "animated_gif") eqn:E3]]; simpl.
  - apply py_eq_str_true in E1 as ->. unfold media_well_filed. simpl.
    rewrite Forall_app, Forall_singleton. unfold len in *. rewrite length_app. simpl.
    repeat split; try done. lia.
  - apply py_eq_str_true in E2 as ->. unfold media_well_filed. simpl.
    rewrite Forall_app, Forall_singleton. unfold len in *. rewrite length_app. simpl.
    repeat split; try done. lia.
  - apply py_eq_str_true in E3 as ->. unfold media_well_filed. simpl.
    rewrite Forall_app, Forall_singleton. unfold len in *. rewrite length_app. simpl.
    repeat split; try done. lia.
  - unfold media_well_filed. simpl. repeat split; try done. lia.
Qed.

Lemma add_tweet_media_filed m tweet m' :
  media_well_filed m -> add_tweet_media m tweet = Ok m' -> media_well_filed m'.
Proof.
  intros Hm. unfold add_tweet_media.
  destruct (py_in "media" tweet) as [[|]|]; simpl; [|by intros [= <-]|done].
  destruct (py_getitem tweet "media") as [media|]; simpl; [|done].
  destruct (py_iter media) as [items|]; simpl; [|done].
  apply (ofold_invariant media_well_filed); [|done].
  intros acc x acc'. apply add_media_item_filed.
Qed.

Lemma no_media_filed : media_well_filed no_media.
Proof. unfold media_well_filed, no_media, len. simpl. by repeat split. Qed.

(** A media item without a [type] stops the collection. *)
Lemma add_tweet_media_untyped d items di m :
  dict_lookup "media" d = Some (PList items) ->
  PDict di ∈ items ->
  dict_lookup "type" di = None ->
  exists e, add_tweet_media m (PDict d) = Raise e.
Proof.
  intros Hm Hin Hty. unfold add_tweet_media. cbn [py_in obind].
  assert (str_in "media" (dict_keys d) = true) as ->.
  { clear Hin. unfold str_in, dict_keys. induction d as [|[k v] d IH]; [done|].
    cbn [map existsb fst]. cbn [dict_lookup] in Hm.
    destruct (String.eqb "media" k); [done|]. by apply IH. }
  cbn [py_getitem obind]. rewrite Hm. cbn [py_iter obind].
  apply (ofold_raises _ _ (PDict di)); [done|]. intros acc.
  unfold add_media_item. destruct (media_entry (PDict d) (PDict di)); simpl; [|by eexists].
  rewrite Hty. by eexists.
Qed.

(** X13. What [extract_media_from_tweets] returns is well filed: every
    entry of [images] has media type photo, every entry of [videos] video,
    every entry of [gifs] animated_gif, and [total_media] is at least the
    number of entries of the three lists together (items of another type
    are counted and not listed). The extraction is all or nothing: one
    media item without a [type], in any tweet, empties the whole result. *)
Theorem extract_media_from_tweets_filed :
  (forall tweets : list PyVal,
      exists m, extract_media_from_tweets tweets = media_json m /\ media_well_filed m)
  /\ (forall (tweets : list PyVal) (d : Dict) (items : list PyVal) (di : Dict),
        PDict d ∈ tweets ->
        dict_lookup "media" d = Some (PList items) ->
        PDict di ∈ items ->
        dict_lookup "type" di = None ->
        extract_media_from_tweets tweets = media_json no_media).
Proof.
  split.
  - intros tweets. unfold extract_media_from_tweets.
    destruct (collect_media tweets) as [m|e] eqn:E.
    + exists m. split; [done|].
      eapply (ofold_invariant media_well_filed); [|apply no_media_filed|exact E].
      intros acc x acc'. apply add_tweet_media_filed.
    + exists no_media. split; [done|apply no_media_filed].
  - intros tweets d items di Ht Hm Hi Hty. unfold extract_media_from_tweets, collect_media.
    destruct (ofold_raises add_tweet_media tweets (PDict d) Ht) with (acc := no_media)
      as [e ->]; [|done].
    intros acc. by eapply add_tweet_media_untyped.
Qed.

Lemma extract_media_from_tweets_filed_witness :
  extract_media_from_tweets
    [PDict [("media", PList [PDict [("type", PStr "photo"); ("url", PStr "u")]])];
     PDict [("media", PList [PDict [("url", PStr "v")]])]]
  = media_json no_media.
Proof.
  apply (proj2 extract_media_from_tweets_filed _
           [("media", PList [PDict [("url", PStr "v")]])]
           [PDict [("url", PStr "v")]] [("url", PStr "v")]).
  - set_solver.
  - reflexivity.
  - set_solver.
  - reflexivity.
Defined.

Section FetcherFacts.

Variable max_tweets_per_user : PyVal.
Variable run_actor : PyVal -> M (list PyVal).

Local Abbreviation fetch := (fetch_user_tweets max_tweets_per_user run_actor).
Local Abbreviation fetch_all := (fetch_all_users max_tweets_per_user run_actor).

(** A fetch returns a result that names the user. *)
Lemma fetch_user_tweets_total username max_tweets w :
  exists r w',
    fetch username max_tweets w = (Ok r, w')
    /\ has_status r
    /\ dict_lookup "username" r = Some (PStr username).
Proof.
  unfold fetch_user_tweets, try_except.
  match goal with |- context [bind ?m ?k w] => destruct (bind m k w) as [[r|e] w1] eqn:E end.
  - exists r, w1. split; [done|].
    apply bind_ok_inv in E as (tweets & w2 & _ & E).
    apply bind_ok_inv in E as (t & w3 & _ & E).
    apply bind_ok_inv in E as (u & w4 & _ & E).
    injection E as <- _. split; [by left|done].
  - eexists _, _. split; [done|]. split; [by right|done].
Qed.

Lemma fetch_loop usernames : forall (results : gmap string PyVal) w,
  exists results' w',
    for_each usernames results
      (fun results username =>
         r <- fetch username PNone ;;
         ret (<[username := PDict r]> results)) w = (Ok results', w')
    /\ dom results' = dom results ∪ list_to_set usernames
    /\ (forall u v, results' !! u = Some v ->
          results !! u = Some v
          \/ (u ∈ usernames /\ is_result v /\ py_getitem v "username" = Ok (PStr u))).
Proof.
  induction usernames as [|x usernames IH]; intros results w.
  - exists results, w. split; [done|]. split; [set_solver|]. by left.
  - cbn [for_each]. unfold bind at 1, bind at 1.
    destruct (fetch_user_tweets_total x PNone w) as (r & w1 & -> & Hst & Hu).
    unfold ret at 1.
    destruct (IH (<[x := PDict r]> results) w1) as (results' & w' & -> & Hdom & Hval).
    exists results', w'. split; [done|]. split.
    + rewrite Hdom, dom_insert_L. set_solver.
    + intros u v Hv. destruct (Hval u v Hv) as [Hin|(Hin & Hres)].
      * destruct (decide (x = u)) as [->|Hne].
        -- rewrite lookup_insert_eq in Hin. injection Hin as <-. right.
           split; [by left|]. split; [exact Hst|]. simpl. by rewrite Hu.
        -- rewrite lookup_insert_ne in Hin by done. by left.
      * right. split; [by right|done].
Qed.

(** X14. [fetch_all_users] answers for every user asked for and for nobody
    else: the keys of the result are the requested names, whatever the
    actor does; each value is the result of a fetch, with status "success"
    or "error", and carries the name it stands under. A failed fetch does
    not stop the loop. *)
Theorem fetch_all_users_keys :
  forall (usernames : list string) (w : World),
    exists (results : gmap string PyVal) (w' : World),
      fetch_all usernames w = (Ok results, w')
      /\ dom results = list_to_set usernames
      /\ (forall u v, results !! u = Some v ->
            is_result v /\ py_getitem v "username" = Ok (PStr u)).
Proof.
  intros usernames w. unfold fetch_all_users, try_except.
  destruct (fetch_loop usernames ∅ w) as (results & w' & -> & Hdom & Hval).
  exists results, w'. split; [done|]. split; [set_solver|].
  intros u v Hv. destruct (Hval u v Hv) as [Hin|(_ & Hres)]; [|done].
  by rewrite lookup_empty in Hin.
Qed.

End FetcherFacts.

Section FetchRoundTrip.

Variable max_tweets_per_user : PyVal.
Variable run_actor : PyVal -> M (list PyVal).
Variable analyze_single_tweet : PyVal -> AnalyzedTweet.

Local Abbreviation fetch := (fetch_user_tweets max_tweets_per_user run_actor).

(** A fetch that reports success, taken apart. *)
Lemma fetch_user_tweets_success_inv username max_tweets w r w' :
  fetch username max_tweets w = (Ok r, w') ->
  dict_lookup "status" r = Some (PStr "success") ->
  exists tweets wa,
    r = [status_success;
         ("username", PStr username);
         ("tweet_count", PInt (len tweets));
         ("filepath", PStr (path_str (fetch_target wa username)));
         ("tweets", PList tweets)]
    /\ is_dir_in (fs wa) ["data"; "raw"] = true
    /\ w' = set_fs (insert (fetch_target wa username)
                      (File (stamp_us (tick wa)) (Json (PList tweets)))) (tick wa).
Proof.
  intros Hrun Hst. unfold fetch_user_tweets, try_except, bind at 1 in Hrun.
  destruct (run_actor _ w) as [[tweets|e] wa]; [|injection Hrun as <- <-; discriminate Hst].
  unfold bind at 1, now in Hrun. unfold bind at 1 in Hrun.
  fold (fetch_target wa username) in Hrun.
  destruct (write_json (fetch_target wa username) (PList tweets) (tick wa))
    as [[[]|e] w2] eqn:Ew; [|injection Hrun as <- <-; discriminate Hst].
  injection Hrun as <- <-. exists tweets, wa. split; [done|].
  apply write_json_ok_inv in Ew as [Hdir ->]. split; [|done].
  unfold fetch_target in Hdir. by rewrite parent_child in Hdir.
Qed.

Lemma fetch_target_matches wa username :
  fnmatch_star (username +:+ "_raw_") ".json" (path_name (fetch_target wa username)) = true.
Proof.
  unfold fetch_target. rewrite path_name_child. unfold artifact_name.
  replace (username +:+ "_" +:+ "raw" +:+ "_"
           +:+ strftime_stamp (clock wa (ticks wa)) +:+ ".json")
    with ((username +:+ "_raw_") +:+ strftime_stamp (clock wa (ticks wa)) +:+ ".json")
    by (by rewrite !string_app_assoc).
  apply fnmatch_star_built.
Qed.


End FetchRoundTrip.


(** ** Media files *)

Lemma str_has_cons c a s : str_has c (String a s) = Ascii.eqb c a || str_has c s.
Proof. done. Qed.

Lemma str_has_app c a b : str_has c (a +:+ b) = str_has c a || str_has c b.
Proof. unfold str_has. by rewrite chars_app, existsb_app. Qed.

Lemma before_first_has c x s : str_has x s = false -> str_has x (before_first c s) = false.
Proof.
  induction s as [|a s IH]; simpl; [done|]. rewrite str_has_cons.
  intros [Ha Hs]%orb_false_iff. destruct (Ascii.eqb a c); [done|].
  rewrite str_has_cons, Ha. by apply IH.
Qed.

Lemma before_first_free c s : str_has c (before_first c s) = false.
Proof.
  induction s as [|a s IH]; simpl; [done|].
  destruct (Ascii.eqb a c) eqn:E; [done|]. rewrite str_has_cons, IH.
  rewrite Ascii.eqb_sym, E. done.
Qed.

Lemma after_last_free c s : str_has c (after_last c s) = false.
Proof.
  induction s as [|a s IH]; simpl; [done|].
  destruct (str_has c s) eqn:Es; [done|].
  destruct (Ascii.eqb a c) eqn:E; [done|].
  rewrite str_has_cons, Es, Ascii.eqb_sym, E. done.
Qed.

Lemma ends_with_app a b : ends_with b (a +:+ b) = true.
Proof.
  unfold ends_with. apply bool_decide_eq_true. rewrite chars_app. by exists (chars a).
Qed.

Lemma media_ext_cases mtype :
  media_ext mtype = ".jpg" \/ media_ext mtype = ".mp4" \/ media_ext mtype = ".gif".
Proof.
  unfold media_ext. destruct (py_eq_str mtype "photo"); [by left|].
  destruct (py_eq_str mtype "video"); [right; by left|right; by right].
Qed.

Lemma ends_with_nonempty suffix s : suffix <> "" -> ends_with suffix s = true -> s <> "".
Proof.
  intros Hne H ->. unfold ends_with in H. apply bool_decide_eq_true in H.
  destruct H as [k Hk]. destruct suffix; [done|]. simpl in Hk.
  by destruct k.
Qed.

Lemma media_file_name_spec url mtype :
  one_component (media_file_name url mtype)
  /\ str_has "?" (media_file_name url mtype) = false
  /\ exists suffix, suffix ∈ media_suffixes
                    /\ ends_with suffix (media_file_name url mtype) = true.
Proof.
  unfold media_file_name.
  set (fname := before_first "?" (after_last "/" url)).
  assert (str_has "/" fname = false) as Hslash
    by (apply before_first_has, after_last_free).
  assert (str_has "?" fname = false) as Hq by apply before_first_free.
  assert (media_ext mtype ∈ media_suffixes /\ media_ext mtype <> ""
          /\ str_has "/" (media_ext mtype) = false
          /\ str_has "?" (media_ext mtype) = false) as (Hext & Hne & He1 & He2).
  { unfold media_suffixes.
    destruct (media_ext_cases mtype) as [-> | [-> | ->]]; repeat split; try done; set_solver. }
  destruct (existsb _ _) eqn:Ex.
  - apply existsb_exists in Ex as (suffix & Hin & Hends).
    assert (suffix ∈ media_suffixes /\ suffix <> "") as [Hs Hsne].
    { unfold media_suffixes.
      destruct Hin as [<-|[<-|[<-|[<-|[<-|[]]]]]]; split; try done; set_solver. }
    split; [|split; [done|by exists suffix]].
    split; [by eapply ends_with_nonempty|done].
  - split; [|split].
    + split; [|by rewrite str_has_app, Hslash, He1].
      eapply ends_with_nonempty; [exact Hne|apply ends_with_app].
    + by rewrite str_has_app, Hq, He2.
    + exists (media_ext mtype). split; [done|apply ends_with_app].
Qed.

Section DownloadFacts.

Variable requests_get : string -> M Response.

Local Abbreviation download := (download_and_store_media requests_get).

Lemma download_loop base_dir items : forall saved w,
  Forall plain_media_item items ->
  (forall p, p ∈ saved ->
     exists name, p = path_str (child base_dir name) /\ one_component name) ->
  exists saved' w',
    for_each items saved
      (fun saved_files item =>
         url <- lift (py_get item "media_url" PNone) ;;
         mtype <- lift (py_get item "media_type" (PStr "media")) ;;
         if negb (truthy url) then ret saved_files
         else
           match url with
           | PStr url =>
               let file_path := child base_dir (media_file_name url mtype) in
               try_except
                 (resp <- requests_get url ;;
                  if status_code resp =? 200 then
                    save_response file_path resp ;;;
                    ret (saved_files ++ [path_str file_path])
                  else ret saved_files)
                 (fun _ => ret saved_files)
           | _ => raise (AttributeError "object has no attribute 'split'")
           end) w
    = (Ok saved', w')
    /\ forall p, p ∈ saved' ->
         exists name, p = path_str (child base_dir name) /\ one_component name.
Proof.
  induction items as [|item items IH]; intros saved w Hitems Hsaved.
  - by exists saved, w.
  - apply Forall_cons in Hitems as [(d & -> & Hurl) Hitems].
    cbn [for_each]. unfold bind at 1, bind at 1, lift at 1. cbn [py_get].
    unfold bind at 1, lift at 1.
    destruct (dict_lookup "media_url" d) as [url|].
    + destruct (truthy url) eqn:Et; cbn [negb].
      * destruct url as [| | | |url| |]; try (by rewrite Hurl in Et).
        unfold try_except, bind at 1.
        destruct (requests_get url w) as [[resp|e] w1]; [|unfold ret at 1; by apply IH].
        destruct (status_code resp =? 200); [|unfold ret at 1; by apply IH].
        unfold bind at 1.
        destruct (save_response _ resp w1) as [[[]|e] w2];
          unfold ret at 1; [|by apply IH].
        apply IH; [done|]. intros p [Hp|Hp]%elem_of_app; [by apply Hsaved|].
        apply list_elem_of_singleton in Hp as ->. eexists. split; [done|].
        apply media_file_name_spec.
      * unfold ret at 1. by apply IH.
    + cbn [truthy negb]. unfold ret at 1. by apply IH.
Qed.

(** X16. [download_and_store_media] names every file after the last part
    of its URL, cut at the first question mark, and makes it end in one of
    the media extensions: the name is never empty and holds no slash, so
    every file lands directly in [output/<date>/media/<username>]. A
    download that fails (no answer, a status other than 200, a stream or a
    write that breaks) is skipped and does not stop the loop: when the media
    directory can be created and every item is a dict whose [media_url] is
    missing, empty or a string, the function returns, and every path it
    returns is a file directly in that directory. *)
Theorem download_and_store_media_names :
  (forall (url : string) (mtype : PyVal),
      one_component (media_file_name url mtype)
      /\ str_has "?" (media_file_name url mtype) = false
      /\ exists suffix, suffix ∈ media_suffixes
                        /\ ends_with suffix (media_file_name url mtype) = true)
  /\ (forall (media_items : list PyVal) (username date_str : string) (w : World),
        Forall plain_media_item media_items ->
        (mkdir_parents ["output"; date_str; "media"; username] w).1 = Ok tt ->
        exists (saved : list string) (w' : World),
          download media_items username date_str w = (Ok saved, w')
          /\ forall p, p ∈ saved ->
               exists name,
                 p = path_str (child ["output"; date_str; "media"; username] name)
                 /\ one_component name).
Proof.
  split; [apply media_file_name_spec|].
  intros media_items username date_str w Hitems Hmk.
  unfold download_and_store_media, bind at 1.
  destruct (mkdir_parents _ w) as [[[]|e] w1]; [|done].
  apply download_loop; [done|]. by intros p ?%elem_of_nil.
Qed.

End DownloadFacts.

Lemma download_and_store_media_names_witness :
  exists (saved : list string) (w' : World),
    download_and_store_media no_network
      [PDict [("media_url", PStr "https://pbs.example/media/a.jpg?name=large");
              ("media_type", PStr "photo")]] "alice" "2024-01-05" empty_world
    = (Ok saved, w')
    /\ forall p, p ∈ saved ->
         exists name,
           p = path_str (child ["output"; "2024-01-05"; "media"; "alice"] name)
           /\ one_component name.
Proof.
  apply (proj2 (download_and_store_media_names no_network)).
  - repeat constructor. eexists. split; [done|]. done.
  - vm_compute. reflexivity.
Defined.

Example media_file_name_ex :
  media_file_name "https://pbs.example/media/a.jpg?name=large" (PStr "photo") = "a.jpg"
  /\ media_file_name "https://v.example/clip" (PStr "video") = "clip.mp4"
  /\ media_file_name "https://v.example/" (PStr "animated_gif") = ".gif"
  /\ media_file_name "plain.png" (PStr "photo") = "plain.png"
  /\ media_file_name "a?b/c?d" (PStr "x") = "c.gif"
  /\ media_file_name "" PNone = ".gif"
  /\ media_file_name "http://x/.." (PStr "photo") = "...jpg"
  /\ media_file_name "x.webm?y" (PStr "photo") = "x.webm".
Proof. vm_compute. done. Qed.

(* ===================================================================== *)
(** * AnalysisProcessor: one tweet *)
(* ===================================================================== *)

Lemma py_get_dict d k default :
  py_get (PDict d) k default
  = Ok (match dict_lookup k d with Some v => v | None => default end).
Proof. done. Qed.

Lemma int_count_get d key n :
  int_count d key n -> py_get (PDict d) key (PInt 0) = Ok (PInt n).
Proof.
  unfold int_count. rewrite py_get_dict.
  destruct (dict_lookup key d); [by intros ->|by intros ->].
Qed.

Lemma engagement_of_keys tweet v :
  engagement_of tweet = Ok v ->
  exists a b c d e f, v = engagement_json a b c d e f.
Proof.
  unfold engagement_of.
  repeat (match goal with
          | |- obind ?m _ = Ok _ -> _ => destruct m; simpl; [|done]
          end).
  intros [= <-]. by eexists _, _, _, _, _, _.
Qed.

(** X17. [_extract_engagement_metrics] always returns the six entries
    retweets, likes, replies, quotes, total_engagement and engagement_rate.
    When the four counts of a tweet are integers, a missing one counting
    as 0, and the tweet names no positive number of followers,
    [total_engagement] is their sum and [engagement_rate] is 0, with no
    division by the missing count. A count that is not a number (a string,
    a null) makes all six entries 0. *)
Theorem _extract_engagement_metrics_totals :
  (forall tweet : PyVal,
      exists a b c d e f, _extract_engagement_metrics tweet = engagement_json a b c d e f)
  /\ (forall (d : Dict) (retweets likes replies quotes : Z),
        int_count d "retweet_count" retweets ->
        int_count d "favorite_count" likes ->
        int_count d "reply_count" replies ->
        int_count d "quote_count" quotes ->
        no_followers d ->
        _extract_engagement_metrics (PDict d)
        = engagement_json (PInt retweets) (PInt likes) (PInt replies) (PInt quotes)
            (PInt (retweets + likes + replies + quotes)) (PInt 0))
  /\ (forall (d : Dict) (key : string) (v : PyVal),
        key ∈ ["retweet_count"; "favorite_count"; "reply_count"; "quote_count"] ->
        dict_lookup key d = Some v ->
        py_num v = None ->
        _extract_engagement_metrics (PDict d)
        = engagement_json (PInt 0) (PInt 0) (PInt 0) (PInt 0) (PInt 0) (PInt 0)).
Proof.
  split; [|split].
  - intros tweet. unfold _extract_engagement_metrics.
    destruct (engagement_of tweet) as [v|e] eqn:E.
    + by apply engagement_of_keys in E.
    + by eexists _, _, _, _, _, _.
  - intros d retweets likes replies quotes Hr Hl Hp Hq Hf.
    unfold _extract_engagement_metrics, engagement_of.
    rewrite (int_count_get _ _ _ Hr), (int_count_get _ _ _ Hl),
      (int_count_get _ _ _ Hp), (int_count_get _ _ _ Hq).
    cbn [obind py_sum ofold py_add as_int]. rewrite py_get_dict.
    unfold no_followers in Hf.
    replace (0 + retweets + likes + replies + quotes)
      with (retweets + likes + replies + quotes) by lia.
    destruct (dict_lookup "user" d) as [[| | | | | |u]|]; try done; cbn [obind py_get].
    destruct (dict_lookup "followers_count" u) as [[| |f| | | |]|];
      try done; cbn [obind py_gt_int py_num]; try done.
    rewrite Qlt_bool_inject_Z. destruct (Z.ltb_spec 0 f); [lia|done].
  - intros d key v Hkey Hv Hnum.
    unfold _extract_engagement_metrics, engagement_of. rewrite !py_get_dict.
    cbn [obind]. unfold py_sum.
    assert (forall a b, py_num b = None -> py_add a b = Raise (TypeError "unsupported operand type(s) for +")) as Hadd.
    { intros a b Hb. unfold py_add. destruct b; try done; by destruct (as_int a), (py_num a). }
    assert (forall a b, py_num a = None -> py_add a b = Raise (TypeError "unsupported operand type(s) for +")) as Hadd'.
    { intros a b Ha. unfold py_add. by destruct a. }
    assert (forall l, (exists x, x ∈ l /\ py_num x = None) ->
              forall acc, exists e, ofold py_add l acc = Raise e) as Hsum.
    { intros l (x & Hx & Hn). induction l as [|y l IH]; intros acc;
        [by apply elem_of_nil in Hx|]. simpl.
      apply elem_of_cons in Hx as [<-|Hx].
      - rewrite Hadd by done. by eexists.
      - destruct (py_add acc y); simpl; [by apply IH|by eexists]. }
    match goal with
    | |- context [ofold py_add ?l ?a] => destruct (Hsum l) with (acc := a) as [e ->]
    end; [|done].
    exists v. split; [|done].
    repeat (apply elem_of_cons in Hkey as [->|Hkey]; [rewrite Hv; set_solver|]).
    by apply elem_of_nil in Hkey.
Qed.

Lemma _extract_engagement_metrics_totals_witness :
  _extract_engagement_metrics
    (PDict [("retweet_count", PInt 2); ("favorite_count", PInt 5)])
  = engagement_json (PInt 2) (PInt 5) (PInt 0) (PInt 0) (PInt (2 + 5 + 0 + 0)) (PInt 0)
  /\ _extract_engagement_metrics (PDict [("reply_count", PNone)])
     = engagement_json (PInt 0) (PInt 0) (PInt 0) (PInt 0) (PInt 0) (PInt 0).
Proof.
  split.
  - apply (proj1 (proj2 _extract_engagement_metrics_totals)); done.
  - apply (proj2 (proj2 _extract_engagement_metrics_totals) _ "reply_count" PNone);
      [set_solver|done|done].
Defined.

(** ** Media of one tweet *)

Lemma info_loop items : forall images videos gifs,
  Forall typed_item items ->
  ofold add_info_item items (images, videos, gifs)
  = Ok (images ++ entries_of_type "photo" items,
        videos ++ entries_of_type "video" items,
        gifs ++ entries_of_type "animated_gif" items).
Proof.
  unfold entries_of_type.
  induction items as [|item items IH]; intros images videos gifs Hitems.
  - simpl. by rewrite !app_nil_r.
  - apply Forall_cons in Hitems as [(d & ty & -> & Hty) Hitems].
    cbn [ofold add_info_item List.filter]. unfold item_has_type.
    cbn [info_entry py_get obind py_getitem]. rewrite Hty. cbn [obind].
    assert (entry_of (PDict d)
            = PDict [("url", match dict_lookup "url" d with Some v => v | None => PStr "" end);
                     ("type", ty);
                     ("media_url",
                      match dict_lookup "media_url_https" d with
                      | Some v => v | None => PStr "" end)]) as He
      by (unfold entry_of; cbn [info_entry py_get obind]; by rewrite Hty).
    destruct (py_eq_str ty "photo") eqn:E1.
    { apply py_eq_str_true in E1 as ->. cbn [py_eq_str String.eqb Ascii.eqb Bool.eqb].
      cbn [map]. rewrite He, IH by done. by rewrite <- app_assoc. }
    destruct (py_eq_str ty "video") eqn:E2.
    { apply py_eq_str_true in E2 as ->. cbn [py_eq_str String.eqb Ascii.eqb Bool.eqb].
      cbn [map]. rewrite He, IH by done. by rewrite <- app_assoc. }
    destruct (py_eq_str ty "animated_gif") eqn:E3.
    { cbn [map]. rewrite He, IH by done. by rewrite <- app_assoc. }
    by rewrite IH.
Qed.

Lemma str_in_keys k d v : dict_lookup k d = Some v -> str_in k (dict_keys d) = true.
Proof.
  unfold str_in, dict_keys. induction d as [|[k' v'] d IH]; [done|].
  cbn [map existsb fst dict_lookup]. destruct (String.eqb k k'); [done|]. apply IH.
Qed.

Lemma str_in_no_key k d : dict_lookup k d = None -> str_in k (dict_keys d) = false.
Proof.
  unfold str_in, dict_keys. induction d as [|[k' v'] d IH]; [done|].
  cbn [map existsb fst dict_lookup]. destruct (String.eqb k k'); [done|]. apply IH.
Qed.

(** X18. [_extract_media_info] files the media of a tweet by type. For a
    tweet whose [media] is a list of items that each have a [type],
    [has_media] is true (also when the list is empty) and [images],
    [videos] and [gifs] hold the entries of the items of type photo, video
    and animated_gif, each in the order of the tweet; items of another
    type are in none of them. A tweet without [media] has none and
    [has_media] false; so has a tweet one of whose media items lacks a
    [type], although it has media. *)
Theorem _extract_media_info_files :
  (forall (d : Dict) (items : list PyVal),
      dict_lookup "media" d = Some (PList items) ->
      Forall typed_item items ->
      _extract_media_info (PDict d)
      = media_info_json (entries_of_type "photo" items) (entries_of_type "video" items)
          (entries_of_type "animated_gif" items) true)
  /\ (forall d : Dict,
        dict_lookup "media" d = None ->
        _extract_media_info (PDict d) = media_info_json [] [] [] false)
  /\ (forall (d : Dict) (items : list PyVal) (di : Dict),
        dict_lookup "media" d = Some (PList items) ->
        PDict di ∈ items ->
        dict_lookup "type" di = None ->
        _extract_media_info (PDict d) = media_info_json [] [] [] false).
Proof.
  split; [|split].
  - intros d items Hm Hitems. unfold _extract_media_info, media_info_of.
    cbn [py_in obind]. rewrite (str_in_keys _ _ _ Hm). cbn [py_getitem obind].
    rewrite Hm. cbn [py_iter obind]. by rewrite info_loop.
  - intros d Hm. unfold _extract_media_info, media_info_of.
    cbn [py_in obind]. by rewrite (str_in_no_key _ _ Hm).
  - intros d items di Hm Hin Hty. unfold _extract_media_info, media_info_of.
    cbn [py_in obind]. rewrite (str_in_keys _ _ _ Hm). cbn [py_getitem obind].
    rewrite Hm. cbn [py_iter obind].
    destruct (ofold_raises add_info_item items (PDict di) Hin) with (acc := ([] : list PyVal, [] : list PyVal, [] : list PyVal))
      as [e ->]; [|done].
    intros [[images videos] gifs]. unfold add_info_item.
    destruct (info_entry (PDict di)); cbn [obind py_getitem]; [|by eexists].
    rewrite Hty. by eexists.
Qed.

Lemma _extract_media_info_files_witness :
  _extract_media_info
    (PDict [("media", PList [PDict [("type", PStr "video"); ("url", PStr "u")];
                             PDict [("type", PStr "photo")]])])
  = media_info_json
      (entries_of_type "photo" [PDict [("type", PStr "video"); ("url", PStr "u")];
                                PDict [("type", PStr "photo")]])
      (entries_of_type "video" [PDict [("type", PStr "video"); ("url", PStr "u")];
                                PDict [("type", PStr "photo")]])
      (entries_of_type "animated_gif" [PDict [("type", PStr "video"); ("url", PStr "u")];
                                       PDict [("type", PStr "photo")]])
      true
  /\ _extract_media_info (PDict [("id_str", PStr "1")]) = media_info_json [] [] [] false
  /\ _extract_media_info (PDict [("media", PList [PDict [("url", PStr "u")]])])
     = media_info_json [] [] [] false.
Proof.
  split; [|split].
  - apply (proj1 _extract_media_info_files); [done|].
    repeat constructor; by eexists _, _.
  - by apply (proj1 (proj2 _extract_media_info_files)).
  - apply (proj2 (proj2 _extract_media_info_files) _ [PDict [("url", PStr "u")]]
             [("url", PStr "u")]); [done|set_solver|done].
Defined.

(* ===================================================================== *)
(** * TweetAnalysisAgent: one user *)
(* ===================================================================== *)

Section AgentStages.

Variable store_user_tweets : string -> M PyVal.
Variable analyze_user : string -> M PyVal.
Variable py_str : PyVal -> string.

(** X19. [process_user] does not start the analysis of a user whose tweets
    could not be stored: when the first stage fails or returns anything but
    a result with status "success", the answer has status "error" and the
    world is the one the first stage left; the second stage has not run. *)
Theorem process_user_stops_after_storage :
  forall (username : string) (w : World) (storage_result : PyVal) (w1 : World),
    _fetch_and_store_tweets store_user_tweets username w = (Ok storage_result, w1) ->
    status_of storage_result <> Some (PStr "success") ->
    exists r,
      process_user store_user_tweets analyze_user py_str username w = (Ok r, w1)
      /\ status_of r = Some (PStr "error").
Proof.
  intros username w sr w1 Hstore Hst.
  unfold process_user, try_except, bind at 1. rewrite Hstore.
  unfold bind at 1, lift at 1.
  destruct (py_getitem sr "status") as [st|e] eqn:Est; [|by eexists].
  destruct (not_success st) eqn:Ens.
  - unfold bind at 1, lift at 1.
    destruct (py_getitem sr "message") as [msg|e]; by eexists.
  - exfalso. apply Hst. apply not_success_false in Ens as ->.
    by apply getitem_status.
Qed.

End AgentStages.

Lemma process_user_stops_after_storage_witness :
  exists r,
    process_user failing_stage succeeding_stage plain_str "alice" empty_world
    = (Ok r, empty_world)
    /\ status_of r = Some (PStr "error").
Proof.
  apply (process_user_stops_after_storage failing_stage succeeding_stage plain_str
           "alice" empty_world (PDict [status_error; ("message", PStr "rate limited")])).
  - reflexivity.
  - discriminate.
Defined.

(* ===================================================================== *)
(** * DataManager: setting up the directories *)
(* ===================================================================== *)

(** [mkdir] replaces nothing that is there. *)
Lemma mkdir_walk_keeps rest : forall pre w q n,
  fs w !! q = Some n -> fs (mkdir_walk pre rest w).2 !! q = Some n.
Proof.
  induction rest as [|c rest IH]; intros pre w q n Hq; simpl; [done|].
  destruct (fs w !! child pre c) as [[t ct|t]|] eqn:E; simpl; [done|by apply IH|].
  destruct (io_fault w (OpMkdir (child pre c))); simpl; [done|].
  apply IH. simpl. rewrite lookup_insert_ne; [done|]. intros <-. congruence.
Qed.

Lemma dirs_down_kept t t' : forall rest pre,
  (forall q n, t !! q = Some n -> t' !! q = Some n) ->
  dirs_down t pre rest -> dirs_down t' pre rest.
Proof.
  induction rest as [|c rest IH]; intros pre Hk; simpl; [done|].
  intros [[m Hm] Hrest]. split; [exists m; by apply Hk|by apply IH].
Qed.

(** When it returns, the whole way down is there. *)
Lemma mkdir_walk_dirs_down rest : forall pre w w1,
  mkdir_walk pre rest w = (Ok tt, w1) -> dirs_down (fs w1) pre rest.
Proof.
  induction rest as [|c rest IH]; intros pre w w1; simpl; [done|].
  assert (forall wm m, fs wm !! child pre c = Some (Dir m) ->
            mkdir_walk (child pre c) rest wm = (Ok tt, w1) ->
            (exists m', fs w1 !! child pre c = Some (Dir m'))
            /\ dirs_down (fs w1) (child pre c) rest) as Hstep.
  { intros wm m Hm Hrun. split; [|by eapply IH]. exists m.
    pose proof (mkdir_walk_keeps rest (child pre c) wm _ _ Hm) as Hk.
    by rewrite Hrun in Hk. }
  destruct (fs w !! child pre c) as [[t ct|t]|] eqn:E; [done|by eapply Hstep|].
  destruct (io_fault w (OpMkdir (child pre c))); [done|].
  eapply Hstep. simpl. apply lookup_insert_eq.
Qed.

(** On a way that is there it does nothing. *)
Lemma mkdir_walk_nothing rest : forall pre w,
  dirs_down (fs w) pre rest -> mkdir_walk pre rest w = (Ok tt, w).
Proof.
  induction rest as [|c rest IH]; intros pre w; simpl; [done|].
  intros [[m ->] Hrest]. by apply IH.
Qed.

Lemma ensure_loop base_dir names : forall w w1,
  for_each (map (child base_dir) names) tt (fun _ directory => mkdir_parents directory) w
  = (Ok tt, w1) ->
  (forall q n, fs w !! q = Some n -> fs w1 !! q = Some n)
  /\ forall name, name ∈ names -> dirs_down (fs w1) [] (child base_dir name).
Proof.
  induction names as [|x names IH]; intros w w1; cbn [map for_each].
  - intros [= <-]. split; [done|]. by intros name ?%elem_of_nil.
  - unfold bind at 1. destruct (mkdir_parents (child base_dir x) w) as [[[]|e] wm] eqn:Em;
      [|done].
    intros Hrun. destruct (IH _ _ Hrun) as [Hk Hd].
    assert (forall q n, fs w !! q = Some n -> fs wm !! q = Some n) as Hk0.
    { intros q n Hq. pose proof (mkdir_walk_keeps (child base_dir x) [] w q n Hq) as H.
      unfold mkdir_parents in Em. by rewrite Em in H. }
    split; [intros q n Hq; by apply Hk, Hk0|].
    intros name [->|Hin]%elem_of_cons; [|by apply Hd].
    apply (dirs_down_kept (fs wm)); [exact Hk|].
    by apply (mkdir_walk_dirs_down _ [] w).
Qed.

Lemma ensure_again base_dir names : forall w,
  (forall name, name ∈ names -> dirs_down (fs w) [] (child base_dir name)) ->
  for_each (map (child base_dir) names) tt (fun _ directory => mkdir_parents directory) w
  = (Ok tt, w).
Proof.
  induction names as [|x names IH]; intros w Hd; cbn [map for_each]; [done|].
  unfold bind at 1, mkdir_parents at 1.
  rewrite mkdir_walk_nothing by (apply Hd; by left).
  apply IH. intros name Hin. apply Hd. by right.
Qed.

Lemma dirs_down_is_dir t p : p <> [] -> dirs_down t [] p -> is_dir_in t p = true.
Proof.
  intros Hne. assert (forall rest pre, rest <> [] -> dirs_down t pre rest ->
                        exists m, t !! (pre ++ rest)%list = Some (Dir m)) as H.
  { induction rest as [|c rest IH]; intros pre Hr; [done|]. simpl. intros [[m Hm] Hrest].
    destruct rest as [|c' rest'].
    - exists m. exact Hm.
    - destruct (IH (child pre c) ltac:(done) Hrest) as [m' Hm']. exists m'.
      unfold child in Hm'. by rewrite <- app_assoc in Hm'. }
  intros Hd. destruct (H p [] Hne Hd) as [m Hm]. simpl in Hm.
  unfold is_dir_in, node_at. destruct p; [done|]. by rewrite Hm.
Qed.

(** X20. [ensure_directories] sets up the nine directories of the data
    manager and is safe to repeat. When it returns, each of them is a
    directory; nothing that was in the tree has been removed or replaced;
    and a second call returns without changing anything. *)
Theorem ensure_directories_idempotent :
  forall (base_dir : list string) (w w1 : World),
    ensure_directories base_dir w = (Ok tt, w1) ->
    (forall name, name ∈ data_dirs -> is_dir_in (fs w1) (child base_dir name) = true)
    /\ (forall q n, fs w !! q = Some n -> fs w1 !! q = Some n)
    /\ ensure_directories base_dir w1 = (Ok tt, w1).
Proof.
  intros base_dir w w1 Hrun.
  change (ensure_directories base_dir)
    with (for_each (map (child base_dir) data_dirs) tt
            (fun _ directory => mkdir_parents directory)) in *.
  destruct (ensure_loop base_dir data_dirs w w1 Hrun) as [Hk Hd].
  split; [|split; [exact Hk|by apply ensure_again]].
  intros name Hin. apply dirs_down_is_dir; [apply child_not_nil|by apply Hd].
Qed.

Lemma ensure_directories_idempotent_witness :
  (forall name, name ∈ data_dirs ->
     is_dir_in (fs (ensure_directories ["data"] empty_world).2) (child ["data"] name) = true)
  /\ (forall q n, fs empty_world !! q = Some n ->
        fs (ensure_directories ["data"] empty_world).2 !! q = Some n)
  /\ ensure_directories ["data"] (ensure_directories ["data"] empty_world).2
     = (Ok tt, (ensure_directories ["data"] empty_world).2).
Proof.
  apply (ensure_directories_idempotent ["data"] empty_world).
  apply run_eq. vm_compute. reflexivity.
Defined.

(* ===================================================================== *)
(** * DataManager: organising by date *)
(* ===================================================================== *)

Lemma entry_length (d p : list string) : p <> [] -> parent p = d -> length p = S (length d).
Proof.
  intros Hp <-. unfold parent. destruct (exists_last Hp) as (q & x & ->).
  rewrite removelast_last, length_app. simpl. lia.
Qed.

Lemma selected_left_refl depth date t : selected_left depth date t t.
Proof. intros p _. by left. Qed.

Lemma selected_left_trans depth date t1 t2 t3 :
  selected_left depth date t1 t2 -> selected_left depth date t2 t3 ->
  selected_left depth date t1 t3.
Proof.
  intros H12 H23 p Hp. destruct (H23 p Hp) as [E23|(Hd & E23 & Hs)]; [|by right].
  destruct (H12 p Hp) as [E12|(Hd & E12 & Hs)]; [left; congruence|right].
  split; [done|]. split; [congruence|done].
Qed.

(** A move to a deeper place: at the depth of the source and above, only
    the source goes away. *)
Lemma move_lookup src dst w w' :
  move src dst w = (Ok tt, w') ->
  (length src < length dst)%nat ->
  forall p, (length p <= length src)%nat ->
    fs w' !! p = if bool_decide (p = src) then None else fs w !! p.
Proof.
  unfold move. intros Hrun Hlen p Hp.
  destruct (node_at (fs w) src) as [n|]; [|done].
  set (real_dst := if is_dir_in (fs w) dst then child dst (path_name src) else dst) in *.
  assert (length src < length real_dst)%nat as Hreal.
  { unfold real_dst, child. destruct (is_dir_in (fs w) dst); [|done].
    rewrite length_app. simpl. lia. }
  destruct (is_dir_in (fs w) dst && exists_in (fs w) real_dst); [done|].
  destruct (negb (is_dir_in (fs w) (parent real_dst))); [done|].
  destruct (io_fault w (OpCopy src)); [done|].
  injection Hrun as <-. simpl.
  rewrite lookup_union_r.
  - rewrite remove_tree_lookup. unfold under.
    case_bool_decide as Hu; case_bool_decide as He; try done.
    + exfalso. apply He. destruct Hu as [rest ->]. rewrite length_app in Hp.
      destruct rest; [by rewrite app_nil_r|simpl in Hp; lia].
    + exfalso. apply Hu. by subst p.
  - apply copied_tree_outside. intros [rest ->]. rewrite length_app in Hp. lia.
Qed.

Section OrganizeFacts.

Variable base_dir : list string.
Variable date : string.

Local Abbreviation entry_depth := (S (S (length base_dir))).
Local Abbreviation date_dir := (child base_dir date).

Lemma move_selected_left file subdir w w' :
  length file = entry_depth ->
  _should_move_file file date = true ->
  move file (child (child date_dir subdir) (path_name file)) w = (Ok tt, w') ->
  selected_left entry_depth date (fs w) (fs w') /\ fs w' !! file = None.
Proof.
  intros Hlen Hsel Hrun.
  assert (length file < length (child (child date_dir subdir) (path_name file)))%nat as Hd.
  { unfold child. rewrite !length_app. simpl. lia. }
  pose proof (move_lookup _ _ _ _ Hrun Hd) as Hl. split.
  - intros p Hp. rewrite Hl by lia. case_bool_decide as E; [right|by left].
    by subst p.
  - rewrite Hl by lia. by rewrite bool_decide_eq_true_2.
Qed.

(** One source directory: the loop over what [glob] found. *)
Lemma organize_files subdir files : forall moved_files w r w',
  (forall f, f ∈ files -> length f = entry_depth) ->
  for_each files moved_files
    (fun (moved_files : list (string * list PyVal)) file =>
       if _should_move_file file date then
         move file (child (child date_dir subdir) (path_name file)) ;;;
         ret (map (fun kv : string * list PyVal =>
                     if String.eqb kv.1 subdir
                     then (kv.1, kv.2 ++ [PStr (path_name file)])
                     else kv) moved_files)
       else ret moved_files) w = (Ok r, w') ->
  selected_left entry_depth date (fs w) (fs w')
  /\ forall f, f ∈ files -> _should_move_file f date = true -> fs w' !! f = None.
Proof.
  induction files as [|file files IH]; intros moved_files w r w' Hlen; cbn [for_each].
  - intros [= <- <-]. split; [apply selected_left_refl|]. by intros f ?%elem_of_nil.
  - intros (acc & w1 & Hbody & Hrest)%bind_ok_inv.
    assert (forall f, f ∈ files -> length f = entry_depth) as Hlen'
      by (intros f Hf; apply Hlen; by right).
    destruct (IH _ _ _ _ Hlen' Hrest) as [Hinv Hgone].
    destruct (_should_move_file file date) eqn:Esel.
    + apply bind_ok_inv in Hbody as ([] & w0 & Hmove & [= <- <-]).
      destruct (move_selected_left file subdir w w0) as [Hstep Hfile];
        [apply Hlen; by left|done|done|].
      split; [by eapply selected_left_trans|].
      intros f [->|Hf]%elem_of_cons Hsel; [|by apply Hgone].
      destruct (Hinv file) as [E|(_ & E & _)];
        [rewrite Hlen by (by left); lia|congruence|done].
    + injection Hbody as <- <-. split; [done|].
      intros f [->|Hf]%elem_of_cons Hsel; [congruence|by apply Hgone].
Qed.

Lemma is_dir_in_exists t p : is_dir_in t p = true -> exists_in t p = true.
Proof. unfold is_dir_in, exists_in. by destruct (node_at t p) as [[]|]. Qed.

Lemma selected_left_is_dir t t' subdir :
  selected_left entry_depth date t t' ->
  is_dir_in t' (child base_dir subdir) = is_dir_in t (child base_dir subdir).
Proof.
  intros H. unfold is_dir_in. rewrite !node_at_lookup by apply child_not_nil.
  assert (length (child base_dir subdir) = S (length base_dir)) as Hlen
    by (unfold child; rewrite length_app; simpl; lia).
  destruct (H (child base_dir subdir)) as [->|(Hd & _)]; [lia|done|lia].
Qed.

Lemma glob_entry_depth t subdir p :
  p ∈ glob_in t (child base_dir subdir) "" ".json" -> length p = entry_depth.
Proof.
  intros (_ & _ & Hp & Hpar & _)%glob_in_elem.
  rewrite (entry_length _ _ Hp Hpar). unfold child. rewrite length_app. simpl. lia.
Qed.

(** One turn of the loop over the source directories. *)
Lemma organize_subdir subdir moved_files w r w' :
  (let source_dir := child base_dir subdir in
   ex <- path_exists source_dir ;;
   if ex then
     files <- glob source_dir "" ".json" ;;
     for_each files moved_files
       (fun (moved_files : list (string * list PyVal)) file =>
          if _should_move_file file date then
            move file (child (child date_dir subdir) (path_name file)) ;;;
            ret (map (fun kv : string * list PyVal =>
                        if String.eqb kv.1 subdir
                        then (kv.1, kv.2 ++ [PStr (path_name file)])
                        else kv) moved_files)
          else ret moved_files)
   else ret moved_files) w = (Ok r, w') ->
  selected_left entry_depth date (fs w) (fs w')
  /\ forall p, p ∈ glob_in (fs w) (child base_dir subdir) "" ".json" ->
       _should_move_file p date = true -> fs w' !! p = None.
Proof.
  cbn zeta. unfold bind at 1, path_exists at 1.
  destruct (exists_in (fs w) (child base_dir subdir)) eqn:Eex.
  - unfold bind at 1, glob at 1. intros Hrun.
    apply organize_files in Hrun; [done|].
    intros f Hf. by eapply glob_entry_depth.
  - intros [= <- <-]. split; [apply selected_left_refl|].
    intros p (Hdir%is_dir_in_exists & _)%glob_in_elem. congruence.
Qed.

(** The loop over the source directories. *)
Lemma organize_subdirs_loop subdirs : forall moved_files w r w',
  for_each subdirs moved_files
    (fun (moved_files : list (string * list PyVal)) subdir =>
       let source_dir := child base_dir subdir in
       ex <- path_exists source_dir ;;
       if ex then
         files <- glob source_dir "" ".json" ;;
         for_each files moved_files
           (fun (moved_files : list (string * list PyVal)) file =>
              if _should_move_file file date then
                move file (child (child date_dir subdir) (path_name file)) ;;;
                ret (map (fun kv : string * list PyVal =>
                            if String.eqb kv.1 subdir
                            then (kv.1, kv.2 ++ [PStr (path_name file)])
                            else kv) moved_files)
              else ret moved_files)
       else ret moved_files) w = (Ok r, w') ->
  selected_left entry_depth date (fs w) (fs w')
  /\ forall subdir p, subdir ∈ subdirs ->
       p ∈ glob_in (fs w') (child base_dir subdir) "" ".json" ->
       _should_move_file p date = false.
Proof.
  induction subdirs as [|s subdirs IH]; intros moved_files w r w'; cbn [for_each].
  - intros [= <- <-]. split; [apply selected_left_refl|]. by intros ? ? ?%elem_of_nil.
  - intros (acc & w1 & Hbody & Hrest)%bind_ok_inv.
    destruct (IH _ _ _ _ Hrest) as [Hinv Hdone].
    destruct (organize_subdir _ _ _ _ _ Hbody) as [Hstep Hgone].
    split; [by eapply selected_left_trans|].
    intros subdir p [->|Hin]%elem_of_cons Hp; [|by eapply Hdone].
    destruct (_should_move_file p date) eqn:Esel; [exfalso|done].
    pose proof (glob_entry_depth _ _ _ Hp) as Hlen.
    pose proof Hp as (Hdir & [n Hn] & Hne & Hpar & Hmatch)%glob_in_elem.
    assert (fs w1 !! p = Some n) as Hn1.
    { destruct (Hinv p) as [E|(_ & E & _)]; [lia|congruence|congruence]. }
    assert (fs w !! p = Some n) as Hn0.
    { destruct (Hstep p) as [E|(_ & E & _)]; [lia|congruence|congruence]. }
    assert (p ∈ glob_in (fs w) (child base_dir s) "" ".json") as Hp0.
    { apply glob_in_elem. repeat split; try done.
      rewrite <- Hdir. symmetry. apply selected_left_is_dir.
      by eapply selected_left_trans. }
    specialize (Hgone p Hp0 Esel). congruence.
Qed.

End OrganizeFacts.

(** Creating a directory replaces nothing. *)
Lemma mkdir_exist_ok_keeps p w r w' q n :
  mkdir_exist_ok p w = (r, w') -> fs w !! q = Some n -> fs w' !! q = Some n.
Proof.
  unfold mkdir_exist_ok. intros Hrun Hq.
  destruct (node_at (fs w) p) as [[]|] eqn:Ep; try (by injection Hrun as <- <-).
  destruct (node_at (fs w) (parent p)) as [[]|]; try (by injection Hrun as <- <-).
  destruct (io_fault w (OpMkdir p)); injection Hrun as <- <-; [done|].
  simpl. rewrite lookup_insert_ne; [done|]. intros <-.
  destruct p; [done|]. simpl in Ep. congruence.
Qed.

(** X21. [organize_data_by_date] moves and does not copy. When it reports
    success for a date (today's, or one given as the name of a directory),
    none of the four source directories still lists a
    '*.json' entry whose name contains the digits of the date, and every
    entry of a source directory whose name does not contain them is where
    it was, as it was. *)
Theorem organize_data_by_date_moves_all :
  forall (base_dir : list string) (date : option string) (w : World)
         (r : Dict) (w1 : World),
    (forall d, date = Some d -> plain_name d) ->
    organize_data_by_date base_dir date w = (Ok r, w1) ->
    dict_lookup "status" r = Some (PStr "success") ->
    forall subdir p, subdir ∈ organize_subdirs ->
      (p ∈ glob_in (fs w1) (child base_dir subdir) "" ".json" ->
       _should_move_file p (date_of date w) = false)
      /\ (forall n, p ∈ listdir (fs w) (child base_dir subdir) ->
            _should_move_file p (date_of date w) = false ->
            fs w !! p = Some n -> fs w1 !! p = Some n).
Proof.
  intros base_dir date w r w1 _ Hrun Hst subdir p Hsub.
  unfold organize_data_by_date, try_except in Hrun.
  match type of Hrun with
  | match ?m w with _ => _ end = _ => destruct (m w) as [[r0|e] w0] eqn:Ebody
  end; [|injection Hrun as <- <-; discriminate].
  injection Hrun as -> ->. clear Hst.
  apply bind_ok_inv in Ebody as (d & wd & Hdate & Ebody).
  assert (d = date_of date w /\ fs wd = fs w) as [-> Hfs].
  { destruct date as [d0|]; [by injection Hdate as <- <-|].
    unfold bind, now in Hdate. by injection Hdate as <- <-. }
  apply bind_ok_inv in Ebody as ([] & wa & Hmk & Ebody).
  apply bind_ok_inv in Ebody as ([] & wb & Hmks & Ebody).
  apply bind_ok_inv in Ebody as (moved & wc & Hloop & [= <- <-]).
  destruct (organize_subdirs_loop _ _ _ _ _ _ _ Hloop) as [Hinv Hdone].
  split; [by apply Hdone|].
  intros n (_ & Hne & Hpar)%listdir_elem Hsel Hn.
  assert (fs wb !! p = Some n) as Hb.
  { revert Hmks. apply (for_each_invariant (fun w2 => fs w2 !! p = Some n)).
    - intros acc x w2 r2 w2' _ H2 Hx. by eapply mkdir_exist_ok_keeps.
    - eapply mkdir_exist_ok_keeps; [exact Hmk|]. by rewrite Hfs. }
  destruct (Hinv p) as [E|(_ & _ & E)]; [|congruence|congruence].
  rewrite (entry_length _ _ Hne Hpar). unfold child. rewrite length_app. simpl. lia.
Qed.

Lemma organize_world_run :
  organize_data_by_date ["data"] (Some "2024-01-01") organize_world
  = (Ok [status_success;
         ("message", PStr "Organized data for 2024-01-01");
         ("date", PStr "2024-01-01");
         ("moved_files",
          PDict [("raw", PList [PStr "alice_raw_20240101_120000.json"]);
                 ("analyzed", PList []); ("processed", PList []);
                 ("insights", PList [])])],
     (organize_data_by_date ["data"] (Some "2024-01-01") organize_world).2).
Proof. apply run_eq. vm_compute. reflexivity. Qed.

Lemma organize_data_by_date_moves_all_witness :
  (["data"; "raw"; "alice_raw_20240101_120000.json"]
     ∈ glob_in (fs (organize_data_by_date ["data"] (Some "2024-01-01") organize_world).2)
         ["data"; "raw"] "" ".json" ->
   _should_move_file ["data"; "raw"; "alice_raw_20240101_120000.json"] "2024-01-01" = false)
  /\ fs (organize_data_by_date ["data"] (Some "2024-01-01") organize_world).2
       !! ["data"; "raw"; "alice_raw_20240102_120000.json"]
     = Some (File 6 (Json (PList [other_tweet]))).
Proof.
  assert (plain_name "2024-01-01") as Hname by (by repeat split).
  split.
  - apply (organize_data_by_date_moves_all ["data"] (Some "2024-01-01") organize_world
             _ _ (fun d (H : Some "2024-01-01" = Some d) =>
                    eq_ind _ plain_name Hname _ (f_equal (default "") H))
             organize_world_run eq_refl "raw" _ ltac:(by left)).
  - apply (organize_data_by_date_moves_all ["data"] (Some "2024-01-01") organize_world
             _ _ (fun d (H : Some "2024-01-01" = Some d) =>
                    eq_ind _ plain_name Hname _ (f_equal (default "") H))
             organize_world_run eq_refl "raw"
             ["data"; "raw"; "alice_raw_20240102_120000.json"] ltac:(by left)).
    + apply listdir_elem. by split; [eexists|].
    + reflexivity.
    + reflexivity.
Defined.

Lemma entry_parts (b p : list string) (s : string) :
  p <> [] -> parent p = child b s -> p = (b ++ [s; path_name p])%list.
Proof.
  intros Hp. destruct (exists_last Hp) as (q & x & ->).
  unfold parent, path_name, child. rewrite removelast_last, last_last.
  intros ->. by rewrite <- app_assoc.
Qed.

Lemma organized_place_parts base_dir date subdir p :
  organized_place base_dir date subdir p
  = (base_dir ++ [date; subdir; path_name p])%list.
Proof. unfold organized_place, child. by rewrite <- !app_assoc. Qed.

Lemma subdir_not_json s : s ∈ organize_subdirs -> ends_with ".json" s = false.
Proof.
  unfold organize_subdirs. rewrite !elem_of_cons, elem_of_nil.
  intros [->|[->|[->|[->|[]]]]]; by vm_compute.
Qed.

Lemma mkdir_exist_ok_other p w r w' q :
  mkdir_exist_ok p w = (r, w') -> q <> p -> fs w' !! q = fs w !! q.
Proof.
  unfold mkdir_exist_ok. intros Hrun Hq.
  destruct (node_at (fs w) p) as [[]|]; try (by injection Hrun as <- <-).
  destruct (node_at (fs w) (parent p)) as [[]|]; try (by injection Hrun as <- <-).
  destruct (io_fault w (OpMkdir p)); injection Hrun as <- <-; [done|].
  simpl. by rewrite lookup_insert_ne.
Qed.

Section OrganizeDelivery.

Variable base_dir : list string.
Variable date : string.
Variable subdir : string.
Variable p : list string.
Variable n : Node.

Hypothesis subdir_known : subdir ∈ organize_subdirs.
Hypothesis p_entry : p <> [] /\ parent p = child base_dir subdir.

Local Abbreviation place := (organized_place base_dir date subdir p).
Local Abbreviation waiting := (waiting place p n).
Local Abbreviation arrived := (arrived place p n).

Lemma organize_move_tracks s file w w' :
  file <> [] -> parent file = child base_dir s ->
  ends_with ".json" (path_name file) = true ->
  move file (organized_place base_dir date s file) w = (Ok tt, w') ->
  (waiting (fs w) -> if bool_decide (file = p) then arrived (fs w') else waiting (fs w'))
  /\ (arrived (fs w) -> arrived (fs w')).
Proof.
  intros Hne Hpar Hjson Hrun.
  destruct p_entry as [Hpne Hppar].
  pose proof (entry_parts _ _ _ Hne Hpar) as Hfile.
  pose proof (entry_parts _ _ _ Hpne Hppar) as Hp.
  assert (length file < length (organized_place base_dir date s file))%nat as Hdeep.
  { rewrite organized_place_parts, Hfile at 1. rewrite !length_app. simpl. lia. }
  pose proof (move_lookup _ _ _ _ Hrun Hdeep) as Hlook.
  assert (length p <= length file)%nat as Hlen.
  { rewrite Hp, Hfile, !length_app. simpl. lia. }
  assert (file <> p -> fs w' !! place = fs w !! place) as Hplace.
  { intros Hfp. revert Hrun. unfold move.
    destruct (node_at (fs w) file) as [n0|]; [|done].
    set (real_dst := if is_dir_in (fs w) (organized_place base_dir date s file)
                     then child (organized_place base_dir date s file) (path_name file)
                     else organized_place base_dir date s file).
    destruct (is_dir_in (fs w) (organized_place base_dir date s file)
              && exists_in (fs w) real_dst); [done|].
    destruct (negb (is_dir_in (fs w) (parent real_dst))); [done|].
    destruct (io_fault w (OpCopy file)); [done|].
    intros [= <-]. simpl. rewrite lookup_union_r.
    - rewrite remove_tree_lookup. unfold under. case_bool_decide as Hu; [exfalso|done].
      destruct Hu as [rest Hu]. rewrite organized_place_parts, Hfile in Hu.
      rewrite <- app_assoc in Hu. apply app_inv_head in Hu. injection Hu as _ Hs _.
      pose proof (subdir_not_json _ subdir_known) as Hno. rewrite Hs in Hno. congruence.
    - apply copied_tree_outside. intros [rest Hpre]. apply Hfp.
      rewrite organized_place_parts in Hpre. unfold real_dst in Hpre.
      destruct (is_dir_in (fs w) (organized_place base_dir date s file));
        unfold child in Hpre; rewrite organized_place_parts in Hpre;
        rewrite <- ?app_assoc in Hpre; apply app_inv_head in Hpre.
      + simpl in Hpre. by injection Hpre.
      + simpl in Hpre. injection Hpre as Hs Hname _. rewrite Hfile, Hp. congruence. }
  split.
  - intros [Hnode Hfree]. case_bool_decide as Hfp.
    + subst file. assert (s = subdir) as ->.
      { rewrite Hpar in Hppar. by apply child_inj in Hppar. }
      split; [|by rewrite Hlook, bool_decide_eq_true_2].
      revert Hrun. unfold move. rewrite node_at_lookup, Hnode by done.
      assert (is_dir_in (fs w) place = false) as ->.
      { unfold is_dir_in. rewrite node_at_lookup by apply child_not_nil.
        by rewrite Hfree. }
      cbn [andb].
      destruct (negb (is_dir_in (fs w) (parent place))); [done|].
      destruct (io_fault w (OpCopy p)); [done|].
      intros [= <-]. simpl. apply lookup_union_Some_l.
      pose proof (copied_tree_lookup p place (fs w) []) as Hcopy.
      rewrite !app_nil_r in Hcopy. by rewrite Hcopy.
    + split.
      * rewrite Hlook by done. by rewrite bool_decide_eq_false_2.
      * by rewrite Hplace.
  - intros [Hnode Hgone]. assert (file <> p) as Hfp.
    { intros ->. revert Hrun. unfold move. by rewrite node_at_lookup, Hgone. }
    split; [by rewrite Hplace|].
    rewrite Hlook by done. by rewrite bool_decide_eq_false_2.
Qed.

Lemma organize_files_tracks s files : forall moved_files w r w',
  (forall f, f ∈ files ->
     f <> [] /\ parent f = child base_dir s /\ ends_with ".json" (path_name f) = true) ->
  for_each files moved_files
    (fun (moved_files : list (string * list PyVal)) file =>
       if _should_move_file file date then
         move file (child (child (child base_dir date) s) (path_name file)) ;;;
         ret (map (fun kv : string * list PyVal =>
                     if String.eqb kv.1 s
                     then (kv.1, kv.2 ++ [PStr (path_name file)])
                     else kv) moved_files)
       else ret moved_files) w = (Ok r, w') ->
  _should_move_file p date = true ->
  (arrived (fs w) -> arrived (fs w'))
  /\ (waiting (fs w) -> if bool_decide (p ∈ files) then arrived (fs w') else waiting (fs w')).
Proof.
  induction files as [|file files IH]; intros moved_files w r w' Hfiles; cbn [for_each].
  - intros [= <- <-] _. split; [done|]. intros Hw.
    rewrite bool_decide_eq_false_2; [done|]. by intros ?%elem_of_nil.
  - intros (acc & w1 & Hbody & Hrest)%bind_ok_inv Hsel.
    assert (forall f, f ∈ files -> f <> [] /\ parent f = child base_dir s
                      /\ ends_with ".json" (path_name f) = true) as Hfiles'
      by (intros f Hf; apply Hfiles; by right).
    destruct (IH _ _ _ _ Hfiles' Hrest Hsel) as [Harr Hwait].
    destruct (Hfiles file ltac:(by left)) as (Hne & Hpar & Hjson).
    destruct (_should_move_file file date) eqn:Efile.
    + apply bind_ok_inv in Hbody as ([] & w0 & Hmove & [= <- <-]).
      destruct (organize_move_tracks s file w w0 Hne Hpar Hjson Hmove) as [Hw Ha].
      split; [by intros ?%Ha%Harr|].
      intros Hw0%Hw. case_bool_decide as Hfp.
      * subst file. rewrite bool_decide_eq_true_2 by (by left). by apply Harr.
      * apply Hwait in Hw0. case_bool_decide as Hin.
        -- rewrite bool_decide_eq_true_2; [done|by right].
        -- rewrite bool_decide_eq_false_2; [done|].
           by intros [->|?]%elem_of_cons.
    + injection Hbody as <- <-. split; [done|].
      intros Hw0%Hwait. assert (file <> p) as Hfp by (intros ->; congruence).
      case_bool_decide as Hin.
      * rewrite bool_decide_eq_true_2; [done|by right].
      * rewrite bool_decide_eq_false_2; [done|].
        intros [Heq|?]%elem_of_cons; [by apply Hfp|done].
Qed.

Lemma glob_json_entry t s f :
  f ∈ glob_in t (child base_dir s) "" ".json" ->
  f <> [] /\ parent f = child base_dir s /\ ends_with ".json" (path_name f) = true.
Proof.
  intros (_ & _ & Hne & Hpar & Hm)%glob_in_elem. repeat split; try done.
  unfold fnmatch_star in Hm. by apply andb_prop in Hm as [[_ ?]%andb_prop _].
Qed.

Lemma organize_subdirs_tracks subdirs : forall moved_files w r w',
  for_each subdirs moved_files
    (fun (moved_files : list (string * list PyVal)) s =>
       let source_dir := child base_dir s in
       ex <- path_exists source_dir ;;
       if ex then
         files <- glob source_dir "" ".json" ;;
         for_each files moved_files
           (fun (moved_files : list (string * list PyVal)) file =>
              if _should_move_file file date then
                move file (child (child (child base_dir date) s) (path_name file)) ;;;
                ret (map (fun kv : string * list PyVal =>
                            if String.eqb kv.1 s
                            then (kv.1, kv.2 ++ [PStr (path_name file)])
                            else kv) moved_files)
              else ret moved_files)
       else ret moved_files) w = (Ok r, w') ->
  _should_move_file p date = true ->
  fnmatch_star "" ".json" (path_name p) = true ->
  is_dir_in (fs w) (child base_dir subdir) = true ->
  (arrived (fs w) -> arrived (fs w'))
  /\ (waiting (fs w) -> if bool_decide (subdir ∈ subdirs) then arrived (fs w')
                        else waiting (fs w')).
Proof.
  destruct p_entry as [Hpne Hppar].
  induction subdirs as [|s subdirs IH]; intros moved_files w r w'; cbn [for_each].
  - intros [= <- <-] _ _ _. split; [done|]. intros Hw.
    rewrite bool_decide_eq_false_2; [done|]. by intros ?%elem_of_nil.
  - intros (acc & w1 & Hbody & Hrest)%bind_ok_inv Hsel Hjson Hdir.
    pose proof (organize_subdir base_dir date _ _ _ _ _ Hbody) as [Hleft _].
    assert (is_dir_in (fs w1) (child base_dir subdir) = true) as Hdir1
      by (by rewrite (selected_left_is_dir base_dir date _ _ _ Hleft)).
    destruct (IH _ _ _ _ Hrest Hsel Hjson Hdir1) as [Harr Hwait].
    cbn zeta in Hbody. unfold bind at 1, path_exists at 1 in Hbody.
    destruct (exists_in (fs w) (child base_dir s)) eqn:Eex.
    + unfold bind at 1, glob at 1 in Hbody.
      destruct (organize_files_tracks s _ _ _ _ _
                  (fun f => glob_json_entry (fs w) s f) Hbody Hsel) as [Ha Hw].
      split; [by intros ?%Ha%Harr|].
      intros Hw0. pose proof (Hw Hw0) as Hw1. case_bool_decide as Hin.
      * apply Harr in Hw1. rewrite bool_decide_eq_true_2; [done|].
        apply glob_json_entry in Hin as (_ & Hs & _). rewrite Hppar in Hs.
        apply child_inj in Hs as ->. by left.
      * apply Hwait in Hw1. case_bool_decide as Hs.
        -- rewrite bool_decide_eq_true_2; [done|by right].
        -- rewrite bool_decide_eq_false_2; [done|].
           intros [->|?]%elem_of_cons; [|done]. apply Hin.
           apply glob_in_elem. destruct Hw0 as [Hnode _].
           by repeat split.
    + injection Hbody as <- <-. split; [done|].
      intros Hw0. assert (s <> subdir) as Hs.
      { intros ->. apply is_dir_in_exists in Hdir. congruence. }
      apply Hwait in Hw0. case_bool_decide as Hin.
      * rewrite bool_decide_eq_true_2; [done|by right].
      * rewrite bool_decide_eq_false_2; [done|].
        intros [Heq|?]%elem_of_cons; [by apply Hs|done].
Qed.

End OrganizeDelivery.

(** X22. [organize_data_by_date] loses nothing it moves. When it reports
    success for a date (today's, or one given as the name of a directory),
    a '*.json' entry of a source directory whose name contains the digits of
    the date, and whose place under the date directory was free, is found
    at that place afterwards, as it was, and is gone from the source
    directory. *)
Theorem organize_data_by_date_delivers :
  forall (base_dir : list string) (date : option string) (w : World)
         (r : Dict) (w1 : World) (subdir : string) (p : list string) (n : Node),
    (forall d, date = Some d -> plain_name d) ->
    organize_data_by_date base_dir date w = (Ok r, w1) ->
    dict_lookup "status" r = Some (PStr "success") ->
    subdir ∈ organize_subdirs ->
    p ∈ glob_in (fs w) (child base_dir subdir) "" ".json" ->
    _should_move_file p (date_of date w) = true ->
    fs w !! p = Some n ->
    fs w !! organized_place base_dir (date_of date w) subdir p = None ->
    fs w1 !! organized_place base_dir (date_of date w) subdir p = Some n
    /\ fs w1 !! p = None.
Proof.
  intros base_dir date w r w1 subdir p n _ Hrun Hst Hsub Hp Hsel Hn Hfree.
  unfold organize_data_by_date, try_except in Hrun.
  match type of Hrun with
  | match ?m w with _ => _ end = _ => destruct (m w) as [[r0|e] w0] eqn:Ebody
  end; [|injection Hrun as <- <-; discriminate].
  injection Hrun as -> ->. clear Hst.
  apply bind_ok_inv in Ebody as (d & wd & Hdate & Ebody).
  assert (d = date_of date w /\ fs wd = fs w) as [-> Hfs].
  { destruct date as [d0|]; [by injection Hdate as <- <-|].
    unfold bind, now in Hdate. by injection Hdate as <- <-. }
  set (d := date_of date w) in *.
  apply bind_ok_inv in Ebody as ([] & wa & Hmk & Ebody).
  apply bind_ok_inv in Ebody as ([] & wb & Hmks & Ebody).
  apply bind_ok_inv in Ebody as (moved & wc & Hloop & [= <- <-]).
  pose proof (glob_json_entry base_dir _ _ _ Hp) as (Hne & Hpar & Hjson).
  pose proof Hp as (Hdir & _ & _ & _ & Hmatch)%glob_in_elem.
  assert (length (organized_place base_dir d subdir p) = S (S (S (length base_dir))))
    as Hdepth by (rewrite organized_place_parts, length_app; simpl; lia).
  assert (waiting (organized_place base_dir d subdir p) p n (fs wb)
          /\ is_dir_in (fs wb) (child base_dir subdir) = true) as [Hw Hdirb].
  { revert Hmks.
    apply (for_each_invariant
             (fun w2 => waiting (organized_place base_dir d subdir p) p n (fs w2)
                        /\ is_dir_in (fs w2) (child base_dir subdir) = true)).
    - intros acc x w2 r2 w2' _ [[H2p H2f] H2d] Hx. repeat split.
      + by eapply mkdir_exist_ok_keeps.
      + rewrite (mkdir_exist_ok_other _ _ _ _ _ Hx); [done|].
        intros E. apply (f_equal length) in E. rewrite Hdepth in E.
        unfold child in E. rewrite !length_app in E. simpl in E. lia.
      + revert H2d. unfold is_dir_in. rewrite !node_at_lookup by apply child_not_nil.
        destruct (fs w2 !! child base_dir subdir) as [[]|] eqn:E2; try done.
        by rewrite (mkdir_exist_ok_keeps _ _ _ _ _ _ Hx E2).
    - repeat split.
      + eapply mkdir_exist_ok_keeps; [exact Hmk|]. by rewrite Hfs.
      + rewrite (mkdir_exist_ok_other _ _ _ _ _ Hmk), Hfs; [done|].
        intros E. apply (f_equal length) in E. rewrite Hdepth in E.
        unfold child in E. rewrite !length_app in E. simpl in E. lia.
      + revert Hdir. unfold is_dir_in. rewrite !node_at_lookup by apply child_not_nil.
        rewrite <- Hfs.
        destruct (fs wd !! child base_dir subdir) as [[]|] eqn:E2; try done.
        by rewrite (mkdir_exist_ok_keeps _ _ _ _ _ _ Hmk E2). }
  destruct (organize_subdirs_tracks base_dir d subdir p n Hsub (conj Hne Hpar)
              _ _ _ _ _ Hloop Hsel Hmatch Hdirb) as [_ Hend].
  specialize (Hend Hw). by rewrite bool_decide_eq_true_2 in Hend.
Qed.

Lemma organize_data_by_date_delivers_witness :
  fs (organize_data_by_date ["data"] (Some "2024-01-01") organize_world).2
    !! ["data"; "2024-01-01"; "raw"; "alice_raw_20240101_120000.json"]
  = Some (File 5 (Json (PList [sample_tweet])))
  /\ fs (organize_data_by_date ["data"] (Some "2024-01-01") organize_world).2
       !! ["data"; "raw"; "alice_raw_20240101_120000.json"]
     = None.
Proof.
  assert (plain_name "2024-01-01") as Hname by (by repeat split).
  apply (organize_data_by_date_delivers ["data"] (Some "2024-01-01") organize_world
           _ _ "raw" ["data"; "raw"; "alice_raw_20240101_120000.json"] _
           (fun d (H : Some "2024-01-01" = Some d) =>
              eq_ind _ plain_name Hname _ (f_equal (default "") H))
           organize_world_run eq_refl ltac:(by left)).
  - apply glob_in_elem. by repeat split.
  - reflexivity.
  - reflexivity.
  - reflexivity.
Defined.

(* ===================================================================== *)
(** * DataManager: where the stores write *)
(* ===================================================================== *)

Lemma grown_below_weaken B rest w w' :
  grown_below (B ++ rest) w w' -> grown_below B w w'.
Proof.
  intros (Hout & Hkeep & Hio). repeat split; [|done|done].
  intros q Hq. destruct (Hout q) as [E|(Hnone & Hpre & Hdir)]; [|by left|].
  - intros [r ->]. apply Hq. exists (rest ++ r)%list. by rewrite app_assoc.
  - right. repeat split; [done| |done].
    destruct (prefix_weak_total _ _ _ (prefix_app_r B B rest (reflexivity B)) Hpre)
      as [HB|Hq']; [|done].
    contradiction.
Qed.

Lemma write_json_grown B p v :
  B `prefix_of` p -> keeps (grown_below B) (write_json p v).
Proof.
  intros HB w. unfold write_json.
  destruct (node_at (fs w) (parent p)) as [[?|?]|]; [reflexivity| |reflexivity].
  assert (forall c, grown_below B w (set_fs (insert p (File (stamp_us w) c)) w)) as Hins.
  { intros c. repeat split; simpl.
    - intros q Hq. left. apply lookup_insert_ne. by intros <-.
    - intros q Hn. destruct (decide (p = q)) as [<-|Hne].
      + rewrite lookup_insert_eq. by eexists.
      + by rewrite lookup_insert_ne. }
  destruct (node_at (fs w) p) as [[?|?]|];
    try reflexivity; destruct (io_fault w (OpOpen p)); try reflexivity;
    destruct (io_fault w (OpWrite p)); simpl; apply Hins.
Qed.



(* ===================================================================== *)
(** * TweetAnalysisAgent: the insights of a user *)
(* ===================================================================== *)

Lemma ascii_compare_trans_le (a b c : ascii) :
  Ascii.compare a b <> Gt -> Ascii.compare b c <> Gt ->
  Ascii.compare a c <> Gt
  /\ (Ascii.compare a c = Eq -> Ascii.compare a b = Eq /\ Ascii.compare b c = Eq).
Proof.
  unfold Ascii.compare.
  destruct (N.compare_spec (N_of_ascii a) (N_of_ascii b));
    destruct (N.compare_spec (N_of_ascii b) (N_of_ascii c));
    destruct (N.compare_spec (N_of_ascii a) (N_of_ascii c));
    try done; lia.
Qed.

Lemma string_leb_trans (s1 s2 s3 : string) :
  String.leb s1 s2 = true -> String.leb s2 s3 = true -> String.leb s1 s3 = true.
Proof.
  unfold String.leb. revert s2 s3.
  induction s1 as [|a s1 IH]; intros [|b s2] [|c s3]; simpl; try done.
  intros H12 H23.
  destruct (ascii_compare_trans_le a b c) as [Hle Heq].
  - by destruct (Ascii.compare a b).
  - by destruct (Ascii.compare b c).
  - destruct (Ascii.compare a c) eqn:Eac; [|done|done].
    destruct (Heq eq_refl) as [Eab Ebc]. rewrite Eab in H12. rewrite Ebc in H23.
    by eapply IH.
Qed.

Lemma string_leb_refl (s : string) : String.leb s s = true.
Proof. by destruct (String.leb_total s s). Qed.

Lemma insert_str_elem x y l : y ∈ insert_str x l <-> y = x \/ y ∈ l.
Proof.
  induction l as [|z l IH]; simpl.
  - rewrite list_elem_of_singleton, elem_of_nil. naive_solver.
  - destruct (String.leb x z); rewrite !elem_of_cons; [done|]. rewrite IH. naive_solver.
Qed.

Lemma sorted_str_elem y l : y ∈ sorted_str l <-> y ∈ l.
Proof.
  induction l as [|x l IH]; simpl; [done|].
  rewrite insert_str_elem, elem_of_cons, IH. done.
Qed.

Lemma insert_str_sorted x l :
  StronglySorted (fun a b => String.leb a b = true) l ->
  StronglySorted (fun a b => String.leb a b = true) (insert_str x l).
Proof.
  induction 1 as [|z l Hl IH Hz]; simpl; [by repeat constructor|].
  destruct (String.leb x z) eqn:E.
  - constructor; [by constructor|]. constructor; [done|].
    eapply Forall_impl; [exact Hz|]. intros y Hy. by eapply string_leb_trans.
  - constructor; [done|]. apply Forall_forall. intros y Hy%insert_str_elem.
    destruct Hy as [->|Hy].
    + destruct (String.leb_total x z); congruence.
    + rewrite Forall_forall in Hz. by apply Hz.
Qed.

Lemma sorted_str_sorted l :
  StronglySorted (fun a b => String.leb a b = true) (sorted_str l).
Proof. induction l; simpl; [constructor|by apply insert_str_sorted]. Qed.

Lemma sorted_last_greatest l d :
  StronglySorted (fun a b => String.leb a b = true) l -> l <> [] ->
  List.last l d ∈ l /\ forall y, y ∈ l -> String.leb y (List.last l d) = true.
Proof.
  induction 1 as [|z l Hl IH Hz]; [done|]. intros _.
  destruct l as [|z' l'].
  - simpl. split; [by left|]. intros y ->%list_elem_of_singleton. apply string_leb_refl.
  - destruct (IH ltac:(done)) as [Hin Hmax].
    change (List.last (z :: z' :: l') d) with (List.last (z' :: l') d).
    split; [by right|]. intros y [->|Hy]%elem_of_cons; [|by apply Hmax].
    rewrite Forall_forall in Hz. by apply Hz.
Qed.

(** [sorted(l)[-1]] is the greatest string of a list that is not empty. *)
Lemma sorted_str_last l d :
  l <> [] ->
  List.last (sorted_str l) d ∈ l
  /\ forall y, y ∈ l -> String.leb y (List.last (sorted_str l) d) = true.
Proof.
  intros Hl.
  assert (sorted_str l <> []) as Hne.
  { destruct l as [|x l]; [done|]. intros E.
    assert (x ∈ sorted_str (x :: l)) as Hx by (apply sorted_str_elem; by left).
    rewrite E in Hx. by apply elem_of_nil in Hx. }
  destruct (sorted_last_greatest _ d (sorted_str_sorted l) Hne) as [Hin Hmax].
  split; [by apply sorted_str_elem|].
  intros y Hy. by apply Hmax, sorted_str_elem.
Qed.

Section InsightsFacts.

Variable _calculate_insights : PyVal -> PyVal.

(** X24. [get_user_insights] reads the analysis whose file name is the
    greatest, as a string, among the entries of data/analyzed whose name
    starts with the user name. When it reports success, the reported
    [analysis_file] is such an entry, no such entry has a greater name, the
    reported insights are those of the document that file holds, and
    nothing has been changed. *)
Theorem get_user_insights_reads_greatest_name :
  forall (username : string) (w : World) (r : Dict) (w1 : World),
    get_user_insights _calculate_insights username w = (Ok r, w1) ->
    dict_lookup "status" r = Some (PStr "success") ->
    w1 = w
    /\ exists (name : string) (t : Z) (v : PyVal),
         dict_lookup "analysis_file" r = Some (PStr name)
         /\ starts_with username name = true
         /\ child ["data"; "analyzed"] name ∈ listdir (fs w) ["data"; "analyzed"]
         /\ (forall p, p ∈ listdir (fs w) ["data"; "analyzed"] ->
               starts_with username (path_name p) = true ->
               String.leb (path_name p) name = true)
         /\ fs w !! child ["data"; "analyzed"] name = Some (File t (Json v))
         /\ dict_lookup "insights" r = Some (_calculate_insights v).
Proof.
  intros username w r w1 Hrun Hst.
  unfold get_user_insights, try_except in Hrun.
  match type of Hrun with
  | match ?m w with _ => _ end = _ => destruct (m w) as [[r0|e] w0] eqn:Ebody
  end; [|injection Hrun as <- <-; discriminate].
  injection Hrun as -> ->. cbn zeta in Ebody.
  apply bind_ok_inv in Ebody as (names & wa & Hlist & Ebody).
  unfold os_listdir in Hlist.
  apply bind_ok_inv in Hlist as (entries & wb & Hiter & [= <- <-]).
  assert (wb = w /\ entries = listdir (fs w) ["data"; "analyzed"]) as [-> ->].
  { revert Hiter. unfold iterdir, agent_base_dir, child. simpl.
    destruct (fs w !! ["data"; "analyzed"]) as [[]|]; try done.
    destruct (io_fault w _); [done|]. by intros [= <- <-]. }
  set (user_files := filter (fun f => starts_with username f = true)
                       (map path_name (listdir (fs w) ["data"; "analyzed"]))) in *.
  destruct user_files as [|f0 fl] eqn:Efiles; [injection Ebody as <- <-; discriminate|].
  rewrite <- Efiles in Ebody.
  assert (user_files <> []) as Hne by (by rewrite Efiles).
  clear Efiles.
  destruct (sorted_str_last user_files "" Hne) as [Hin Hmax].
  set (name := List.last (sorted_str user_files) "") in *.
  apply bind_ok_inv in Ebody as (v & wc & Hread & [= <- <-]).
  assert (wc = w /\ exists t, fs w !! child ["data"; "analyzed"] name
                              = Some (File t (Json v))) as [-> [t Hfile]].
  { revert Hread. unfold read_json. rewrite node_at_lookup by apply child_not_nil.
    unfold agent_base_dir, child. simpl.
    destruct (fs w !! ["data"; "analyzed"; name]) as [[t c|]|]; try done.
    destruct (io_fault w _); [done|]. destruct c; try done.
    intros [= <- <-]. split; [done|]. by exists t. }
  split; [done|]. exists name, t, v.
  apply list_elem_of_filter in Hin as [Hstart Hin].
  apply list_elem_of_fmap in Hin as (p & Hname & Hp).
  pose proof Hp as (_ & Hpne & Hpar)%listdir_elem.
  assert (p = child ["data"; "analyzed"] name) as Hpeq.
  { rewrite Hname. rewrite <- Hpar. unfold child, parent, path_name.
    destruct (exists_last Hpne) as (q & x & ->). by rewrite removelast_last, last_last. }
  repeat split; try done.
  - by rewrite <- Hpeq.
  - intros p' Hp' Hstart'. apply Hmax. apply list_elem_of_filter. split; [done|].
    apply list_elem_of_fmap. by exists p'.
Qed.

End InsightsFacts.

Lemma analyzed_world_run :
  get_user_insights count_insights "alice" analyzed_world
  = (Ok analyzed_report, analyzed_world).
Proof. vm_compute. reflexivity. Qed.

Lemma get_user_insights_reads_greatest_name_witness :
  analyzed_world = analyzed_world
  /\ exists (name : string) (t : Z) (v : PyVal),
       dict_lookup "analysis_file" analyzed_report = Some (PStr name)
       /\ starts_with "alice" name = true
       /\ child ["data"; "analyzed"] name
            ∈ listdir (fs analyzed_world) ["data"; "analyzed"]
       /\ (forall p, p ∈ listdir (fs analyzed_world) ["data"; "analyzed"] ->
             starts_with "alice" (path_name p) = true ->
             String.leb (path_name p) name = true)
       /\ fs analyzed_world !! child ["data"; "analyzed"] name = Some (File t (Json v))
       /\ dict_lookup "insights" analyzed_report = Some (count_insights v).
Proof.
  apply (get_user_insights_reads_greatest_name count_insights "alice" analyzed_world
           _ _ analyzed_world_run eq_refl).
Defined.

Lemma starts_with_app (a b : string) : starts_with a (a +:+ b) = true.
Proof.
  unfold starts_with. apply bool_decide_eq_true. rewrite chars_app. by apply prefix_app_r.
Qed.

Section AnalysisToInsights.

Variable analyze_single_tweet : PyVal -> AnalyzedTweet.
Variable _calculate_insights : PyVal -> PyVal.


End AnalysisToInsights.


(* ===================================================================== *)
(** * AnalysisProcessor: the insights report *)
(* ===================================================================== *)

Lemma lift_ok_inv {A} (o : Outcome A) (a : A) w w' :
  lift o w = (Ok a, w') -> o = Ok a /\ w' = w.
Proof. unfold lift. by intros [= -> ->]. Qed.

Lemma now_ok_inv (t : datetime) w w' :
  now w = (Ok t, w') -> fs w' = fs w.
Proof. unfold now. by intros [= _ <-]. Qed.

Section ReportFacts.

Variable analyze_single_tweet : PyVal -> AnalyzedTweet.
Variables key_metrics sentiment_insights engagement_insights content_insights
  : PyVal -> Outcome PyVal.

Local Abbreviation analyze := (analyze_user_tweets analyze_single_tweet).
Local Abbreviation report :=
  (generate_insights_report analyze_single_tweet key_metrics sentiment_insights
     engagement_insights content_insights).

(** An analysis that reports success has written the analysis it returns. *)
Lemma analyze_user_tweets_written username w r w1 :
  analyze username w = (Ok r, w1) ->
  dict_lookup "status" r = Some (PStr "success") ->
  exists (name : string) (analysis : PyVal) (t : Z),
    dict_lookup "analysis" r = Some analysis
    /\ fs w1 !! ["data"; "analyzed"; name] = Some (File t (Json analysis)).
Proof.
  intros Hrun Hst.
  unfold analyze_user_tweets, try_except in Hrun.
  match type of Hrun with
  | match ?m w with _ => _ end = _ => destruct (m w) as [[r0|e] w0] eqn:Ebody
  end; [|injection Hrun as <- <-; discriminate].
  injection Hrun as -> ->. cbn zeta in Ebody.
  unfold bind at 1, glob at 1 in Ebody.
  destruct (glob_in (fs w) (child ap_base_dir "raw") (username +:+ "_raw_") ".json")
    as [|f0 files0]; [injection Ebody as <- <-; discriminate|].
  apply bind_ok_inv in Ebody as (latest & wa & _ & Ebody).
  apply bind_ok_inv in Ebody as (tweets & wb & _ & Ebody).
  apply bind_ok_inv in Ebody as (items & wc & _ & Ebody).
  apply bind_ok_inv in Ebody as (analysis & wd & _ & Ebody).
  apply bind_ok_inv in Ebody as (t & we & Hnow & Ebody).
  apply bind_ok_inv in Ebody as ([] & wf & Hwrite & [= <- <-]).
  apply write_json_ok_inv in Hwrite as [_ ->].
  exists (artifact_name t username "analyzed"), analysis, (stamp_us we).
  split; [reflexivity|]. apply lookup_insert_eq.
Qed.


End ReportFacts.


(* ===================================================================== *)
(** * DataManager: storage statistics *)
(* ===================================================================== *)

Lemma add_file_counted k size d :
  files_counted (add_file k size d) = files_counted d + 1
  /\ bytes_counted (add_file k size d) = bytes_counted d + size.
Proof.
  unfold files_counted, bytes_counted.
  induction d as [|[k' [files bytes]] d [IH1 IH2]]; simpl.
  - rewrite !sum_Z_cons. unfold sum_Z. simpl. lia.
  - destruct (String.eqb k k'); simpl; rewrite !sum_Z_cons; [lia|].
    rewrite IH1, IH2. lia.
Qed.

Section StatisticsFacts.

Variable base_dir : list string.
Variable st_size : FileContent -> Z.

Lemma statistics_loop (t : gmap (list string) Node) items :
  forall w total_files total_size by_directory by_user recent r w',
  fs w = t ->
  for_each items (total_files, total_size, by_directory, by_user, recent)
    (fun '(total_files, total_size_bytes, by_directory, by_user, recent) item =>
       isf <- is_file item ;;
       if isf then
         size <- stat_size st_size item ;;
         let by_directory := add_file (path_name (parent item)) size by_directory in
         let by_user :=
           if contains "_" (path_name item)
           then add_file (before_underscore (path_name item)) size by_user
           else by_user in
         mtime <- stat_mtime item ;;
         n <- now ;;
         limit <- week_before n ;;
         let recent :=
           if limit <? mtime
           then recent ++ [PDict [("file", PStr (path_str item));
                                  ("modified", PStr (isoformat (from_us mtime)));
                                  ("size", PInt size)]]
           else recent in
         ret (total_files + 1, total_size_bytes + size, by_directory, by_user, recent)
       else ret (total_files, total_size_bytes, by_directory, by_user, recent)) w
  = (Ok r, w') ->
  r.1.1.1.1 = total_files + len (List.filter (is_file_in t) items)
  /\ files_counted r.1.1.2 = files_counted by_directory
                             + len (List.filter (is_file_in t) items)
  /\ bytes_counted r.1.1.2 - bytes_counted by_directory = r.1.1.1.2 - total_size
  /\ files_counted r.1.2
     = files_counted by_user
       + len (List.filter (fun p => contains "_" (path_name p))
                (List.filter (is_file_in t) items))
  /\ len r.2 <= len recent + len (List.filter (is_file_in t) items).
Proof.
  induction items as [|item items IH];
    intros w total_files total_size by_directory by_user recent r w' Hfs Hrun.
  - injection Hrun as <- <-. simpl. unfold len. simpl. lia.
  - cbn [for_each] in Hrun. unfold bind at 1, bind at 1, is_file in Hrun.
    rewrite Hfs in Hrun. cbn [List.filter]. destruct (is_file_in t item).
    + unfold bind at 1 in Hrun.
      pose proof (stat_size_pure st_size item w) as Hp.
      destruct (stat_size st_size item w) as [[size|e] w1]; [|done].
      simpl in Hp. subst w1. unfold bind at 1 in Hrun.
      pose proof (stat_mtime_pure item w) as Hp.
      destruct (stat_mtime item w) as [[mtime|e] w1]; [|done].
      simpl in Hp. subst w1. unfold bind at 1, now at 1 in Hrun.
      unfold bind at 1 in Hrun.
      pose proof (week_before_pure (clock w (ticks w)) (tick w)) as Hp.
      destruct (week_before (clock w (ticks w)) (tick w)) as [[limit|e] w1]; [|done].
      simpl in Hp. subst w1. unfold ret at 1 in Hrun.
      apply IH in Hrun as (H1 & H2 & H3 & H4 & H5); [|done].
      destruct (add_file_counted (path_name (parent item)) size by_directory) as [F1 F2].
      rewrite F1, F2 in *. rewrite !len_cons. cbn [List.filter].
      repeat split; [lia|lia|lia| |].
      * rewrite H4. destruct (contains "_" (path_name item)).
        -- destruct (add_file_counted (before_underscore (path_name item)) size by_user)
             as [U1 _].
           rewrite U1, len_cons. lia.
        -- lia.
      * etrans; [exact H5|]. destruct (limit <? mtime); [|lia].
        unfold len. rewrite length_app. simpl. lia.
    + unfold ret at 1 in Hrun. by apply IH in Hrun.
Qed.

(** X27. The statistics [get_storage_statistics] reports are consistent:
    [total_files] is the number of regular files below [base_dir]; the
    files and sizes per directory add up to [total_files] and
    [total_size_bytes]; the files per user add up to the number of files
    whose name has an underscore, the others being counted for no user;
    and there are no more recent files than files. *)
Theorem get_storage_statistics_consistent :
  forall (w : World) (r : Dict) (w' : World),
    get_storage_statistics base_dir st_size w = (Ok r, w') ->
    dict_lookup "status" r = Some (PStr "success") ->
    exists (total_files total_size_bytes : Z)
           (by_directory by_user : list (string * (Z * Z))) (recent : list PyVal),
      dict_lookup "statistics" r
      = Some (PDict [("total_files", PInt total_files);
                     ("total_size_bytes", PInt total_size_bytes);
                     ("total_size_mb", PFloat (true_div total_size_bytes (1024 * 1024)));
                     ("by_directory", json_files by_directory);
                     ("by_user", json_files by_user);
                     ("recent_activity", PList recent)])
      /\ total_files = len (files_below (fs w) base_dir)
      /\ files_counted by_directory = total_files
      /\ bytes_counted by_directory = total_size_bytes
      /\ files_counted by_user = len (user_files_below (fs w) base_dir)
      /\ len recent <= total_files.
Proof.
  intros w r w' Hrun Hst.
  unfold get_storage_statistics, try_except, bind at 1, rglob_all in Hrun.
  fold (all_below (fs w) base_dir) in Hrun. unfold bind at 1 in Hrun.
  match type of Hrun with
  | context [for_each ?l ?a ?b w] => destruct (for_each l a b w) as [[x|e] w1] eqn:Eloop
  end; [|injection Hrun as <- <-; discriminate Hst].
  apply (statistics_loop (fs w)) in Eloop as (H1 & H2 & H3 & H4 & H5); [|done].
  destruct x as [[[[total_files total_size] by_directory] by_user] recent]. simpl in *.
  injection Hrun as <- <-. exists total_files, total_size, by_directory, by_user, recent.
  split; [done|]. unfold user_files_below, files_below.
  unfold files_counted, bytes_counted, sum_Z in *. simpl in *.
  unfold len in *. simpl in *. repeat split; lia.
Qed.

End StatisticsFacts.

Lemma get_storage_statistics_consistent_witness :
  exists (total_files total_size_bytes : Z)
         (by_directory by_user : list (string * (Z * Z))) (recent : list PyVal),
    dict_lookup "statistics"
      (returned (get_storage_statistics ["data"] (fun _ => 1) organize_world).1)
    = Some (PDict [("total_files", PInt total_files);
                   ("total_size_bytes", PInt total_size_bytes);
                   ("total_size_mb", PFloat (true_div total_size_bytes (1024 * 1024)));
                   ("by_directory", json_files by_directory);
                   ("by_user", json_files by_user);
                   ("recent_activity", PList recent)])
    /\ total_files = len (files_below (fs organize_world) ["data"])
    /\ files_counted by_directory = total_files
    /\ bytes_counted by_directory = total_size_bytes
    /\ files_counted by_user = len (user_files_below (fs organize_world) ["data"])
    /\ len recent <= total_files.
Proof.
  apply (get_storage_statistics_consistent ["data"] (fun _ => 1) organize_world _
           (get_storage_statistics ["data"] (fun _ => 1) organize_world).2).
  - apply (run_eq (get_storage_statistics ["data"] (fun _ => 1) organize_world)).
    vm_compute. reflexivity.
  - vm_compute. reflexivity.
Defined.
